(* ===== verification/_CoqProject ===== *)
-Q . S2P
Prelude.v
Interfaces.v
Reference.v
Types.v
BTree.v
AccountIds.v
Seed.v
Assets.v
TokenSymbols.v
NoteMeta.v
NoteContents.v
Notes.v
Outputs.v
Blocks.v
Vault.v
Storage.v
Delta.v
Code.v
Account.v
Chain.v
Inputs.v
Memory.v
Tracker.v
Host.v
Machine.v
Transactions.v
Identifiers.v
Kernel.v
Compiler.v
Executor.v
Network.v
StandardAccounts.v
StandardNotes.v
MockBuilders.v
MockInputs.v
MockChain.v
MockHost.v
MockFixtures.v
FileSystem.v
AccountFiles.v
BuildScript.v
BuildFaults.v
UnitTests.v
TestRuns.v
