(* ===== verification/Prelude.v ===== *)
(** * The Miden rollup transaction model

    A verification of the Rust crates of this repository that define what a Miden
    rollup transaction is and what it does to an account: [src/objects] (accounts,
    assets, notes, blocks, transactions), the Rust part of [src/miden-lib] (what the
    transaction kernel is given and what is read from its results) and
    [src/miden-tx] (the transaction host, compiler, executor, prover and verifier).

    ** How the program works

    An [Account] is an identifier, a vault of assets, 256 storage slots, code and a
    nonce; its state is committed to by hashes of Merkle tree roots. A [Note] carries
    assets to the account that consumes it. A transaction consumes notes of known
    blocks and changes one account: the compiler makes a program of the scripts of
    the notes, the virtual machine runs it with the kernel (Miden assembly, not part
    of the Rust code) and reports what it does to the host, which records the
    changes as an [AccountDelta] and the notes created; the delta is what the
    network applies to the account.

    ** The files

    Shared:
    - [Prelude]: results with a third outcome for panics, methods that mutate their
      receiver, integer arithmetic at its width in either build profile, bytes and
      bits; the generic lemmas and tactics of the development.
    - [Interfaces]: the crates the source calls (field, hash, Merkle trees, byte
      streams, assembler, virtual machine) as classes of operations with classes of
      their documented laws, and the lemmas and tactics about them: reading back
      records ([fields], the hint database [codec]), hash collisions, Merkle paths.
    - [Reference]: an instance of every interface, with proofs of every law: the
      laws are consistent, and the witnesses compute on it.
    - [Types]: the data of accounts and assets; [BTree]: [BTreeMap] as a list.

    Accounts (src/objects/src/accounts, assets):
    - [AccountIds] (account_id.rs), [Seed] (seed.rs: the search for a seed, also with
      threads, as a step relation), [Assets] (assets/*.rs), [TokenSymbols]
      (token_symbol.rs), [Vault] (vault.rs), [Storage] (storage/*.rs), [Code]
      (code.rs), [Delta] (delta/*.rs), [Account] (mod.rs, stub.rs, data.rs).

    Notes and blocks (src/objects/src/notes, block, batches):
    - [NoteMeta] (note_type.rs, note_tag.rs, metadata.rs), [NoteContents] (assets.rs,
      inputs.rs, script.rs, recipient.rs), [Notes] (mod.rs, note_id.rs, nullifier.rs,
      envelope.rs), [Blocks] (header.rs, note_tree.rs, origin.rs).

    Transactions (src/objects/src/transaction, src/miden-tx, src/miden-lib):
    - [Outputs] (outputs.rs), [Chain] (chain_mmr.rs), [Inputs] (inputs.rs),
      [Tracker] (host/account_delta_tracker.rs), [Host] (host/mod.rs,
      host/account_procs.rs, with the events and errors of miden-lib).
    - [Memory] (miden-lib memory.rs: the layout of the kernel's memory), [Machine] (the
      interfaces of stacks, advice, linking, execution and of the library built from
      assembly, with their reference instances), [Transactions] (transaction_id.rs,
      tx_args.rs, prepared_tx.rs, executed_tx.rs, tx_witness.rs, proven_tx.rs).
    - [Identifiers] (the conversions of note_id.rs, nullifier.rs, transaction_id.rs from
      and to words, bytes and text).
    - [Kernel] (miden-lib transaction/mod.rs, inputs.rs, outputs.rs: what the kernel is
      given and what is read from its results), [Compiler] (miden-tx compiler/mod.rs),
      [Executor] (miden-tx executor, prover and verifier), [Network] (a proven
      transaction as the holder of an account sees it).
    - [StandardAccounts] (miden-lib accounts, auth.rs) and [StandardNotes] (miden-lib
      notes): wallets, faucets, P2ID, P2IDR and SWAP notes.

    Building and testing (src/miden-lib/build.rs, src/mock):
    - [FileSystem] (the files and paths of the standard library: a tree of directories
      and files, with what the operating system decides as an interface),
      [AccountFiles] (accounts/data.rs: [AccountData::write] and [AccountData::read]),
      [BuildScript] (miden-lib build.rs: where the kernel and the note scripts that
      other files take as bytes come from), [BuildFaults] (the same script when the
      operating system refuses operations).
    - [MockBuilders] (mock builders/*.rs), [MockInputs] (mock mock/block.rs, the views
      of mock/chain.rs, [BlockHeader::mock]), [MockChain] (mock mock/chain.rs: the
      chain tests run against, as a state machine), [MockHost] (mock mock/host).
    - [MockFixtures] (mock constants.rs, utils.rs, mock/account.rs, mock/notes.rs,
      mock/transaction.rs: fixed accounts, notes, inputs and executed transactions),
      [TestRuns] (mock lib.rs, procedures.rs, main.rs, the files of mock/chain.rs: runs of
      programs against hosts, and the program that writes a scenario to a file),
      [UnitTests] (the tests inside the files of src/objects, as computations).

    ** How the files correspond to the code

    The path of a transaction is [TransactionExecutor::execute_transaction]: its
    definition in [Executor] calls, as the code does, [prepare_transaction] (the data
    store, and [compile_transaction] of [Compiler]), [get_kernel_inputs] of [Kernel],
    [host_new] of [Host], the [execute] of the virtual machine (an interface, which
    calls back [host_call] of [Host]), and [build_executed_transaction], which uses
    [into_parts] of [Host], [into_delta] of [Tracker] and [from_transaction_parts] of
    [Kernel].  [prove_transaction] and [verify_transaction] go the same way.

    A method of a type is a definition with the name of the method, prefixed by the
    type where two types share it; a Rust [Result] is a [res], with [Panic] for
    [assert!], [expect], indexing and overflow; [&mut self] is the state of [mut], and
    keeps the writes made before an error.  A [Codec] is a pair of [Serializable] and
    [Deserializable].  The environment a definition depends on (build profile, crate
    feature, external crates) is its implicit class arguments.

    ** What is shown

    - An abstract account and its refinement: a vault is a partial map from keys to
      holdings ([view]), and adding, removing and applying deltas refine operations
      on that map, on every branch, the error branches included.
    - Invariants: well-formed accounts, vaults, storages, notes and views of the
      chain are preserved by every operation, and no operation on well-formed values
      panics, except where a theorem says when it does.
    - The host: over any sequence of calls of a kernel, the recorded delta is valid
      and applying it to the initial account gives what the kernel ended with.
    - Input notes: proofs built from the tree of a block are accepted, and an
      accepted note is in the tree, or a collision of the hash function is exhibited.
    - Commitments bind: equal identifiers, nullifiers and block hashes mean equal
      contents, or an explicit collision of the hash function at corresponding
      inputs of the two values.
    - Round trips: every serialized type is read back as an equal (or equivalent)
      value, with the exact side conditions under which the code does so; where it does
      not, what comes back instead is shown: an account without the types of its empty
      slots ([account_read_as]), no note with 256 assets ([unreadable]), and a program
      without its last byte when it takes 4k + 1 of them ([program_read_back]).
    - The seed search: what is returned is a seed the validation accepts, whatever
      the interleaving of the threads.
    - Executing: an executed transaction is that of a run of the compiled program on
      the inputs of the store, and if the kernel reports the state its calls lead to
      then applying the delta to the account gives the final account the transaction
      claims ([execution_reaches_final_account]: from the executor down to the vault).
    - Proving and verifying: a proven transaction is that of an execution, whoever
      follows the account data in it gets the account the kernel ended with
      ([proven_transaction_followed]: from the prover down to the vault), and the
      verifier rebuilds the public inputs and outputs the proof was made with.
    - Kernel inputs: what the kernel is given, where the documentation of the functions
      that make it says otherwise, and that all of it that comes without proof hashes to
      the public inputs; what the host makes of a public note announced in the
      arguments, which is created whole unless its program does not come back.
    - Compiling: what is accepted, which scripts end up in the program, and how the
      check of calls against an account interface relates to the executions of a
      program, where it is exact and where it is not.
    - Standard accounts and notes: what the constructors make is well-formed, of the
      requested kind, and accepted in a first transaction; the recipient of a SWAP
      payback is shown to be of no note.
    - Building: from a fresh copy of the sources the build script puts the kernel and
      every note script where the library looks for them, and in a test build the
      kernel asks of account seeds what the test build of the objects asks.
      Whatever the system refuses, a build that returns has the kernel and every note
      script it could list.
    - The mock chain: in every reachable state its blocks are linked and make a view
      that is accepted with the next header; no note ever enters it.
    - Testing: the fixtures are well-formed and accepted by the constructors they are
      made for, where they are made at all; a test run follows the host of a transaction;
      the scenario program ends well whenever its searches do, with the chain it
      describes in its file; and the unit tests of the data model pass on every instance
      of the interfaces, or say what they ask of them.

    ** Bounds and fuel

    [seed_loop] has fuel, since the search has no bound of its own: the theorem about
    it gives enough fuel for every seed within reach and shows the result does not
    depend on it. The constructors of accounts and the builders of src/mock pass the
    fuel on; they are modelled with the search of the build without threads. The loop
    of the build script that copies directories has fuel too: more than the number of
    directories of the source is enough. The scenario of [TestRuns] has the fuel of its four
    searches, and is shown to end when each of them does. All other recursions are structural, on the
    lists the code loops over. Machine integers are integers with their width checked
    at every addition, subtraction and multiplication the code makes in them.

    ** Not modelled

    - The transaction kernel, the standard note scripts and account components: Miden
      assembly. The calls a kernel makes are the step relation [kernel_step].
    - The virtual machine, prover, hash function, Merkle trees and assembler: crates
      outside the repository, which are interfaces with laws.
    - Text that only people read: what the derived [Debug] makes of a value, logging, and
      what the build script prints. The texts that go into errors of the virtual machine
      and of the decoder are modelled.
    - Links between files, and paths with the components . and ...
    - What the tests of the kernel run: Miden assembly texts, which only the assembler
      reads (those the Rust code makes are modelled as texts). The test directories of
      the crates, which are clients of everything above and of the kernel.
    - The tests of proven_tx.rs, which ask the compiler for traits of types, and the
      derived encodings of serde, which are an interface where a program writes them.
    - The benchmark, the log of the seed search, re-exports, and accessors that give a
      field of a record, which are the projections of the record.

    ** Properties not in the list of the most important ones

    Each file also proves theorems that are not numbered: serialization of every
    type, conversions of identifiers and their texts, tags, assets and symbols, the
    constructors of deltas, wallets and note contents, the validation of input notes,
    the stacks of the kernel, output notes, the trackers of vault and storage changes,
    the trees of notes of blocks and batches, the data of notes decoded by the
    documented layout, the builder of proven transactions, the accounts in the blocks
    of the mock chain, the mock views of a chain, how the mock host follows the
    transaction host, the fixtures, the runs of tests, the scenario file, the unit tests,
    and the equality of values whose hashes are not compared.

    ** State

    Every component of the Rust code named above is modelled. What could follow is outside
    of it: a semantics of Miden assembly, so that the calls of the kernel, now the step
    relation [kernel_step], are derived from its text.
*)
From Stdlib Require Export ZArith Lia.
From stdpp Require Export strings prelude.

(** ** Results

    [Result<A, E>] of the source, with the third outcome a Rust function has:
    a panic ([assert!], [expect], [unwrap], an index out of range, an integer
    overflow in a build with overflow checks). *)
Inductive res (E A : Type) : Type :=
| Ok (a : A)
| Err (e : E)
| Panic.
Arguments Ok {E A} a.
Arguments Err {E A} e.
Arguments Panic {E A}.

#[export] Instance res_ret {E} : MRet (res E) := fun A a => Ok a.
#[export] Instance res_bind {E} : MBind (res E) := fun A B f m =>
  match m with Ok a => f a | Err e => Err e | Panic => Panic end.

#[export] Instance res_eq_dec {E A} `{EqDecision E, EqDecision A} : EqDecision (res E A).
Proof. solve_decision. Defined.

(** [Result::map_err]. *)
Definition map_err {E E' A : Type} (f : E -> E') (r : res E A) : res E' A :=
  match r with Ok a => Ok a | Err e => Err (f e) | Panic => Panic end.

(** [Result::map]. *)
Definition res_map {E A B : Type} (f : A -> B) (r : res E A) : res E B :=
  match r with Ok a => Ok (f a) | Err e => Err e | Panic => Panic end.

(** [Option::ok_or]. *)
Definition ok_or {E A : Type} (o : option A) (e : E) : res E A :=
  match o with Some a => Ok a | None => Err e end.

(** [Option::expect] and [Result::expect] / [unwrap]. *)
Definition expect {E A : Type} (o : option A) : res E A :=
  match o with Some a => Ok a | None => Panic end.
Definition expect_ok {E E' A : Type} (r : res E A) : res E' A :=
  match r with Ok a => Ok a | _ => Panic end.

(** [assert!]. *)
Definition assert_ {E : Type} (b : bool) : res E unit := if b then Ok tt else Panic.

Definition is_ok {E A : Type} (r : res E A) : bool :=
  match r with Ok _ => true | _ => false end.

(** ** Methods that take [&mut self]

    A method that mutates its receiver and returns a [Result] hands back the
    receiver also when it fails: the writes made before the [?] stay. *)
Definition mut (S E A : Type) : Type := S -> S * res E A.

#[export] Instance mut_ret {S E} : MRet (mut S E) := fun A a s => (s, Ok a).
#[export] Instance mut_bind {S E} : MBind (mut S E) := fun A B f m s =>
  match m s with
  | (s', Ok a) => f a s'
  | (s', Err e) => (s', Err e)
  | (s', Panic) => (s', Panic)
  end.
Definition read_self {S E} : mut S E S := fun s => (s, Ok s).
Definition write_self {S E} (s : S) : mut S E unit := fun _ => (s, Ok tt).
Definition lift {S E A} (r : res E A) : mut S E A := fun s => (s, r).
Definition mut_map_err {S E E' A} (f : E -> E') (m : mut S E A) : mut S E' A :=
  fun s => let '(s', r) := m s in (s', map_err f r).

(** A method of a field: run [m] on the part [get] selects, write it back with [put]. *)
Definition on_field {S T E A} (get : S -> T) (put : T -> S -> S) (m : mut T E A) : mut S E A :=
  fun s => let '(t, r) := m (get s) in (put t s, r).

(** [for x in xs { body(x)?; }] *)
Fixpoint for_each {S E A} (body : A -> mut S E unit) (xs : list A) : mut S E unit :=
  match xs with
  | [] => mret tt
  | x :: xs' => body x ≫= fun _ => for_each body xs'
  end.

(** [for (pos, x) in xs.iter().enumerate() { check(&xs[..pos], x)?; }]: the
    loops of the validators, which look at the elements before the current one. *)
Fixpoint check_each {E A} (check : list A -> A -> res E unit) (before xs : list A) : res E unit :=
  match xs with
  | [] => Ok tt
  | x :: xs' => check before x ≫= fun _ => check_each check (before ++ [x]) xs'
  end.

(** [for x in xs { if !seen.insert(key(x)) { return Err(dup(key(x))) } }]: the
    loops that reject a repeated key, over a set of the keys seen so far. *)
Fixpoint check_unseen {E K A} `{EqDecision K} (key : A -> K) (dup : K -> E) (seen : list K) (xs : list A)
    : res E unit :=
  match xs with
  | [] => Ok tt
  | x :: xs' =>
      if decide (key x ∈ seen) then Err (dup (key x)) else check_unseen key dup (key x :: seen) xs'
  end.

(** ** Build profiles

    The workspace builds with overflow checks and debug assertions in its test
    profile and without them in its release profile. *)
Inductive Profile := Debug | Release.
Class Build := profile : Profile.

(** The crate feature [testing] (and [cfg(test)]), which lowers the
    proof-of-work of account seeds. *)
Class Features := testing : bool.

(** [debug_assert!]. *)
Definition debug_assert `{Build} {E} (b : bool) : res E unit :=
  match profile with Debug => assert_ b | Release => Ok tt end.

(** [a + b] on an unsigned integer of [w] bits. *)
Definition add_w `{Build} {E} (w a b : Z) : res E Z :=
  let s := (a + b)%Z in
  if decide (s < 2 ^ w)%Z then Ok s
  else match profile with Debug => Panic | Release => Ok (s mod 2 ^ w)%Z end.

(** [a * b] on an unsigned integer of [w] bits. *)
Definition mul_w `{Build} {E} (w a b : Z) : res E Z :=
  let s := (a * b)%Z in
  if decide (s < 2 ^ w)%Z then Ok s
  else match profile with Debug => Panic | Release => Ok (s mod 2 ^ w)%Z end.

(** [a - b] on an unsigned integer of [w] bits. *)
Definition sub_w `{Build} {E} (w a b : Z) : res E Z :=
  if decide (b <= a)%Z then Ok (a - b)%Z
  else match profile with Debug => Panic | Release => Ok ((a - b) mod 2 ^ w)%Z end.

(** [a + b] on a signed integer of [w] bits. *)
Definition sadd_w `{Build} {E} (w a b : Z) : res E Z :=
  let s := (a + b)%Z in
  if decide (- 2 ^ (w - 1) <= s < 2 ^ (w - 1))%Z then Ok s
  else match profile with
       | Debug => Panic
       | Release => Ok ((s + 2 ^ (w - 1)) mod 2 ^ w - 2 ^ (w - 1))%Z
       end.

Local Open Scope Z_scope.

(** ** Machine integers: bytes and bits *)

(** [uN::to_le_bytes], [uN::from_le_bytes]. *)
Fixpoint to_le_bytes (n : nat) (v : Z) : list Z :=
  match n with
  | O => []
  | S n' => v mod 256 :: to_le_bytes n' (v / 256)
  end.
Fixpoint from_le_bytes (bs : list Z) : Z :=
  match bs with
  | [] => 0
  | b :: bs' => b + 256 * from_le_bytes bs'
  end.

(** A [u8] as an integer. *)
Definition is_byte (b : Z) : Prop := 0 <= b < 256.

(** [u64::count_ones]. *)
Fixpoint pos_count_ones (p : positive) : Z :=
  match p with
  | xH => 1
  | xO q => pos_count_ones q
  | xI q => 1 + pos_count_ones q
  end.
Definition count_ones (v : Z) : Z :=
  match v with Zpos p => pos_count_ones p | _ => 0 end.

(** [u64::trailing_zeros]: 64 on zero. *)
Fixpoint pos_trailing_zeros (p : positive) : Z :=
  match p with xO q => 1 + pos_trailing_zeros q | _ => 0 end.
Definition trailing_zeros (v : Z) : Z :=
  match v with Zpos p => pos_trailing_zeros p | _ => 64 end.

(** Lower-case hexadecimal digits, [{:02x}] of a byte and the concatenation over
    a list of bytes. *)
Definition hex_digit (d : Z) : Ascii.ascii :=
  Ascii.ascii_of_nat (Z.to_nat (if decide (d < 10) then 48 + d else 87 + d)).
Fixpoint hex_of_bytes (bs : list Z) : string :=
  match bs with
  | [] => EmptyString
  | b :: bs' => String (hex_digit (b / 16)) (String (hex_digit (b mod 16)) (hex_of_bytes bs'))
  end.

(** ** Lemmas and automation *)

Create HintDb rust.

Section results.
Context {E A B : Type}.

Lemma bind_ok (f : A -> res E B) (m : res E A) (b : B) :
  m ≫= f = Ok b <-> exists a, m = Ok a /\ f a = Ok b.
Proof.
  split.
  - destruct m as [a| |]; cbn; [eauto|discriminate|discriminate].
  - intros (a & -> & H). exact H.
Qed.

(** The first step of a computation that is known to succeed. *)
Lemma bind_step (m : res E A) (a : A) (f : A -> res E B) : m = Ok a -> m ≫= f = f a.
Proof. by intros ->. Qed.

Lemma map_err_ok {E'} (f : E -> E') (m : res E A) (a : A) :
  map_err f m = Ok a <-> m = Ok a.
Proof. destruct m; cbn; split; intros H; simplify_eq; reflexivity. Qed.

Lemma res_map_ok (f : A -> B) (m : res E A) (b : B) :
  res_map f m = Ok b <-> exists a, m = Ok a /\ f a = b.
Proof. destruct m as [a| |]; cbn; naive_solver. Qed.

Lemma ok_or_ok (o : option A) (e : E) (a : A) :
  ok_or o e = Ok a <-> o = Some a.
Proof. destruct o; cbn; naive_solver. Qed.

Lemma expect_some (o : option A) (a : A) :
  expect (E := E) o = Ok a <-> o = Some a.
Proof. destruct o; cbn; naive_solver. Qed.

Lemma expect_ok_ok {E'} (m : res E' A) (a : A) :
  expect_ok (E' := E) m = Ok a <-> m = Ok a.
Proof. destruct m; cbn; split; intros H; simplify_eq; reflexivity. Qed.
End results.

Lemma assert_ok {E} (b : bool) (u : unit) : assert_ (E := E) b = Ok u <-> b = true.
Proof. destruct b, u; cbn; naive_solver. Qed.

Lemma is_ok_true {E A} (r : res E A) : is_ok r = true <-> exists a, r = Ok a.
Proof. destruct r; cbn; naive_solver. Qed.

(** A fallible function over a list: the results of all, in order. *)
Section mapM.
Context {E A B : Type} (f : A -> res E B).

Lemma mapM_res_ok (xs : list A) (ys : list B) : mapM f xs = Ok ys <-> Forall2 (fun x y => f x = Ok y) xs ys.
Proof.
  revert ys. induction xs as [|x xs IH]; intros ys; cbn [mapM].
  - split; [intros [= <-]; constructor|]. by inversion 1.
  - split.
    + intros (y & Hy & (l & Hl & [= <-])%bind_ok)%bind_ok. constructor; [done|]. by apply IH.
    + inversion 1 as [|? y ? l Hy Hl]; subst. rewrite Hy. cbn [mbind res_bind]. by rewrite (proj2 (IH l) Hl).
Qed.

Lemma mapM_res_map (g : A -> B) (xs : list A) :
  Forall (fun x => f x = Ok (g x)) xs -> mapM f xs = Ok (map g xs).
Proof. intros H. apply mapM_res_ok, Forall2_fmap_r, Forall_Forall2_diag, H. Qed.

Lemma mapM_res_exists (Q : A -> B -> Prop) (xs : list A) :
  Forall (fun x => exists y, f x = Ok y /\ Q x y) xs -> exists ys, mapM f xs = Ok ys /\ Forall2 Q xs ys.
Proof.
  induction 1 as [|x xs (y & Hy & HQ) _ (ys & Hys & HF)]; [exists []; by split; [|constructor]|].
  exists (y :: ys). cbn [mapM]. rewrite Hy. cbn [mbind res_bind]. rewrite Hys. by split; [|constructor].
Qed.
End mapM.

(** Splits every successful bind, [map_err] and [assert!] among the hypotheses. *)
Ltac inv_res :=
  repeat match goal with
  | H : mbind _ _ = Ok _ |- _ => apply bind_ok in H as (? & ? & ?)
  | H : map_err _ _ = Ok _ |- _ => apply map_err_ok in H
  | H : res_map _ _ = Ok _ |- _ => apply res_map_ok in H as (? & ? & ?)
  | H : ok_or _ _ = Ok _ |- _ => apply ok_or_ok in H
  | H : expect _ = Ok _ |- _ => apply expect_some in H
  | H : expect_ok _ = Ok _ |- _ => apply expect_ok_ok in H
  | H : assert_ _ = Ok _ |- _ => apply assert_ok in H
  | H : mret _ = Ok _ |- _ => cbv [mret res_ret] in H
  | H : @Ok _ _ _ = Ok _ |- _ => injection H as H; subst
  | H : @Err _ _ _ = Ok _ |- _ => discriminate H
  | H : @Panic _ _ = Ok _ |- _ => discriminate H
  end.

(** Runs the state-passing combinators of a method in the goal. *)
Ltac run_mut :=
  cbv beta iota zeta delta
    [mbind mut_bind res_bind read_self write_self lift mret mut_ret res_ret mut_map_err on_field].

Section loops.
Context {E A : Type} (check : list A -> A -> res E unit).

(** A validation loop succeeds exactly when its body does at every position. *)
Lemma check_each_ok before xs :
  check_each check before xs = Ok tt <->
  forall l x r, xs = l ++ x :: r -> check (before ++ l) x = Ok tt.
Proof.
  revert before; induction xs as [|y ys IH]; intros before; cbn.
  - split; [|done]. intros _ l x r H. by destruct l.
  - rewrite bind_ok. split.
    + intros ([] & H1 & H2) l x r Heq. destruct l as [|z l]; simplify_eq/=.
      * by rewrite app_nil_r.
      * rewrite IH in H2. specialize (H2 l x r eq_refl). by rewrite <- app_assoc in H2.
    + intros H. exists tt. split.
      * specialize (H [] y ys eq_refl). by rewrite app_nil_r in H.
      * apply IH. intros l x r ->. rewrite <- app_assoc. apply (H (y :: l) x r). done.
Qed.
End loops.

(** The loop that rejects an element equal to an earlier one checks [NoDup]. *)
Lemma no_earlier_NoDup {A} (xs : list A) :
  (forall l x r, xs = l ++ x :: r -> ~ x ∈ l) <-> NoDup xs.
Proof.
  induction xs as [|y ys IH] using rev_ind.
  - split; [intros; constructor|]. intros _ l x r H. by destruct l.
  - split.
    + intros H. apply NoDup_app. split_and!.
      * apply IH. intros l x r ->. apply (H l x (r ++ [y])). by rewrite <- app_assoc.
      * intros z Hz Hy. apply list_elem_of_singleton in Hy as ->.
        by apply (H ys y []).
      * apply NoDup_singleton.
    + intros Hnd l x r Heq Hin. rewrite Heq in Hnd.
      apply NoDup_app in Hnd as (_ & Hd & _). apply (Hd x Hin). set_solver.
Qed.

(** The loop over the keys seen so far finds the first repeated one. *)
Section unseen.
Context {E K A : Type} `{EqDecision K} (key : A -> K) (dup : K -> E).

Lemma check_unseen_seen (seen : list K) (xs : list A) :
  (check_unseen key dup seen xs = Ok tt /\ NoDup (key <$> xs) /\ Forall (fun x => key x ∉ seen) xs) \/
  (exists x, x ∈ xs /\ check_unseen key dup seen xs = Err (dup (key x)) /\
     ~ (NoDup (key <$> xs) /\ Forall (fun x => key x ∉ seen) xs)).
Proof.
  revert seen. induction xs as [|x xs IH]; intros seen; cbn [check_unseen fmap list_fmap].
  - left. split_and!; [done|constructor|constructor].
  - case_decide as Hin.
    + right. exists x. split; [left|]. split; [done|]. intros [_ Hf]. by apply Forall_cons in Hf as [? _].
    + destruct (IH (key x :: seen)) as [(Hok & Hnd & Hf)|(y & Hy & Herr & Hbad)]; [left|right].
      * rewrite Forall_forall in Hf. split_and!; [done| |].
        -- constructor; [|done]. intros (y & Hy & Hyin)%list_elem_of_fmap. apply (Hf y Hyin). set_solver.
        -- constructor; [done|]. apply Forall_forall. intros y Hy. specialize (Hf y Hy). set_solver.
      * exists y. split; [by right|]. split; [done|]. intros [[Hni Hnd]%NoDup_cons [_ Hf]%Forall_cons].
        apply Hbad. split; [done|]. apply Forall_forall. intros z Hz. rewrite Forall_forall in Hf.
        apply not_elem_of_cons. split; [|by apply Hf]. intros Heq. apply Hni. rewrite <- Heq.
        by apply list_elem_of_fmap_2.
Qed.

Lemma check_unseen_spec (xs : list A) :
  (check_unseen key dup [] xs = Ok tt /\ NoDup (key <$> xs)) \/
  (exists x, x ∈ xs /\ check_unseen key dup [] xs = Err (dup (key x)) /\ ~ NoDup (key <$> xs)).
Proof.
  assert (Hnil : Forall (fun x => key x ∉ []) xs) by (apply Forall_forall; set_solver).
  destruct (check_unseen_seen [] xs) as [(? & ? & _)|(x & ? & ? & ?)]; [by left|right]. exists x. tauto.
Qed.
End unseen.

(** ** Little-endian bytes *)

Lemma length_to_le_bytes n v : length (to_le_bytes n v) = n.
Proof. revert v; induction n as [|n IH]; intros v; cbn; [done|]. by rewrite IH. Qed.

Lemma to_le_bytes_range n v : Forall is_byte (to_le_bytes n v).
Proof.
  revert v; induction n as [|n IH]; intros v; cbn; constructor; [|apply IH].
  unfold is_byte. apply Z.mod_pos_bound. lia.
Qed.

Lemma from_to_le_bytes n v :
  0 <= v < 256 ^ Z.of_nat n -> from_le_bytes (to_le_bytes n v) = v.
Proof.
  revert v; induction n as [|n IH]; intros v Hv; cbn -[Z.pow Z.of_nat] in *.
  - rewrite Z.pow_0_r in Hv. lia.
  - rewrite Nat2Z.inj_succ, Z.pow_succ_r in Hv by lia.
    rewrite IH; [pose proof (Z.div_mod v 256); lia|].
    split; [apply Z.div_pos; lia|]. apply Z.div_lt_upper_bound; lia.
Qed.

Lemma to_from_le_bytes bs :
  Forall is_byte bs -> to_le_bytes (length bs) (from_le_bytes bs) = bs.
Proof.
  induction 1 as [|b bs Hb _ IH]; cbn -[Z.mul]; [done|].
  unfold is_byte in Hb.
  replace (b + 256 * from_le_bytes bs) with (b + from_le_bytes bs * 256) by ring.
  rewrite Z.mod_add, Z.mod_small, Z.div_add, Z.div_small by lia.
  by rewrite Z.add_0_l, IH.
Qed.

Lemma from_le_bytes_range bs :
  Forall is_byte bs -> 0 <= from_le_bytes bs < 256 ^ Z.of_nat (length bs).
Proof.
  induction 1 as [|b bs Hb _ IH]; cbn -[Z.pow Z.of_nat Z.mul]; [lia|].
  rewrite Nat2Z.inj_succ, Z.pow_succ_r by lia. unfold is_byte in Hb. lia.
Qed.

(** ** Bit fields

    The code reads a field of [k] bits at offset [s] as [(v & mask) >> s]. *)

Lemma land_field_spec v s k :
  0 <= s -> 0 <= k ->
  Z.shiftr (Z.land v (Z.shiftl (Z.ones k) s)) s = (v / 2 ^ s) mod 2 ^ k.
Proof.
  intros Hs Hk. rewrite <- Z.shiftr_div_pow2, <- Z.land_ones by lia.
  rewrite Z.shiftr_land, Z.shiftr_shiftl_l by lia.
  by rewrite Z.sub_diag, Z.shiftl_0_r.
Qed.

(** Keeping the bits from [s] up, of a value that has no bit above the mask. *)
Lemma land_high_bits v s k :
  0 <= s -> 0 <= k -> 0 <= v < 2 ^ (s + k) ->
  Z.land v (Z.shiftl (Z.ones k) s) = Z.shiftl (v / 2 ^ s) s.
Proof.
  intros Hs Hk Hv. rewrite <- Z.shiftr_div_pow2 by done.
  apply Z.bits_inj'. intros i Hi. rewrite Z.land_spec, !Z.shiftl_spec by done.
  destruct (decide (i < s)) as [Hlt|Hge].
  - rewrite !(Z.testbit_neg_r _ (i - s)) by lia. apply andb_false_r.
  - rewrite Z.shiftr_spec, Z.sub_add by lia. rewrite Z.testbit_ones_nonneg by lia.
    destruct (Z.ltb_spec (i - s) k); [apply andb_true_r|].
    rewrite andb_false_r. symmetry. rewrite <- (Z.mod_small v (2 ^ (s + k))) by done.
    apply Z.mod_pow2_bits_high. lia.
Qed.

(** Clearing the bit at position [s] as [(v & mask) ^ v]. *)
Lemma clear_bit_le v m : 0 <= v -> 0 <= Z.lxor (Z.land v m) v <= v.
Proof.
  intros Hv. apply Z.ldiff_le; [done|].
  apply Z.bits_inj'. intros i Hi.
  rewrite Z.ldiff_spec, Z.lxor_spec, Z.land_spec, Z.bits_0.
  by destruct (Z.testbit v i), (Z.testbit m i).
Qed.

Lemma clear_bit_land v m : Z.land (Z.lxor (Z.land v m) v) m = 0.
Proof.
  apply Z.bits_inj'. intros i Hi. rewrite Z.land_spec, Z.lxor_spec, Z.land_spec, Z.bits_0.
  by destruct (Z.testbit v i), (Z.testbit m i).
Qed.

Lemma testbit_land_pow2 v n :
  0 <= n -> Z.land v (2 ^ n) = 2 ^ n <-> Z.testbit v n = true.
Proof.
  intros Hn. split.
  - intros H. assert (Z.testbit (Z.land v (2 ^ n)) n = true) as H'
      by (rewrite H; by apply Z.pow2_bits_true).
    rewrite Z.land_spec in H'. by apply andb_prop in H' as [? _].
  - intros H. apply Z.bits_inj'. intros i Hi. rewrite Z.land_spec.
    destruct (decide (i = n)) as [->|Hne].
    + by rewrite H, Z.pow2_bits_true.
    + rewrite Z.pow2_bits_false by done. apply andb_false_r.
Qed.

Lemma count_ones_nonneg v : 0 <= count_ones v.
Proof. destruct v as [|p|p]; cbn; [lia| |lia]. induction p; cbn; lia. Qed.

Lemma count_ones_pos v : 0 < count_ones v -> 0 < v.
Proof. destruct v; cbn; lia. Qed.

(** Distinct integers below [n] are at most [n]. *)
Lemma NoDup_range_length (l : list Z) (n : nat) :
  NoDup l -> Forall (fun i => 0 <= i < Z.of_nat n) l -> (length l <= n)%nat.
Proof.
  intros Hnd Hr. transitivity (length (seqZ 0 (Z.of_nat n))); [|by rewrite length_seqZ; lia].
  apply submseteq_length, NoDup_submseteq; [done|]. intros i Hi. rewrite Forall_forall in Hr.
  apply elem_of_seqZ. specialize (Hr i Hi). lia.
Qed.
