(* ===== verification/Interfaces.v ===== *)
(** Interfaces of the crates the source calls and does not contain: the field
    arithmetic of winter-math ([Felt]), the hasher, sparse Merkle trees and hex
    decoding of miden-crypto, the byte readers and writers of winter-utils, and
    the text the [Display] implementations render.

    Each crate is a class of operations, an argument of every definition that
    calls it, and a class of laws with the documented behaviour the code relies
    on.  The file [Reference] instantiates the operations and proves the laws. *)
From S2P Require Import Prelude.
Local Open Scope Z_scope.

(** ** Field elements *)

(** The modulus of the field: 2^64 - 2^32 + 1. *)
Definition MODULUS : Z := 18446744069414584321.

Class Field := {
  Felt : Type;
  Felt_eq_dec :: EqDecision Felt;
  Felt_new : Z -> Felt;                              (* Felt::new(u64) *)
  as_int : Felt -> Z;                                (* Felt::as_int *)
  felt_add : Felt -> Felt -> Felt;
  felt_sub : Felt -> Felt -> Felt;
  Felt_try_from_bytes : list Z -> res string Felt;   (* TryFrom<&[u8]>, error rendered *)
  Felt_try_from_u64 : Z -> res string Felt           (* TryFrom<u64> *)
}.

Class FieldLaws (F : Field) : Prop := {
  as_int_range (x : Felt) : 0 <= as_int x < MODULUS;
  as_int_inj (x y : Felt) : as_int x = as_int y -> x = y;
  as_int_new (v : Z) : 0 <= v < 2 ^ 64 -> as_int (Felt_new v) = v mod MODULUS;
  as_int_add (x y : Felt) : as_int (felt_add x y) = (as_int x + as_int y) mod MODULUS;
  as_int_sub (x y : Felt) : as_int (felt_sub x y) = (as_int x - as_int y) mod MODULUS;
  Felt_try_from_bytes_ok (v : Z) : 0 <= v < MODULUS ->
    Felt_try_from_bytes (to_le_bytes 8 v) = Ok (Felt_new v);
  Felt_try_from_bytes_err (v : Z) : MODULUS <= v < 2 ^ 64 ->
    exists msg, Felt_try_from_bytes (to_le_bytes 8 v) = Err msg;
  Felt_try_from_u64_ok (v : Z) : 0 <= v < MODULUS -> Felt_try_from_u64 v = Ok (Felt_new v);
  Felt_try_from_u64_err (v : Z) : MODULUS <= v < 2 ^ 64 -> exists msg, Felt_try_from_u64 v = Err msg
}.

Definition ZERO `{Field} : Felt := Felt_new 0.
Definition ONE `{Field} : Felt := Felt_new 1.

(** [Word] is [[Felt; 4]]; [Digest] (miden-crypto's [RpoDigest]) is a newtype of
    it with conversions both ways, and both are this record. *)
Record Word `{Field} := mkWord { w0 : Felt; w1 : Felt; w2 : Felt; w3 : Felt }.
Arguments mkWord {_} _ _ _ _.
Abbreviation Digest := Word.

#[export] Instance Word_eq_dec `{Field} : EqDecision Word.
Proof. solve_decision. Defined.

(** [Word::default()], [EMPTY_WORD], [Digest::default()]. *)
Definition EMPTY_WORD `{Field} : Word := mkWord ZERO ZERO ZERO ZERO.

(** The elements of a word, in order. *)
Definition word_elements `{Field} (w : Word) : list Felt := [w0 w; w1 w; w2 w; w3 w].

(** ** Rendered values

    The text of a value of another crate, and what the derived [Debug] makes of a value,
    which is how most errors of the source are displayed. Errors with a text of their
    own have a [display] function. *)

Class Display := to_string : forall {E : Type}, E -> string.

(** ** Hashing and Merkle trees *)

(** The value bound to a key in a list of entries, [d] if there is none. *)
Fixpoint entry_or {K V} `{EqDecision K} (es : list (K * V)) (k : K) (d : V) : V :=
  match es with
  | [] => d
  | (k', v) :: es' => if decide (k' = k) then v else entry_or es' k d
  end.

Class Crypto `{F : Field} := {
  hash_elements : list Felt -> Digest;               (* Rpo256::hash_elements *)
  hash_bytes : list Z -> Digest;                     (* Rpo256::hash *)
  digest_bytes : Digest -> list Z;                   (* RpoDigest::as_bytes *)
  digest_cmp : Digest -> Digest -> comparison;       (* impl Ord for RpoDigest *)
  merge : Digest -> Digest -> Digest;                (* Rpo256::merge *)

  MerkleError : Type;

  Smt : Type;
  Smt_new : Smt;
  Smt_with_entries : list (Word * Word) -> res MerkleError Smt;
  Smt_get_value : Smt -> Word -> Word;
  Smt_insert : Smt -> Word -> Word -> Smt * Word;    (* new tree, replaced value *)
  Smt_entries : Smt -> list (Word * Word);
  Smt_root : Smt -> Digest;

  SimpleSmt : Z -> Type;                             (* indexed by its depth *)
  SimpleSmt_with_leaves (d : Z) : list (Z * Word) -> res MerkleError (SimpleSmt d);
  SimpleSmt_get {d : Z} : SimpleSmt d -> Z -> Word;  (* the leaf at an index below 2^d *)
  SimpleSmt_insert {d : Z} : SimpleSmt d -> Z -> Word -> SimpleSmt d * Word;
  SimpleSmt_leaves {d : Z} : SimpleSmt d -> list (Z * Word);
  SimpleSmt_root {d : Z} : SimpleSmt d -> Digest;

  hex_to_bytes : nat -> string -> res string (list Z) (* error rendered *)
}.

(** A sparse Merkle tree is a total map that is empty almost everywhere, and its
    root is determined by the map. *)
Class SmtLaws `(C : Crypto) : Prop := {
  Smt_get_new (k : Word) : Smt_get_value Smt_new k = EMPTY_WORD;
  Smt_get_insert (t : Smt) (k v k' : Word) :
    Smt_get_value (fst (Smt_insert t k v)) k' =
    if decide (k = k') then v else Smt_get_value t k';
  Smt_insert_old (t : Smt) (k v : Word) : snd (Smt_insert t k v) = Smt_get_value t k;
  Smt_with_entries_ok (es : list (Word * Word)) : NoDup es.*1 ->
    exists t, Smt_with_entries es = Ok t /\
      forall k, Smt_get_value t k = entry_or es k EMPTY_WORD;
  Smt_with_entries_dup (es : list (Word * Word)) : ~ NoDup es.*1 ->
    exists e, Smt_with_entries es = Err e;
  Smt_entries_nodup (t : Smt) : NoDup (Smt_entries t).*1;
  Smt_entries_spec (t : Smt) (k v : Word) :
    (k, v) ∈ Smt_entries t <-> Smt_get_value t k = v /\ v <> EMPTY_WORD;
  Smt_root_ext (t t' : Smt) :
    (forall k, Smt_get_value t k = Smt_get_value t' k) -> Smt_root t = Smt_root t'
}.

Class SimpleSmtLaws `(C : Crypto) : Prop := {
  SimpleSmt_with_leaves_ok (d : Z) (es : list (Z * Word)) :
    NoDup es.*1 -> Forall (fun e => 0 <= fst e < 2 ^ d) es ->
    exists t, SimpleSmt_with_leaves d es = Ok t /\
      forall i, 0 <= i < 2 ^ d -> SimpleSmt_get t i = entry_or es i EMPTY_WORD;
  SimpleSmt_with_leaves_err (d : Z) (es : list (Z * Word)) :
    ~ (NoDup es.*1 /\ Forall (fun e => 0 <= fst e < 2 ^ d) es) ->
    exists e, SimpleSmt_with_leaves d es = Err e;
  SimpleSmt_get_insert (d : Z) (t : SimpleSmt d) (i : Z) (v : Word) (j : Z) :
    0 <= i < 2 ^ d ->
    SimpleSmt_get (fst (SimpleSmt_insert t i v)) j =
    if decide (i = j) then v else SimpleSmt_get t j;
  SimpleSmt_insert_old (d : Z) (t : SimpleSmt d) (i : Z) (v : Word) :
    0 <= i < 2 ^ d -> snd (SimpleSmt_insert t i v) = SimpleSmt_get t i;
  SimpleSmt_leaves_nodup (d : Z) (t : SimpleSmt d) : NoDup (SimpleSmt_leaves t).*1;
  SimpleSmt_leaves_range (d : Z) (t : SimpleSmt d) (i : Z) (v : Word) :
    (i, v) ∈ SimpleSmt_leaves t -> 0 <= i < 2 ^ d /\ SimpleSmt_get t i = v;
  SimpleSmt_leaves_full (d : Z) (t : SimpleSmt d) (i : Z) :
    0 <= i < 2 ^ d -> SimpleSmt_get t i <> EMPTY_WORD ->
    (i, SimpleSmt_get t i) ∈ SimpleSmt_leaves t;
  SimpleSmt_root_ext (d : Z) (t t' : SimpleSmt d) :
    (forall i, 0 <= i < 2 ^ d -> SimpleSmt_get t i = SimpleSmt_get t' i) ->
    SimpleSmt_root t = SimpleSmt_root t'
}.

(** Distinct digests have distinct bytes. *)
Class DigestLaws `(C : Crypto) : Prop := {
  digest_bytes_inj (d d' : Digest) : digest_bytes d = digest_bytes d' -> d = d'
}.

(** [hex_to_bytes] decodes the text [0x] followed by two hex digits per byte. *)
Class HexLaws `(C : Crypto) : Prop := {
  hex_to_bytes_ok (bs : list Z) : Forall is_byte bs ->
    hex_to_bytes (length bs) ("0x" +:+ hex_of_bytes bs)%string = Ok bs
}.

(** ** Byte streams *)

Inductive DeserializationError :=
| InvalidValue (msg : string)
| UnexpectedEOF.

(** [ByteReader]: a reader consumes a prefix of the source. *)
Abbreviation reader := (mut (list Z) DeserializationError).

(** What a [write_into] appends to its target, or a panic. *)
Abbreviation writer := (res Empty_set (list Z)).
Definition wappend (w1 w2 : writer) : writer :=
  b1 ← w1; b2 ← w2; Ok (b1 ++ b2).
Infix "+w+" := wappend (at level 60, right associativity).

(** [Serializable] and [Deserializable]. *)
Class Codec (A : Type) := {
  write_into : A -> writer;
  read_from : reader A
}.
Arguments write_into {A} _ _.
Arguments read_from {A} _.

(** Writing a value that satisfies [P] succeeds, and reading it back leaves the
    rest of the source and gives a value [R]-related to it. *)
Definition round_trips_upto {A} (c : Codec A) (P : A -> Prop) (R : A -> A -> Prop) : Prop :=
  forall a, P a -> exists bs, write_into c a = Ok bs /\
    forall rest, exists a', read_from c (bs ++ rest) = (rest, Ok a') /\ R a a'.
Abbreviation round_trips c P := (round_trips_upto c P eq).

Class ByteIO `{F : Field} := {
  u8_codec : Codec Z;
  u16_codec : Codec Z;
  u32_codec : Codec Z;
  u64_codec : Codec Z;
  felt_codec : Codec Felt;
  word_codec : Codec Word;
  digest_codec : Codec Digest;
  option_codec {A} : Codec A -> Codec (option A);
  pair_codec {A B} : Codec A -> Codec B -> Codec (A * B);
  write_bytes : list Z -> writer;
  read_vec : nat -> reader (list Z);
  write_many {A} : Codec A -> list A -> writer;
  read_many {A} : Codec A -> nat -> reader (list A)
}.

Class ByteIOLaws `(IO : ByteIO) : Prop := {
  u8_round_trip : round_trips u8_codec (fun v => 0 <= v < 2 ^ 8);
  u16_round_trip : round_trips u16_codec (fun v => 0 <= v < 2 ^ 16);
  u32_round_trip : round_trips u32_codec (fun v => 0 <= v < 2 ^ 32);
  u64_round_trip : round_trips u64_codec (fun v => 0 <= v < 2 ^ 64);
  felt_round_trip : round_trips felt_codec (fun _ => True);
  word_round_trip : round_trips word_codec (fun _ => True);
  digest_round_trip : round_trips digest_codec (fun _ => True);
  option_round_trip_upto {A} (c : Codec A) (P : A -> Prop) (R : A -> A -> Prop) :
    round_trips_upto c P R ->
    round_trips_upto (option_codec c) (fun o => forall a, o = Some a -> P a) (option_Forall2 R);
  pair_round_trip {A B} (ca : Codec A) (cb : Codec B) (P : A -> Prop) (Q : B -> Prop) :
    round_trips ca P -> round_trips cb Q -> round_trips (pair_codec ca cb) (fun p => P p.1 /\ Q p.2);
  bytes_round_trip (bs rest : list Z) : write_bytes bs = Ok bs /\
    read_vec (length bs) (bs ++ rest) = (rest, Ok bs);
  write_many_nil {A} (c : Codec A) : write_many c [] = Ok [];
  write_many_cons {A} (c : Codec A) (x : A) (xs : list A) :
    write_many c (x :: xs) = write_into c x +w+ write_many c xs;
  read_many_0 {A} (c : Codec A) (src : list Z) : read_many c 0 src = (src, Ok []);
  read_many_S {A} (c : Codec A) (n : nat) (src : list Z) :
    read_many c (S n) src =
    (x ← read_from c; xs ← read_many c n; mret (x :: xs)) src
}.

(** ** Merkle paths, node indexes and the chain *)

Class Merkle `{C : Crypto} := {
  NodeIndex : Type;
  NodeIndex_eq_dec :: EqDecision NodeIndex;
  NodeIndex_new : Z -> Z -> res MerkleError NodeIndex;   (* depth, value *)
  NodeIndex_value : NodeIndex -> Z;
  NodeIndex_codec : Codec NodeIndex;

  (* [MerklePath] is a vector of digests, the sibling of the node first *)
  path_verify : list Digest -> Z -> Digest -> Digest -> bool;
  path_codec : Codec (list Digest);

  LeafIndex : Z -> Type;                             (* indexed by the depth of the tree *)
  LeafIndex_new (d : Z) : Z -> res MerkleError (LeafIndex d);
  SimpleSmt_new (d : Z) : res MerkleError (SimpleSmt d);
  SimpleSmt_with_contiguous_leaves (d : Z) : list Word -> res MerkleError (SimpleSmt d);
  SimpleSmt_open {d : Z} : SimpleSmt d -> LeafIndex d -> list Digest;
  SimpleSmt_num_leaves {d : Z} : SimpleSmt d -> Z;

  InnerNodeInfo : Type;
  inner_node : Digest -> Digest -> Digest -> InnerNodeInfo;   (* value, left, right *)
  path_inner_nodes : list Digest -> Z -> Digest -> res MerkleError (list InnerNodeInfo);
  SimpleSmt_inner_nodes {d : Z} : SimpleSmt d -> list InnerNodeInfo;
  Smt_inner_nodes : Smt -> list InnerNodeInfo;
  Smt_leaf_data : Smt -> list (Digest * list Felt);  (* hash and elements of each leaf *)

  PartialMmr : Type;
  mmr_forest : PartialMmr -> Z;
  mmr_is_tracked : PartialMmr -> Z -> bool;
  mmr_add : PartialMmr -> Digest -> bool -> PartialMmr;
  mmr_inner_nodes : PartialMmr -> list (Z * Digest) -> list InnerNodeInfo;
  MmrPeaks : Type;
  mmr_peaks : PartialMmr -> MmrPeaks;
  hash_peaks : MmrPeaks -> Digest;
  peaks_num_leaves : MmrPeaks -> Z;
  flatten_and_pad_peaks : MmrPeaks -> list Felt
}.

(** The other position below the parent of a node. *)
Definition sibling (i : Z) : Z := if decide (i mod 2 = 0) then i + 1 else i - 1.

(** The pairs merged on the way up from a node. *)
Fixpoint path_pairs `{C : Crypto} (p : list Digest) (i : Z) (n : Digest) : list (Digest * Digest) :=
  match p with
  | [] => []
  | s :: p' =>
      let pair := if decide (i mod 2 = 0) then (n, s) else (s, n) in
      pair :: path_pairs p' (i / 2) (merge pair.1 pair.2)
  end.

(** Node and leaf indexes are the positions of a level. The verification of a path
    goes up one level per sibling, down to no siblings at the root, which has
    position 0. The opening of a leaf verifies, starts with its sibling and has a
    sibling for every level. Appending to the chain keeps the tracked positions. *)
Class MerkleLaws `(MK : Merkle) : Prop := {
  NodeIndex_new_ok (d v : Z) : 0 <= d < 2 ^ 6 -> 0 <= v < 2 ^ d ->
    exists n, NodeIndex_new d v = Ok n /\ NodeIndex_value n = v;
  NodeIndex_new_err (d v : Z) : 0 <= d < 2 ^ 6 -> 2 ^ d <= v < 2 ^ 64 ->
    exists e, NodeIndex_new d v = Err e;
  NodeIndex_round_trip : round_trips NodeIndex_codec (fun _ => True);
  path_round_trip : round_trips path_codec (fun p => Z.of_nat (length p) < 2 ^ 8);
  path_verify_nil (i : Z) (n r : Digest) : path_verify [] i n r = bool_decide (i = 0 /\ n = r);
  path_verify_cons (s : Digest) (p : list Digest) (i : Z) (n r : Digest) :
    path_verify (s :: p) i n r =
    path_verify p (i / 2) (if decide (i mod 2 = 0) then merge n s else merge s n) r;
  path_inner_nodes_ok (p : list Digest) (i : Z) (n : Digest) :
    (length p < 64)%nat -> 0 <= i < 2 ^ Z.of_nat (length p) ->
    path_inner_nodes p i n =
    Ok (map (fun pr => inner_node (merge pr.1 pr.2) pr.1 pr.2) (path_pairs p i n));
  path_inner_nodes_err (p : list Digest) (i : Z) (n : Digest) :
    (length p < 64)%nat -> 2 ^ Z.of_nat (length p) <= i < 2 ^ 64 -> exists e, path_inner_nodes p i n = Err e;
  LeafIndex_new_ok (d v : Z) : 0 < d < 2 ^ 6 -> 0 <= v < 2 ^ d -> exists i, LeafIndex_new d v = Ok i;
  LeafIndex_new_err (d v : Z) : 0 < d < 2 ^ 6 -> 2 ^ d <= v < 2 ^ 64 -> exists e, LeafIndex_new d v = Err e;
  SimpleSmt_open_verifies (d v : Z) (t : SimpleSmt d) (i : LeafIndex d) :
    0 < d -> 0 <= v < 2 ^ d -> LeafIndex_new d v = Ok i ->
    path_verify (SimpleSmt_open t i) v (SimpleSmt_get t v) (SimpleSmt_root t) = true /\
    exists p, SimpleSmt_open t i = SimpleSmt_get t (sibling v) :: p;
  SimpleSmt_open_length (d : Z) (t : SimpleSmt d) (i : LeafIndex d) :
    0 < d -> length (SimpleSmt_open t i) = Z.to_nat d;
  SimpleSmt_new_ok (d : Z) : 0 < d <= 2 ^ 6 -> exists t : SimpleSmt d, SimpleSmt_new d = Ok t /\
    forall i, 0 <= i < 2 ^ d -> SimpleSmt_get t i = EMPTY_WORD;
  SimpleSmt_contiguous (d : Z) (ws : list Word) : 0 < d < 2 ^ 6 ->
    SimpleSmt_with_contiguous_leaves d ws =
    SimpleSmt_with_leaves d (imap (fun j w => (Z.of_nat j, w)) ws);
  SimpleSmt_num_leaves_spec (d : Z) (t : SimpleSmt d) :
    SimpleSmt_num_leaves t = Z.of_nat (length (SimpleSmt_leaves t));
  mmr_add_forest (m : PartialMmr) (d : Digest) (track : bool) :
    mmr_forest (mmr_add m d track) = mmr_forest m + 1;
  mmr_add_tracked (m : PartialMmr) (d : Digest) (track : bool) (i : Z) :
    mmr_is_tracked m i = true -> mmr_is_tracked (mmr_add m d track) i = true
}.

(** ** The assembler *)

Class Assembly `{F : Field} := {
  AssemblyError : Type;
  ModuleAst : Type;
  ModuleAst_eq_dec :: EqDecision ModuleAst;
  Assembler : Type;
  compile_module : Assembler -> ModuleAst -> res AssemblyError (list Digest);
  (* [true] of a module without debug info (imports and source locations), which
     the serialization options of account code leave out *)
  module_bare : ModuleAst -> Prop;
  module_codec : Codec ModuleAst
}.

Class AssemblyLaws `(AS : Assembly) : Prop := {
  module_round_trip : round_trips module_codec module_bare
}.

(** Programs: the code of notes and of transaction scripts. *)
Class Programs `{AS : Assembly} := {
  ProgramAst : Type;
  ProgramAst_eq_dec :: EqDecision ProgramAst;
  CodeBlock : Type;
  code_block_hash : CodeBlock -> Digest;
  compile_in_context : Assembler -> ProgramAst -> res AssemblyError CodeBlock;
  program_bare : ProgramAst -> Prop;                 (* as [module_bare] *)
  program_codec : Codec ProgramAst;
  program_to_bytes : ProgramAst -> list Z;           (* ProgramAst::to_bytes *)
  program_from_bytes : list Z -> res DeserializationError ProgramAst
}.

(** [from_bytes] reads a program off the start of the bytes and does not look at
    what follows it. *)
Class ProgramLaws `(P : Programs) : Prop := {
  program_round_trip : round_trips program_codec program_bare;
  program_to_bytes_range (p : ProgramAst) : Forall is_byte (program_to_bytes p);
  program_bytes_round_trip (p : ProgramAst) (rest : list Z) : program_bare p ->
    program_from_bytes (program_to_bytes p ++ rest) = Ok p
}.

(** ** The virtual machine

    What the host of a transaction calls of the processor: the advice provider and
    its Merkle store, and the error it reports events with. *)
Class Vm `{MK : Merkle} := {
  ContextId : Type;
  ContextId_eq_dec :: EqDecision ContextId;
  ContextId_root : ContextId;
  AdviceError : Type;
  ExecutionError : Type;
  EventError : string -> ExecutionError;
  AdviceProvider : Type;
  get_mapped_values : AdviceProvider -> Digest -> option (list Felt);
  get_tree_node : AdviceProvider -> Digest -> Felt -> Felt -> res AdviceError Word;
  push_stack : AdviceProvider -> Felt -> AdviceProvider * res ExecutionError unit;
  MerkleStore : Type;
  get_store_subset : AdviceProvider -> list Digest -> MerkleStore;
  get_node : MerkleStore -> Digest -> NodeIndex -> res AdviceError Digest
}.

(** Pushing a value cannot fail; a Merkle store answers a request or reports an error. *)
Class VmLaws `(V : Vm) : Prop := {
  push_stack_ok (a : AdviceProvider) (x : Felt) : snd (push_stack a x) = Ok tt;
  get_node_total (m : MerkleStore) (r : Digest) (n : NodeIndex) : get_node m r n <> Panic
}.

(** The state of the process at an event ([ProcessState]): the operand stack, one
    of its elements, one of its words, and a word of memory. *)
Record ProcessState `{Vm} := mkProcess {
  proc_ctx : ContextId;
  get_stack_state : list Felt;
  get_stack_item : Z -> Felt;
  get_stack_word : Z -> Word;
  get_mem_value : ContextId -> Z -> option Word
}.

(** The requests of a process for advice, which the advice provider answers, and
    what a host answers. *)
Class VmAdvice `{V : Vm} := {
  AdviceExtractor : Type;
  AdviceInjector : Type;
  HostResponse : Type;
  HostResponse_None : HostResponse;
  provider_get_advice :
    AdviceProvider -> ProcessState -> AdviceExtractor -> AdviceProvider * res ExecutionError HostResponse;
  provider_set_advice :
    AdviceProvider -> ProcessState -> AdviceInjector -> AdviceProvider * res ExecutionError HostResponse
}.

(** A call of the host by the virtual machine (the methods of the trait [Host]). *)
Inductive HostCall `{VA : VmAdvice} :=
| GetAdvice (extractor : AdviceExtractor)
| SetAdvice (injector : AdviceInjector)
| Event (event_id : Z).

(** The calls in order, until one is refused; [host] handles one. *)
Definition drive `{VA : VmAdvice} {H} (host : ProcessState * HostCall -> mut H ExecutionError HostResponse)
    (calls : list (ProcessState * HostCall)) : mut H ExecutionError unit :=
  for_each (fun call => _ ← host call; mret tt) calls.

(** ** Facts about the interfaces *)

Section field_facts.
Context {F : Field} {FL : FieldLaws F}.

Lemma MODULUS_lt : MODULUS < 2 ^ 64.
Proof. reflexivity. Qed.

Lemma as_int_new_small v : 0 <= v < MODULUS -> as_int (Felt_new v) = v.
Proof.
  intros Hv. pose proof MODULUS_lt. rewrite as_int_new by lia. by apply Z.mod_small.
Qed.

Lemma as_int_ZERO : as_int ZERO = 0.
Proof. by apply as_int_new_small. Qed.

Lemma as_int_ONE : as_int ONE = 1.
Proof. by apply as_int_new_small. Qed.

Lemma Felt_new_as_int (x : Felt) : Felt_new (as_int x) = x.
Proof. apply as_int_inj, as_int_new_small, as_int_range. Qed.

Lemma felt_eq_iff (x y : Felt) : x = y <-> as_int x = as_int y.
Proof. split; [by intros ->|apply as_int_inj]. Qed.

Lemma felt_zero_iff (x : Felt) : x = ZERO <-> as_int x = 0.
Proof. by rewrite felt_eq_iff, as_int_ZERO. Qed.

Lemma as_int_u64 (x : Felt) : 0 <= as_int x < 2 ^ 64.
Proof. pose proof (as_int_range x). pose proof MODULUS_lt. lia. Qed.
End field_facts.

Section entries.
Context {K V : Type} `{EqDecision K}.
Implicit Types (es : list (K * V)) (k : K) (d v : V).

Lemma entry_or_notin es k d : k ∉ es.*1 -> entry_or es k d = d.
Proof.
  induction es as [|[k' v] es IH]; cbn; [done|]. intros Hni.
  rewrite decide_False by set_solver. apply IH. set_solver.
Qed.

Lemma entry_or_in es k v d : NoDup es.*1 -> (k, v) ∈ es -> entry_or es k d = v.
Proof.
  induction es as [|[k' v'] es IH]; cbn; [set_solver|].
  intros [Hni Hnd]%NoDup_cons Hin. apply elem_of_cons in Hin as [Heq|Hin].
  - simplify_eq. by rewrite decide_True.
  - rewrite decide_False; [by apply IH|].
    intros ->. apply Hni. apply list_elem_of_fmap. by exists (k, v).
Qed.

(** The looked-up value comes from the list, or is the default. *)
Lemma entry_or_cases es k d :
  ((k ∉ es.*1) /\ entry_or es k d = d) \/ (k, entry_or es k d) ∈ es.
Proof.
  induction es as [|[k' v'] es IH]; cbn; [set_solver|].
  case_decide as Hk; [subst; set_solver|].
  destruct IH as [[Hni ->]|Hin]; [left; set_solver|right; set_solver].
Qed.

Lemma entry_or_snoc es k v k' d :
  k ∉ es.*1 ->
  entry_or (es ++ [(k, v)]) k' d = if decide (k = k') then v else entry_or es k' d.
Proof.
  induction es as [|[k1 v1] es IH]; cbn; [done|]. intros Hni.
  rewrite IH by set_solver. repeat case_decide; simplify_eq; try done. set_solver.
Qed.
End entries.

(** Steps of the readers and of the methods that mutate their receiver. *)
Section mut_steps.
Context {S E A B : Type}.

Lemma mut_bind_ok (m : mut S E A) (f : A -> mut S E B) s s' a :
  m s = (s', Ok a) -> (m ≫= f) s = f a s'.
Proof. intros H. unfold mbind, mut_bind. by rewrite H. Qed.

Lemma mut_bind_err (m : mut S E A) (f : A -> mut S E B) s s' e :
  m s = (s', Err e) -> (m ≫= f) s = (s', Err e).
Proof. intros H. unfold mbind, mut_bind. by rewrite H. Qed.

Lemma mut_bind_inv (m : mut S E A) (f : A -> mut S E B) s s' b :
  (m ≫= f) s = (s', Ok b) -> exists s1 a, m s = (s1, Ok a) /\ f a s1 = (s', Ok b).
Proof.
  unfold mbind, mut_bind. destruct (m s) as [s1 [a| |]]; naive_solver.
Qed.

Lemma mut_ignore (m : mut S E A) s :
  (_ ← m; mret tt) s = (fst (m s), res_map (fun _ => tt) (snd (m s))).
Proof. unfold mbind, mut_bind. by destruct (m s) as [s' [a| |]]. Qed.

Lemma mut_map_err_run {E'} (f : E -> E') (m : mut S E A) s :
  mut_map_err f m s = (fst (m s), map_err f (snd (m s))).
Proof. unfold mut_map_err. by destruct (m s). Qed.

Lemma for_each_cons (body : A -> mut S E unit) x xs s :
  for_each body (x :: xs) s =
  match body x s with
  | (s', Ok _) => for_each body xs s'
  | (s', Err e) => (s', Err e)
  | (s', Panic) => (s', Panic)
  end.
Proof. cbn. unfold mbind, mut_bind. by destruct (body x s) as [s' [[]| |]]. Qed.

Lemma lift_step (r : res E A) s a : r = Ok a -> lift (S := S) r s = (s, Ok a).
Proof. by intros ->. Qed.

Lemma lift_inv (r : res E A) s s' a : lift (S := S) r s = (s', Ok a) -> r = Ok a.
Proof. intros H. exact (f_equal snd H). Qed.

Lemma lift_bind_inv (r : res E A) (f : A -> mut S E B) s s' b :
  (lift r ≫= f) s = (s', Ok b) -> exists a, r = Ok a /\ f a s = (s', Ok b).
Proof. intros (s1 & a & Hr & Hf)%mut_bind_inv. injection Hr as <- ->. by exists a. Qed.
End mut_steps.

Lemma wappend_ok (w1 w2 : writer) b1 b2 :
  w1 = Ok b1 -> w2 = Ok b2 -> (w1 +w+ w2) = Ok (b1 ++ b2).
Proof. by intros -> ->. Qed.

Lemma round_trip_elim {A} (c : Codec A) (P : A -> Prop) a :
  round_trips c P -> P a ->
  exists bs, write_into c a = Ok bs /\ forall rest, read_from c (bs ++ rest) = (rest, Ok a).
Proof.
  intros Hc Ha. destruct (Hc a Ha) as (bs & Hw & Hr). exists bs. split; [done|].
  intros rest. by destruct (Hr rest) as (? & ? & <-).
Qed.

Lemma round_trip_intro {A} (c : Codec A) (P : A -> Prop) :
  (forall a, P a -> exists bs, write_into c a = Ok bs /\
     forall rest, read_from c (bs ++ rest) = (rest, Ok a)) ->
  round_trips c P.
Proof. intros H a Ha. destruct (H a Ha) as (bs & ? & ?). eauto 6. Qed.

Lemma round_trips_weaken {A} (c : Codec A) (P Q : A -> Prop) (R R' : A -> A -> Prop) :
  round_trips_upto c P R -> (forall a, Q a -> P a) -> (forall a a', Q a -> R a a' -> R' a a') ->
  round_trips_upto c Q R'.
Proof.
  intros Hc HP HR a Ha. destruct (Hc a (HP a Ha)) as (bs & Hw & Hr). exists bs. split; [done|].
  intros rest. destruct (Hr rest) as (a' & Hread & Has). exists a'. split; [done|by apply HR].
Qed.

Section many.
Context {F : Field} {IO : ByteIO} {IOL : ByteIOLaws IO}.

Lemma option_round_trip {A} (c : Codec A) (P : A -> Prop) :
  round_trips c P -> round_trips (option_codec c) (fun o => forall a, o = Some a -> P a).
Proof.
  intros Hc o Ho. destruct (option_round_trip_upto c P eq Hc o Ho) as (bs & Hw & Hr).
  exists bs. split; [done|]. intros rest. destruct (Hr rest) as (o' & Hread & Heq). exists o'. split; [done|].
  by destruct Heq as [a a' ->|].
Qed.

Lemma many_round_trip {A} (c : Codec A) (P : A -> Prop) xs :
  round_trips c P -> Forall P xs ->
  exists bs, write_many c xs = Ok bs /\
    forall rest, read_many c (length xs) (bs ++ rest) = (rest, Ok xs).
Proof.
  intros Hc. induction 1 as [|x xs Hx _ (bs & Hw & Hr)].
  - exists []. rewrite write_many_nil. split; [done|]. intros rest. apply read_many_0.
  - destruct (round_trip_elim c P x Hc Hx) as (b1 & Hw1 & Hr1). exists (b1 ++ bs).
    rewrite write_many_cons. split; [by apply wappend_ok|]. intros rest.
    cbn [length]. rewrite read_many_S, <- app_assoc.
    erewrite mut_bind_ok by apply Hr1. by erewrite mut_bind_ok by apply Hr.
Qed.

(** What holds of every value a codec reads holds of every element of a list. *)
Lemma read_many_forall {A} (c : Codec A) (P : A -> Prop) n src rest xs :
  (forall src rest x, read_from c src = (rest, Ok x) -> P x) ->
  read_many c n src = (rest, Ok xs) -> Forall P xs.
Proof.
  intros Hc. revert src rest xs. induction n as [|n IH]; intros src rest xs.
  - rewrite read_many_0. intros [= <- <-]. constructor.
  - rewrite read_many_S. intros (s1 & x & Hx & Hrest)%mut_bind_inv.
    apply mut_bind_inv in Hrest as (s2 & ys & Hys & Hret). injection Hret as _ <-.
    constructor; eauto.
Qed.
End many.

(** ** Codecs of records

    The bytes written by [w] are read back as [v] by [r], whatever follows them. *)
Definition reads_back {A} (w : writer) (r : reader A) (v : A) : Prop :=
  exists bs, w = Ok bs /\ forall rest, r (bs ++ rest) = (rest, Ok v).

Lemma reads_back_cons {A B} (c : Codec A) (P : A -> Prop) (a : A) w (k : A -> reader B) v :
  round_trips c P -> P a -> reads_back w (k a) v ->
  reads_back (write_into c a +w+ w) (read_from c ≫= k) v.
Proof.
  intros Hc Ha (b2 & Hw & Hr). destruct (round_trip_elim c P a Hc Ha) as (b1 & Hw1 & Hr1).
  exists (b1 ++ b2). split; [by apply wappend_ok|]. intros rest. rewrite <- app_assoc.
  by erewrite mut_bind_ok by apply Hr1.
Qed.

Lemma reads_back_last {A B} (c : Codec A) (P : A -> Prop) (a : A) (k : A -> reader B) v :
  round_trips c P -> P a -> (forall rest, k a rest = (rest, Ok v)) ->
  reads_back (write_into c a) (read_from c ≫= k) v.
Proof.
  intros Hc Ha Hk. destruct (round_trip_elim c P a Hc Ha) as (bs & Hw & Hr).
  exists bs. split; [done|]. intros rest. by erewrite mut_bind_ok by apply Hr.
Qed.

Lemma reads_back_round_trips {A} (c : Codec A) (P : A -> Prop) :
  (forall a, P a -> reads_back (write_into c a) (read_from c) a) -> round_trips c P.
Proof. apply round_trip_intro. Qed.

(** The bytes written by [w] are read by [r] as a value with the property [Q]. *)
Definition reads_into {A} (w : writer) (r : reader A) (Q : A -> Prop) : Prop :=
  exists bs, w = Ok bs /\ forall rest, exists v, r (bs ++ rest) = (rest, Ok v) /\ Q v.

Lemma reads_into_cons {A B} (c : Codec A) (P : A -> Prop) (a : A) w (k : A -> reader B) Q :
  round_trips c P -> P a -> reads_into w (k a) Q ->
  reads_into (write_into c a +w+ w) (read_from c ≫= k) Q.
Proof.
  intros Hc Ha (b2 & Hw & Hr). destruct (round_trip_elim c P a Hc Ha) as (b1 & Hw1 & Hr1).
  exists (b1 ++ b2). split; [by apply wappend_ok|]. intros rest. rewrite <- app_assoc.
  erewrite mut_bind_ok by apply Hr1. apply Hr.
Qed.

Lemma reads_into_upto {A B} (c : Codec A) (P : A -> Prop) (R : A -> A -> Prop) (a : A) w (k : A -> reader B) Q :
  round_trips_upto c P R -> P a -> (forall a', R a a' -> reads_into w (k a') Q) ->
  reads_into (write_into c a +w+ w) (read_from c ≫= k) Q.
Proof.
  intros Hc Ha Hk. destruct (Hc a Ha) as (b1 & Hw1 & Hr1).
  destruct (Hr1 []) as (a0 & _ & H0). destruct (Hk a0 H0) as (b2 & Hw2 & _).
  exists (b1 ++ b2). split; [by apply wappend_ok|]. intros rest. rewrite <- app_assoc.
  destruct (Hr1 (b2 ++ rest)) as (a' & Hr & HR). destruct (Hk a' HR) as (b2' & Hw2' & Hr2).
  rewrite Hw2 in Hw2'. injection Hw2' as <-. erewrite mut_bind_ok by exact Hr. apply Hr2.
Qed.

Lemma reads_into_last {A B} (c : Codec A) (P : A -> Prop) (a : A) (k : A -> reader B) v (Q : B -> Prop) :
  round_trips c P -> P a -> (forall rest, k a rest = (rest, Ok v)) -> Q v ->
  reads_into (write_into c a) (read_from c ≫= k) Q.
Proof.
  intros Hc Ha Hk HQ. destruct (round_trip_elim c P a Hc Ha) as (bs & Hw & Hr).
  exists bs. split; [done|]. intros rest. exists v. split; [|done]. by erewrite mut_bind_ok by apply Hr.
Qed.

(** The bytes written by [w] are read by [r] with an outcome that has the property [Q]. *)
Definition reads_out {A} (w : writer) (r : reader A) (Q : res DeserializationError A -> Prop) : Prop :=
  exists bs, w = Ok bs /\ forall rest, Q (snd (r (bs ++ rest))).

Lemma reads_out_cons {A B} (c : Codec A) (P : A -> Prop) (a : A) w (k : A -> reader B) Q :
  round_trips c P -> P a -> reads_out w (k a) Q ->
  reads_out (write_into c a +w+ w) (read_from c ≫= k) Q.
Proof.
  intros Hc Ha (b2 & Hw & Hr). destruct (round_trip_elim c P a Hc Ha) as (b1 & Hw1 & Hr1).
  exists (b1 ++ b2). split; [by apply wappend_ok|]. intros rest. rewrite <- app_assoc.
  erewrite mut_bind_ok by apply Hr1. apply Hr.
Qed.

Lemma reads_out_upto {A B} (c : Codec A) (P : A -> Prop) (R : A -> A -> Prop) (a : A) w (k : A -> reader B) Q :
  round_trips_upto c P R -> P a -> (forall a', R a a' -> reads_out w (k a') Q) ->
  reads_out (write_into c a +w+ w) (read_from c ≫= k) Q.
Proof.
  intros Hc Ha Hk. destruct (Hc a Ha) as (b1 & Hw1 & Hr1).
  destruct (Hr1 []) as (a0 & _ & H0). destruct (Hk a0 H0) as (b2 & Hw2 & _).
  exists (b1 ++ b2). split; [by apply wappend_ok|]. intros rest. rewrite <- app_assoc.
  destruct (Hr1 (b2 ++ rest)) as (a' & Hr & HR). destruct (Hk a' HR) as (b2' & Hw2' & Hr2).
  rewrite Hw2 in Hw2'. injection Hw2' as <-. erewrite mut_bind_ok by exact Hr. apply Hr2.
Qed.

Lemma reads_out_last {A B} (c : Codec A) (P : A -> Prop) (a : A) (k : A -> reader B) (Q : _ -> Prop) :
  round_trips c P -> P a -> (forall rest, Q (snd (k a rest))) ->
  reads_out (write_into c a) (read_from c ≫= k) Q.
Proof.
  intros Hc Ha Hk. destruct (round_trip_elim c P a Hc Ha) as (bs & Hw & Hr).
  exists bs. split; [done|]. intros rest. erewrite mut_bind_ok by apply Hr. apply Hk.
Qed.

(** An outcome that is no value: an error, or a panic. *)
Definition failure {E A} (f : option E) : res E A := match f with Some e => Err e | None => Panic end.

(** A value that is written and whose bytes are not read. *)
Definition unreadable {A} (w : writer) (r : reader A) (f : option DeserializationError) : Prop :=
  reads_out w r (fun o => o = failure f).
Definition writes (w : writer) : Prop := exists bs, w = Ok bs.

Lemma bind_failure {S E A B} (m : mut S E A) (k : A -> mut S E B) s f :
  snd (m s) = failure f -> snd ((m ≫= k) s) = failure f.
Proof. unfold mbind, mut_bind. destruct (m s) as [s' [a|e|]], f; cbn; intros; by simplify_eq. Qed.

(** It makes everything that starts with it unreadable. *)
Lemma unreadable_first {A B} w1 w2 (r : reader A) (k : A -> reader B) f :
  unreadable w1 r f -> writes w2 -> unreadable (w1 +w+ w2) (r ≫= k) f.
Proof.
  intros (b1 & Hw1 & Hr1) (b2 & Hw2). exists (b1 ++ b2). split; [by apply wappend_ok|]. intros rest.
  rewrite <- app_assoc. apply bind_failure, Hr1.
Qed.

Lemma unreadable_only {A B} w (r : reader A) (k : A -> reader B) f : unreadable w r f -> unreadable w (r ≫= k) f.
Proof. intros (bs & Hw & Hr). exists bs. split; [done|]. intros rest. apply bind_failure, Hr. Qed.

Lemma writes_app w1 w2 : writes w1 -> writes w2 -> writes (w1 +w+ w2).
Proof. intros [b1 H1] [b2 H2]. exists (b1 ++ b2). by apply wappend_ok. Qed.

Lemma unreadable_writes {A} w (r : reader A) f : unreadable w r f -> writes w.
Proof. intros (bs & Hw & _). by exists bs. Qed.

Lemma round_trip_writes {A} (c : Codec A) (P : A -> Prop) (R : A -> A -> Prop) a :
  round_trips_upto c P R -> P a -> writes (write_into c a).
Proof. intros Hc Ha. destruct (Hc a Ha) as (bs & Hw & _). by exists bs. Qed.

Section unreadable_lists.
Context {F : Field} {IO : ByteIO} {IOL : ByteIOLaws IO}.

Lemma many_writes {A} (c : Codec A) xs : Forall (fun x => writes (write_into c x)) xs -> writes (write_many c xs).
Proof.
  induction 1 as [|x xs Hx _ IH]; [exists []; apply write_many_nil|]. rewrite write_many_cons. by apply writes_app.
Qed.

(** A list is not read when one of its elements is not. *)
Lemma many_unreadable {A} (c : Codec A) (P : A -> Prop) f xs : round_trips c P ->
  Forall (fun x => P x \/ unreadable (write_into c x) (read_from c) f) xs ->
  Exists (fun x => ~ P x) xs -> unreadable (write_many c xs) (read_many c (length xs)) f.
Proof.
  intros Hc Hall Hex. assert (Hw : Forall (fun x => writes (write_into c x)) xs).
  { apply (Forall_impl _ _ _ Hall). intros x [Hx|Hx]; [by apply (round_trip_writes c P eq)|by eapply unreadable_writes]. }
  induction Hall as [|x xs Hx Hall IH]; [by apply Exists_nil in Hex|]. apply Forall_cons in Hw as [Hwx Hw].
  rewrite write_many_cons. cbn [length]. destruct Hx as [Hx|Hx].
  - apply Exists_cons in Hex as [Hex|Hex]; [done|]. destruct (round_trip_elim c P x Hc Hx) as (b1 & Hw1 & Hr1).
    destruct (IH Hex Hw) as (b2 & Hw2 & Hr2). exists (b1 ++ b2). split; [by apply wappend_ok|]. intros rest.
    rewrite read_many_S, <- app_assoc. erewrite mut_bind_ok by apply Hr1. apply bind_failure, Hr2.
  - destruct (unreadable_first _ (write_many c xs) _ (fun x => xs ← read_many c (length xs); mret (x :: xs)) f Hx
      (many_writes c xs Hw)) as (bs & Hwb & Hr).
    exists bs. split; [done|]. intros rest. rewrite read_many_S. apply Hr.
Qed.
End unreadable_lists.

(** The codecs whose round trip is known, for the fields of a record. *)
Create HintDb codec.
#[export] Hint Resolve u8_round_trip u16_round_trip u32_round_trip u64_round_trip felt_round_trip
  word_round_trip digest_round_trip NodeIndex_round_trip path_round_trip program_round_trip : codec.

(** Goes through the fields in order; the conditions on their values are left. *)
Ltac fields :=
  repeat first
    [ eapply reads_back_cons; [solve [eauto with codec]|..|]; [try exact I|]
    | eapply reads_back_last; [solve [eauto with codec]|..]; [try exact I|] ].

(** ** Collisions *)

Section collisions.
Context `{F : Field} {C : Crypto}.

(** Two different inputs of a hash function with one image. *)
Definition hash_collision (xs ys : list Felt) : Prop := xs <> ys /\ hash_elements xs = hash_elements ys.
Definition merge_collision (p q : Digest * Digest) : Prop :=
  p <> q /\ merge p.1 p.2 = merge q.1 q.2.

Lemma hash_equal (xs ys : list Felt) :
  hash_elements xs = hash_elements ys -> xs = ys \/ hash_collision xs ys.
Proof. intros H. destruct (decide (xs = ys)); [by left|by right]. Qed.

Lemma merge_equal (p q : Digest * Digest) : merge p.1 p.2 = merge q.1 q.2 -> p = q \/ merge_collision p q.
Proof. intros H. destruct (decide (p = q)); [by left|by right]. Qed.

Lemma word_elements_app_inj (v w : Word) (xs ys : list Felt) :
  word_elements v ++ xs = word_elements w ++ ys -> v = w /\ xs = ys.
Proof. destruct v, w. cbn. intros [= -> -> -> -> ->]. done. Qed.
End collisions.

(** ** Merkle paths bind *)
Section paths.
Context `{F : Field} {C : Crypto} {MK : Merkle} {ML : MerkleLaws MK}.

(** Two paths merge different pairs to one digest at the same level. *)
Definition paths_collide (p q : list Digest) (i : Z) (n m : Digest) : Prop :=
  exists k a b, path_pairs p i n !! k = Some a /\ path_pairs q i m !! k = Some b /\ merge_collision a b.

(** Two paths of one length from one position to one root start at one node. *)
Lemma path_binds (p q : list Digest) (i : Z) (n m r : Digest) :
  length p = length q -> path_verify p i n r = true -> path_verify q i m r = true ->
  n = m \/ paths_collide p q i n m.
Proof.
  revert q i n m. induction p as [|s p IH]; intros [|t q] i n m Hlen; try done.
  - rewrite !path_verify_nil, !bool_decide_eq_true. intros [_ ->] [_ ->]. by left.
  - rewrite !path_verify_cons. injection Hlen as Hlen. intros Hp Hq.
    set (a := if decide (i mod 2 = 0) then (n, s) else (s, n)).
    set (b := if decide (i mod 2 = 0) then (m, t) else (t, m)).
    replace (if decide (i mod 2 = 0) then merge n s else merge s n) with (merge a.1 a.2) in Hp
      by (unfold a; by case_decide).
    replace (if decide (i mod 2 = 0) then merge m t else merge t m) with (merge b.1 b.2) in Hq
      by (unfold b; by case_decide).
    destruct (IH q (i / 2) _ _ Hlen Hp Hq) as [Heq|(k & x & y & Hx & Hy & Hc)].
    + destruct (merge_equal a b Heq) as [Hab|Hc].
      * left. unfold a, b in Hab. case_decide; congruence.
      * right. by exists 0%nat, a, b.
    + right. by exists (S k), x, y.
Qed.
End paths.
