(* ===== verification/Reference.v ===== *)
(** Instances of the interfaces: canonical field elements, trees kept as finite
    maps, a polynomial hash and a little-endian byte format.  They prove every
    law class of [Interfaces] consistent, and the witnesses of the development
    evaluate the definitions on them. *)
From Stdlib Require Import Ascii.
From stdpp Require Import gmap.
From S2P Require Import Prelude Interfaces.
Local Open Scope Z_scope.

(** ** Field *)

Definition in_field (z : Z) : bool := bool_decide (0 <= z < MODULUS).

Lemma in_field_true z : in_field z = true <-> 0 <= z < MODULUS.
Proof. apply bool_decide_eq_true. Qed.

Record RFelt := mkRFelt { rf_val : Z; rf_ok : in_field rf_val = true }.

(** The proof component computes to [eq_refl] on a closed argument. *)
Definition rfelt (z : Z) : RFelt :=
  match Sumbool.sumbool_of_bool (in_field (z mod MODULUS)) with
  | left H => mkRFelt (z mod MODULUS) H
  | right _ => mkRFelt 0 eq_refl
  end.

Lemma rfelt_eq (x y : RFelt) : rf_val x = rf_val y -> x = y.
Proof.
  destruct x as [x Hx], y as [y Hy]; cbn. intros ->. f_equal.
  apply Eqdep_dec.UIP_dec. apply Bool.bool_dec.
Qed.

Lemma rf_val_rfelt z : rf_val (rfelt z) = z mod MODULUS.
Proof.
  unfold rfelt. destruct (Sumbool.sumbool_of_bool _) as [H|H]; [done|].
  rewrite (proj2 (in_field_true _)) in H; [done|]. by apply Z.mod_pos_bound.
Qed.

Lemma rfelt_val x : rfelt (rf_val x) = x.
Proof.
  apply rfelt_eq. rewrite rf_val_rfelt. apply Z.mod_small.
  destruct x as [x Hx]. by apply in_field_true.
Qed.

#[local] Instance RFelt_eq_dec : EqDecision RFelt.
Proof.
  refine (fun x y => match decide (rf_val x = rf_val y) with
    | left H => left (rfelt_eq x y H) | right H => right _ end).
  by intros ->.
Defined.

#[local] Instance RFelt_countable : Countable RFelt :=
  inj_countable' rf_val rfelt rfelt_val.

#[local] Instance RefField : Field := {
  Felt := RFelt;
  Felt_eq_dec := RFelt_eq_dec;
  Felt_new := rfelt;
  as_int := rf_val;
  felt_add x y := rfelt (rf_val x + rf_val y);
  felt_sub x y := rfelt (rf_val x - rf_val y);
  Felt_try_from_bytes bs :=
    if decide (length bs = 8%nat) then
      if decide (from_le_bytes bs < MODULUS) then Ok (rfelt (from_le_bytes bs))
      else Err "not a canonical field element"%string
    else Err "expected 8 bytes"%string;
  Felt_try_from_u64 v := if decide (v < MODULUS) then Ok (rfelt v) else Err "not a canonical field element"%string
}.

#[local] Instance RefFieldLaws : FieldLaws RefField.
Proof.
  split; cbn -[to_le_bytes from_le_bytes MODULUS].
  - intros [x Hx]. by apply in_field_true.
  - apply rfelt_eq.
  - intros v _. apply rf_val_rfelt.
  - intros x y. apply rf_val_rfelt.
  - intros x y. apply rf_val_rfelt.
  - intros v Hv. rewrite from_to_le_bytes by (unfold MODULUS in Hv; lia).
    by rewrite length_to_le_bytes, !decide_True by lia.
  - intros v Hv. rewrite from_to_le_bytes by (unfold MODULUS in Hv; lia).
    rewrite length_to_le_bytes, decide_True, decide_False by lia. eauto.
  - intros v Hv. by rewrite decide_True by lia.
  - intros v Hv. rewrite decide_False by lia. eauto.
Qed.

(** ** Hash and Merkle trees *)

#[local] Instance RWord_countable : Countable Word :=
  inj_countable' (fun w : Word => (w0 w, w1 w, w2 w, w3 w))
    (fun t => let '(a, b, c, d) := t in mkWord a b c d)
    (fun w => match w with mkWord _ _ _ _ => eq_refl end).

Definition poly_hash (base : Z) (xs : list RFelt) : RFelt :=
  foldl (fun acc x => rfelt (rf_val acc * base + rf_val x + 1)) (rfelt 7) xs.

Definition ref_hash (xs : list RFelt) : Word :=
  mkWord (poly_hash 6364136223846793005 xs) (poly_hash 1442695040888963407 xs)
         (poly_hash 2862933555777941757 xs) (poly_hash 3202034522624059733 xs).

Definition ref_get {K} `{Countable K} (t : gmap K Word) (k : K) : Word :=
  default EMPTY_WORD (t !! k).

(** The entries that are not empty. *)
Definition ref_full {K} `{Countable K} (t : gmap K Word) : gmap K Word :=
  filter (fun e => snd e <> EMPTY_WORD) t.

Definition ref_ssmt_valid (d : Z) (es : list (Z * Word)) : Prop :=
  NoDup es.*1 /\ Forall (fun e => 0 <= fst e < 2 ^ d) es.
#[local] Instance ref_ssmt_valid_dec d es : Decision (ref_ssmt_valid d es).
Proof. unfold ref_ssmt_valid. apply _. Defined.

Definition hex_value (c : Ascii.ascii) : option Z :=
  let n := Z.of_nat (Ascii.nat_of_ascii c) in
  if decide (48 <= n < 58) then Some (n - 48)
  else if decide (97 <= n < 103) then Some (n - 87) else None.
Fixpoint hex_decode (s : string) : option (list Z) :=
  match s with
  | EmptyString => Some []
  | String a (String b s') =>
      match hex_value a, hex_value b, hex_decode s' with
      | Some x, Some y, Some bs => Some (x * 16 + y :: bs)
      | _, _, _ => None
      end
  | _ => None
  end.
Definition ref_hex_to_bytes (n : nat) (s : string) : res string (list Z) :=
  match s with
  | String "0"%char (String "x"%char s') =>
      match hex_decode s' with
      | Some bs => if decide (length bs = n) then Ok bs else Err "invalid length"%string
      | None => Err "invalid character"%string
      end
  | _ => Err "missing prefix"%string
  end.

(** The node of a tree of leaves [t] at height [h] and position [k]. *)
Definition ref_merge (a b : Word) : Word := ref_hash (word_elements a ++ word_elements b).
Fixpoint ref_node (t : gmap Z Word) (h : nat) (k : Z) : Word :=
  match h with
  | O => ref_get t k
  | S h' => ref_merge (ref_node t h' (2 * k)) (ref_node t h' (2 * k + 1))
  end.

#[local] Instance RefCrypto : Crypto := {
  hash_elements := ref_hash;
  hash_bytes bs := ref_hash (rfelt <$> bs);
  digest_bytes d := x ← word_elements d; to_le_bytes 8 (as_int x);
  digest_cmp a b := Z.compare (as_int (w3 a)) (as_int (w3 b));
  merge := ref_merge;
  MerkleError := unit;
  Smt := gmap Word Word;
  Smt_new := ∅;
  Smt_with_entries es := if decide (NoDup es.*1) then Ok (list_to_map es) else Err tt;
  Smt_get_value := ref_get;
  Smt_insert t k v := (<[k := v]> t, ref_get t k);
  Smt_entries t := map_to_list (ref_full t);
  Smt_root t := ref_hash
    (map_to_list (ref_full t) ≫= fun e => word_elements (fst e) ++ word_elements (snd e));
  SimpleSmt d := gmap Z Word;
  SimpleSmt_with_leaves d es :=
    if decide (ref_ssmt_valid d es) then Ok (list_to_map es) else Err tt;
  SimpleSmt_get d t i := ref_get t i;
  SimpleSmt_insert d t i v := (<[i := v]> t, ref_get t i);
  SimpleSmt_leaves d t := map_to_list (filter (fun e => 0 <= fst e < 2 ^ d) (ref_full t));
  SimpleSmt_root d t := if decide (0 <= d) then ref_node t (Z.to_nat d) 0 else EMPTY_WORD;
  hex_to_bytes := ref_hex_to_bytes
}.

Section trees.
Context {K : Type} `{Countable K}.
Implicit Types (t : gmap K Word) (k : K) (v : Word).

Lemma ref_get_insert t k v k' :
  ref_get (<[k := v]> t) k' = if decide (k = k') then v else ref_get t k'.
Proof. unfold ref_get. rewrite lookup_insert. by case_decide. Qed.

Lemma ref_get_list (es : list (K * Word)) k :
  NoDup es.*1 -> ref_get (list_to_map es) k = entry_or es k EMPTY_WORD.
Proof.
  induction es as [|[k' v] es IH]; cbn; [by intros|].
  intros [_ Hnd]%NoDup_cons. rewrite ref_get_insert. by rewrite IH.
Qed.

Lemma elem_of_ref_full t k v :
  (k, v) ∈ map_to_list (ref_full t) <-> ref_get t k = v /\ v <> EMPTY_WORD.
Proof.
  rewrite elem_of_map_to_list. unfold ref_full, ref_get. rewrite map_lookup_filter_Some. cbn.
  destruct (t !! k) as [u|]; cbn; naive_solver.
Qed.

Lemma ref_full_ext (P : K * Word -> Prop) `{forall e, Decision (P e)} t t' :
  (forall k v, P (k, v) -> ref_get t k = ref_get t' k) ->
  filter P (ref_full t) = filter P (ref_full t').
Proof.
  intros Heq. apply map_eq. intros k. apply option_eq. intros v.
  unfold ref_full. rewrite !map_lookup_filter_Some. cbn.
  specialize (Heq k v). unfold ref_get in Heq.
  destruct (t !! k), (t' !! k); cbn in *; naive_solver.
Qed.
End trees.

Lemma ref_node_ext (t t' : gmap Z Word) (h : nat) (k : Z) :
  (forall i, k * 2 ^ Z.of_nat h <= i < (k + 1) * 2 ^ Z.of_nat h -> ref_get t i = ref_get t' i) ->
  ref_node t h k = ref_node t' h k.
Proof.
  revert k. induction h as [|h IH]; intros k Heq; [apply Heq; lia|].
  assert (Hp : 2 ^ Z.of_nat (S h) = 2 * 2 ^ Z.of_nat h) by (rewrite Nat2Z.inj_succ; apply Z.pow_succ_r; lia).
  rewrite Hp in Heq. cbn [ref_node]. rewrite (IH (2 * k)), (IH (2 * k + 1)); [done|..];
    intros i Hi; apply Heq; nia.
Qed.

#[local] Instance RefDigestLaws : DigestLaws RefCrypto.
Proof.
  split. intros [a0 a1 a2 a3] [b0 b1 b2 b3] Heq.
  assert (Hinj : forall x y : Felt, to_le_bytes 8 (as_int x) = to_le_bytes 8 (as_int y) -> x = y).
  { intros x y Hxy. apply as_int_inj. apply (f_equal from_le_bytes) in Hxy.
    pose proof (as_int_u64 x). pose proof (as_int_u64 y).
    by rewrite !from_to_le_bytes in Hxy by (change (256 ^ Z.of_nat 8) with (2 ^ 64); lia). }
  unfold digest_bytes, RefCrypto in Heq. unfold word_elements in Heq.
  rewrite !bind_cons in Heq. cbn [w0 w1 w2 w3] in Heq.
  apply app_inj_1 in Heq as [H0 Heq]; [|by rewrite !length_to_le_bytes].
  apply app_inj_1 in Heq as [H1 Heq]; [|by rewrite !length_to_le_bytes].
  apply app_inj_1 in Heq as [H2 Heq]; [|by rewrite !length_to_le_bytes].
  apply app_inj_1 in Heq as [H3 _]; [|by rewrite !length_to_le_bytes].
  f_equal; by apply Hinj.
Qed.

#[local] Instance RefSmtLaws : SmtLaws RefCrypto.
Proof.
  split; cbn.
  - intros k. unfold ref_get. by rewrite lookup_empty.
  - intros t k v k'. apply ref_get_insert.
  - done.
  - intros es Hnd. rewrite decide_True by done. eexists. split; [done|].
    intros k. by apply ref_get_list.
  - intros es Hd. rewrite decide_False by done. eauto.
  - intros t. apply NoDup_fst_map_to_list.
  - intros t k v. apply elem_of_ref_full.
  - intros t t' Heq. pose proof (ref_full_ext (fun _ => True) t t' (fun k _ _ => Heq k)) as Hf.
    rewrite !map_filter_id in Hf by done. by rewrite Hf.
Qed.

#[local] Instance RefSimpleSmtLaws : SimpleSmtLaws RefCrypto.
Proof.
  split; cbn.
  - intros d es Hnd Hr. rewrite decide_True by (split; done). eexists. split; [done|].
    intros i _. by apply ref_get_list.
  - intros d es Hbad. rewrite decide_False by done. eauto.
  - intros d t i v j _. apply ref_get_insert.
  - done.
  - intros d t. apply NoDup_fst_map_to_list.
  - intros d t i v. rewrite elem_of_map_to_list, map_lookup_filter_Some, <- elem_of_map_to_list.
    rewrite elem_of_ref_full. cbn. naive_solver.
  - intros d t i Hi Hne. rewrite elem_of_map_to_list, map_lookup_filter_Some, <- elem_of_map_to_list.
    by rewrite elem_of_ref_full.
  - intros d t t' Heq. case_decide; [|done]. apply ref_node_ext. intros i Hi. apply Heq.
    rewrite Z2Nat.id in Hi by done. lia.
Qed.

Lemma hex_value_digit d : 0 <= d < 16 -> hex_value (hex_digit d) = Some d.
Proof.
  intros Hd.
  assert (d ∈ [0;1;2;3;4;5;6;7;8;9;10;11;12;13;14;15]) as Hin by (rewrite list_elem_of_In; cbn; lia).
  repeat (apply elem_of_cons in Hin as [->|Hin]; [reflexivity|]). by apply elem_of_nil in Hin.
Qed.

Lemma hex_decode_bytes bs : Forall is_byte bs -> hex_decode (hex_of_bytes bs) = Some bs.
Proof.
  induction 1 as [|b bs Hb _ IH]; [done|]. unfold is_byte in Hb.
  cbn [hex_of_bytes hex_decode]. rewrite !hex_value_digit, IH.
  - do 2 f_equal. pose proof (Z.div_mod b 16). lia.
  - apply Z.mod_pos_bound. lia.
  - split; [apply Z.div_pos|apply Z.div_lt_upper_bound]; lia.
Qed.

#[local] Instance RefHexLaws : HexLaws RefCrypto.
Proof.
  split. intros bs Hbs.
  transitivity (match hex_decode (hex_of_bytes bs) with
    | Some bs' => if decide (length bs' = length bs) then Ok bs' else Err "invalid length"%string
    | None => Err "invalid character"%string end); [reflexivity|].
  rewrite hex_decode_bytes by done. by rewrite decide_True.
Qed.

(** ** Byte streams *)

Definition ref_read_vec (n : nat) : reader (list Z) := fun src =>
  if decide (n <= length src)%nat then (drop n src, Ok (take n src)) else (src, Err UnexpectedEOF).

Definition le_codec (n : nat) : Codec Z := {|
  write_into v := Ok (to_le_bytes n v);
  read_from := bs ← ref_read_vec n; mret (from_le_bytes bs)
|}.

Definition ref_felt_codec : Codec Felt := {|
  write_into x := Ok (to_le_bytes 8 (rf_val x));
  read_from := v ← read_from (le_codec 8);
    lift (if decide (v < MODULUS) then Ok (rfelt v) else Err (InvalidValue "field element"%string))
|}.

Definition ref_word_codec : Codec Word := {|
  write_into w := write_into ref_felt_codec (w0 w) +w+ write_into ref_felt_codec (w1 w) +w+
                  write_into ref_felt_codec (w2 w) +w+ write_into ref_felt_codec (w3 w);
  read_from := a ← read_from ref_felt_codec; b ← read_from ref_felt_codec;
    c ← read_from ref_felt_codec; d ← read_from ref_felt_codec; mret (mkWord a b c d)
|}.

Definition ref_option_codec {A} (c : Codec A) : Codec (option A) := {|
  write_into o := match o with
    | None => Ok [0] | Some a => Ok [1] +w+ write_into c a end;
  read_from := t ← read_from (le_codec 1);
    if decide (t = 0) then mret None
    else if decide (t = 1) then a ← read_from c; mret (Some a)
    else lift (Err (InvalidValue "option tag"%string))
|}.

Definition ref_pair_codec {A B} (ca : Codec A) (cb : Codec B) : Codec (A * B) := {|
  write_into p := write_into ca (fst p) +w+ write_into cb (snd p);
  read_from := a ← read_from ca; b ← read_from cb; mret (a, b)
|}.

Fixpoint ref_write_many {A} (c : Codec A) (xs : list A) : writer :=
  match xs with [] => Ok [] | x :: xs' => write_into c x +w+ ref_write_many c xs' end.
Fixpoint ref_read_many {A} (c : Codec A) (n : nat) : reader (list A) :=
  match n with
  | O => mret []
  | S n' => x ← read_from c; xs ← ref_read_many c n'; mret (x :: xs)
  end.

#[local] Instance RefByteIO : ByteIO := {
  u8_codec := le_codec 1;
  u16_codec := le_codec 2;
  u32_codec := le_codec 4;
  u64_codec := le_codec 8;
  felt_codec := ref_felt_codec;
  word_codec := ref_word_codec;
  digest_codec := ref_word_codec;
  option_codec := @ref_option_codec;
  pair_codec := @ref_pair_codec;
  write_bytes := Ok;
  read_vec := ref_read_vec;
  write_many := @ref_write_many;
  read_many := @ref_read_many
}.

Lemma ref_read_vec_app bs rest : ref_read_vec (length bs) (bs ++ rest) = (rest, Ok bs).
Proof.
  unfold ref_read_vec. rewrite decide_True by (rewrite length_app; lia).
  by rewrite drop_app_length, take_app_length.
Qed.

Lemma le_codec_read n v rest :
  0 <= v < 256 ^ Z.of_nat n ->
  read_from (le_codec n) (to_le_bytes n v ++ rest) = (rest, Ok v).
Proof.
  intros Hv. cbn [read_from le_codec].
  rewrite <- (length_to_le_bytes n v) at 1.
  erewrite mut_bind_ok by apply ref_read_vec_app. by rewrite from_to_le_bytes.
Qed.

Lemma le_codec_round_trip n m :
  2 ^ m = 256 ^ Z.of_nat n -> round_trips (le_codec n) (fun v => 0 <= v < 2 ^ m).
Proof.
  intros Hm. apply round_trip_intro. intros v Hv. eexists. split; [done|].
  intros rest. apply le_codec_read. by rewrite <- Hm.
Qed.

Lemma ref_felt_read x rest :
  read_from ref_felt_codec (to_le_bytes 8 (rf_val x) ++ rest) = (rest, Ok x).
Proof.
  pose proof (as_int_range (F := RefField) x) as Hx. cbn in Hx.
  cbn [read_from ref_felt_codec]. erewrite mut_bind_ok.
  2:{ apply le_codec_read. unfold MODULUS in Hx. cbn. lia. }
  unfold lift. rewrite decide_True by lia. by rewrite rfelt_val.
Qed.

Lemma ref_word_round_trip : round_trips ref_word_codec (fun _ => True).
Proof.
  apply round_trip_intro. intros [a b c d] _. eexists.
  split; [cbn -[to_le_bytes]; reflexivity|]. intros rest.
  cbn [read_from ref_word_codec]. rewrite <- !app_assoc.
  do 4 (erewrite mut_bind_ok by apply ref_felt_read). done.
Qed.

#[local] Instance RefByteIOLaws : ByteIOLaws RefByteIO.
Proof.
  split.
  - by apply le_codec_round_trip.
  - by apply le_codec_round_trip.
  - by apply le_codec_round_trip.
  - by apply le_codec_round_trip.
  - apply round_trip_intro. intros x _. eexists. split; [done|]. apply ref_felt_read.
  - apply ref_word_round_trip.
  - apply ref_word_round_trip.
  - intros A c P R Hc [a|] Ha.
    + destruct (Hc a (Ha a eq_refl)) as (bs & Hw & Hr).
      exists (1 :: bs). cbn. rewrite Hw. split; [done|]. intros rest. destruct (Hr rest) as (a' & Hr' & HR).
      exists (Some a'). split; [|by constructor].
      erewrite mut_bind_ok by (apply (le_codec_read 1 1 (bs ++ rest)); done).
      rewrite decide_False, decide_True by done.
      by erewrite mut_bind_ok by apply Hr'.
    + eexists. split; [done|]. intros rest. exists None. by split; [|constructor].
  - intros A B ca cb P Q Ha Hb. apply round_trip_intro. intros [a b] [HP HQ]. cbn in HP, HQ.
    destruct (round_trip_elim ca P a Ha HP) as (b1 & Hw1 & Hr1).
    destruct (round_trip_elim cb Q b Hb HQ) as (b2 & Hw2 & Hr2).
    exists (b1 ++ b2). split; [by apply wappend_ok|]. intros rest. rewrite <- app_assoc.
    cbn. erewrite mut_bind_ok by apply Hr1. by erewrite mut_bind_ok by apply Hr2.
  - intros bs rest. split; [done|]. apply ref_read_vec_app.
  - done.
  - done.
  - done.
  - done.
Qed.

(** ** Merkle paths *)

(** The siblings from height [h] and position [i] up, for [n] levels. *)
Fixpoint ref_path (t : gmap Z Word) (h : nat) (i : Z) (n : nat) : list Word :=
  match n with
  | O => []
  | S n' => ref_node t h (sibling i) :: ref_path t (S h) (i / 2) n'
  end.
Fixpoint ref_verify (p : list Word) (i : Z) (n r : Word) : bool :=
  match p with
  | [] => bool_decide (i = 0 /\ n = r)
  | s :: p' => ref_verify p' (i / 2) (if decide (i mod 2 = 0) then ref_merge n s else ref_merge s n) r
  end.

(** A chain is the number of its blocks, those tracked, and their hashes. *)
Record RefMmr := mkRefMmr { ref_hashes : list Word; ref_tracked : list Z }.

#[local] Instance RefMerkle : Merkle := {
  NodeIndex := Z * Z;
  NodeIndex_new d v := if decide (v < 2 ^ d) then Ok (d, v) else Err tt;
  NodeIndex_value n := snd n;
  NodeIndex_codec := {|
    write_into n := Ok (fst n :: snd n :: []);
    read_from src := match src with a :: b :: src' => (src', Ok (a, b)) | _ => (src, Err UnexpectedEOF) end
  |};
  path_verify := ref_verify;
  path_codec := {|
    write_into p := write_into (le_codec 1) (Z.of_nat (length p)) +w+ ref_write_many ref_word_codec p;
    read_from := n ← read_from (le_codec 1); ref_read_many ref_word_codec (Z.to_nat n)
  |};
  LeafIndex d := Z;
  LeafIndex_new d v := if decide (v < 2 ^ d) then Ok v else Err tt;
  SimpleSmt_new d := Ok ∅;
  SimpleSmt_with_contiguous_leaves d ws := SimpleSmt_with_leaves d (imap (fun j w => (Z.of_nat j, w)) ws);
  SimpleSmt_open d t i := ref_path t 0 i (Z.to_nat d);
  SimpleSmt_num_leaves d t := Z.of_nat (length (SimpleSmt_leaves (d := d) t));
  InnerNodeInfo := Word * Word * Word;
  inner_node v l r := (v, l, r);
  path_inner_nodes p i n :=
    if decide (i < 2 ^ Z.of_nat (length p))
    then Ok (map (fun pr => (ref_merge pr.1 pr.2, pr.1, pr.2)) (path_pairs p i n)) else Err tt;
  SimpleSmt_inner_nodes _ _ := [];
  Smt_inner_nodes _ := [];
  Smt_leaf_data t := map (fun e => (fst e, word_elements (fst e) ++ word_elements (snd e))) (Smt_entries t);
  PartialMmr := RefMmr;
  mmr_forest m := Z.of_nat (length (ref_hashes m));
  mmr_is_tracked m i := bool_decide (i ∈ ref_tracked m);
  mmr_add m d track := mkRefMmr (ref_hashes m ++ [d])
    (if track then Z.of_nat (length (ref_hashes m)) :: ref_tracked m else ref_tracked m);
  mmr_inner_nodes m ls := [];
  MmrPeaks := list Word;
  mmr_peaks m := ref_hashes m;
  hash_peaks p := ref_hash (concat (map word_elements p));
  peaks_num_leaves p := Z.of_nat (length p);
  flatten_and_pad_peaks p := concat (map word_elements p)
}.

Lemma ref_verify_path (t : gmap Z Word) (n h : nat) (i : Z) :
  0 <= i < 2 ^ Z.of_nat n ->
  ref_verify (ref_path t h i n) i (ref_node t h i) (ref_node t (h + n) 0) = true.
Proof.
  revert h i. induction n as [|n IH]; intros h i Hi.
  - cbn in *. replace i with 0 by lia. rewrite Nat.add_0_r. by apply bool_decide_eq_true.
  - cbn [ref_path ref_verify]. unfold sibling. rewrite Nat2Z.inj_succ, Z.pow_succ_r in Hi by lia.
    pose proof (Z.div_mod i 2). pose proof (Z.mod_pos_bound i 2).
    rewrite <- Nat.add_succ_comm.
    assert (Hn : ref_node t (S h) (i / 2) = if decide (i mod 2 = 0)
      then ref_merge (ref_node t h i) (ref_node t h (i + 1)) else ref_merge (ref_node t h (i - 1)) (ref_node t h i)).
    { cbn [ref_node]. case_decide.
      - by replace (2 * (i / 2)) with i by lia.
      - by replace (2 * (i / 2)) with (i - 1) by lia; replace (i - 1 + 1) with i by lia. }
    destruct (decide (i mod 2 = 0)); rewrite <- Hn; apply IH; lia.
Qed.

#[local] Instance RefMerkleLaws : MerkleLaws RefMerkle.
Proof.
  split.
  - intros d v _ Hv. exists (d, v). cbn [NodeIndex_new RefMerkle]. by rewrite decide_True by lia.
  - intros d v _ Hv. exists tt. cbn [NodeIndex_new RefMerkle]. by rewrite decide_False by lia.
  - apply round_trip_intro. intros [a b] _. exists [a; b]. done.
  - apply round_trip_intro. intros p Hp.
    destruct (many_round_trip ref_word_codec (fun _ => True) p ref_word_round_trip) as (bs & Hw & Hr).
    { by apply Forall_true. }
    exists (to_le_bytes 1 (Z.of_nat (length p)) ++ bs). split; [by apply wappend_ok|].
    intros rest. rewrite <- app_assoc. cbn [read_from path_codec RefMerkle].
    erewrite mut_bind_ok by (apply le_codec_read; cbn in *; lia). rewrite Nat2Z.id. apply Hr.
  - done.
  - done.
  - intros p i n _ Hi. cbn [path_inner_nodes RefMerkle]. by rewrite decide_True by lia.
  - intros p i n _ Hi. exists tt. cbn [path_inner_nodes RefMerkle]. by rewrite decide_False by lia.
  - intros d v _ Hv. exists v. cbn [LeafIndex_new RefMerkle]. by rewrite decide_True by lia.
  - intros d v _ Hv. exists tt. cbn [LeafIndex_new RefMerkle]. by rewrite decide_False by lia.
  - intros d v t i Hd Hv Hi. cbn [LeafIndex_new RefMerkle] in Hi. rewrite decide_True in Hi by lia.
    injection Hi as <-. cbn [SimpleSmt_open SimpleSmt_get SimpleSmt_root RefMerkle RefCrypto path_verify].
    rewrite decide_True by lia. split.
    + apply (ref_verify_path t (Z.to_nat d) 0 v). by rewrite Z2Nat.id by lia.
    + destruct (Z.to_nat d) eqn:Hn; [lia|]. by eexists.
  - intros d t i _. cbn. generalize (Z.to_nat d) as n, 0%nat as h. intros n. revert i.
    induction n as [|n IH]; intros i h; cbn; [done|]. by rewrite IH.
  - intros d _. exists ∅. split; [done|]. intros i _. cbn. unfold ref_get. by rewrite lookup_empty.
  - done.
  - done.
  - intros m d track. cbn. rewrite length_app. cbn. lia.
  - intros m d track i. cbn. rewrite !bool_decide_eq_true. destruct track; set_solver.
Qed.

(** ** Assembler

    A module is the list of its procedure roots, and compiling it returns them. *)

#[local] Instance RefAssembly : Assembly := {
  AssemblyError := unit;
  ModuleAst := list Word;
  ModuleAst_eq_dec := list_eq_dec;
  Assembler := unit;
  compile_module _ m := Ok m;
  module_bare m := Z.of_nat (length m) < 2 ^ 32;
  module_codec := {|
    write_into m := write_into (le_codec 4) (Z.of_nat (length m)) +w+ ref_write_many ref_word_codec m;
    read_from := n ← read_from (le_codec 4); ref_read_many ref_word_codec (Z.to_nat n)
  |}
}.

#[local] Instance RefAssemblyLaws : AssemblyLaws RefAssembly.
Proof.
  split. apply round_trip_intro. intros m Hm.
  destruct (many_round_trip ref_word_codec (fun _ => True) m ref_word_round_trip) as (bs & Hw & Hr).
  { by apply Forall_true. }
  exists (to_le_bytes 4 (Z.of_nat (length m)) ++ bs). split; [by apply wappend_ok|].
  intros rest. rewrite <- app_assoc. cbn [read_from module_codec RefAssembly].
  erewrite mut_bind_ok by (apply le_codec_read; cbn in *; lia).
  rewrite Nat2Z.id. apply Hr.
Qed.

(** A program is a list of bytes, written after its length; its hash is the hash
    of the bytes. *)
Definition ref_program_codec : Codec (list Z) := {|
  write_into p := Ok (to_le_bytes 4 (Z.of_nat (length p)) ++ map (fun b => b mod 256) p);
  read_from := n ← read_from (le_codec 4); ref_read_vec (Z.to_nat n)
|}.

#[local] Instance RefPrograms : Programs := {
  ProgramAst := list Z;
  ProgramAst_eq_dec := list_eq_dec;
  CodeBlock := Word;
  code_block_hash b := b;
  compile_in_context _ p := Ok (ref_hash (map rfelt p));
  program_bare p := Forall is_byte p /\ Z.of_nat (length p) < 2 ^ 32;
  program_codec := ref_program_codec;
  program_to_bytes p := to_le_bytes 4 (Z.of_nat (length p)) ++ map (fun b => b mod 256) p;
  program_from_bytes bs := snd (read_from ref_program_codec bs)
}.

Lemma ref_program_read p rest :
  Forall is_byte p -> Z.of_nat (length p) < 2 ^ 32 ->
  read_from ref_program_codec ((to_le_bytes 4 (Z.of_nat (length p)) ++ map (fun b => b mod 256) p) ++ rest)
  = (rest, Ok p).
Proof.
  intros Hp Hlen.
  assert (Hmap : map (fun b => b mod 256) p = p).
  { clear Hlen. induction Hp as [|b p Hb _ IH]; cbn; [done|]. by rewrite IH, Z.mod_small. }
  rewrite Hmap, <- app_assoc. cbn [read_from ref_program_codec].
  erewrite mut_bind_ok by (apply le_codec_read; cbn; lia). rewrite Nat2Z.id. apply ref_read_vec_app.
Qed.

#[local] Instance RefProgramLaws : ProgramLaws RefPrograms.
Proof.
  split.
  - apply round_trip_intro. intros p [Hp Hlen]. eexists. split; [done|].
    intros rest. by apply ref_program_read.
  - intros p. apply Forall_app. split; [apply to_le_bytes_range|].
    apply Forall_forall. intros b Hb. apply list_elem_of_fmap in Hb as (c & -> & _).
    apply Z.mod_pos_bound. lia.
  - intros p rest [Hp Hlen]. cbn [program_to_bytes program_from_bytes RefPrograms].
    by rewrite ref_program_read.
Qed.

(** ** Virtual machine

    Advice is a map of values, a map of tree nodes and a stack. *)

Record RefAdvice := mkRefAdvice {
  ref_map : list (Word * list Felt);
  ref_nodes : Word -> Z -> Z -> option Word;
  ref_stack : list Felt }.

#[local] Instance RefVm : Vm := {
  ContextId := Z;
  ContextId_root := 0;
  AdviceError := unit;
  AdviceProvider := RefAdvice;
  get_mapped_values a k := snd <$> find (fun e => bool_decide (fst e = k)) (ref_map a);
  get_tree_node a r d i := ok_or (ref_nodes a r (as_int d) (as_int i)) tt;
  push_stack a x := (mkRefAdvice (ref_map a) (ref_nodes a) (x :: ref_stack a), Ok tt);
  MerkleStore := Word -> Z -> Z -> option Word;
  get_store_subset a _ := ref_nodes a;
  get_node m r n := ok_or (m r (fst n) (snd n)) tt;
  ExecutionError := string;
  EventError msg := msg
}.

#[local] Instance RefVmLaws : VmLaws RefVm.
Proof.
  split.
  - done.
  - intros m r n. cbn [get_node RefVm]. by destruct (m r n.1 n.2).
Qed.

(** An extractor pops the advice stack; an injector pushes a value to it. *)
#[local] Instance RefVmAdvice : VmAdvice (V := RefVm) := {
  AdviceExtractor := unit;
  AdviceInjector := Felt;
  HostResponse := option Felt;
  HostResponse_None := None;
  provider_get_advice a _ _ :=
    match ref_stack a with
    | [] => (a, Err "empty advice stack"%string)
    | x :: xs => (mkRefAdvice (ref_map a) (ref_nodes a) xs, Ok (Some x))
    end;
  provider_set_advice a _ x := (mkRefAdvice (ref_map a) (ref_nodes a) (x :: ref_stack a), Ok None)
}.

#[local] Instance RefDisplay : Display := fun _ _ => "error"%string.
#[local] Instance RefBuild : Build := Debug.
#[local] Instance RefFeatures : Features := true.

(** [Import RefInstances] makes the instances above the ones resolution finds. *)
Module RefInstances.
#[export] Existing Instance RefField.
#[export] Existing Instance RefFieldLaws.
#[export] Existing Instance RefCrypto.
#[export] Existing Instance RefDigestLaws.
#[export] Existing Instance RefSmtLaws.
#[export] Existing Instance RefSimpleSmtLaws.
#[export] Existing Instance RefHexLaws.
#[export] Existing Instance RefByteIO.
#[export] Existing Instance RefByteIOLaws.
#[export] Existing Instance RefAssembly.
#[export] Existing Instance RefAssemblyLaws.
#[export] Existing Instance RefPrograms.
#[export] Existing Instance RefProgramLaws.
#[export] Existing Instance RefMerkle.
#[export] Existing Instance RefMerkleLaws.
#[export] Existing Instance RefVm.
#[export] Existing Instance RefVmLaws.
#[export] Existing Instance RefVmAdvice.
#[export] Existing Instance RefDisplay.
#[export] Existing Instance RefBuild.
#[export] Existing Instance RefFeatures.
End RefInstances.
