(* ===== verification/Types.v ===== *)
(** Data types of the accounts and assets of the objects crate, with the errors
    of errors.rs that mention them.  The operations are in the component files. *)
From S2P Require Import Prelude Interfaces.
Local Open Scope Z_scope.

(** ** Account identifiers (accounts/account_id.rs) *)

Inductive AccountType :=
| FungibleFaucet
| NonFungibleFaucet
| RegularAccountImmutableCode
| RegularAccountUpdatableCode.

#[export] Instance AccountType_eq_dec : EqDecision AccountType.
Proof. solve_decision. Defined.

Inductive AccountStorageType := OnChain | OffChain.

#[export] Instance AccountStorageType_eq_dec : EqDecision AccountStorageType.
Proof. solve_decision. Defined.

Record AccountId `{Field} := mkAccountId { id_felt : Felt }.
Arguments mkAccountId {_} _.

#[export] Instance AccountId_eq_dec `{Field} : EqDecision AccountId.
Proof. solve_decision. Defined.

(** ** Assets (assets/mod.rs, fungible.rs, nonfungible.rs) *)

Record FungibleAsset `{Field} := mkFungibleAsset { fa_faucet_id : AccountId; fa_amount : Z }.
Arguments mkFungibleAsset {_} _ _.

#[export] Instance FungibleAsset_eq_dec `{Field} : EqDecision FungibleAsset.
Proof. solve_decision. Defined.

Record NonFungibleAsset `{Field} := mkNonFungibleAsset { nfa_word : Word }.
Arguments mkNonFungibleAsset {_} _.

#[export] Instance NonFungibleAsset_eq_dec `{Field} : EqDecision NonFungibleAsset.
Proof. solve_decision. Defined.

Record NonFungibleAssetDetails `{Field} :=
  mkNonFungibleAssetDetails { nfd_faucet_id : AccountId; nfd_asset_data : list Z }.
Arguments mkNonFungibleAssetDetails {_} _ _.

Inductive Asset `{Field} :=
| Fungible (a : FungibleAsset)
| NonFungible (a : NonFungibleAsset).

#[export] Instance Asset_eq_dec `{Field} : EqDecision Asset.
Proof. solve_decision. Defined.

(** ** Storage slot types (accounts/storage/slot.rs) *)

Inductive StorageSlotType :=
| SlotValue (value_arity : Z)
| SlotMap (value_arity : Z)
| SlotArray (depth value_arity : Z).

#[export] Instance StorageSlotType_eq_dec : EqDecision StorageSlotType.
Proof. solve_decision. Defined.

(** ** Errors (errors.rs) *)

Section errors.
Context `{F : Field}.

Inductive AssetError :=
| AmountTooBig (value : Z)
| AssetAmountNotSufficient (available requested : Z)
| FungibleAssetInvalidTag (tag : Z)
| FungibleAssetInvalidWord (w : Word)
| InconsistentFaucetIds (id1 id2 : AccountId)
| InvalidAccountId (msg : string)
| InvalidFieldElement (msg : string)
| NonFungibleAssetInvalidTag (tag : Z)
| NotAFungibleFaucetId (id : AccountId) (account_type : AccountType)
| NotANonFungibleFaucetId (id : AccountId)
| NotAnAsset (w : Word)
| TokenSymbolError (msg : string).

Context {C : Crypto} {AS : Assembly}.

Inductive AssetVaultError :=
| AddFungibleAssetBalanceError (e : AssetError)
| DuplicateAsset (e : MerkleError)
| DuplicateNonFungibleAsset (a : NonFungibleAsset)
| FungibleAssetNotFound (a : FungibleAsset)
| NotANonFungibleAsset (a : Asset)
| VaultNotAFungibleFaucetId (id : AccountId)
| NonFungibleAssetNotFound (a : NonFungibleAsset)
| SubtractFungibleAssetBalanceError (e : AssetError).

Inductive AccountError :=
| AccountCodeAssemblerError (e : AssemblyError)
| AccountCodeNoProcedures
| AccountCodeTooManyProcedures (max actual : Z)
| AccountIdInvalidFieldElement (msg : string)
| AccountIdTooFewOnes (expected actual : Z)
| AssetVaultUpdateError (e : AssetVaultError)
| DuplicateStorageItems (e : MerkleError)
| FungibleFaucetIdInvalidFirstBit
| FungibleFaucetInvalidMetadata (msg : string)
| HexParseError (msg : string)
| InvalidAccountStorageType
| NonceNotMonotonicallyIncreasing (current new : Z)
| SeedDigestTooFewTrailingZeros (expected actual : Z)
| StorageSlotInvalidValueArity (slot expected actual : Z)
| StorageSlotIsReserved (slot : Z)
| StorageSlotNotValueSlot (slot : Z) (slot_type : StorageSlotType)
| StubDataIncorrectLength (actual expected : Z).

Inductive AccountDeltaError :=
| DuplicateStorageItemUpdate (idx : Z)
| DuplicateVaultUpdate (a : Asset)
| InconsistentNonceUpdate (msg : string)
| ImmutableStorageSlot (idx : Z)
| TooManyAddedAsset (actual max : Z)
| TooManyClearedStorageItems (actual max : Z)
| TooManyRemovedAssets (actual max : Z)
| TooManyUpdatedStorageItems (actual max : Z).
End errors.
Arguments AssetError : clear implicits.
Arguments AssetError {_}.
Arguments AssetVaultError : clear implicits.
Arguments AssetVaultError {_ _}.
Arguments AccountError : clear implicits.
Arguments AccountError {_ _ _}.
Arguments AccountDeltaError : clear implicits.
Arguments AccountDeltaError {_}.
