(* ===== verification/BTree.v ===== *)
(** [BTreeMap] as the list of its entries in the order of iteration. *)
From S2P Require Import Prelude.

Section btree.
Context {K V : Type} `{EqDecision K}.
Implicit Types (es : list (K * V)) (k : K) (v : V).

Fixpoint btree_get es k : option V :=
  match es with
  | [] => None
  | (k', v) :: es' => if decide (k' = k) then Some v else btree_get es' k
  end.

(** [BTreeMap::remove]. *)
Definition btree_remove es k : list (K * V) := filter (fun e => fst e <> k) es.

(** ** Lemmas *)

Lemma btree_get_None es k : btree_get es k = None <-> k ∉ es.*1.
Proof.
  induction es as [|[k' v] es IH]; cbn; [set_solver|].
  case_decide as Hk; [subst; set_solver|]. rewrite IH. set_solver.
Qed.

Lemma btree_get_Some es k v : NoDup es.*1 -> btree_get es k = Some v <-> (k, v) ∈ es.
Proof.
  induction es as [|[k' v'] es IH]; cbn; [set_solver|]. intros [Hni Hnd]%NoDup_cons.
  case_decide as Hk.
  - subst k'. split; [intros [= ->]; set_solver|]. intros [Heq|Hin]%elem_of_cons; [congruence|].
    exfalso. apply Hni, list_elem_of_fmap. by exists (k, v).
  - rewrite IH by done. rewrite elem_of_cons. split; [by right|]. intros [Heq|Hin]; [congruence|done].
Qed.

Lemma btree_get_perm es es' k : NoDup es.*1 -> es ≡ₚ es' -> btree_get es k = btree_get es' k.
Proof.
  intros Hnd Hp. assert (Hnd' : NoDup es'.*1) by (by rewrite <- Hp).
  destruct (btree_get es k) as [v|] eqn:Hg.
  - apply btree_get_Some in Hg; [|done]. symmetry. apply btree_get_Some; [done|]. by rewrite <- Hp.
  - apply btree_get_None in Hg. symmetry. apply btree_get_None. by rewrite <- Hp.
Qed.

Lemma btree_get_replace es k v k' :
  btree_get ((fun e => if decide (fst e = k) then (k, v) else e) <$> es) k' =
  if decide (k = k') then (fun _ => v) <$> btree_get es k else btree_get es k'.
Proof.
  induction es as [|[k1 v1] es IH]; cbn; [by case_decide|].
  destruct (decide (k1 = k)) as [->|Hne].
  - cbn. destruct (decide (k = k')) as [|Hne]; [done|]. done.
  - destruct (decide (k1 = k')) as [->|]; [by rewrite decide_False by congruence|]. apply IH.
Qed.

Lemma btree_remove_nodup es k : NoDup es.*1 -> NoDup (btree_remove es k).*1.
Proof. intros Hnd. eapply sublist_NoDup; [exact Hnd|]. apply fmap_sublist, sublist_filter. Qed.

Lemma btree_get_remove es k k' :
  btree_get (btree_remove es k) k' = if decide (k = k') then None else btree_get es k'.
Proof.
  unfold btree_remove. induction es as [|[k1 v1] es IH]; [by cbn; case_decide|].
  rewrite filter_cons. cbn [fst]. destruct (decide (k1 = k)) as [->|Hne].
  - rewrite decide_False by naive_solver. rewrite IH. cbn [btree_get].
    destruct (decide (k = k')); done.
  - rewrite decide_True by done. cbn [btree_get]. rewrite IH.
    destruct (decide (k1 = k')) as [->|]; [by rewrite decide_False by congruence|done].
Qed.

Context (cmp : K -> K -> comparison).

(** A new key goes in front of the first greater one. *)
Fixpoint btree_place es k v : list (K * V) :=
  match es with
  | [] => [(k, v)]
  | (k', v') :: es' =>
      match cmp k k' with Lt => (k, v) :: es | _ => (k', v') :: btree_place es' k v end
  end.

(** [BTreeMap::insert]: the value of a present key is replaced in place. *)
Definition btree_insert es k v : list (K * V) :=
  match btree_get es k with
  | Some _ => (fun e => if decide (fst e = k) then (k, v) else e) <$> es
  | None => btree_place es k v
  end.

Lemma btree_place_perm es k v : btree_place es k v ≡ₚ (k, v) :: es.
Proof.
  induction es as [|[k' v'] es IH]; cbn; [done|]. destruct (cmp k k'); try done.
  - rewrite IH. apply Permutation_swap.
  - rewrite IH. apply Permutation_swap.
Qed.

Lemma btree_insert_nodup es k v : NoDup es.*1 -> NoDup (btree_insert es k v).*1.
Proof.
  intros Hnd. unfold btree_insert. destruct (btree_get es k) as [v'|] eqn:Hg.
  - rewrite <- list_fmap_compose. cut ((fst ∘ fun e : K * V => if decide (e.1 = k) then (k, v) else e) <$> es =
      es.*1); [by intros ->|]. apply list_fmap_ext. intros i e _. cbn. case_decide; [by subst|done].
  - rewrite btree_place_perm. cbn. apply NoDup_cons. split; [by apply btree_get_None|done].
Qed.

Lemma btree_get_insert es k v k' :
  NoDup es.*1 -> btree_get (btree_insert es k v) k' = if decide (k = k') then Some v else btree_get es k'.
Proof.
  intros Hnd. unfold btree_insert. destruct (btree_get es k) as [v'|] eqn:Hg.
  - rewrite btree_get_replace, Hg. done.
  - rewrite (btree_get_perm _ ((k, v) :: es)); [done| |apply btree_place_perm].
    rewrite btree_place_perm. cbn. apply NoDup_cons. split; [by apply btree_get_None|done].
Qed.
End btree.
