(* ===== verification/AccountIds.v ===== *)
(** accounts/account_id.rs: the account identifier, its embedded metadata, its
    conversions and the proof-of-work check of the seed digest it comes from. *)
From S2P Require Import Prelude Interfaces Types Reference.
Local Open Scope Z_scope.

(** ** Constants *)

Definition ACCOUNT_STORAGE_MASK_SHIFT : Z := 62.
Definition ACCOUNT_STORAGE_MASK : Z := Z.shiftl 3 ACCOUNT_STORAGE_MASK_SHIFT.
Definition ACCOUNT_TYPE_MASK_SHIFT : Z := 60.
Definition ACCOUNT_TYPE_MASK : Z := Z.shiftl 3 ACCOUNT_TYPE_MASK_SHIFT.
Definition ACCOUNT_ISFAUCET_MASK : Z := Z.shiftl 2 ACCOUNT_TYPE_MASK_SHIFT.

Definition FUNGIBLE_FAUCET : Z := 2.
Definition NON_FUNGIBLE_FAUCET : Z := 3.
Definition REGULAR_ACCOUNT_IMMUTABLE_CODE : Z := 0.
Definition REGULAR_ACCOUNT_UPDATABLE_CODE : Z := 1.
Definition ON_CHAIN : Z := 0.
Definition OFF_CHAIN : Z := 2.

Definition MIN_ACCOUNT_ONES : Z := 5.
Definition REGULAR_ACCOUNT_SEED_DIGEST_MIN_TRAILING_ZEROS `{Features} : Z :=
  if testing then 5 else 23.
Definition FAUCET_SEED_DIGEST_MIN_TRAILING_ZEROS `{Features} : Z :=
  if testing then 6 else 31.

(** ** Operations *)

(** [impl From<u64> for AccountType]; the last branch is [unreachable!]. *)
Definition AccountType_from {E} (value : Z) : res E AccountType :=
  let bits := Z.shiftr (Z.land value ACCOUNT_TYPE_MASK) ACCOUNT_TYPE_MASK_SHIFT in
  if decide (bits = REGULAR_ACCOUNT_UPDATABLE_CODE) then Ok RegularAccountUpdatableCode
  else if decide (bits = REGULAR_ACCOUNT_IMMUTABLE_CODE) then Ok RegularAccountImmutableCode
  else if decide (bits = FUNGIBLE_FAUCET) then Ok FungibleFaucet
  else if decide (bits = NON_FUNGIBLE_FAUCET) then Ok NonFungibleFaucet
  else Panic.

(** The discriminants of the two enums ([account_type as u64], [storage as u64]). *)
Definition AccountType_repr (t : AccountType) : Z :=
  match t with
  | FungibleFaucet => FUNGIBLE_FAUCET
  | NonFungibleFaucet => NON_FUNGIBLE_FAUCET
  | RegularAccountImmutableCode => REGULAR_ACCOUNT_IMMUTABLE_CODE
  | RegularAccountUpdatableCode => REGULAR_ACCOUNT_UPDATABLE_CODE
  end.
Definition AccountStorageType_repr (s : AccountStorageType) : Z :=
  match s with OnChain => ON_CHAIN | OffChain => OFF_CHAIN end.

(** [is_regular_account(account_id: u64)]. *)
Definition is_regular_account_u64 {E} (account_id : Z) : res E bool :=
  account_type ← AccountType_from account_id;
  Ok (bool_decide (account_type = RegularAccountUpdatableCode \/
                   account_type = RegularAccountImmutableCode)).

Section account_id.
Context `{F : Field}.

Definition new_unchecked (value : Felt) : AccountId := mkAccountId value.

Definition account_type {E} (self : AccountId) : res E AccountType :=
  AccountType_from (as_int (id_felt self)).

Definition is_faucet {E} (self : AccountId) : res E bool :=
  t ← account_type self;
  Ok (bool_decide (t = FungibleFaucet \/ t = NonFungibleFaucet)).

Definition is_regular_account {E} (self : AccountId) : res E bool :=
  is_regular_account_u64 (as_int (id_felt self)).

(** Panics on invalid storage bits. *)
Definition storage_type {E} (self : AccountId) : res E AccountStorageType :=
  let bits := Z.shiftr (Z.land (as_int (id_felt self)) ACCOUNT_STORAGE_MASK)
                       ACCOUNT_STORAGE_MASK_SHIFT in
  if decide (bits = ON_CHAIN) then Ok OnChain
  else if decide (bits = OFF_CHAIN) then Ok OffChain
  else Panic.

Definition is_on_chain {E} (self : AccountId) : res E bool :=
  s ← storage_type self; Ok (bool_decide (s = OnChain)).

(** [impl Ord for AccountId]. *)
Definition AccountId_cmp (self other : AccountId) : comparison :=
  Z.compare (as_int (id_felt self)) (as_int (id_felt other)).

(** [From<AccountId>] for [Felt], [[u8; 8]] and [u64]. *)
Definition felt_of_id (id : AccountId) : Felt := id_felt id.
Definition bytes_of_id (id : AccountId) : list Z := to_le_bytes 8 (as_int (id_felt id)).
Definition u64_of_id (id : AccountId) : Z := as_int (id_felt id).

(** [format!("0x{:016x}", self.0.as_int())]. *)
Definition to_hex (self : AccountId) : string :=
  ("0x" +:+ hex_of_bytes (reverse (to_le_bytes 8 (as_int (id_felt self)))))%string.

Context {C : Crypto} {AS : Assembly} {FE : Features} {D : Display}.

(** [impl TryFrom<Felt> for AccountId]. *)
Definition try_from_felt (value : Felt) : res AccountError AccountId :=
  let int_value := as_int value in
  let count := count_ones int_value in
  if decide (count < MIN_ACCOUNT_ONES) then Err (AccountIdTooFewOnes MIN_ACCOUNT_ONES count)
  else
    let bits := Z.shiftr (Z.land int_value ACCOUNT_STORAGE_MASK) ACCOUNT_STORAGE_MASK_SHIFT in
    if decide (bits = ON_CHAIN \/ bits = OFF_CHAIN) then Ok (mkAccountId value)
    else Err InvalidAccountStorageType.

Definition parse_felt (bytes : list Z) : res AccountError Felt :=
  map_err AccountIdInvalidFieldElement (Felt_try_from_bytes bytes).

(** [impl TryFrom<[u8; 8]>] (little-endian) and [impl TryFrom<u64>]. *)
Definition try_from_bytes (value : list Z) : res AccountError AccountId :=
  element ← parse_felt value; try_from_felt element.
Definition try_from_u64 (value : Z) : res AccountError AccountId :=
  element ← parse_felt (to_le_bytes 8 value); try_from_felt element.

(** Big-endian hex text to an identifier: the bytes are reversed before parsing. *)
Definition from_hex (hex_value : string) : res AccountError AccountId :=
  bytes ← map_err HexParseError (hex_to_bytes 8 hex_value);
  try_from_bytes (reverse bytes).

Definition compute_digest (seed code_root storage_root : Word) : Digest :=
  let elements := word_elements seed ++ word_elements code_root ++ word_elements storage_root in
  hash_elements (elements ++ replicate (16 - length elements) ZERO).

Definition digest_pow (digest : Digest) : Z := trailing_zeros (as_int (w3 digest)).

Definition validate_seed_digest (digest : Digest) : res AccountError unit :=
  regular ← is_regular_account_u64 (as_int (w0 digest));
  let required_zeros :=
    if regular : bool then REGULAR_ACCOUNT_SEED_DIGEST_MIN_TRAILING_ZEROS
    else FAUCET_SEED_DIGEST_MIN_TRAILING_ZEROS in
  let trailing := digest_pow digest in
  if decide (required_zeros > trailing)
  then Err (SeedDigestTooFewTrailingZeros required_zeros trailing)
  else Ok tt.

Definition AccountId_new (seed code_root storage_root : Word) : res AccountError AccountId :=
  let seed_digest := compute_digest seed code_root storage_root in
  _ ← validate_seed_digest seed_digest;
  try_from_felt (w0 seed_digest).

Context {IO : ByteIO}.

(** [Serializable] and [Deserializable]. *)
Definition account_id_codec : Codec AccountId := {|
  write_into self := write_into felt_codec (id_felt self);
  read_from := x ← read_from felt_codec;
    lift (map_err (fun err => InvalidValue (to_string err)) (try_from_felt x))
|}.
End account_id.

(** The identifiers of accounts/mod.rs built for tests. *)
Definition testing_account_id (account_type : AccountType) (storage : AccountStorageType)
    (rest : Z) : Z :=
  let id := 0 in
  let id := Z.lxor id (Z.shiftl (AccountStorageType_repr storage) ACCOUNT_STORAGE_MASK_SHIFT) in
  let id := Z.lxor id (Z.shiftl (AccountType_repr account_type) ACCOUNT_TYPE_MASK_SHIFT) in
  Z.lxor id rest.

Definition ACCOUNT_ID_SENDER : Z :=
  testing_account_id RegularAccountImmutableCode OffChain 31.
Definition ACCOUNT_ID_OFF_CHAIN_SENDER : Z :=
  testing_account_id RegularAccountImmutableCode OffChain 47.
Definition ACCOUNT_ID_REGULAR_ACCOUNT_UPDATABLE_CODE_OFF_CHAIN : Z :=
  testing_account_id RegularAccountUpdatableCode OffChain 63.
Definition ACCOUNT_ID_REGULAR_ACCOUNT_IMMUTABLE_CODE_ON_CHAIN : Z :=
  testing_account_id RegularAccountImmutableCode OnChain 31.
Definition ACCOUNT_ID_REGULAR_ACCOUNT_IMMUTABLE_CODE_ON_CHAIN_2 : Z :=
  testing_account_id RegularAccountImmutableCode OnChain 47.
Definition ACCOUNT_ID_REGULAR_ACCOUNT_UPDATABLE_CODE_ON_CHAIN : Z :=
  testing_account_id RegularAccountUpdatableCode OnChain 63.
Definition ACCOUNT_ID_REGULAR_ACCOUNT_UPDATABLE_CODE_ON_CHAIN_2 : Z :=
  testing_account_id RegularAccountUpdatableCode OnChain 79.
Definition ACCOUNT_ID_FUNGIBLE_FAUCET_OFF_CHAIN : Z :=
  testing_account_id FungibleFaucet OffChain 31.
Definition ACCOUNT_ID_FUNGIBLE_FAUCET_ON_CHAIN : Z :=
  testing_account_id FungibleFaucet OnChain 31.
Definition ACCOUNT_ID_FUNGIBLE_FAUCET_ON_CHAIN_1 : Z :=
  testing_account_id FungibleFaucet OnChain 47.
Definition ACCOUNT_ID_FUNGIBLE_FAUCET_ON_CHAIN_2 : Z :=
  testing_account_id FungibleFaucet OnChain 63.
Definition ACCOUNT_ID_FUNGIBLE_FAUCET_ON_CHAIN_3 : Z :=
  testing_account_id FungibleFaucet OnChain 79.
Definition ACCOUNT_ID_INSUFFICIENT_ONES : Z :=
  testing_account_id NonFungibleFaucet OffChain 0.
Definition ACCOUNT_ID_NON_FUNGIBLE_FAUCET_OFF_CHAIN : Z :=
  testing_account_id NonFungibleFaucet OffChain 31.
Definition ACCOUNT_ID_NON_FUNGIBLE_FAUCET_ON_CHAIN : Z :=
  testing_account_id NonFungibleFaucet OnChain 47.
Definition ACCOUNT_ID_NON_FUNGIBLE_FAUCET_ON_CHAIN_1 : Z :=
  testing_account_id NonFungibleFaucet OnChain 63.

(** ** Specification *)

(** The type the two bits 60 and 61 encode. *)
Definition type_of_bits (bits : Z) : AccountType :=
  if decide (bits = 1) then RegularAccountUpdatableCode
  else if decide (bits = 0) then RegularAccountImmutableCode
  else if decide (bits = 2) then FungibleFaucet else NonFungibleFaucet.

Definition type_bits (v : Z) : Z := (v / 2 ^ 60) mod 4.
Definition storage_bits (v : Z) : Z := (v / 2 ^ 62) mod 4.

(** What [try_from] promises of an identifier. *)
Definition AccountId_valid `{Field} (id : AccountId) : Prop :=
  MIN_ACCOUNT_ONES <= count_ones (as_int (id_felt id)) /\
  (storage_bits (as_int (id_felt id)) = ON_CHAIN \/ storage_bits (as_int (id_felt id)) = OFF_CHAIN).

#[export] Instance AccountId_valid_dec `{Field} id : Decision (AccountId_valid id).
Proof. unfold AccountId_valid. apply _. Defined.

(** The type of an identifier as a total function. *)
Definition type_of_id `{Field} (id : AccountId) : AccountType :=
  type_of_bits (type_bits (as_int (id_felt id))).

(** ** Lemmas *)

Lemma type_mask_field v :
  Z.shiftr (Z.land v ACCOUNT_TYPE_MASK) ACCOUNT_TYPE_MASK_SHIFT = type_bits v.
Proof. apply (land_field_spec v 60 2); lia. Qed.

Lemma storage_mask_field v :
  Z.shiftr (Z.land v ACCOUNT_STORAGE_MASK) ACCOUNT_STORAGE_MASK_SHIFT = storage_bits v.
Proof. apply (land_field_spec v 62 2); lia. Qed.

Lemma type_bits_range v : 0 <= type_bits v < 4.
Proof. apply Z.mod_pos_bound. lia. Qed.

(** The [unreachable!] branch is unreachable. *)
Lemma AccountType_from_total {E} v :
  AccountType_from (E := E) v = Ok (type_of_bits (type_bits v)).
Proof.
  unfold AccountType_from, type_of_bits. rewrite type_mask_field.
  pose proof (type_bits_range v).
  unfold REGULAR_ACCOUNT_UPDATABLE_CODE, REGULAR_ACCOUNT_IMMUTABLE_CODE, FUNGIBLE_FAUCET,
    NON_FUNGIBLE_FAUCET.
  repeat case_decide; try done. lia.
Qed.

Lemma type_of_bits_repr b : 0 <= b < 4 -> AccountType_repr (type_of_bits b) = b.
Proof. intros Hb. unfold type_of_bits. repeat case_decide; subst; cbn; try done.
  unfold NON_FUNGIBLE_FAUCET. lia. Qed.

Lemma is_regular_account_u64_total {E} v :
  is_regular_account_u64 (E := E) v = Ok (bool_decide (type_bits v < 2)).
Proof.
  unfold is_regular_account_u64. rewrite AccountType_from_total. cbn. f_equal.
  pose proof (type_bits_range v). apply bool_decide_ext. unfold type_of_bits.
  repeat case_decide; split; naive_solver lia.
Qed.

(** An identifier is a faucet exactly when the bit of the faucet mask is set. *)
Lemma faucet_bit v :
  Z.land v ACCOUNT_ISFAUCET_MASK = ACCOUNT_ISFAUCET_MASK <->
  type_of_bits (type_bits v) = FungibleFaucet \/ type_of_bits (type_bits v) = NonFungibleFaucet.
Proof.
  change ACCOUNT_ISFAUCET_MASK with (2 ^ 61). rewrite testbit_land_pow2 by lia.
  rewrite Z.testbit_true by lia.
  assert (H61 : v / 2 ^ 61 = v / 2 ^ 60 / 2) by (rewrite Z.div_div by lia; done).
  rewrite H61. pose proof (type_bits_range v) as Hr. unfold type_bits in *.
  pose proof (Z.div_mod (v / 2 ^ 60) 4). pose proof (Z.div_mod (v / 2 ^ 60) 2).
  assert (Hq : (v / 2 ^ 60 / 2) mod 2 = ((v / 2 ^ 60) mod 4) / 2).
  { rewrite (Z.rem_mul_r _ 2 2) by lia.
    pose proof (Z.mod_pos_bound (v / 2 ^ 60) 2).
    rewrite (Z.mul_comm 2), Z.div_add by lia.
    rewrite (Z.div_small (v / 2 ^ 60 mod 2)) by lia. lia. }
  rewrite Hq. set (b := (v / 2 ^ 60) mod 4) in *. clearbody b.
  assert (b = 0 \/ b = 1 \/ b = 2 \/ b = 3) as [-> | [-> | [-> | ->]]] by lia;
    cbn; naive_solver.
Qed.

Section lemmas.
Context `{F : Field} {FL : FieldLaws F} {C : Crypto} {AS : Assembly} {FE : Features}
  {D : Display}.
Implicit Types (id : AccountId) (x : Felt).

Lemma account_type_total {E} id : account_type (E := E) id = Ok (type_of_id id).
Proof. apply AccountType_from_total. Qed.

Lemma is_regular_account_total {E} id :
  is_regular_account (E := E) id =
  Ok (bool_decide (type_of_id id = RegularAccountUpdatableCode \/
                   type_of_id id = RegularAccountImmutableCode)).
Proof.
  unfold is_regular_account, is_regular_account_u64. by rewrite AccountType_from_total.
Qed.

Lemma storage_type_valid {E} id :
  AccountId_valid id ->
  exists s, storage_type (E := E) id = Ok s /\
    AccountStorageType_repr s = storage_bits (as_int (id_felt id)).
Proof.
  intros [_ Hs]. unfold storage_type. rewrite storage_mask_field.
  destruct Hs as [Hs|Hs]; rewrite Hs; eauto.
Qed.

Lemma is_on_chain_valid {E} id :
  AccountId_valid id ->
  is_on_chain (E := E) id = Ok (bool_decide (storage_bits (as_int (id_felt id)) = ON_CHAIN)).
Proof.
  intros [_ Hs]. unfold is_on_chain, storage_type. rewrite storage_mask_field.
  by destruct Hs as [-> | ->].
Qed.

Lemma try_from_felt_ok_iff x id :
  try_from_felt x = Ok id <-> id = mkAccountId x /\ AccountId_valid id.
Proof.
  unfold try_from_felt, AccountId_valid. rewrite storage_mask_field.
  repeat case_decide; split; intros Heq; simplify_eq/=; try naive_solver lia.
Qed.

Lemma try_from_felt_valid id : AccountId_valid id -> try_from_felt (id_felt id) = Ok id.
Proof. intros Hv. apply try_from_felt_ok_iff. by destruct id. Qed.

(** A conversion of a [Felt] fails with an error and never panics. *)
Lemma try_from_felt_no_panic x : try_from_felt x <> Panic.
Proof. unfold try_from_felt. by repeat case_decide. Qed.

Lemma parse_felt_as_int x : parse_felt (to_le_bytes 8 (as_int x)) = Ok x.
Proof.
  unfold parse_felt. rewrite Felt_try_from_bytes_ok by apply as_int_range.
  by rewrite Felt_new_as_int.
Qed.

Lemma validate_seed_digest_ok digest :
  validate_seed_digest digest = Ok tt <->
  (if decide (type_bits (as_int (w0 digest)) < 2)
   then REGULAR_ACCOUNT_SEED_DIGEST_MIN_TRAILING_ZEROS
   else FAUCET_SEED_DIGEST_MIN_TRAILING_ZEROS) <= digest_pow digest.
Proof.
  unfold validate_seed_digest. rewrite is_regular_account_u64_total. cbn [mbind res_bind].
  rewrite <- (decide_bool_decide (type_bits (as_int (w0 digest)) < 2)
    REGULAR_ACCOUNT_SEED_DIGEST_MIN_TRAILING_ZEROS FAUCET_SEED_DIGEST_MIN_TRAILING_ZEROS).
  case_decide; split; intros; (done || lia).
Qed.

Lemma validate_seed_digest_no_panic digest : validate_seed_digest digest <> Panic.
Proof.
  unfold validate_seed_digest. rewrite is_regular_account_u64_total. cbn. by case_decide.
Qed.

Lemma AccountId_new_no_panic seed code_root storage_root : AccountId_new seed code_root storage_root <> Panic.
Proof.
  unfold AccountId_new. cbv zeta. set (d := compute_digest _ _ _).
  pose proof (validate_seed_digest_no_panic d). pose proof (try_from_felt_no_panic (w0 d)).
  by destruct (validate_seed_digest d).
Qed.
End lemmas.
#[export] Hint Resolve try_from_felt_valid : rust.

(** ** Properties *)

Section properties.
Context `{F : Field} {FL : FieldLaws F} {C : Crypto} {HL : HexLaws C} {AS : Assembly}
  {FE : Features} {D : Display}.

(** [AccountId::try_from] accepts exactly the field elements with at least
    five ones and a known storage type, keeps the element unchanged, and
    answers every other element with an error, never a panic. *)
Theorem account_id_try_from_spec (x : Felt) :
  (forall id, try_from_felt x = Ok id <-> id = mkAccountId x /\ AccountId_valid id) /\
  (count_ones (as_int x) < MIN_ACCOUNT_ONES ->
    try_from_felt x = Err (AccountIdTooFewOnes MIN_ACCOUNT_ONES (count_ones (as_int x)))) /\
  (MIN_ACCOUNT_ONES <= count_ones (as_int x) -> ~ AccountId_valid (mkAccountId x) ->
    try_from_felt x = Err InvalidAccountStorageType).
Proof.
  split_and!; [apply try_from_felt_ok_iff| |].
  - intros Hc. unfold try_from_felt. by rewrite decide_True.
  - intros Hc Hv. unfold try_from_felt. rewrite decide_False by lia.
    rewrite storage_mask_field. by rewrite decide_False by (intros Hs; by apply Hv).
Qed.

(** Of an accepted identifier every accessor of the embedded metadata
    returns without panicking: the type and the storage type are the ones bits
    60..61 and 62..63 encode, an account is a faucet exactly when the faucet
    mask bit is set, and it is either a faucet or a regular account. *)
Theorem account_id_metadata (E : Type) (x : Felt) id (Hid : try_from_felt x = Ok id) :
  exists t s, account_type (E := E) id = Ok t /\
    storage_type (E := E) id = Ok s /\
    AccountType_repr t = type_bits (as_int x) /\
    AccountStorageType_repr s = storage_bits (as_int x) /\
    is_faucet (E := E) id =
      Ok (bool_decide (Z.land (as_int x) ACCOUNT_ISFAUCET_MASK = ACCOUNT_ISFAUCET_MASK)) /\
    is_regular_account (E := E) id =
      Ok (negb (bool_decide (t = FungibleFaucet \/ t = NonFungibleFaucet))) /\
    is_on_chain (E := E) id = Ok (bool_decide (s = OnChain)).
Proof.
  apply try_from_felt_ok_iff in Hid as [-> Hv].
  destruct (storage_type_valid (E := E) _ Hv) as (s & Hs & Hbits).
  exists (type_of_id (mkAccountId x)), s.
  rewrite account_type_total, is_regular_account_total, Hs. unfold is_faucet, is_on_chain.
  rewrite account_type_total, Hs. cbn -[bool_decide]. split_and!; try done.
  - apply type_of_bits_repr, type_bits_range.
  - f_equal. apply bool_decide_ext. symmetry. apply faucet_bit.
  - f_equal. rewrite <- bool_decide_not. apply bool_decide_ext.
    destruct (type_of_id _); naive_solver.
Qed.

(** An accepted identifier survives each of its conversions: to an integer, to
    little-endian bytes and to big-endian hexadecimal text, and back; and the
    conversion from an integer accepts no integer outside the field. *)
Theorem account_id_conversions_round_trip id (Hv : AccountId_valid id) :
  try_from_felt (felt_of_id id) = Ok id /\
  try_from_u64 (u64_of_id id) = Ok id /\
  try_from_bytes (bytes_of_id id) = Ok id /\
  from_hex (to_hex id) = Ok id /\
  (forall v, 0 <= v < 2 ^ 64 -> try_from_u64 v = Ok id -> v = u64_of_id id).
Proof.
  assert (Hb : try_from_bytes (bytes_of_id id) = Ok id).
  { unfold try_from_bytes, bytes_of_id. rewrite parse_felt_as_int. by apply try_from_felt_valid. }
  split_and!; [by apply try_from_felt_valid|exact Hb|exact Hb| |].
  - unfold from_hex, to_hex.
    rewrite <- (length_to_le_bytes 8 (as_int (id_felt id))) at 1.
    rewrite <- length_reverse, hex_to_bytes_ok.
    + cbn [map_err mbind res_bind]. by rewrite reverse_involutive.
    + apply Forall_reverse, to_le_bytes_range.
  - intros v Hr. unfold try_from_u64, parse_felt. intros Hok. inv_res.
    apply try_from_felt_ok_iff in H0 as [-> _].
    destruct (decide (v < MODULUS)) as [Hlt|Hge].
    + rewrite Felt_try_from_bytes_ok in H by lia. simplify_eq.
      unfold u64_of_id. cbn. by rewrite as_int_new_small by lia.
    + destruct (Felt_try_from_bytes_err v) as (msg & Hm); [lia|]. congruence.
Qed.

(** [AccountId::new] succeeds exactly on the seeds whose digest carries the
    proof of work its type requires (more for faucets) and whose first element
    is a well-formed identifier, and that element is the identifier. *)
Theorem account_id_new_spec seed code_root storage_root id :
  let digest := compute_digest seed code_root storage_root in
  AccountId_new seed code_root storage_root = Ok id <->
  id = mkAccountId (w0 digest) /\ AccountId_valid id /\
  (if decide (type_bits (as_int (w0 digest)) < 2)
   then REGULAR_ACCOUNT_SEED_DIGEST_MIN_TRAILING_ZEROS
   else FAUCET_SEED_DIGEST_MIN_TRAILING_ZEROS) <= trailing_zeros (as_int (w3 digest)).
Proof.
  intros digest. unfold AccountId_new. fold digest. rewrite bind_ok. split.
  - intros ([] & Hs & Ht). apply validate_seed_digest_ok in Hs.
    apply try_from_felt_ok_iff in Ht. tauto.
  - intros (Hid & Hv & Hpow). exists tt. rewrite validate_seed_digest_ok, try_from_felt_ok_iff.
    tauto.
Qed.
End properties.

Section serialization.
Context `{F : Field} {FL : FieldLaws F} {C : Crypto} {AS : Assembly} {FE : Features}
  {D : Display} {IO : ByteIO} {IOL : ByteIOLaws IO}.

Lemma account_id_codec_round_trips : round_trips account_id_codec AccountId_valid.
Proof.
  apply round_trip_intro. intros id Hid.
  destruct (round_trip_elim _ _ (id_felt id) felt_round_trip I) as (bs & Hw & Hr).
  exists bs. split; [done|]. intros rest. cbn [read_from account_id_codec].
  erewrite mut_bind_ok by apply Hr. apply lift_step, map_err_ok. by apply try_from_felt_valid.
Qed.

Lemma account_id_codec_valid src rest id :
  read_from account_id_codec src = (rest, Ok id) -> AccountId_valid id.
Proof.
  intros Hread. apply mut_bind_inv in Hread as (src' & x & _ & Hread).
  unfold lift in Hread. injection Hread as _ Hread.
  apply map_err_ok in Hread. by apply try_from_felt_ok_iff in Hread as [_ ?].
Qed.
End serialization.
#[export] Hint Resolve account_id_codec_round_trips : rust.

(** ** Witnesses *)

Import RefInstances.

Definition sample_id : AccountId := mkAccountId (Felt_new ACCOUNT_ID_FUNGIBLE_FAUCET_ON_CHAIN).

Lemma sample_id_valid : AccountId_valid sample_id.
Proof. vm_compute. split; [discriminate|by left]. Qed.

Lemma account_id_metadata_witness :
  exists t s, account_type (E := unit) sample_id = Ok t /\
    storage_type (E := unit) sample_id = Ok s /\ t = FungibleFaucet /\ s = OnChain.
Proof.
  destruct (account_id_metadata unit (id_felt sample_id) sample_id
    (try_from_felt_valid sample_id sample_id_valid)) as (t & s & Ht & Hs & _).
  exists t, s. split_and!; [exact Ht|exact Hs| |].
  - vm_compute in Ht. congruence.
  - vm_compute in Hs. congruence.
Defined.

Lemma account_id_conversions_round_trip_witness :
  from_hex (to_hex sample_id) = Ok sample_id /\
  to_hex sample_id = "0x200000000000001f"%string.
Proof.
  split; [|reflexivity].
  apply (account_id_conversions_round_trip sample_id sample_id_valid).
Defined.
