(* ===== verification/Seed.v ===== *)
(** accounts/seed.rs: the search for an account seed, single-threaded and with
    worker threads that share a stop flag and a channel. *)
From S2P Require Import Prelude Interfaces Types Reference AccountIds.
Local Open Scope Z_scope.

(** What calls the search has its fuel: [None] when it ran out. *)
Definition try_ {E A B} (r : res E A) (k : A -> option (res E B)) : option (res E B) :=
  match r with
  | Ok x => k x
  | Err e => Some (Err e)
  | Panic => Some Panic
  end.
Notation "x ←? r ; k" := (try_ r (fun x => k)) (at level 20, r at level 100, k at level 200, only parsing).

Section seed.
Context `{F : Field} {C : Crypto} {AS : Assembly} {FE : Features}.

(** The first word: the 32 bytes cut in chunks of eight. *)
Definition initial_seed (init_seed : list Z) : Word :=
  let chunk i := Felt_new (from_le_bytes (take 8 (drop (8 * i) init_seed))) in
  mkWord (chunk 0%nat) (chunk 1%nat) (chunk 2%nat) (chunk 3%nat).

(** The test in the loop: the digest has the required work, its first element is
    an identifier, and the identifier has the requested metadata. *)
Definition seed_matches (account_type_ : AccountType) (storage_type_ : AccountStorageType)
    (digest : Digest) : res Empty_set bool :=
  match validate_seed_digest digest with
  | Ok _ =>
      match try_from_felt (w0 digest) with
      | Ok account_id =>
          t ← account_type account_id;
          if decide (t = account_type_)
          then s ← storage_type account_id; Ok (bool_decide (s = storage_type_))
          else Ok false
      | Err _ => Ok false
      | Panic => Panic
      end
  | Err _ => Ok false
  | Panic => Panic
  end.

Section search.
Context (account_type_ : AccountType) (storage_type_ : AccountStorageType)
  (code_root storage_root : Digest).

(** The loop; [None] when [fuel] iterations did not end it. *)
Fixpoint seed_loop (fuel : nat) (current_seed : Word) (current_digest : Digest)
    : option (res AccountError Word) :=
  match fuel with
  | O => None
  | S fuel' =>
      match seed_matches account_type_ storage_type_ current_digest with
      | Ok true => Some (Ok current_seed)
      | Ok false =>
          let current_seed := current_digest in
          seed_loop fuel' current_seed (compute_digest current_seed code_root storage_root)
      | _ => Some Panic
      end
  end.

Definition get_account_seed_single (fuel : nat) (init_seed : list Z)
    : option (res AccountError Word) :=
  let current_seed := initial_seed init_seed in
  seed_loop fuel current_seed (compute_digest current_seed code_root storage_root).

(** ** The concurrent search

    A worker runs [get_account_seed_inner]; its counter is an [i32] (the type of
    the literal [0]), so it overflows after 2^31 - 1 iterations. *)
Inductive status := Running | Returned | Panicked.

Record worker := mkWorker {
  wk_seed : Word; wk_digest : Digest; wk_count : Z; wk_status : status }.

Context `{B : Build}.

Definition spawn (init_seed : list Z) : worker :=
  let current_seed := initial_seed init_seed in
  mkWorker current_seed (compute_digest current_seed code_root storage_root) 0 Running.

(** One iteration of the loop of [get_account_seed_inner], with the value the read
    of the stop flag gives; the second component is the message sent. *)
Definition worker_iteration (stop : bool) (w : worker) : worker * list (Digest * Word) :=
  let finish st := mkWorker (wk_seed w) (wk_digest w) (wk_count w) st in
  match sadd_w (E := Empty_set) 32 (wk_count w) 1 with
  | Ok count =>
      if bool_decide (Z.rem count 500000 = 0) && stop then (finish Returned, [])
      else
        match seed_matches account_type_ storage_type_ (wk_digest w) with
        | Ok true => (finish Returned, [(wk_digest w, wk_seed w)])
        | Ok false =>
            let current_seed := wk_digest w in
            (mkWorker current_seed (compute_digest current_seed code_root storage_root)
               count Running, [])
        | _ => (finish Panicked, [])
        end
  | _ => (finish Panicked, [])
  end.

(** What the calling thread has done: nothing, received, raised the flag and returned. *)
Inductive caller := Waiting | Received (msg : Digest * Word) | Done (seed : Word).

Record search_state := mkSearch {
  ss_workers : list worker;
  ss_channel : list (Digest * Word);
  ss_stop : bool;
  ss_caller : caller }.

(** [get_account_seed] after its spawning loop: thread [i] starts from the first
    byte plus [i as u8], wrapping. *)
Definition search_init (thread_count : nat) (init_seed : list Z) : search_state :=
  let seed_of i := alter (fun b => (b + Z.of_nat i mod 256) mod 256) 0%nat init_seed in
  mkSearch ((fun i => spawn (seed_of i)) <$> seq 0 thread_count) [] false Waiting.

(** The steps of the threads, interleaved in any order. *)
Inductive search_step : search_state -> search_state -> Prop :=
| step_worker ws ch stop cl i w w' msgs :
    ws !! i = Some w -> wk_status w = Running ->
    worker_iteration stop w = (w', msgs) ->
    search_step (mkSearch ws ch stop cl) (mkSearch (<[i := w']> ws) (ch ++ msgs) stop cl)
| step_recv ws msg ch stop :
    search_step (mkSearch ws (msg :: ch) stop Waiting) (mkSearch ws ch stop (Received msg))
| step_stop ws ch stop digest seed :
    search_step (mkSearch ws ch stop (Received (digest, seed)))
                (mkSearch ws ch true (Done seed)).
End search.

(** [AccountId::new_dummy], an identifier for tests. *)
Definition new_dummy {E} (fuel : nat) (init_seed : list Z) (account_type_ : AccountType) : option (res E AccountId) :=
  let code_root := EMPTY_WORD in
  let storage_root := EMPTY_WORD in
  seed ← get_account_seed_single account_type_ OnChain code_root storage_root fuel init_seed;
  Some (seed ← expect_ok seed; expect_ok (AccountId_new seed code_root storage_root)).
End seed.
Arguments worker {_}.
Arguments search_state {_}.
Arguments caller {_}.

(** ** Specification *)

(** What a seed is searched for: the identifier made from it has the requested
    type and storage type. *)
Definition good_seed `{F : Field} {C : Crypto} {AS : Assembly} {FE : Features}
    (t : AccountType) (s : AccountStorageType) (code_root storage_root : Digest) (seed : Word) : Prop :=
  exists id, AccountId_new seed code_root storage_root = Ok id /\
    account_type (E := Empty_set) id = Ok t /\ storage_type (E := Empty_set) id = Ok s.

(** The chain of seeds a search goes through. *)
Fixpoint seed_chain `{F : Field} {C : Crypto} (code_root storage_root : Digest) (seed : Word)
    (k : nat) : Word :=
  match k with
  | O => seed
  | S k' => seed_chain code_root storage_root (compute_digest seed code_root storage_root) k'
  end.

(** ** Lemmas *)

Section lemmas.
Context `{F : Field} {C : Crypto} {AS : Assembly} {FE : Features}.
Context (t : AccountType) (s : AccountStorageType) (code_root storage_root : Digest).
Local Abbreviation good := (good_seed t s code_root storage_root).
Local Abbreviation chain := (seed_chain code_root storage_root).
Local Abbreviation digest_of seed := (compute_digest seed code_root storage_root).

(** The test never panics: the storage type is read of accepted identifiers only. *)
Lemma seed_matches_total digest :
  exists b, seed_matches t s digest = Ok b /\
    (b = true <-> validate_seed_digest digest = Ok tt /\
      exists id, try_from_felt (w0 digest) = Ok id /\
        account_type (E := Empty_set) id = Ok t /\ storage_type (E := Empty_set) id = Ok s).
Proof.
  unfold seed_matches. pose proof (validate_seed_digest_no_panic digest) as Hnp.
  destruct (validate_seed_digest digest) as [[]|e|]; [|exists false; naive_solver|done].
  pose proof (try_from_felt_no_panic (w0 digest)) as Hnp'.
  destruct (try_from_felt (w0 digest)) as [id|e|] eqn:Hid; [|exists false; naive_solver|done].
  apply try_from_felt_ok_iff in Hid as [_ Hv]. rewrite account_type_total. cbn -[storage_type].
  destruct (storage_type_valid (E := Empty_set) id Hv) as (s' & Hs & _). rewrite Hs.
  assert (Hex : (exists id0, Ok (E := AccountError) id = Ok id0 /\
    account_type (E := Empty_set) id0 = Ok t /\ storage_type (E := Empty_set) id0 = Ok s) <->
    type_of_id id = t /\ s' = s).
  { split.
    - intros (id0 & Heq & Ht & Hs'). injection Heq as <-.
      rewrite account_type_total in Ht. split; congruence.
    - intros [<- <-]. exists id. by rewrite account_type_total. }
  case_decide; eexists; (split; [reflexivity|]); rewrite Hex, ?bool_decide_eq_true;
    naive_solver.
Qed.

Lemma seed_matches_good seed :
  (seed_matches t s (digest_of seed) = Ok true /\ good seed) \/
  (seed_matches t s (digest_of seed) = Ok false /\ ~ good seed).
Proof.
  destruct (seed_matches_total (digest_of seed)) as (b & Hb & Hiff). rewrite Hb.
  assert (Hg : b = true <-> good seed).
  { rewrite Hiff. unfold good_seed, AccountId_new. split.
    - intros (Hv & id & Hid & ?). exists id. rewrite Hv. done.
    - intros (id & Hid & ?). inv_res. destruct x. eauto. }
  destruct b; [left|right]; (split; [done|]); naive_solver.
Qed.

(** The loop returns the first good seed of its chain, given the fuel to reach it. *)
Lemma seed_loop_spec fuel seed r :
  seed_loop t s code_root storage_root fuel seed (digest_of seed) = Some r <->
  exists k, (k < fuel)%nat /\ r = Ok (chain seed k) /\ good (chain seed k) /\
    forall j, (j < k)%nat -> ~ good (chain seed j).
Proof.
  revert seed. induction fuel as [|fuel IH]; intros seed; cbn [seed_loop].
  { split; [done|]. intros (k & Hk & _). lia. }
  destruct (seed_matches_good seed) as [[-> Hg]|[-> Hg]].
  - split.
    + intros Heq. simplify_eq. exists 0%nat. split_and!; [lia|done|done|lia].
    + intros (k & _ & -> & _ & Hfirst). destruct k as [|k]; [done|].
      exfalso. apply (Hfirst 0%nat); [lia|done].
  - cbv zeta. rewrite IH. split.
    + intros (k & Hk & -> & Hgood & Hfirst). exists (S k). split_and!; [lia|done|done|].
      intros [|j] Hj; [done|]. apply (Hfirst j). lia.
    + intros (k & Hk & -> & Hgood & Hfirst). destruct k as [|k]; [done|].
      exists k. split_and!; [lia|done|done|]. intros j Hj. apply (Hfirst (S j)). lia.
Qed.

(** Without a result no seed within the fuel is good. *)
Lemma seed_loop_none fuel seed :
  seed_loop t s code_root storage_root fuel seed (digest_of seed) = None ->
  forall k, (k < fuel)%nat -> ~ good (chain seed k).
Proof.
  revert seed. induction fuel as [|fuel IH]; intros seed; cbn [seed_loop]; [lia|].
  destruct (seed_matches_good seed) as [[-> _]|[-> Hg]]; [done|]. intros Hnone [|k] Hk; [done|].
  apply (IH (digest_of seed) Hnone). lia.
Qed.

Lemma seed_chain_S seed k : chain seed (S k) = digest_of (chain seed k).
Proof. revert seed. induction k as [|k IH]; intros seed; [done|]. cbn in *. apply IH. Qed.

Context {B : Build} (starts : list Word).

(** A seed on the chain of one of the starting words. *)
Definition on_chain_of (seed : Word) : Prop := exists start k, start ∈ starts /\ seed = chain start k.

Definition message_ok (msg : Digest * Word) : Prop :=
  fst msg = digest_of (snd msg) /\ good (snd msg) /\ on_chain_of (snd msg).
Definition worker_ok (w : worker) : Prop :=
  wk_digest w = digest_of (wk_seed w) /\ on_chain_of (wk_seed w).

Definition search_inv (st : search_state) : Prop :=
  Forall worker_ok (ss_workers st) /\ Forall message_ok (ss_channel st) /\
  match ss_caller st with
  | Waiting => ss_stop st = false
  | Received msg => ss_stop st = false /\ message_ok msg
  | Done seed => ss_stop st = true /\ good seed /\ on_chain_of seed
  end.

Lemma worker_iteration_inv stop w w' msgs :
  worker_ok w -> worker_iteration t s code_root storage_root stop w = (w', msgs) ->
  worker_ok w' /\ Forall message_ok msgs.
Proof.
  intros [Hd Hc] Hit. unfold worker_iteration in Hit.
  destruct (sadd_w _ _ _) as [count| |]; [|simplify_eq; split; [done|constructor]..].
  destruct (_ && _); [simplify_eq; split; [done|constructor]|].
  rewrite Hd in Hit at 1.
  destruct (seed_matches_good (wk_seed w)) as [[Hm Hg]|[Hm Hg]]; rewrite Hm in Hit; simplify_eq.
  - split; [done|]. constructor; [|constructor]. done.
  - split; [|constructor]. split; [done|]. cbn. rewrite Hd.
    destruct Hc as (start & k & Hin & ->). exists start, (S k). by rewrite seed_chain_S.
Qed.

Lemma search_step_inv st st' :
  search_step t s code_root storage_root st st' -> search_inv st -> search_inv st'.
Proof.
  intros Hstep (Hw & Hm & Hc). destruct Hstep as [ws ch stop cl i w w' msgs Hi Hr Hit|ws msg ch stop|
    ws ch stop digest seed]; cbn in *.
  - assert (Hok : worker_ok w) by (by eapply Forall_lookup_1).
    destruct (worker_iteration_inv _ _ _ _ Hok Hit) as [Hw' Hm'].
    split_and!; cbn; [by apply Forall_insert|by apply Forall_app|done].
  - inversion_clear Hm. by split_and!.
  - destruct Hc as [-> (_ & ? & ?)]. by split_and!.
Qed.

Lemma search_reachable_inv st st' :
  rtc (search_step t s code_root storage_root) st st' -> search_inv st -> search_inv st'.
Proof. induction 1; eauto using search_step_inv. Qed.
End lemmas.

(** ** Properties *)

Section properties.
Context `{F : Field} {C : Crypto} {AS : Assembly} {FE : Features} {B : Build}.

(** C37: the single-threaded search returns exactly when its chain of hashes
    reaches a seed whose identifier has the requested type and storage type
    within the iterations allowed; it returns the first such seed, and never
    fails or panics. *)
Theorem get_account_seed_single_spec t s code_root storage_root fuel init_seed r :
  get_account_seed_single t s code_root storage_root fuel init_seed = Some r <->
  exists k, (k < fuel)%nat /\
    let nth := seed_chain code_root storage_root (initial_seed init_seed) in
    r = Ok (nth k) /\ good_seed t s code_root storage_root (nth k) /\
    forall j, (j < k)%nat -> ~ good_seed t s code_root storage_root (nth j).
Proof. apply seed_loop_spec. Qed.

(** A dummy identifier is an on-chain one of the requested type: when the search
    ends, nothing is left that could fail. *)
Theorem new_dummy_spec {E} fuel init_seed t (r : res E AccountId) : new_dummy fuel init_seed t = Some r ->
  exists id, r = Ok id /\ AccountId_valid id /\ account_type (E := Empty_set) id = Ok t /\
    storage_type (E := Empty_set) id = Ok OnChain.
Proof.
  unfold new_dummy. destruct (get_account_seed_single t OnChain EMPTY_WORD EMPTY_WORD fuel init_seed) as [sr|] eqn:Hs; [|done].
  apply seed_loop_spec in Hs as (k & _ & -> & (id & Hid & Ht & Hst) & _). intros Hr%Some_inj. exists id.
  cbn [expect_ok mbind res_bind] in Hr. rewrite Hid in Hr. split; [by rewrite <- Hr|]. split; [|done].
  by apply bind_ok in Hid as (_ & _ & [_ Hv]%try_from_felt_ok_iff).
Qed.

(** C36: whatever the interleaving of the worker threads, the seed the concurrent
    search returns yields an identifier of the requested type and storage type,
    it lies on the hash chain of one of the threads' starting seeds, and the
    stop flag is raised by then. *)
Theorem get_account_seed_concurrent_sound t s code_root storage_root thread_count init_seed st
    seed :
  rtc (search_step t s code_root storage_root)
    (search_init code_root storage_root thread_count init_seed) st ->
  ss_caller st = Done seed ->
  ss_stop st = true /\ good_seed t s code_root storage_root seed /\
  exists i k, (i < thread_count)%nat /\
    seed = seed_chain code_root storage_root (initial_seed
      (alter (fun b => (b + Z.of_nat i mod 256) mod 256) 0%nat init_seed)) k.
Proof.
  intros Hreach Hdone.
  pose (start i := initial_seed (alter (fun b => (b + Z.of_nat i mod 256) mod 256) 0%nat init_seed)).
  assert (Hinv : search_inv t s code_root storage_root (start <$> seq 0 thread_count) st).
  { eapply search_reachable_inv; [exact Hreach|]. split_and!; cbn; [|constructor|done].
    apply Forall_fmap, Forall_forall. intros i Hi. split; [done|].
    exists (start i), 0%nat. split; [by apply list_elem_of_fmap_2|done]. }
  destruct Hinv as (_ & _ & Hc). rewrite Hdone in Hc. destruct Hc as (Hs & Hg & st0 & k & Hin & ->).
  split_and!; [done|done|]. apply list_elem_of_fmap in Hin as (i & -> & Hi).
  apply elem_of_seq in Hi. exists i, k. split; [lia|done].
Qed.
End properties.

(** ** Witness *)

Import RefInstances.

Definition sample_init_seed : list Z :=
  to_le_bytes 8 15767079393073438651 ++ to_le_bytes 8 5374889629717441992 ++
  to_le_bytes 8 8120751359256615363 ++ to_le_bytes 8 5866760133615119580.

Lemma get_account_seed_concurrent_sound_witness :
  good_seed RegularAccountImmutableCode OnChain EMPTY_WORD EMPTY_WORD
    (initial_seed sample_init_seed).
Proof.
  assert (Hm : seed_matches RegularAccountImmutableCode OnChain
    (compute_digest (initial_seed sample_init_seed) EMPTY_WORD EMPTY_WORD) = Ok true)
    by (vm_compute; reflexivity).
  set (w := spawn EMPTY_WORD EMPTY_WORD sample_init_seed).
  set (w' := mkWorker (wk_seed w) (wk_digest w) 0 Returned).
  set (msg := (wk_digest w, wk_seed w)).
  apply (get_account_seed_concurrent_sound RegularAccountImmutableCode OnChain EMPTY_WORD
    EMPTY_WORD 1 sample_init_seed (mkSearch [w'] [] true (Done (wk_seed w)))); [|reflexivity].
  apply rtc_l with (mkSearch [w'] [msg] false Waiting).
  { apply (step_worker _ _ _ _ [w] [] false Waiting 0 w w' [msg]); [reflexivity..|].
    unfold worker_iteration. change (wk_digest w) with
      (compute_digest (initial_seed sample_init_seed) EMPTY_WORD EMPTY_WORD). rewrite Hm.
    reflexivity. }
  apply rtc_l with (mkSearch [w'] [] false (Received msg)); [apply step_recv|].
  apply rtc_once, step_stop.
Defined.
