(* ===== verification/Assets.v ===== *)
(** assets/mod.rs, fungible.rs and nonfungible.rs: fungible and non-fungible
    assets, their encoding in a word and in 32 bytes, and the arithmetic of
    fungible amounts. *)
From S2P Require Import Prelude Interfaces Types Reference AccountIds.
Local Open Scope Z_scope.

(** [u64::checked_add] and [u64::checked_sub]. *)
Definition checked_add (a b : Z) : option Z := if decide (a + b < 2 ^ 64) then Some (a + b) else None.
Definition checked_sub (a b : Z) : option Z := if decide (b <= a) then Some (a - b) else None.

(** [FungibleAsset::MAX_AMOUNT]. *)
Definition MAX_AMOUNT : Z := Z.shiftl 1 63 - 1.

Section assets.
Context `{F : Field} {C : Crypto} {AS : Assembly} {FE : Features} {D : Display} {B : Build}.

(** ** Helpers of assets/mod.rs *)

Definition is_not_a_non_fungible_asset (asset : Word) : bool :=
  bool_decide (Z.land (as_int (w3 asset)) ACCOUNT_ISFAUCET_MASK = ACCOUNT_ISFAUCET_MASK).

Definition asset_parse_felt (bytes : list Z) : res AssetError Felt :=
  map_err InvalidFieldElement (Felt_try_from_bytes bytes).

Definition parse_word (bytes : list Z) : res AssetError Word :=
  x0 ← asset_parse_felt (take 8 bytes);
  x1 ← asset_parse_felt (take 8 (drop 8 bytes));
  x2 ← asset_parse_felt (take 8 (drop 16 bytes));
  x3 ← asset_parse_felt (drop 24 bytes);
  Ok (mkWord x0 x1 x2 x3).

(** ** Fungible assets *)

Definition fungible_validate (self : FungibleAsset) : res AssetError unit :=
  t ← account_type (fa_faucet_id self);
  if decide (t <> FungibleFaucet) then Err (NotAFungibleFaucetId (fa_faucet_id self) t)
  else if decide (fa_amount self > MAX_AMOUNT) then Err (AmountTooBig (fa_amount self))
  else Ok tt.

Definition fungible_new (faucet_id : AccountId) (amount : Z) : res AssetError FungibleAsset :=
  let asset := mkFungibleAsset faucet_id amount in
  _ ← fungible_validate asset; Ok asset.

Definition fungible_new_unchecked (value : Word) : FungibleAsset :=
  mkFungibleAsset (new_unchecked (w3 value)) (as_int (w0 value)).

Definition is_from_same_faucet (self other : FungibleAsset) : bool :=
  bool_decide (fa_faucet_id self = fa_faucet_id other).

Definition fungible_vault_key (self : FungibleAsset) : Word :=
  mkWord ZERO ZERO ZERO (felt_of_id (fa_faucet_id self)).

Definition fungible_add (self other : FungibleAsset) : res AssetError FungibleAsset :=
  if decide (fa_faucet_id self <> fa_faucet_id other)
  then Err (InconsistentFaucetIds (fa_faucet_id self) (fa_faucet_id other))
  else
    amount ← expect (checked_add (fa_amount self) (fa_amount other));
    if decide (amount > MAX_AMOUNT) then Err (AmountTooBig amount)
    else Ok (mkFungibleAsset (fa_faucet_id self) amount).

(** [sub(&mut self, amount)]: the receiver keeps the difference, the subtracted
    asset is returned. *)
Definition fungible_sub (amount : Z) : mut FungibleAsset AssetError FungibleAsset :=
  self ← read_self;
  rest ← lift (ok_or (checked_sub (fa_amount self) amount)
                 (AssetAmountNotSufficient (fa_amount self) amount));
  _ ← write_self (mkFungibleAsset (fa_faucet_id self) rest);
  mret (mkFungibleAsset (fa_faucet_id self) amount).

(** [From<FungibleAsset> for Word], with its [debug_assert!]. *)
Definition word_of_fungible {E} (asset : FungibleAsset) : res E Word :=
  let result := mkWord (Felt_new (fa_amount asset)) ZERO ZERO (felt_of_id (fa_faucet_id asset)) in
  _ ← debug_assert (is_not_a_non_fungible_asset result); Ok result.

Definition bytes_of_fungible (asset : FungibleAsset) : list Z :=
  to_le_bytes 8 (fa_amount asset) ++ replicate 16 0 ++ bytes_of_id (fa_faucet_id asset).

Definition fungible_try_from (value : Word) : res AssetError FungibleAsset :=
  if decide ((w1 value, w2 value) <> (ZERO, ZERO)) then Err (FungibleAssetInvalidWord value)
  else
    faucet_id ← map_err (fun e => InvalidAccountId (to_string e)) (try_from_felt (w3 value));
    fungible_new faucet_id (as_int (w0 value)).

(** ** Non-fungible assets *)

Definition from_parts (faucet_id : AccountId) (data_hash : Word) : res AssetError NonFungibleAsset :=
  t ← account_type faucet_id;
  if decide (t <> NonFungibleFaucet) then Err (NotANonFungibleFaucetId faucet_id)
  else
    let d3 := as_int (w3 data_hash) in
    Ok (mkNonFungibleAsset (mkWord (w0 data_hash) (felt_of_id faucet_id) (w2 data_hash)
      (Felt_new (Z.lxor (Z.land d3 ACCOUNT_ISFAUCET_MASK) d3)))).

Definition non_fungible_new (details : NonFungibleAssetDetails) : res AssetError NonFungibleAsset :=
  from_parts (nfd_faucet_id details) (hash_bytes (nfd_asset_data details)).

Definition details_new (faucet_id : AccountId) (asset_data : list Z)
    : res AssetError NonFungibleAssetDetails :=
  t ← account_type faucet_id;
  if decide (t <> NonFungibleFaucet) then Err (NotANonFungibleFaucetId faucet_id)
  else Ok (mkNonFungibleAssetDetails faucet_id asset_data).

Definition non_fungible_vault_key (self : NonFungibleAsset) : Word := nfa_word self.
Definition non_fungible_faucet_id (self : NonFungibleAsset) : AccountId :=
  new_unchecked (w1 (nfa_word self)).

Definition non_fungible_validate (self : NonFungibleAsset) : res AssetError unit :=
  faucet_id ← map_err (fun e => InvalidAccountId (to_string e)) (try_from_felt (w1 (nfa_word self)));
  t ← account_type faucet_id;
  if decide (t <> NonFungibleFaucet) then Err (NotAFungibleFaucetId faucet_id t) else Ok tt.

Definition bytes_of_non_fungible (asset : NonFungibleAsset) : list Z :=
  to_le_bytes 8 (as_int (w0 (nfa_word asset))) ++ to_le_bytes 8 (as_int (w1 (nfa_word asset))) ++
  to_le_bytes 8 (as_int (w2 (nfa_word asset))) ++ to_le_bytes 8 (as_int (w3 (nfa_word asset))).

Definition non_fungible_try_from (value : Word) : res AssetError NonFungibleAsset :=
  let asset := mkNonFungibleAsset value in
  _ ← non_fungible_validate asset; Ok asset.

(** ** Assets *)

Definition asset_new_unchecked (value : Word) : Asset :=
  if is_not_a_non_fungible_asset value then Fungible (fungible_new_unchecked value)
  else NonFungible (mkNonFungibleAsset value).

Definition is_same (self other : Asset) : bool :=
  match self, other with
  | Fungible l, Fungible r => is_from_same_faucet l r
  | NonFungible l, NonFungible r => bool_decide (l = r)
  | _, _ => false
  end.

Definition is_fungible (self : Asset) : bool :=
  match self with Fungible _ => true | NonFungible _ => false end.

Definition vault_key (self : Asset) : Word :=
  match self with
  | Fungible asset => fungible_vault_key asset
  | NonFungible asset => non_fungible_vault_key asset
  end.

Definition word_of_asset {E} (asset : Asset) : res E Word :=
  match asset with
  | Fungible asset => word_of_fungible asset
  | NonFungible asset => Ok (nfa_word asset)
  end.

Definition bytes_of_asset (asset : Asset) : list Z :=
  match asset with
  | Fungible asset => bytes_of_fungible asset
  | NonFungible asset => bytes_of_non_fungible asset
  end.

Definition asset_try_from (value : Word) : res AssetError Asset :=
  if is_not_a_non_fungible_asset value then res_map Fungible (fungible_try_from value)
  else res_map NonFungible (non_fungible_try_from value).

Definition asset_try_from_bytes (value : list Z) : res AssetError Asset :=
  w ← parse_word value; asset_try_from w.
Definition fungible_try_from_bytes (value : list Z) : res AssetError FungibleAsset :=
  word ← parse_word value; fungible_try_from word.
Definition non_fungible_try_from_bytes (value : list Z) : res AssetError NonFungibleAsset :=
  word ← parse_word value; non_fungible_try_from word.

Context {IO : ByteIO}.

Definition asset_codec : Codec Asset := {|
  write_into self := write_bytes (bytes_of_asset self);
  read_from :=
    data_vec ← read_vec 32;
    _ ← lift (assert_ (bool_decide (length data_vec = 32%nat)));
    lift (map_err (fun error => InvalidValue (to_string error)) (asset_try_from_bytes data_vec))
|}.
End assets.

(** ** Specification *)

Section spec.
Context `{F : Field}.

Definition fungible_valid (a : FungibleAsset) : Prop :=
  AccountId_valid (fa_faucet_id a) /\ type_of_id (fa_faucet_id a) = FungibleFaucet /\
  0 <= fa_amount a <= MAX_AMOUNT.

(** The issuer sits in element 1, and the faucet bit of element 3 is clear. *)
Definition non_fungible_valid (a : NonFungibleAsset) : Prop :=
  AccountId_valid (mkAccountId (w1 (nfa_word a))) /\
  type_of_id (mkAccountId (w1 (nfa_word a))) = NonFungibleFaucet /\
  Z.testbit (as_int (w3 (nfa_word a))) 61 = false.

Definition asset_valid (a : Asset) : Prop :=
  match a with Fungible a => fungible_valid a | NonFungible a => non_fungible_valid a end.

(** The word of an asset, without the assertion. *)
Definition asset_word (a : Asset) : Word :=
  match a with
  | Fungible a => mkWord (Felt_new (fa_amount a)) ZERO ZERO (id_felt (fa_faucet_id a))
  | NonFungible a => nfa_word a
  end.

#[export] Instance asset_valid_dec a : Decision (asset_valid a).
Proof. destruct a; cbn; unfold fungible_valid, non_fungible_valid; apply _. Defined.
End spec.

(** ** Lemmas *)

Local Arguments Z.testbit : simpl never.
Local Arguments Z.land : simpl never.

Lemma MAX_AMOUNT_lt : MAX_AMOUNT < MODULUS.
Proof. reflexivity. Qed.

Section lemmas.
Context `{F : Field} {FL : FieldLaws F} {C : Crypto} {AS : Assembly} {FE : Features} {D : Display}
  {B : Build}.
Implicit Types (a b : Asset) (w : Word) (id : AccountId).

Lemma faucet_mask_testbit v :
  Z.land v ACCOUNT_ISFAUCET_MASK = ACCOUNT_ISFAUCET_MASK <-> Z.testbit v 61 = true.
Proof. apply (testbit_land_pow2 v 61). lia. Qed.

Lemma is_not_a_non_fungible_testbit w :
  is_not_a_non_fungible_asset w = Z.testbit (as_int (w3 w)) 61.
Proof.
  unfold is_not_a_non_fungible_asset.
  destruct (Z.testbit _ 61) eqn:Hb.
  - apply bool_decide_eq_true, faucet_mask_testbit, Hb.
  - apply bool_decide_eq_false. rewrite faucet_mask_testbit. congruence.
Qed.

Lemma fungible_faucet_testbit id :
  type_of_id id = FungibleFaucet -> Z.testbit (as_int (id_felt id)) 61 = true.
Proof. intros Ht. apply faucet_mask_testbit, faucet_bit. by left. Qed.

Lemma account_id_valid_nonzero id : AccountId_valid id -> id_felt id <> ZERO.
Proof.
  intros [Hones _] Hz. rewrite Hz, as_int_ZERO in Hones. vm_compute in Hones. congruence.
Qed.

Lemma fungible_validate_ok (x : FungibleAsset) :
  fungible_validate x = Ok tt <->
  type_of_id (fa_faucet_id x) = FungibleFaucet /\ fa_amount x <= MAX_AMOUNT.
Proof.
  unfold fungible_validate. rewrite account_type_total. cbn.
  repeat case_decide; split; intros Hx; try done; naive_solver lia.
Qed.

Lemma fungible_new_ok id amount x :
  fungible_new id amount = Ok x <->
  x = mkFungibleAsset id amount /\ type_of_id id = FungibleFaucet /\ amount <= MAX_AMOUNT.
Proof.
  unfold fungible_new. rewrite bind_ok. split.
  - intros ([] & Hv & Hx). apply fungible_validate_ok in Hv. naive_solver.
  - intros (-> & Ht & Ha). exists tt. by rewrite fungible_validate_ok.
Qed.

Lemma fungible_try_from_ok w x :
  fungible_try_from w = Ok x <-> fungible_valid x /\ asset_word (Fungible x) = w.
Proof.
  destruct w as [v0 v1 v2 v3]. unfold fungible_try_from, fungible_valid. cbn. pose proof MAX_AMOUNT_lt.
  case_decide as Hz; [split; [done|]; intros [_ Hw]; naive_solver|].
  simplify_eq. rewrite bind_ok. split.
  - intros (id & Hid & Hx). apply map_err_ok, try_from_felt_ok_iff in Hid as [-> Hid].
    apply fungible_new_ok in Hx as (-> & Ht & Ha). cbn.
    rewrite Felt_new_as_int. split_and!; try done. apply as_int_range.
  - intros [(Hid & Ht & Ha) Hw]. simplify_eq. exists (fa_faucet_id x).
    rewrite map_err_ok, (try_from_felt_valid _ Hid), as_int_new_small, fungible_new_ok by lia.
    destruct x; cbn in *. split_and!; (done || lia).
Qed.

Lemma non_fungible_try_from_ok w x :
  non_fungible_try_from w = Ok x <->
  x = mkNonFungibleAsset w /\ AccountId_valid (mkAccountId (w1 w)) /\
  type_of_id (mkAccountId (w1 w)) = NonFungibleFaucet.
Proof.
  unfold non_fungible_try_from, non_fungible_validate. rewrite bind_ok. cbn. split.
  - intros ([] & Hv & Hx). inv_res. rename x0 into id.
    apply try_from_felt_ok_iff in H as [-> Hid].
    rewrite account_type_total in H0. injection H0 as <-. by case_decide.
  - intros (-> & Hid & Ht). exists tt. split; [|done].
    rewrite (try_from_felt_valid (mkAccountId (w1 w)) Hid). cbn. rewrite account_type_total. cbn.
    rewrite decide_False; [done|]. naive_solver.
Qed.

(** Decoding accepts exactly the words of valid assets. *)
Lemma asset_try_from_ok w a : asset_try_from w = Ok a <-> asset_valid a /\ asset_word a = w.
Proof.
  unfold asset_try_from. rewrite is_not_a_non_fungible_testbit.
  destruct (Z.testbit (as_int (w3 w)) 61) eqn:Hb; rewrite res_map_ok.
  - split.
    + intros (x & Hx & <-). by apply fungible_try_from_ok in Hx.
    + intros [Hv Hw]. destruct a as [x|x].
      * exists x. by rewrite fungible_try_from_ok.
      * cbn in *. subst w. destruct Hv as (_ & _ & Hb'). congruence.
  - split.
    + intros (x & Hx & <-). apply non_fungible_try_from_ok in Hx as (-> & ? & ?). done.
    + intros [Hv Hw]. destruct a as [x|x].
      * cbn in *. subst w. destruct Hv as (_ & Ht & _).
        apply fungible_faucet_testbit in Ht. cbn in Hb. congruence.
      * exists x. cbn in *. subst w. rewrite non_fungible_try_from_ok.
        destruct Hv as (? & ? & ?). by destruct x.
Qed.

Lemma asset_try_from_no_panic w : asset_try_from w <> Panic.
Proof.
  unfold asset_try_from. case_match.
  - unfold fungible_try_from, fungible_new, fungible_validate. case_decide; [done|].
    pose proof (try_from_felt_no_panic (w3 w)). destruct (try_from_felt (w3 w)); [|done|done].
    cbn [map_err mbind res_bind]. rewrite account_type_total. cbn. by repeat case_decide.
  - unfold non_fungible_try_from, non_fungible_validate. cbn.
    pose proof (try_from_felt_no_panic (w1 w)). destruct (try_from_felt (w1 w)); [|done|done].
    cbn [map_err mbind res_bind]. rewrite ?account_type_total. cbn. by repeat case_decide.
Qed.

Lemma asset_word_testbit a :
  asset_valid a -> Z.testbit (as_int (w3 (asset_word a))) 61 = is_fungible a.
Proof.
  destruct a as [x|x]; cbn.
  - intros (_ & Ht & _). by apply fungible_faucet_testbit.
  - by intros (_ & _ & ?).
Qed.

(** The assertion in the conversion to a word never fires on a valid asset. *)
Lemma word_of_asset_valid {E} a : asset_valid a -> word_of_asset (E := E) a = Ok (asset_word a).
Proof.
  intros Hv. pose proof (asset_word_testbit a Hv) as Hb. destruct a as [x|x]; cbn in *; [|done].
  unfold word_of_fungible, debug_assert. cbn. rewrite is_not_a_non_fungible_testbit. cbn.
  unfold felt_of_id. rewrite Hb. by destruct profile.
Qed.

Lemma asset_new_unchecked_word a : asset_valid a -> asset_new_unchecked (asset_word a) = a.
Proof.
  intros Hv. unfold asset_new_unchecked.
  rewrite is_not_a_non_fungible_testbit, (asset_word_testbit a Hv).
  destruct a as [[id amount]|[w]]; cbn; [|done]. destruct Hv as (_ & _ & Ha).
  pose proof MAX_AMOUNT_lt. cbn in *. unfold fungible_new_unchecked, new_unchecked. cbn.
  rewrite as_int_new_small by lia. by destruct id.
Qed.

Lemma asset_word_inj a b : asset_valid a -> asset_valid b -> asset_word a = asset_word b -> a = b.
Proof.
  intros Ha Hb Heq. rewrite <- (asset_new_unchecked_word a Ha), <- (asset_new_unchecked_word b Hb).
  by rewrite Heq.
Qed.

Lemma asset_word_nonempty a : asset_valid a -> asset_word a <> EMPTY_WORD.
Proof.
  destruct a as [x|x]; intros (Hid & _) Heq; apply (account_id_valid_nonzero _ Hid); cbn in *.
  - by injection Heq.
  - rewrite Heq. done.
Qed.

Lemma asset_parse_felt_ok (y : Felt) : asset_parse_felt (to_le_bytes 8 (as_int y)) = Ok y.
Proof.
  unfold asset_parse_felt. rewrite Felt_try_from_bytes_ok by apply as_int_range.
  by rewrite Felt_new_as_int.
Qed.

Lemma parse_word_bytes (x0 x1 x2 x3 : Felt) :
  parse_word (to_le_bytes 8 (as_int x0) ++ to_le_bytes 8 (as_int x1) ++
              to_le_bytes 8 (as_int x2) ++ to_le_bytes 8 (as_int x3)) = Ok (mkWord x0 x1 x2 x3).
Proof.
  unfold parse_word.
  assert (Htake : forall v (l : list Z), take 8 (to_le_bytes 8 v ++ l) = to_le_bytes 8 v)
    by (intros; apply take_app_length'; by rewrite length_to_le_bytes).
  assert (Hdrop : forall v (l : list Z) n, drop (8 + n) (to_le_bytes 8 v ++ l) = drop n l)
    by (intros; apply drop_app_add'; by rewrite length_to_le_bytes).
  change 24%nat with (8 + (8 + (8 + 0)))%nat. change 16%nat with (8 + (8 + 0))%nat.
  change (drop 8) with (drop (A := Z) (8 + 0)).
  rewrite !Hdrop, !drop_0, !Htake, !asset_parse_felt_ok. done.
Qed.

Lemma parse_word_bytes_of_asset a :
  asset_valid a -> parse_word (bytes_of_asset a) = Ok (asset_word a).
Proof.
  destruct a as [x|x]; cbn [bytes_of_asset asset_word asset_valid].
  - intros (_ & _ & Ha). pose proof MAX_AMOUNT_lt. unfold bytes_of_fungible, bytes_of_id.
    rewrite <- parse_word_bytes, as_int_new_small, as_int_ZERO by lia. done.
  - intros _. unfold bytes_of_non_fungible. rewrite parse_word_bytes. by destruct (nfa_word x).
Qed.

Lemma length_bytes_of_asset a : length (bytes_of_asset a) = 32%nat.
Proof.
  destruct a; cbn [bytes_of_asset]; unfold bytes_of_fungible, bytes_of_non_fungible, bytes_of_id;
    by rewrite !length_app, ?length_replicate, !length_to_le_bytes.
Qed.

(** Two valid assets share a key exactly when they are the same asset. *)
Lemma vault_key_is_same a b :
  asset_valid a -> asset_valid b -> vault_key a = vault_key b <-> is_same a b = true.
Proof.
  assert (Hmixed : forall x y, asset_valid (Fungible x) -> asset_valid (NonFungible y) ->
    vault_key (Fungible x) <> vault_key (NonFungible y)).
  { intros x y _ (Hid & _) Heq. cbn in Heq. apply (account_id_valid_nonzero _ Hid).
    cbn. unfold non_fungible_vault_key in Heq. by rewrite <- Heq. }
  intros Ha Hb. destruct a as [x|x], b as [y|y]; cbn [is_same].
  - unfold is_from_same_faucet. rewrite bool_decide_eq_true. cbn. split.
    + intros Heq. injection Heq. destruct (fa_faucet_id x), (fa_faucet_id y). cbn. congruence.
    + intros Heq. unfold fungible_vault_key. by rewrite Heq.
  - split; [intros Heq; by apply Hmixed in Heq|done].
  - split; [intros Heq; symmetry in Heq; by apply Hmixed in Heq|done].
  - rewrite bool_decide_eq_true. cbn. unfold non_fungible_vault_key. destruct x, y. cbn. naive_solver.
Qed.

Lemma fungible_sub_eq amount (x : FungibleAsset) :
  fungible_sub amount x =
    if decide (amount <= fa_amount x)
    then (mkFungibleAsset (fa_faucet_id x) (fa_amount x - amount),
          Ok (mkFungibleAsset (fa_faucet_id x) amount))
    else (x, Err (AssetAmountNotSufficient (fa_amount x) amount)).
Proof. unfold fungible_sub, checked_sub. run_mut. by case_decide. Qed.

Lemma fungible_add_valid (x y : FungibleAsset) :
  fungible_valid x -> fungible_valid y ->
  fungible_add x y =
    if decide (fa_faucet_id x = fa_faucet_id y) then
      if decide (fa_amount x + fa_amount y <= MAX_AMOUNT)
      then Ok (mkFungibleAsset (fa_faucet_id x) (fa_amount x + fa_amount y))
      else Err (AmountTooBig (fa_amount x + fa_amount y))
    else Err (InconsistentFaucetIds (fa_faucet_id x) (fa_faucet_id y)).
Proof.
  intros (_ & _ & Hx) (_ & _ & Hy). unfold fungible_add, checked_add.
  assert (MAX_AMOUNT + MAX_AMOUNT < 2 ^ 64) by reflexivity.
  destruct (decide (fa_faucet_id x = fa_faucet_id y)); [|by rewrite decide_True].
  rewrite decide_False by naive_solver. rewrite decide_True by lia. cbn.
  repeat case_decide; try done; lia.
Qed.
End lemmas.
#[export] Hint Resolve word_of_asset_valid asset_new_unchecked_word asset_word_nonempty
  parse_word_bytes_of_asset : rust.

Section serialization.
Context `{F : Field} {FL : FieldLaws F} {C : Crypto} {AS : Assembly} {FE : Features} {D : Display}
  {B : Build} {IO : ByteIO} {IOL : ByteIOLaws IO}.

Lemma asset_codec_round_trips : round_trips asset_codec asset_valid.
Proof.
  apply round_trip_intro. intros a Ha. exists (bytes_of_asset a).
  destruct (bytes_round_trip (bytes_of_asset a) []) as [Hw _]. split; [exact Hw|].
  intros rest. cbn [read_from asset_codec].
  destruct (bytes_round_trip (bytes_of_asset a) rest) as [_ Hr].
  rewrite length_bytes_of_asset in Hr. erewrite mut_bind_ok by exact Hr.
  erewrite mut_bind_ok by (apply lift_step; rewrite length_bytes_of_asset; reflexivity).
  apply lift_step, map_err_ok. unfold asset_try_from_bytes.
  rewrite parse_word_bytes_of_asset by done. by apply asset_try_from_ok.
Qed.

Lemma asset_codec_valid src rest a : read_from asset_codec src = (rest, Ok a) -> asset_valid a.
Proof.
  intros Hread. apply mut_bind_inv in Hread as (? & bytes & _ & Hread).
  apply mut_bind_inv in Hread as (? & ? & _ & Hread). injection Hread as _ Hread.
  apply map_err_ok in Hread. unfold asset_try_from_bytes in Hread. inv_res.
  by apply asset_try_from_ok in H0 as [? _].
Qed.
End serialization.

(** ** Properties *)

Section properties.
Context `{F : Field} {FL : FieldLaws F} {C : Crypto} {AS : Assembly} {FE : Features} {D : Display}
  {B : Build} {IO : ByteIO} {IOL : ByteIOLaws IO}.

(** The conversion of a word to an asset is the exact inverse of the
    conversion of an asset to a word: it accepts precisely the words of valid
    assets, and the fungible and the non-fungible encodings never overlap. An
    asset written to bytes reads back as the same asset, and reading bytes only
    ever produces valid assets. *)
Theorem asset_encoding :
  (forall w a, asset_try_from w = Ok a <-> asset_valid a /\ word_of_asset (E := AssetError) a = Ok w) /\
  round_trips asset_codec asset_valid /\
  (forall src rest a, read_from asset_codec src = (rest, Ok a) -> asset_valid a).
Proof.
  split_and!; [intros w a|apply asset_codec_round_trips|apply asset_codec_valid].
  rewrite asset_try_from_ok. split; intros [Hv Hw]; (split; [done|]).
  - rewrite word_of_asset_valid by done. by rewrite Hw.
  - rewrite word_of_asset_valid in Hw by done. congruence.
Qed.

(** The bytes of a valid asset are those of its kind only: the conversions of the two
    kinds take them to the asset and to an error. *)
Theorem asset_bytes_of_kind (a : Asset) (Hv : asset_valid a) :
  asset_try_from_bytes (bytes_of_asset a) = Ok a /\
  match a with
  | Fungible x => fungible_try_from_bytes (bytes_of_asset a) = Ok x /\
      forall y, non_fungible_try_from_bytes (bytes_of_asset a) <> Ok y
  | NonFungible x => non_fungible_try_from_bytes (bytes_of_asset a) = Ok x /\
      forall y, fungible_try_from_bytes (bytes_of_asset a) <> Ok y
  end.
Proof.
  unfold asset_try_from_bytes, fungible_try_from_bytes, non_fungible_try_from_bytes.
  rewrite parse_word_bytes_of_asset by done. cbn [mbind res_bind]. split; [by apply asset_try_from_ok|].
  destruct a as [x|x].
  - split; [by apply fungible_try_from_ok|]. intros y Hy. destruct Hv as (_ & Ht & _).
    apply non_fungible_try_from_ok in Hy as (_ & _ & Hy). unfold type_of_id in Hy. cbn in Hy.
    by rewrite as_int_ZERO in Hy.
  - destruct Hv as (Hid & Ht & Hb). split.
    + apply non_fungible_try_from_ok. by destruct x.
    + intros y (Hy & Hw)%fungible_try_from_ok. destruct Hy as (_ & Hty & _). apply fungible_faucet_testbit in Hty.
      cbn [asset_word] in Hw. rewrite <- Hw in Hb. cbn in Hb. congruence.
Qed.

(** Valid assets share a vault key exactly when they are the same asset:
    fungible assets of one faucet, or identical non-fungible assets; a fungible
    and a non-fungible asset never do. *)
Theorem vault_key_separates (a b : Asset) (Ha : asset_valid a) (Hb : asset_valid b) :
  (vault_key a = vault_key b <-> is_same a b = true) /\
  (vault_key a = vault_key b -> is_fungible a = is_fungible b).
Proof.
  pose proof (vault_key_is_same a b Ha Hb) as Hsame. split; [done|].
  intros Hk. apply Hsame in Hk. by destruct a, b.
Qed.

(** A non-fungible asset is built exactly for the identifiers of
    non-fungible faucets; built for a well-formed identifier it is a valid asset
    that names this issuer and keeps the other elements of the data hash. *)
Theorem non_fungible_from_parts (faucet_id : AccountId) (data_hash : Word) :
  (type_of_id faucet_id <> NonFungibleFaucet ->
    from_parts faucet_id data_hash = Err (NotANonFungibleFaucetId faucet_id)) /\
  (type_of_id faucet_id = NonFungibleFaucet -> exists a,
    from_parts faucet_id data_hash = Ok a /\ non_fungible_faucet_id a = faucet_id /\
    w0 (nfa_word a) = w0 data_hash /\ w2 (nfa_word a) = w2 data_hash /\
    (AccountId_valid faucet_id -> asset_valid (NonFungible a))).
Proof.
  unfold from_parts. rewrite account_type_total. cbn -[Z.lxor].
  split; intros Ht; [by rewrite decide_True|]. rewrite decide_False by naive_solver.
  eexists. split; [reflexivity|]. destruct faucet_id as [x]. cbn -[Z.lxor].
  split_and!; try done. intros Hv. cbn -[Z.lxor]. split_and!; [done..|].
  unfold non_fungible_valid. cbn -[Z.lxor].
  set (d3 := as_int (w3 data_hash)). pose proof (as_int_range (w3 data_hash)) as Hd3.
  destruct (clear_bit_le d3 ACCOUNT_ISFAUCET_MASK) as [Hlo Hhi]; [unfold d3; lia|].
  rewrite as_int_new_small by (unfold d3 in *; lia).
  apply not_true_iff_false. rewrite <- faucet_mask_testbit, clear_bit_land. done.
Qed.

(** Arithmetic of valid fungible assets: adding never overflows and succeeds
    exactly for one faucet and a total of at most 2^63 - 1; subtracting at most
    the balance leaves the difference and returns what was taken, so that
    adding it back restores the balance; subtracting more fails and leaves
    the asset as it was. *)
Theorem fungible_arithmetic (x y : FungibleAsset) (Hx : fungible_valid x) (Hy : fungible_valid y) :
  fungible_add x y <> Panic /\
  (forall z, fungible_add x y = Ok z <->
    z = mkFungibleAsset (fa_faucet_id x) (fa_amount x + fa_amount y) /\
    fa_faucet_id x = fa_faucet_id y /\ fa_amount x + fa_amount y <= MAX_AMOUNT) /\
  (fa_amount y <= fa_amount x -> exists rest taken,
    fungible_sub (fa_amount y) x = (rest, Ok taken) /\
    fungible_valid rest /\ fungible_valid taken /\ fungible_add rest taken = Ok x) /\
  (fa_amount x < fa_amount y ->
    fungible_sub (fa_amount y) x = (x, Err (AssetAmountNotSufficient (fa_amount x) (fa_amount y)))).
Proof.
  rewrite fungible_add_valid by done. split_and!.
  - by repeat case_decide.
  - intros z. repeat case_decide; naive_solver.
  - intros Hle. rewrite fungible_sub_eq, decide_True by done.
    destruct Hx as (? & ? & ?), Hy as (_ & _ & ?).
    do 2 eexists. split; [reflexivity|].
    assert (fungible_valid (mkFungibleAsset (fa_faucet_id x) (fa_amount x - fa_amount y)) /\
            fungible_valid (mkFungibleAsset (fa_faucet_id x) (fa_amount y))) as [Hr Ht]
      by (split; (split; [done|split; [done|cbn; lia]])).
    split_and!; [done|done|]. rewrite fungible_add_valid by done.
    cbn [fa_faucet_id fa_amount]. rewrite decide_True by done. rewrite decide_True by lia.
    destruct x as [id amt]. cbn [fa_faucet_id fa_amount]. do 2 f_equal. lia.
  - intros Hlt. by rewrite fungible_sub_eq, decide_False by lia.
Qed.
End properties.

(** ** Witnesses *)

Import RefInstances.

Definition sample_fungible (amount : Z) : FungibleAsset := mkFungibleAsset sample_id amount.
Definition sample_faucet_2 : AccountId :=
  mkAccountId (Felt_new ACCOUNT_ID_NON_FUNGIBLE_FAUCET_ON_CHAIN).
Definition sample_non_fungible : NonFungibleAsset :=
  mkNonFungibleAsset (mkWord (Felt_new 11) (id_felt sample_faucet_2) (Felt_new 12) (Felt_new 13)).

Lemma sample_fungible_valid amount : 0 <= amount <= MAX_AMOUNT -> fungible_valid (sample_fungible amount).
Proof. intros Ha. split; [apply sample_id_valid|]. split; [reflexivity|exact Ha]. Qed.

Lemma sample_non_fungible_valid : asset_valid (NonFungible sample_non_fungible).
Proof. vm_compute. split_and!; [discriminate|by left|reflexivity|reflexivity]. Qed.

Lemma asset_bytes_of_kind_witness :
  non_fungible_try_from_bytes (bytes_of_asset (NonFungible sample_non_fungible)) = Ok sample_non_fungible.
Proof. apply (asset_bytes_of_kind (NonFungible sample_non_fungible) sample_non_fungible_valid). Defined.

Lemma asset_encoding_witness :
  asset_try_from (asset_word (Fungible (sample_fungible 100))) = Ok (Fungible (sample_fungible 100)).
Proof.
  assert (Hv : asset_valid (Fungible (sample_fungible 100))) by (by apply sample_fungible_valid).
  apply asset_encoding. split; [exact Hv|]. by apply word_of_asset_valid.
Defined.

Lemma vault_key_separates_witness :
  vault_key (Fungible (sample_fungible 1)) = vault_key (Fungible (sample_fungible 2)) /\
  vault_key (Fungible (sample_fungible 1)) <> vault_key (NonFungible sample_non_fungible).
Proof.
  split.
  - apply (vault_key_separates (Fungible (sample_fungible 1)) (Fungible (sample_fungible 2)));
      [by apply sample_fungible_valid..|]. reflexivity.
  - intros Hk. apply (vault_key_separates (Fungible (sample_fungible 1))
      (NonFungible sample_non_fungible)) in Hk; [discriminate| |apply sample_non_fungible_valid].
    by apply sample_fungible_valid.
Defined.

Lemma non_fungible_from_parts_witness : exists a, from_parts sample_faucet_2 EMPTY_WORD = Ok a.
Proof.
  destruct (non_fungible_from_parts sample_faucet_2 EMPTY_WORD) as [_ Hok].
  destruct Hok as (a & Ha & _); [reflexivity|]. by exists a.
Defined.

Lemma fungible_arithmetic_witness :
  fungible_add (sample_fungible 3) (sample_fungible 4) = Ok (sample_fungible 7).
Proof.
  apply (fungible_arithmetic (sample_fungible 3) (sample_fungible 4));
    [by apply sample_fungible_valid..|]. repeat split; discriminate.
Defined.
