(* ===== verification/TokenSymbols.v ===== *)
(** assets/token_symbol.rs: token symbols of up to six letters, encoded base 26
    in a field element. *)
From Stdlib Require Import Ascii String.
From S2P Require Import Prelude Interfaces Types Reference.
Local Open Scope Z_scope.

Definition MAX_SYMBOL_LENGTH : Z := 6.
Definition MAX_ENCODED_VALUE : Z := 26 ^ MAX_SYMBOL_LENGTH.

Definition char_code (c : ascii) : Z := Z.of_N (N_of_ascii c).
Definition char_of_code (v : Z) : ascii := ascii_of_N (Z.to_N v).
Definition is_ascii_uppercase (c : ascii) : bool := (65 <=? char_code c) && (char_code c <=? 90).

Section token_symbol.
Context `{F : Field} {B : Build}.

Record TokenSymbol := mkTokenSymbol { ts_felt : Felt }.

Definition symbol_error {A} (msg : string) : res AssetError A := Err (TokenSymbolError msg).

(** The loop of [encode_symbol_to_felt] on a [u64]. *)
Fixpoint encode_loop (encoded_value : Z) (chars : list ascii) : res AssetError Z :=
  match chars with
  | [] => Ok encoded_value
  | char :: chars' =>
      let digit := char_code char - 65 in
      _ ← assert_ (bool_decide (digit < 26));
      next ← add_w 64 (encoded_value * 26) digit;
      encode_loop next chars'
  end.

Definition encode_symbol_to_felt (s : string) : res AssetError Felt :=
  let chars := list_ascii_of_string s in
  let len := Z.of_nat (List.length chars) in
  if decide (len = 0 \/ len > MAX_SYMBOL_LENGTH)
  then symbol_error "Token symbol must be between 1 and 6 characters long."
  else if existsb (fun c => negb (is_ascii_uppercase c)) chars
  then symbol_error "Token Symbol contains characters that are not ASCII upper case"
  else res_map Felt_new (encode_loop 0 chars).

(** [for _ in 0..n]: the digits are inserted at the front. *)
Fixpoint decode_loop (n : nat) (remaining_value : Z) (decoded_string : list ascii) : list ascii :=
  match n with
  | O => decoded_string
  | S n' =>
      let digit := remaining_value mod 26 in
      decode_loop n' (remaining_value / 26) (char_of_code (digit + 65) :: decoded_string)
  end.

Definition decode_felt_to_symbol {E} (encoded_felt : Felt) : res E string :=
  let encoded_value := as_int encoded_felt in
  _ ← assert_ (bool_decide (encoded_value < MAX_ENCODED_VALUE));
  Ok (string_of_list_ascii (decode_loop 6 encoded_value [])).

Definition token_symbol_new (symbol : string) : res AssetError TokenSymbol :=
  felt ← encode_symbol_to_felt symbol; Ok (mkTokenSymbol felt).

Definition to_str {E} (self : TokenSymbol) : res E string := decode_felt_to_symbol (ts_felt self).

Definition token_symbol_try_from (felt : Felt) : res AssetError TokenSymbol :=
  if decide (as_int felt >= MAX_ENCODED_VALUE) then symbol_error "Encoded value is too large"
  else Ok (mkTokenSymbol felt).
End token_symbol.
Arguments TokenSymbol {_}.

(** ** Specification *)

(** The value of a string of letters in base 26, the last letter least significant. *)
Fixpoint symbol_value (chars : list ascii) : Z :=
  match chars with
  | [] => 0
  | c :: chars' => (char_code c - 65) * 26 ^ Z.of_nat (List.length chars') + symbol_value chars'
  end.

Definition is_symbol (chars : list ascii) : Prop :=
  (1 <= List.length chars <= 6)%nat /\ Forall (fun c => is_ascii_uppercase c = true) chars.

(** ** Lemmas *)

Lemma char_of_code_code v : 0 <= v < 256 -> char_code (char_of_code v) = v.
Proof.
  intros Hv. unfold char_code, char_of_code. rewrite N_ascii_embedding by lia. lia.
Qed.

Lemma char_code_of_char c : char_of_code (char_code c) = c.
Proof. unfold char_code, char_of_code. by rewrite N2Z.id, ascii_N_embedding. Qed.

Lemma uppercase_range c : is_ascii_uppercase c = true <-> 65 <= char_code c <= 90.
Proof. unfold is_ascii_uppercase. rewrite andb_true_iff, !Z.leb_le. done. Qed.

Lemma symbol_value_range chars :
  Forall (fun c => is_ascii_uppercase c = true) chars ->
  0 <= symbol_value chars < 26 ^ Z.of_nat (List.length chars).
Proof.
  induction 1 as [|c chars Hc _ IH]; cbn -[Z.pow Z.of_nat]; [lia|].
  apply uppercase_range in Hc. rewrite Nat2Z.inj_succ, Z.pow_succ_r by lia. nia.
Qed.

Lemma pow26_le n m : (n <= m)%nat -> 26 ^ Z.of_nat n <= 26 ^ Z.of_nat m.
Proof. intros. apply Z.pow_le_mono_r; lia. Qed.

(** The digits the decoder produces, from a value and the digits already produced. *)
Lemma decode_loop_value chars acc rest :
  Forall (fun c => is_ascii_uppercase c = true) chars ->
  decode_loop (List.length chars) (rest * 26 ^ Z.of_nat (List.length chars) + symbol_value chars) acc =
  chars ++ acc.
Proof.
  intros Hch. revert acc rest. induction chars as [|c chars IH] using rev_ind; intros acc rest; [done|].
  apply Forall_app in Hch as [Hch Hc]. inversion_clear Hc as [|? ? Hup _].
  apply uppercase_range in Hup.
  assert (Hsnoc : symbol_value (chars ++ [c]) = symbol_value chars * 26 + (char_code c - 65)).
  { clear. induction chars as [|d chars IH]; cbn -[Z.pow Z.of_nat Z.mul]; [lia|].
    rewrite IH, length_app. cbn [List.length]. rewrite Nat2Z.inj_add, Z.pow_add_r by lia. lia. }
  rewrite length_app, Hsnoc. cbn [List.length]. rewrite Nat.add_1_r. cbn [decode_loop].
  rewrite Nat2Z.inj_succ, Z.pow_succ_r by lia.
  set (v := rest * (26 * 26 ^ Z.of_nat (List.length chars)) +
            (symbol_value chars * 26 + (char_code c - 65))).
  assert (Hv : v = (char_code c - 65) +
            (rest * 26 ^ Z.of_nat (List.length chars) + symbol_value chars) * 26) by (unfold v; lia).
  rewrite Hv, Z.mod_add, Z.mod_small, Z.div_add, Z.div_small, Z.add_0_l by lia.
  rewrite IH by done. rewrite Z.sub_add, char_code_of_char. by rewrite <- app_assoc.
Qed.

(** Every value below 26^n is the value of [n] letters. *)
Lemma digits_exist n v : 0 <= v < 26 ^ Z.of_nat n ->
  exists chars, List.length chars = n /\ Forall (fun c => is_ascii_uppercase c = true) chars /\
    symbol_value chars = v.
Proof.
  revert v. induction n as [|n IH]; intros v Hv.
  - exists []. cbn in *. split_and!; [done|constructor|lia].
  - rewrite Nat2Z.inj_succ, Z.pow_succ_r in Hv by lia.
    assert (0 < 26 ^ Z.of_nat n) by (apply Z.pow_pos_nonneg; lia).
    destruct (IH (v mod 26 ^ Z.of_nat n)) as (chars & Hlen & Hup & Hval);
      [by apply Z.mod_pos_bound|].
    set (d := v / 26 ^ Z.of_nat n).
    assert (0 <= d < 26).
    { split; [apply Z.div_pos; lia|]. apply Z.div_lt_upper_bound; lia. }
    exists (char_of_code (d + 65) :: chars). cbn -[Z.pow].
    rewrite char_of_code_code, Hval, Hlen by lia. split_and!; [done| |].
    + constructor; [|done]. apply uppercase_range. rewrite char_of_code_code by lia. lia.
    + unfold d. pose proof (Z.div_mod v (26 ^ Z.of_nat n)). lia.
Qed.

Section lemmas.
Context `{F : Field} {FL : FieldLaws F} {B : Build}.

Lemma encode_loop_value chars acc :
  Forall (fun c => is_ascii_uppercase c = true) chars -> (List.length chars <= 6)%nat ->
  0 <= acc -> acc * 26 ^ Z.of_nat (List.length chars) + symbol_value chars < 2 ^ 64 ->
  encode_loop acc chars = Ok (acc * 26 ^ Z.of_nat (List.length chars) + symbol_value chars).
Proof.
  revert acc. induction chars as [|c chars IH]; intros acc Hup Hlen Hacc Hmax.
  { cbn. f_equal. lia. }
  inversion_clear Hup as [|? ? Hc Hcs]. apply uppercase_range in Hc.
  pose proof (symbol_value_range chars Hcs) as Hv.
  cbn -[Z.pow Z.of_nat Z.mul] in *. rewrite Nat2Z.inj_succ, Z.pow_succ_r in * by lia.
  assert (0 < 26 ^ Z.of_nat (List.length chars)) by (apply Z.pow_pos_nonneg; lia).
  rewrite bool_decide_true by lia. cbn -[Z.pow Z.of_nat Z.mul]. unfold add_w.
  rewrite decide_True by nia. cbn -[Z.pow Z.of_nat Z.mul].
  rewrite IH; [f_equal; nia|done|lia|nia|nia].
Qed.

Lemma encode_symbol_ok s :
  is_symbol (list_ascii_of_string s) ->
  encode_symbol_to_felt s = Ok (Felt_new (symbol_value (list_ascii_of_string s))).
Proof.
  intros [Hlen Hup]. unfold encode_symbol_to_felt, MAX_SYMBOL_LENGTH.
  set (chars := list_ascii_of_string s) in *.
  rewrite decide_False by lia.
  replace (existsb _ chars) with false.
  2: { symmetry. apply not_true_iff_false. intros (c & Hin & Hc)%existsb_exists.
       rewrite Forall_forall in Hup. rewrite Hup in Hc; [done|]. by apply list_elem_of_In. }
  pose proof (symbol_value_range chars Hup). pose proof (pow26_le (List.length chars) 6).
  assert (26 ^ Z.of_nat 6 < 2 ^ 64) by reflexivity.
  rewrite encode_loop_value by (done || lia). done.
Qed.

Lemma encode_symbol_err s :
  ~ is_symbol (list_ascii_of_string s) -> exists e, encode_symbol_to_felt s = Err e.
Proof.
  intros Hns. unfold encode_symbol_to_felt, symbol_error, MAX_SYMBOL_LENGTH.
  set (chars := list_ascii_of_string s) in *.
  case_decide as Hlen; [by eexists|]. destruct (existsb _ chars) eqn:Hex; [by eexists|].
  exfalso. apply Hns. split; [lia|]. apply Forall_forall. intros c Hc.
  destruct (is_ascii_uppercase c) eqn:Hu; [done|]. exfalso.
  apply not_true_iff_false in Hex. apply Hex, existsb_exists. exists c.
  split; [by apply list_elem_of_In|]. by rewrite Hu.
Qed.

(** Encoding then decoding pads with the letter A on the left. *)
Lemma decode_encode {E} s :
  is_symbol (list_ascii_of_string s) ->
  decode_felt_to_symbol (E := E) (Felt_new (symbol_value (list_ascii_of_string s))) =
  Ok (string_of_list_ascii
        (replicate (6 - List.length (list_ascii_of_string s)) "A"%char ++ list_ascii_of_string s)).
Proof.
  intros [Hlen Hup]. set (chars := list_ascii_of_string s) in *.
  set (pad := replicate (6 - List.length chars) "A"%char).
  assert (Hpad : forall n l, symbol_value (replicate n "A"%char ++ l) = symbol_value l).
  { intros n l. induction n as [|n IH]; [done|]. cbn -[Z.pow]. rewrite IH. change (char_code "A") with 65. lia. }
  assert (Hupp : Forall (fun c => is_ascii_uppercase c = true) (pad ++ chars)).
  { apply Forall_app. split; [|done]. by apply Forall_replicate. }
  assert (Hl6 : List.length (pad ++ chars) = 6%nat).
  { unfold pad. rewrite length_app, length_replicate. lia. }
  pose proof (symbol_value_range _ Hupp) as Hr. rewrite Hl6 in Hr. rewrite <- (Hpad (6 - List.length chars)%nat chars).
  fold pad in Hr |- *.
  assert (26 ^ Z.of_nat 6 < MODULUS) by reflexivity.
  unfold decode_felt_to_symbol. rewrite as_int_new_small by lia.
  rewrite bool_decide_true by exact (proj2 Hr). cbn [assert_ mbind res_bind].
  rewrite <- Hl6 at 1. rewrite <- (Z.add_0_l (symbol_value _)).
  rewrite <- (Z.mul_0_l (26 ^ Z.of_nat (List.length (pad ++ chars)))).
  rewrite decode_loop_value by done. by rewrite app_nil_r.
Qed.
End lemmas.

(** ** Properties *)

Section properties.
Context `{F : Field} {FL : FieldLaws F} {B : Build}.

(** The text of an accepted element has six letters and encodes to the element. *)
Lemma token_symbol_try_from_text (x : Felt) t (Ht : token_symbol_try_from x = Ok t) :
  as_int x < MAX_ENCODED_VALUE /\ ts_felt t = x /\
  exists s, to_str (E := AssetError) t = Ok s /\ String.length s = 6%nat /\
    token_symbol_new s = Ok t.
Proof.
  unfold token_symbol_try_from, symbol_error in Ht. case_decide as Hlt; simplify_eq.
  cbn [ts_felt]. split_and!; [lia|done|].
  destruct (digits_exist 6 (as_int x)) as (chars & Hlen & Hup & Hv).
  { pose proof (as_int_range x). unfold MAX_ENCODED_VALUE, MAX_SYMBOL_LENGTH in *. lia. }
  set (s := string_of_list_ascii chars).
  assert (Hs : list_ascii_of_string s = chars) by apply list_ascii_of_string_of_list_ascii.
  assert (His : is_symbol (list_ascii_of_string s)) by (rewrite Hs; split; [lia|done]).
  exists s. unfold to_str, token_symbol_new. cbn [ts_felt].
  pose proof (decode_encode (E := AssetError) s His) as Hdec.
  pose proof (encode_symbol_ok s His) as Henc.
  rewrite Hs, Hv, Felt_new_as_int in Hdec, Henc. rewrite Hdec, Henc, Hlen. cbn.
  split_and!; [done| |done].
  rewrite <- Hlen. unfold s. clear. induction chars as [|c chars IH]; cbn; congruence.
Qed.

(** A letter A in front of a symbol does not change its encoding. *)
Lemma token_symbol_leading_letter (s : string) (Hs : is_symbol (list_ascii_of_string s))
    (Hlen : (List.length (list_ascii_of_string s) < 6)%nat) :
  token_symbol_new (String "A" s) = token_symbol_new s.
Proof.
  unfold token_symbol_new. rewrite !encode_symbol_ok; [|done|].
  - cbn -[Z.pow]. change (char_code "A") with 65. by rewrite Z.mul_0_l.
  - destruct Hs as [? Hup]. split; cbn; [lia|]. by constructor.
Qed.
(** A token symbol is accepted exactly when it has one to six upper-case
    letters; decoding its field element never panics and gives the symbol padded
    with the letter A to six letters, so that a symbol of six letters comes
    back as it was. A shorter symbol is the same token symbol as the one with
    an A in front of it. An element is accepted only below 26^6, and its text
    has six letters and encodes to the same element. *)
Theorem token_symbol_round_trip (s : string) :
  (is_symbol (list_ascii_of_string s) -> exists t, token_symbol_new s = Ok t /\
    to_str (E := AssetError) t = Ok (string_of_list_ascii
      (replicate (6 - List.length (list_ascii_of_string s)) "A"%char ++ list_ascii_of_string s)) /\
    (List.length (list_ascii_of_string s) = 6%nat -> to_str (E := AssetError) t = Ok s) /\
    ((List.length (list_ascii_of_string s) < 6)%nat -> token_symbol_new (String "A" s) = Ok t)) /\
  (~ is_symbol (list_ascii_of_string s) -> exists e, token_symbol_new s = Err e) /\
  (forall x t, token_symbol_try_from x = Ok t ->
    as_int x < MAX_ENCODED_VALUE /\ ts_felt t = x /\
    exists text, to_str (E := AssetError) t = Ok text /\ String.length text = 6%nat /\
      token_symbol_new text = Ok t).
Proof.
  split_and!; [intros Hs|intros Hs|apply token_symbol_try_from_text].
  - assert (Hnew : exists t, token_symbol_new s = Ok t /\ to_str (E := AssetError) t = Ok (string_of_list_ascii
      (replicate (6 - List.length (list_ascii_of_string s)) "A"%char ++ list_ascii_of_string s))).
    { unfold token_symbol_new. rewrite encode_symbol_ok by done. eexists. split; [reflexivity|].
      unfold to_str. cbn [ts_felt]. by rewrite decode_encode. }
    destruct Hnew as (t & Ht & Htext). exists t. split_and!; [done|done| |].
    + intros Hlen. rewrite Htext, Hlen. cbn. by rewrite string_of_list_ascii_of_string.
    + intros Hlen. rewrite <- Ht. by apply token_symbol_leading_letter.
  - unfold token_symbol_new. destruct (encode_symbol_err s Hs) as (e & ->). by exists e.
Qed.
End properties.

(** ** Witnesses *)

Import RefInstances.

Lemma token_symbol_round_trip_witness :
  exists t, token_symbol_new "MIDEN" = Ok t /\ to_str (E := AssetError) t = Ok "AMIDEN"%string /\
    token_symbol_new "AMIDEN" = Ok t.
Proof.
  destruct (token_symbol_round_trip "MIDEN") as [Hok _].
  destruct Hok as (t & Ht & Hs & _ & Ha).
  { split; cbn; [lia|]. repeat constructor. }
  exists t. split; [exact Ht|]. split; [exact Hs|]. apply Ha. cbn. lia.
Defined.
