(* ===== verification/NoteMeta.v ===== *)
(** notes/note_type.rs, note_tag.rs and metadata.rs: the public data of a note,
    and the errors of the note modules (errors.rs). *)
From S2P Require Import Prelude Interfaces Types Reference AccountIds.
Local Open Scope Z_scope.

(** ** Data *)

Inductive NoteType := NoteOffChain | NoteEncrypted | NotePublic.

#[export] Instance NoteType_eq_dec : EqDecision NoteType.
Proof. solve_decision. Defined.

Inductive NoteExecutionMode := ExecNetwork | ExecLocal.

#[export] Instance NoteExecutionMode_eq_dec : EqDecision NoteExecutionMode.
Proof. solve_decision. Defined.

(** A [u32]. *)
Record NoteTag := mkNoteTag { tag_value : Z }.

#[export] Instance NoteTag_eq_dec : EqDecision NoteTag.
Proof. solve_decision. Defined.

(** [core::num::TryFromIntError]. *)
Inductive TryFromIntError := mkTryFromIntError.

Section errors.
Context `{F : Field} {C : Crypto} {AS : Assembly}.

Record NoteId := mkNoteId { note_id_digest : Digest }.
#[export] Instance NoteId_eq_dec : EqDecision NoteId.
Proof. solve_decision. Defined.

Inductive NoteError :=
| DuplicateFungibleAsset (faucet_id : AccountId)
| DuplicateNonFungible (asset : NonFungibleAsset)
| EmptyAssetList
| InconsistentNoteTag (note_type : NoteType) (tag : Z)
| InconsistentStubAssetHash (hash1 hash2 : Digest)
| InconsistentStubId (id1 id2 : NoteId)
| InvalidAssetData (e : AssetError)
| InvalidOriginIndex (msg : string)
| InvalidStubDataLen (len : Z)
| InvalidNoteSender (e : AccountError)
| InvalidNoteType (note_type : NoteType)
| InvalidNoteTypeValue (value : Z)
| NetworkExecutionRequiresOnChainAccount
| NoteDeserializationError (e : DeserializationError)
| ScriptCompilationError (e : AssemblyError)
| TooManyAssets (num_assets : Z)
| TooManyInputs (num_inputs : Z).
End errors.
Arguments NoteId : clear implicits.
Arguments NoteId {_}.
Arguments NoteError : clear implicits.
Arguments NoteError {_ _ _}.

(** ** Note type *)

Definition NOTE_PUBLIC : Z := 1.
Definition NOTE_OFF_CHAIN : Z := 2.
Definition NOTE_ENCRYPTED : Z := 3.

(** The discriminants ([note_type as u8], [as u32], [as u64]). *)
Definition NoteType_repr (t : NoteType) : Z :=
  match t with
  | NoteOffChain => NOTE_OFF_CHAIN
  | NoteEncrypted => NOTE_ENCRYPTED
  | NotePublic => NOTE_PUBLIC
  end.

(** The match of a byte against the three constants. *)
Definition note_type_of_byte (value : Z) : option NoteType :=
  if decide (value = NOTE_OFF_CHAIN) then Some NoteOffChain
  else if decide (value = NOTE_ENCRYPTED) then Some NoteEncrypted
  else if decide (value = NOTE_PUBLIC) then Some NotePublic
  else None.

Section note_type.
Context `{F : Field} {C : Crypto} {AS : Assembly}.

Definition felt_of_note_type (id : NoteType) : Felt := Felt_new (NoteType_repr id).

Definition note_type_try_from_u8 (value : Z) : res NoteError NoteType :=
  ok_or (note_type_of_byte value) (InvalidNoteTypeValue value).

Definition note_type_try_from_u64 (value : Z) : res NoteError NoteType :=
  value ← (if decide (value < 2 ^ 8) then Ok value else Err (InvalidNoteTypeValue value));
  note_type_try_from_u8 value.

Definition note_type_try_from_u16 (value : Z) : res NoteError NoteType := note_type_try_from_u64 value.
Definition note_type_try_from_u32 (value : Z) : res NoteError NoteType := note_type_try_from_u64 value.
Definition note_type_try_from_felt (value : Felt) : res NoteError NoteType :=
  note_type_try_from_u64 (as_int value).
End note_type.

Definition note_type_codec `{ByteIO} {D : Display} : Codec NoteType := {|
  write_into self := write_into u8_codec (NoteType_repr self);
  read_from :=
    discriminat ← read_from u8_codec;
    lift (ok_or (note_type_of_byte discriminat) (InvalidValue (to_string discriminat)))
|}.

(** ** Note tag *)

Section note_tag.
Context `{F : Field} {C : Crypto} {AS : Assembly}.

(** The shifted identifier is cast to [u32]. *)
Definition from_account_id (account_id : AccountId) (execution : NoteExecutionMode)
    : res NoteError NoteTag :=
  match execution with
  | ExecLocal =>
      let id := u64_of_id account_id in
      let high_bits := Z.land id 0xffff000000000000 in
      Ok (mkNoteTag (Z.shiftr high_bits 34 mod 2 ^ 32))
  | ExecNetwork =>
      on_chain ← is_on_chain account_id;
      if negb on_chain then Err NetworkExecutionRequiresOnChainAccount
      else
        let id := u64_of_id account_id in
        let high_bits := Z.land id 0xfffffffc00000000 in
        let tag := Z.shiftr high_bits 34 mod 2 ^ 32 in
        Ok (mkNoteTag (Z.lor tag 0x80000000))
  end.

Definition is_single_target (self : NoteTag) : bool :=
  let first_2_bit := Z.shiftr (tag_value self) 30 in
  let first_3_bits := Z.shiftr (tag_value self) 29 in
  (first_2_bit =? 0) || (first_3_bits =? 4).

Definition execution_mode (self : NoteTag) : NoteExecutionMode :=
  let first_bit := Z.shiftr (tag_value self) 31 in
  let first_3_bits := Z.shiftr (tag_value self) 29 in
  if (first_bit =? 0) || (first_3_bits =? 5) then ExecLocal else ExecNetwork.

Definition tag_validate (self : NoteTag) (note_type : NoteType) : res NoteError NoteTag :=
  let tag_mask := NoteType_repr note_type in
  if decide (Z.land (Z.shiftr (tag_value self) 30) tag_mask <> 0)
  then Err (InconsistentNoteTag note_type (tag_value self))
  else Ok self.

(** [From<u32>], [TryFrom<u64>], [TryFrom<Felt>] and the conversions back. *)
Definition tag_of_u32 (value : Z) : NoteTag := mkNoteTag value.
Definition tag_try_from_u64 (value : Z) : res TryFromIntError NoteTag :=
  if decide (value < 2 ^ 32) then Ok (mkNoteTag value) else Err mkTryFromIntError.
Definition tag_try_from_felt (value : Felt) : res TryFromIntError NoteTag :=
  tag_try_from_u64 (as_int value).
Definition felt_of_tag (value : NoteTag) : Felt := Felt_new (tag_value value).
End note_tag.

Definition tag_codec `{ByteIO} : Codec NoteTag := {|
  write_into self := write_into u32_codec (tag_value self);
  read_from := tag ← read_from u32_codec; mret (mkNoteTag tag)
|}.

(** ** Note metadata *)

Section metadata.
Context `{F : Field} {C : Crypto} {AS : Assembly} {FE : Features} {D : Display}.

Record NoteMetadata := mkNoteMetadata {
  md_sender : AccountId; md_note_type : NoteType; md_tag : NoteTag; md_aux : Felt }.

Definition metadata_new (sender : AccountId) (note_type : NoteType) (tag : NoteTag) (aux : Felt)
    : res NoteError NoteMetadata :=
  tag ← tag_validate tag note_type;
  Ok (mkNoteMetadata sender note_type tag aux).

Definition word_of_metadata (metadata : NoteMetadata) : Word :=
  mkWord (Felt_new (tag_value (md_tag metadata))) (felt_of_id (md_sender metadata))
         (felt_of_note_type (md_note_type metadata)) (md_aux metadata).

Definition metadata_try_from (elements : Word) : res NoteError NoteMetadata :=
  sender ← map_err InvalidNoteSender (try_from_felt (w1 elements));
  note_type ← note_type_try_from_felt (w2 elements);
  let tag := as_int (w0 elements) in
  tag ← map_err (fun _ => InconsistentNoteTag note_type tag)
    (if decide (tag < 2 ^ 32) then Ok tag else Err mkTryFromIntError);
  metadata_new sender note_type (tag_of_u32 tag) (w3 elements).

Context {IO : ByteIO}.

Definition metadata_codec : Codec NoteMetadata := {|
  write_into self :=
    write_into account_id_codec (md_sender self) +w+
    write_into note_type_codec (md_note_type self) +w+
    write_into tag_codec (md_tag self) +w+
    write_into felt_codec (md_aux self);
  read_from :=
    sender ← read_from account_id_codec;
    note_type ← read_from note_type_codec;
    tag ← read_from tag_codec;
    aux ← read_from felt_codec;
    lift (map_err (fun err => InvalidValue (to_string err)) (metadata_new sender note_type tag aux))
|}.
End metadata.
Arguments NoteMetadata : clear implicits.
Arguments NoteMetadata {_}.

#[export] Instance NoteMetadata_eq_dec `{Field} : EqDecision NoteMetadata.
Proof. solve_decision. Defined.

(** ** Specification *)

(** The rules of the documentation, on the two top bits of the tag. *)
Definition tag_consistent (tag : NoteTag) (note_type : NoteType) : Prop :=
  match note_type with
  | NoteOffChain => Z.testbit (tag_value tag) 31 = false
  | NotePublic => Z.testbit (tag_value tag) 30 = false
  | NoteEncrypted => Z.testbit (tag_value tag) 31 = false /\ Z.testbit (tag_value tag) 30 = false
  end.

#[export] Instance tag_consistent_dec tag note_type : Decision (tag_consistent tag note_type).
Proof. destruct note_type; cbn; apply _. Defined.

Definition tag_u32 (tag : NoteTag) : Prop := 0 <= tag_value tag < 2 ^ 32.

Definition metadata_valid `{Field} (m : NoteMetadata) : Prop :=
  AccountId_valid (md_sender m) /\ tag_u32 (md_tag m) /\ tag_consistent (md_tag m) (md_note_type m).

(** ** Lemmas *)

Lemma note_type_of_byte_repr t : note_type_of_byte (NoteType_repr t) = Some t.
Proof. by destruct t. Qed.

Lemma note_type_of_byte_some b t : note_type_of_byte b = Some t -> b = NoteType_repr t.
Proof. unfold note_type_of_byte. repeat case_decide; naive_solver. Qed.

Lemma NoteType_repr_range t : 0 <= NoteType_repr t < 2 ^ 8.
Proof. destruct t; by vm_compute. Qed.

(** The two top bits of a tag, as the integer the code compares. *)
Lemma tag_top_bits tag :
  tag_u32 tag ->
  exists b, Z.shiftr (tag_value tag) 30 = b /\ (b = 0 \/ b = 1 \/ b = 2 \/ b = 3) /\
    Z.testbit (tag_value tag) 31 = Z.testbit b 1 /\ Z.testbit (tag_value tag) 30 = Z.testbit b 0.
Proof.
  intros Ht. eexists. split; [done|]. split.
  - rewrite Z.shiftr_div_pow2 by lia. unfold tag_u32 in Ht.
    pose proof (Z.div_pos (tag_value tag) (2 ^ 30)).
    pose proof (Z.div_lt_upper_bound (tag_value tag) (2 ^ 30) 4). lia.
  - by rewrite !Z.shiftr_spec by lia.
Qed.

Section lemmas.
Context `{F : Field} {FL : FieldLaws F} {C : Crypto} {AS : Assembly} {FE : Features} {D : Display}.

Lemma tag_validate_spec tag t :
  tag_u32 tag ->
  tag_validate tag t =
  if decide (tag_consistent tag t) then Ok tag else Err (InconsistentNoteTag t (tag_value tag)).
Proof.
  intros (b & Hb & Hcase & H1 & H0)%tag_top_bits. unfold tag_validate, tag_consistent. rewrite Hb.
  destruct Hcase as [-> | [-> | [-> | ->]]], t; cbn in *; rewrite ?H1, ?H0; repeat case_decide; naive_solver.
Qed.

Lemma note_type_try_from_felt_ok x t :
  note_type_try_from_felt x = Ok t <-> as_int x = NoteType_repr t.
Proof.
  unfold note_type_try_from_felt, note_type_try_from_u64, note_type_try_from_u8. split.
  - intros H. case_decide; inv_res. by apply note_type_of_byte_some.
  - intros ->. pose proof (NoteType_repr_range t). rewrite decide_True by lia. cbn [mbind res_bind].
    by rewrite note_type_of_byte_repr.
Qed.

Lemma metadata_new_ok s t tag aux m :
  tag_u32 tag ->
  metadata_new s t tag aux = Ok m <-> m = mkNoteMetadata s t tag aux /\ tag_consistent tag t.
Proof.
  intros Ht. unfold metadata_new. rewrite tag_validate_spec by done.
  case_decide; cbn [mbind res_bind]; naive_solver.
Qed.

(** Decoding a word accepts exactly the words of valid metadata. *)
Lemma metadata_try_from_ok w m :
  metadata_try_from w = Ok m <-> metadata_valid m /\ word_of_metadata m = w.
Proof.
  destruct w as [v0 v1 v2 v3]. unfold metadata_try_from, metadata_valid. cbn [w0 w1 w2 w3].
  pose proof (as_int_u64 v0) as Hr. split.
  - intros H. inv_res. apply try_from_felt_ok_iff in H as [-> Hs].
    apply note_type_try_from_felt_ok in H0. case_decide as Ht; [|done]. injection H1 as <-.
    apply metadata_new_ok in H2 as [-> Hc]; [|unfold tag_u32; cbn; lia].
    unfold word_of_metadata, felt_of_note_type, tag_of_u32. cbn. rewrite <- H0, !Felt_new_as_int.
    split_and!; try done; unfold tag_u32; cbn; lia.
  - intros [(Hs & Ht & Hc) Hw]. unfold word_of_metadata in Hw. injection Hw as <- <- <- <-.
    unfold tag_u32 in Ht. rewrite (try_from_felt_valid (md_sender m) Hs).
    assert (Hint : as_int (Felt_new (tag_value (md_tag m))) = tag_value (md_tag m)).
    { apply as_int_new_small. unfold MODULUS. lia. }
    rewrite Hint, decide_True by lia. cbn [map_err mbind res_bind].
    assert (Htype : note_type_try_from_felt (felt_of_note_type (md_note_type m)) = Ok (md_note_type m)).
    { apply note_type_try_from_felt_ok, as_int_new_small.
      pose proof (NoteType_repr_range (md_note_type m)). unfold MODULUS. lia. }
    rewrite Htype. cbn [mbind res_bind]. apply metadata_new_ok; [done|].
    split; [|by destruct (md_tag m)]. by destruct m as [? ? [] ?].
Qed.

Lemma metadata_try_from_no_panic w : metadata_try_from w <> Panic.
Proof.
  unfold metadata_try_from. pose proof (as_int_u64 (w0 w)).
  destruct (try_from_felt (w1 w)) as [s| |] eqn:Hs; [|done|by apply try_from_felt_no_panic in Hs].
  cbn [map_err mbind res_bind]. unfold note_type_try_from_felt, note_type_try_from_u64, note_type_try_from_u8.
  destruct (decide (as_int (w2 w) < 2 ^ 8)); cbn [mbind res_bind]; [|done].
  destruct (note_type_of_byte _); cbn [ok_or mbind res_bind]; [|done].
  case_decide; cbn [map_err mbind res_bind]; [|done].
  unfold metadata_new. rewrite tag_validate_spec by (unfold tag_u32; cbn; lia). by case_decide.
Qed.

Context {IO : ByteIO} {IOL : ByteIOLaws IO}.

Lemma note_type_round_trip : round_trips note_type_codec (fun _ => True).
Proof.
  apply round_trip_intro. intros t _.
  destruct (round_trip_elim _ _ _ u8_round_trip (NoteType_repr_range t)) as (bs & Hw & Hr).
  exists bs. split; [done|]. intros rest. cbn [read_from note_type_codec].
  erewrite mut_bind_ok by apply Hr. apply lift_step. by rewrite note_type_of_byte_repr.
Qed.

Lemma tag_round_trip : round_trips tag_codec tag_u32.
Proof.
  apply round_trip_intro. intros t Ht.
  destruct (round_trip_elim _ _ _ u32_round_trip Ht) as (bs & Hw & Hr).
  exists bs. split; [done|]. intros rest. cbn [read_from tag_codec].
  erewrite mut_bind_ok by apply Hr. by destruct t.
Qed.

Lemma metadata_round_trip : round_trips metadata_codec metadata_valid.
Proof.
  apply round_trip_intro. intros m (Hs & Ht & Hc).
  destruct (round_trip_elim _ _ _ account_id_codec_round_trips Hs) as (b1 & Hw1 & Hr1).
  destruct (round_trip_elim _ _ (md_note_type m) note_type_round_trip I) as (b2 & Hw2 & Hr2).
  destruct (round_trip_elim _ _ _ tag_round_trip Ht) as (b3 & Hw3 & Hr3).
  destruct (round_trip_elim _ _ (md_aux m) felt_round_trip I) as (b4 & Hw4 & Hr4).
  exists (b1 ++ b2 ++ b3 ++ b4). split; [by repeat apply wappend_ok|].
  intros rest. rewrite <- !app_assoc. cbn [read_from metadata_codec].
  erewrite mut_bind_ok by apply Hr1. erewrite mut_bind_ok by apply Hr2.
  erewrite mut_bind_ok by apply Hr3. erewrite mut_bind_ok by apply Hr4.
  apply lift_step, map_err_ok, metadata_new_ok; [done|]. by destruct m.
Qed.
End lemmas.

(** The tag of an identifier for local execution: its 16 high bits at bit 14. *)
Lemma local_tag_value v :
  0 <= v < 2 ^ 64 -> Z.shiftr (Z.land v 0xffff000000000000) 34 mod 2 ^ 32 = v / 2 ^ 48 * 2 ^ 14.
Proof.
  intros Hv. change 0xffff000000000000 with (Z.shiftl (Z.ones 16) 48).
  rewrite land_high_bits by (try exact Hv; lia). rewrite Z.shiftr_shiftl_l by lia.
  rewrite Z.shiftl_mul_pow2 by lia. apply Z.mod_small.
  pose proof (Z.div_pos v (2 ^ 48)). pose proof (Z.div_lt_upper_bound v (2 ^ 48) (2 ^ 16)). lia.
Qed.

(** The tag of an identifier for network execution: its 30 high bits, and bit 31. *)
Lemma network_tag_value v :
  0 <= v < 2 ^ 64 ->
  Z.lor (Z.shiftr (Z.land v 0xfffffffc00000000) 34 mod 2 ^ 32) 0x80000000 = v / 2 ^ 34 + 2 ^ 31.
Proof.
  intros Hv. change 0xfffffffc00000000 with (Z.shiftl (Z.ones 30) 34).
  rewrite land_high_bits by (try exact Hv; lia). rewrite Z.shiftr_shiftl_l by lia.
  pose proof (Z.div_pos v (2 ^ 34)). pose proof (Z.div_lt_upper_bound v (2 ^ 34) (2 ^ 30)).
  cbn [Z.sub]. rewrite Z.sub_diag, Z.shiftl_0_r. rewrite Z.mod_small by lia.
  assert (Hd : Z.land (v / 2 ^ 34) (2 ^ 31) = 0).
  { apply Z.bits_inj'. intros i Hi. rewrite Z.land_spec, Z.bits_0.
    destruct (decide (i = 31)) as [->|Hne]; [|by rewrite Z.pow2_bits_false, andb_false_r].
    rewrite <- (Z.mod_small (v / 2 ^ 34) (2 ^ 31)), Z.mod_pow2_bits_high by lia. done. }
  change 0x80000000 with (2 ^ 31). symmetry. by apply Z.add_nocarry_lor.
Qed.

(** ** Properties *)

Section properties.
Context `{F : Field} {FL : FieldLaws F} {C : Crypto} {AS : Assembly} {FE : Features} {D : Display}.

(** The tag of a valid account identifier carries the top bits of the
    identifier the documentation names. For local execution it targets a
    single account, asks for local execution and suits every note type; for
    network execution it is made for on-chain accounts only, targets a single
    account, asks for network execution and suits public notes only. *)
Theorem note_tag_from_account_id id (Hv : AccountId_valid id) :
  let v := u64_of_id id in
  (exists t, from_account_id id ExecLocal = Ok t /\ tag_value t = v / 2 ^ 48 * 2 ^ 14 /\
     is_single_target t = true /\ execution_mode t = ExecLocal /\
     forall nt, tag_validate t nt = Ok t) /\
  (storage_bits v = ON_CHAIN -> exists t, from_account_id id ExecNetwork = Ok t /\
     tag_value t = v / 2 ^ 34 + 2 ^ 31 /\
     is_single_target t = true /\ execution_mode t = ExecNetwork /\
     forall nt, tag_validate t nt = Ok t <-> nt = NotePublic) /\
  (storage_bits v = OFF_CHAIN ->
     from_account_id id ExecNetwork = Err NetworkExecutionRequiresOnChainAccount).
Proof.
  intros v. pose proof (as_int_u64 (id_felt id) : 0 <= v < 2 ^ 64) as Hr.
  unfold from_account_id. rewrite (is_on_chain_valid id Hv). fold v. cbn [mbind res_bind].
  split_and!.
  - eexists. split; [done|]. cbn [tag_value]. rewrite local_tag_value by done. split; [done|].
    pose proof (Z.div_pos v (2 ^ 48)). pose proof (Z.div_lt_upper_bound v (2 ^ 48) (2 ^ 16)).
    set (t := v / 2 ^ 48 * 2 ^ 14). assert (0 <= t < 2 ^ 30) by lia.
    unfold is_single_target, execution_mode, tag_validate. cbn [tag_value].
    rewrite !Z.shiftr_div_pow2 by lia. rewrite (Z.div_small t (2 ^ 30)), (Z.div_small t (2 ^ 31)) by lia.
    split_and!; [done|done|].
    intros nt. rewrite Z.land_0_l. by rewrite decide_False by naive_solver.
  - intros Hs. change (as_int (id_felt id)) with v. rewrite Hs, bool_decide_true by done. cbn [negb].
    eexists. split; [done|]. cbn [tag_value]. rewrite network_tag_value by done. split; [done|].
    assert (Hv62 : v < 2 ^ 62).
    { unfold storage_bits, ON_CHAIN in Hs. pose proof (Z.div_mod v (2 ^ 62)).
      pose proof (Z.div_mod (v / 2 ^ 62) 4). pose proof (Z.mod_pos_bound v (2 ^ 62)).
      pose proof (Z.div_lt_upper_bound v (2 ^ 62) 4). lia. }
    pose proof (Z.div_pos v (2 ^ 34)). pose proof (Z.div_lt_upper_bound v (2 ^ 34) (2 ^ 28)).
    unfold is_single_target, execution_mode, tag_validate. cbn [tag_value].
    rewrite !Z.shiftr_div_pow2 by lia. set (u := v / 2 ^ 34) in *.
    assert (H30 : (u + 2 ^ 31) / 2 ^ 30 = 2) by (symmetry; apply (Z.div_unique _ _ _ u); lia).
    assert (H29 : (u + 2 ^ 31) / 2 ^ 29 = 4) by (symmetry; apply (Z.div_unique _ _ _ u); lia).
    assert (H31 : (u + 2 ^ 31) / 2 ^ 31 = 1) by (symmetry; apply (Z.div_unique _ _ _ u); lia).
    rewrite H30, H29, H31. split_and!; try done. intros []; cbn; split; done.
  - intros Hs. change (as_int (id_felt id)) with v. by rewrite Hs.
Qed.

(** A tag is accepted for a note type exactly when its two top bits
    follow the documented rule of the type, and any other tag is reported with
    its type and value; the target and the execution mode of a tag are the
    ones its three top bits encode. *)
Theorem note_tag_rules (tag : NoteTag) (Ht : tag_u32 tag) :
  let bit i := Z.testbit (tag_value tag) i in
  (forall t, tag_validate tag t =
     if decide (tag_consistent tag t) then Ok tag else Err (InconsistentNoteTag t (tag_value tag))) /\
  (is_single_target tag = true <->
     (bit 31 = false /\ bit 30 = false) \/ (bit 31 = true /\ bit 30 = false /\ bit 29 = false)) /\
  (execution_mode tag = ExecLocal <->
     bit 31 = false \/ (bit 31 = true /\ bit 30 = false /\ bit 29 = true)).
Proof.
  intros bit. split; [intros t; by apply tag_validate_spec|].
  unfold is_single_target, execution_mode, bit. destruct tag as [v]. unfold tag_u32 in Ht. cbn [tag_value] in *.
  assert (H3 : exists b, Z.shiftr v 29 = b /\ 0 <= b < 8).
  { eexists. split; [done|]. rewrite Z.shiftr_div_pow2 by lia.
    pose proof (Z.div_pos v (2 ^ 29)). pose proof (Z.div_lt_upper_bound v (2 ^ 29) 8). lia. }
  destruct H3 as (b & Hb & Hrange).
  assert (H30 : Z.shiftr v 30 = Z.shiftr b 1) by (by rewrite <- Hb, Z.shiftr_shiftr by lia).
  assert (H31 : Z.shiftr v 31 = Z.shiftr b 2) by (by rewrite <- Hb, Z.shiftr_shiftr by lia).
  assert (Hbit : forall i, 0 <= i -> Z.testbit v (i + 29) = Z.testbit b i)
    by (intros i Hi; by rewrite <- Hb, Z.shiftr_spec by done).
  rewrite (Hbit 2 ltac:(lia) : Z.testbit v 31 = _), (Hbit 1 ltac:(lia) : Z.testbit v 30 = _),
    (Hbit 0 ltac:(lia) : Z.testbit v 29 = _), Hb, H30, H31.
  assert (b = 0 \/ b = 1 \/ b = 2 \/ b = 3 \/ b = 4 \/ b = 5 \/ b = 6 \/ b = 7) as Hc by lia.
  destruct Hc as [-> |[-> |[-> |[-> |[-> |[-> |[-> | ->]]]]]]]; cbn; split; split; naive_solver.
Qed.

Context {IO : ByteIO} {IOL : ByteIOLaws IO}.

(** Note metadata decodes from exactly the words that encode a valid
    sender, a known type and a consistent tag, and the word determines the
    metadata; every other word is answered with an error and never a panic.
    Serialized metadata reads back as itself. *)
Theorem note_metadata_encoding :
  (forall w m, metadata_try_from w = Ok m <-> metadata_valid m /\ word_of_metadata m = w) /\
  (forall w, metadata_try_from w <> Panic) /\
  round_trips metadata_codec metadata_valid.
Proof.
  split_and!; [apply metadata_try_from_ok|apply metadata_try_from_no_panic|apply metadata_round_trip].
Qed.
End properties.

(** ** Witnesses *)

Import RefInstances.

Definition sample_metadata : NoteMetadata := mkNoteMetadata sample_id NoteOffChain (mkNoteTag 5) ONE.

Lemma sample_metadata_valid : metadata_valid sample_metadata.
Proof. split; [apply sample_id_valid|]. split; [done|]. reflexivity. Qed.

Lemma note_tag_from_account_id_witness :
  exists t, from_account_id sample_id ExecNetwork = Ok t /\ tag_value t = 2 ^ 27 + 2 ^ 31.
Proof.
  destruct (note_tag_from_account_id sample_id sample_id_valid) as (_ & Hnet & _).
  destruct Hnet as (t & Ht & Hval & _); [reflexivity|]. exists t. split; [exact Ht|].
  rewrite Hval. reflexivity.
Defined.

Lemma note_tag_rules_witness : is_single_target (mkNoteTag (2 ^ 31)) = true.
Proof. apply (note_tag_rules (mkNoteTag (2 ^ 31))); [done|]. right. by vm_compute. Defined.

Lemma note_metadata_encoding_witness :
  metadata_try_from (word_of_metadata sample_metadata) = Ok sample_metadata.
Proof.
  apply note_metadata_encoding. split; [apply sample_metadata_valid|reflexivity].
Defined.
