(* ===== verification/NoteContents.v ===== *)
(** notes/assets.rs, inputs.rs, script.rs and recipient.rs: what a note holds,
    the commitments to it and its serialization. *)
From S2P Require Import Prelude Interfaces Types Reference AccountIds Assets NoteMeta.
Local Open Scope Z_scope.

(** constants.rs *)
Definition MAX_ASSETS_PER_NOTE : Z := 256.
Definition MAX_INPUTS_PER_NOTE : Z := 128.
Definition WORD_SIZE : nat := 4.

(** [usize::next_multiple_of]. *)
Definition next_multiple_of (n k : nat) : nat :=
  match (n mod k)%nat with O => n | r => (n + (k - r))%nat end.

(** The words of four bytes an encoded program is cut into; [split_first_chunk]
    leaves out a remainder of fewer than four bytes. *)
Fixpoint u32_chunks (encoded : list Z) : list Z :=
  match encoded with
  | b0 :: b1 :: b2 :: b3 :: rest => from_le_bytes [b0; b1; b2; b3] :: u32_chunks rest
  | _ => []
  end.

(** ** Assets *)

Section assets.
Context `{F : Field} {C : Crypto} {AS : Assembly} {FE : Features} {D : Display} {B : Build}.

Record NoteAssets := mkNoteAssets { na_assets : list Asset; na_hash : Digest }.

(** The elements hashed are the words of the assets, and a word of zeros after an
    odd number of them. *)
Definition compute_asset_commitment {E} (assets : list Asset) : res E Digest :=
  words ← mapM word_of_asset assets;
  let asset_elements := concat (map word_elements words) in
  let asset_elements :=
    if decide (length assets mod 2 = 1)%nat then asset_elements ++ word_elements EMPTY_WORD
    else asset_elements in
  Ok (hash_elements asset_elements).

(** The loop of [new]: an asset that is the same as a later one is reported. *)
Fixpoint check_unique (assets : list Asset) : res NoteError unit :=
  match assets with
  | [] => Ok tt
  | asset :: later =>
      if existsb (fun a => is_same a asset) later then
        Err (match asset with
             | Fungible a => DuplicateFungibleAsset (fa_faucet_id a)
             | NonFungible a => DuplicateNonFungible a
             end)
      else check_unique later
  end.

Definition note_assets_new (assets : list Asset) : res NoteError NoteAssets :=
  if decide (length assets = 0%nat) then Err EmptyAssetList
  else if decide (Z.of_nat (length assets) > MAX_ASSETS_PER_NOTE)
  then Err (TooManyAssets (Z.of_nat (length assets)))
  else
    _ ← check_unique assets;
    hash ← compute_asset_commitment assets;
    Ok (mkNoteAssets assets hash).

Definition to_padded_assets {E} (self : NoteAssets) : res E (list Felt) :=
  let n := length (na_assets self) in
  let padded_len :=
    (if decide (n mod 2 = 0) then n * WORD_SIZE else (n + 1) * WORD_SIZE)%nat in
  words ← mapM word_of_asset (na_assets self);
  Ok (resize padded_len ZERO (concat (map word_elements words))).

Context {IO : ByteIO}.

(** The count is stored minus one; reading adds one to it as a [u8]. *)
Definition note_assets_codec : Codec NoteAssets := {|
  write_into self :=
    let n := Z.of_nat (length (na_assets self)) in
    debug_assert (bool_decide (n <= MAX_ASSETS_PER_NOTE)) ≫= fun _ =>
    (count ← sub_w 64 n 1; write_into u8_codec (count mod 2 ^ 8)) +w+
    write_many asset_codec (na_assets self);
  read_from :=
    b ← read_from u8_codec;
    count ← lift (add_w 8 b 1);
    assets ← read_many asset_codec (Z.to_nat count);
    lift (map_err (fun e => InvalidValue (to_string e)) (note_assets_new assets))
|}.

(** [impl PartialEq]: the hash is not compared. *)
Definition note_assets_eq (self other : NoteAssets) : bool := bool_decide (na_assets self = na_assets other).
End assets.
Arguments NoteAssets : clear implicits.
Arguments NoteAssets {_}.

(** ** Inputs *)

Section inputs.
Context `{F : Field} {C : Crypto} {AS : Assembly} {D : Display} {B : Build}.

Record NoteInputs := mkNoteInputs { ni_values : list Felt; ni_hash : Digest }.

Definition pad_inputs (inputs : list Felt) : list Felt :=
  let padded_len := next_multiple_of (length inputs) (WORD_SIZE * 2) in
  resize padded_len ZERO inputs.

Definition note_inputs_new (values : list Felt) : res NoteError NoteInputs :=
  if decide (Z.of_nat (length values) > MAX_INPUTS_PER_NOTE)
  then Err (TooManyInputs (Z.of_nat (length values)))
  else Ok (mkNoteInputs values (hash_elements (pad_inputs values))).

(** The assertion is on [< 128]. *)
Definition num_values {E} (self : NoteInputs) : res E Z :=
  let n := Z.of_nat (length (ni_values self)) in
  _ ← debug_assert (bool_decide (n < 128)); Ok (n mod 2 ^ 8).

Definition to_padded_values (self : NoteInputs) : list Felt := pad_inputs (ni_values self).

Definition commitment_to_key (commitment : Digest) : Digest :=
  mkWord (w0 commitment) (w1 commitment) (w2 commitment) (felt_add (w3 commitment) ONE).

Context {IO : ByteIO}.

Definition note_inputs_codec : Codec NoteInputs := {|
  write_into self :=
    let n := Z.of_nat (length (ni_values self)) in
    expect (if decide (n < 2 ^ 8) then Some n else None) ≫= fun n =>
    write_into u8_codec n +w+ write_many felt_codec (ni_values self);
  read_from :=
    num_values ← read_from u8_codec;
    values ← read_many felt_codec (Z.to_nat num_values);
    lift (map_err (fun v => InvalidValue (to_string v)) (note_inputs_new values))
|}.

(** [impl PartialEq]: the hash is not compared. *)
Definition note_inputs_eq (self other : NoteInputs) : bool := bool_decide (ni_values self = ni_values other).
End inputs.
Arguments NoteInputs : clear implicits.
Arguments NoteInputs {_}.

(** ** Script *)

Section script.
Context `{F : Field} {C : Crypto} {AS : Assembly} {P : Programs} {D : Display}.

Record NoteScript := mkNoteScript { ns_hash : Digest; ns_code : ProgramAst }.

Definition note_script_new (code : ProgramAst) (assembler : Assembler)
    : res NoteError (NoteScript * CodeBlock) :=
  code_block ← map_err ScriptCompilationError (compile_in_context assembler code);
  Ok (mkNoteScript (code_block_hash code_block) code, code_block).

Definition note_script_from_parts (code : ProgramAst) (hash : Digest) : NoteScript :=
  mkNoteScript hash code.

(** [From<&NoteScript> for Vec<Felt>]: the bytes are resized by [len % 4]. *)
Definition felts_of_note_script (value : NoteScript) : list Felt :=
  let bytes := program_to_bytes (ns_code value) in
  let len := length bytes in
  let missing := (len mod 4)%nat in
  let bytes := resize (length bytes + missing) 0 bytes in
  word_elements (ns_hash value) ++ [Felt_new (Z.of_nat len)] ++ map Felt_new (u32_chunks bytes).

(** [TryFrom<&[Felt]>]: [shrink_to] only affects the capacity of the vector. *)
Definition note_script_try_from (value : list Felt) : res DeserializationError NoteScript :=
  match value with
  | v0 :: v1 :: v2 :: v3 :: _ :: felts =>
      let hash := mkWord v0 v1 v2 v3 in
      data ← mapM (fun felt =>
        if decide (as_int felt < 2 ^ 32) then Ok (to_le_bytes 4 (as_int felt))
        else Err (InvalidValue (to_string mkTryFromIntError))) felts;
      code ← program_from_bytes (concat data);
      Ok (note_script_from_parts code hash)
  | _ => Err UnexpectedEOF
  end.

Context {IO : ByteIO}.

Definition note_script_codec : Codec NoteScript := {|
  write_into self := write_into digest_codec (ns_hash self) +w+ write_into program_codec (ns_code self);
  read_from :=
    hash ← read_from digest_codec;
    code ← read_from program_codec;
    mret (note_script_from_parts code hash)
|}.
End script.
Arguments NoteScript : clear implicits.
Arguments NoteScript {_ _ _}.

(** ** Recipient *)

Section recipient.
Context `{F : Field} {C : Crypto} {AS : Assembly} {P : Programs} {D : Display} {B : Build}.

Record NoteRecipient := mkNoteRecipient {
  nr_serial_num : Word; nr_script : NoteScript; nr_inputs : NoteInputs; nr_digest : Digest }.

Definition compute_recipient_digest (serial_num : Word) (script : NoteScript) (inputs : NoteInputs)
    : Digest :=
  let serial_num_hash := merge serial_num EMPTY_WORD in
  let merge_script := merge serial_num_hash (ns_hash script) in
  merge merge_script (ni_hash inputs).

Definition recipient_new (serial_num : Word) (script : NoteScript) (inputs : NoteInputs)
    : NoteRecipient :=
  mkNoteRecipient serial_num script inputs (compute_recipient_digest serial_num script inputs).

Definition recipient_to_elements (self : NoteRecipient) : list Felt :=
  word_elements (ni_hash (nr_inputs self)) ++ word_elements (ns_hash (nr_script self)) ++
  word_elements (nr_serial_num self).

Context {IO : ByteIO}.

Definition recipient_codec : Codec NoteRecipient := {|
  write_into self :=
    write_into note_script_codec (nr_script self) +w+
    write_into note_inputs_codec (nr_inputs self) +w+
    write_into word_codec (nr_serial_num self);
  read_from :=
    script ← read_from note_script_codec;
    inputs ← read_from note_inputs_codec;
    serial_num ← read_from word_codec;
    mret (recipient_new serial_num script inputs)
|}.
End recipient.
Arguments NoteRecipient : clear implicits.
Arguments NoteRecipient {_ _ _}.

(** ** Specification *)

Section spec.
Context `{F : Field} {C : Crypto}.

(** The elements that are hashed, without the assertions of the conversions. *)
Definition asset_elements (assets : list Asset) : list Felt :=
  concat (map (fun a => word_elements (asset_word a)) assets) ++
  (if decide (length assets mod 2 = 1)%nat then word_elements EMPTY_WORD else []).

(** One to 256 valid assets, no two of them the same, and their commitment. *)
Definition note_assets_wf (na : NoteAssets) : Prop :=
  Forall asset_valid (na_assets na) /\
  1 <= Z.of_nat (length (na_assets na)) <= MAX_ASSETS_PER_NOTE /\
  NoDup (vault_key <$> na_assets na) /\
  na_hash na = hash_elements (asset_elements (na_assets na)).

Definition note_inputs_wf (ni : NoteInputs) : Prop :=
  Z.of_nat (length (ni_values ni)) <= MAX_INPUTS_PER_NOTE /\
  ni_hash ni = hash_elements (pad_inputs (ni_values ni)).

Context {AS : Assembly} {P : Programs}.

Definition note_script_ok (s : NoteScript) : Prop := program_bare (ns_code s).

Definition recipient_wf (r : NoteRecipient) : Prop :=
  note_inputs_wf (nr_inputs r) /\
  nr_digest r = compute_recipient_digest (nr_serial_num r) (nr_script r) (nr_inputs r).
End spec.

(** ** Lemmas *)

Lemma u32_chunks_step bs rest :
  length bs = 4%nat -> u32_chunks (bs ++ rest) = from_le_bytes bs :: u32_chunks rest.
Proof. intros Hl. by destruct bs as [|b0 [|b1 [|b2 [|b3 [|? ?]]]]]. Qed.

(** Cutting the bytes in words and writing the words out again drops what is
    left over after the last full word. *)
Lemma u32_chunks_bytes (k : nat) bs rest :
  Forall is_byte bs -> length bs = (4 * k)%nat -> (length rest < 4)%nat ->
  concat (map (to_le_bytes 4) (u32_chunks (bs ++ rest))) = bs.
Proof.
  revert bs. induction k as [|k IH]; intros bs Hbs Hlen Hrest.
  - destruct bs; [|done]. by destruct rest as [|? [|? [|? [|? ?]]]]; cbn in *; [..|lia].
  - rewrite <- (take_drop 4 bs) in Hbs |- *. apply Forall_app in Hbs as [Hb1 Hb2].
    assert (Hl4 : length (take 4 bs) = 4%nat) by (rewrite length_take; lia).
    rewrite <- app_assoc, u32_chunks_step by done. cbn [map concat].
    rewrite IH; [|done|rewrite length_drop; lia|done]. f_equal.
    rewrite <- Hl4 at 1. by apply to_from_le_bytes.
Qed.

Lemma u32_chunks_range bs :
  Forall is_byte bs -> Forall (fun v => 0 <= v < 2 ^ 32) (u32_chunks bs).
Proof.
  remember (length bs) as n eqn:Hn. revert bs Hn.
  induction n as [n IH] using lt_wf_ind. intros bs -> Hbs.
  destruct bs as [|b0 [|b1 [|b2 [|b3 rest]]]]; cbn [u32_chunks]; try constructor.
  - apply (from_le_bytes_range [b0; b1; b2; b3]).
    by apply (Forall_app _ [b0; b1; b2; b3] rest) in Hbs as [? _].
  - apply (IH (length rest)); cbn; [lia|done|].
    by apply (Forall_app _ [b0; b1; b2; b3] rest) in Hbs as [_ ?].
Qed.

Section lemmas.
Context `{F : Field} {FL : FieldLaws F} {C : Crypto} {AS : Assembly} {FE : Features} {D : Display}
  {B : Build}.
Implicit Types (assets : list Asset) (a b : Asset).

Lemma mapM_word_of_asset {E} assets :
  Forall asset_valid assets -> mapM (word_of_asset (E := E)) assets = Ok (map asset_word assets).
Proof.
  intros H. apply mapM_res_map. eapply Forall_impl; [exact H|]. intros a. apply word_of_asset_valid.
Qed.

Lemma length_words (ws : list Word) : length (concat (map word_elements ws)) = (4 * length ws)%nat.
Proof. induction ws as [|w ws IH]; cbn; [done|]. rewrite IH. lia. Qed.

Lemma odd_or_even n : (n mod 2 = 0 \/ n mod 2 = 1)%nat.
Proof. pose proof (Nat.mod_upper_bound n 2). lia. Qed.

Lemma compute_asset_commitment_valid {E} assets :
  Forall asset_valid assets ->
  compute_asset_commitment (E := E) assets = Ok (hash_elements (asset_elements assets)).
Proof.
  intros Hv. unfold compute_asset_commitment, asset_elements. rewrite mapM_word_of_asset by done.
  cbn [mbind res_bind]. rewrite map_map. case_decide; [done|]. by rewrite app_nil_r.
Qed.

(** The padded elements are the ones that are hashed. *)
Lemma to_padded_assets_valid {E} (na : NoteAssets) :
  Forall asset_valid (na_assets na) ->
  to_padded_assets (E := E) na = Ok (asset_elements (na_assets na)) /\
  (length (asset_elements (na_assets na)) mod 8 = 0)%nat.
Proof.
  intros Hv. unfold to_padded_assets, asset_elements, WORD_SIZE. rewrite mapM_word_of_asset by done.
  cbn [mbind res_bind]. pose proof (length_words (map asset_word (na_assets na))) as Hl.
  rewrite length_map, map_map in Hl. rewrite map_map.
  set (es := concat _) in *. set (n := length (na_assets na)) in *.
  pose proof (Nat.div_mod_eq n 2).
  destruct (odd_or_even n) as [Hn|Hn]; rewrite Hn; cbn [decide Nat.eq_dec].
  - rewrite decide_True, decide_False by lia. rewrite app_nil_r. split.
    + f_equal. apply resize_all_alt. lia.
    + rewrite Hl. replace (4 * n)%nat with (n / 2 * 8)%nat by lia. apply Nat.Div0.mod_mul.
  - rewrite decide_False, decide_True by lia. split.
    + f_equal. rewrite resize_ge by lia. f_equal.
      replace ((n + 1) * 4 - length es)%nat with 4%nat by lia. done.
    + rewrite length_app, Hl. cbn [word_elements length].
      replace (4 * n + 4)%nat with ((n / 2 + 1) * 8)%nat by lia. apply Nat.Div0.mod_mul.
Qed.

Lemma existsb_is_same a later :
  asset_valid a -> Forall asset_valid later ->
  existsb (fun x => is_same x a) later = true <-> vault_key a ∈ vault_key <$> later.
Proof.
  intros Ha Hl. rewrite existsb_exists, list_elem_of_fmap. rewrite Forall_forall in Hl.
  split; intros (x & H1 & H2); exists x.
  - apply list_elem_of_In in H1. split; [|done]. symmetry. apply vault_key_is_same; eauto.
  - split; [by apply list_elem_of_In|]. apply vault_key_is_same; eauto.
Qed.

(** The loop accepts the lists without two equal keys; otherwise it reports an
    asset of the list. *)
Lemma check_unique_spec assets :
  Forall asset_valid assets ->
  (check_unique assets = Ok tt /\ NoDup (vault_key <$> assets)) \/
  (~ NoDup (vault_key <$> assets) /\ exists a, a ∈ assets /\
    check_unique assets = Err (match a with
      | Fungible x => DuplicateFungibleAsset (fa_faucet_id x)
      | NonFungible x => DuplicateNonFungible x end)).
Proof.
  induction 1 as [|a assets Ha Hv IH]; cbn [check_unique fmap list_fmap].
  - left. split; [done|constructor].
  - destruct (existsb _ _) eqn:He.
    + right. apply existsb_is_same in He; [|done..]. split; [by intros [? _]%NoDup_cons|].
      exists a. split; [left|done].
    + assert (Hni : vault_key a ∉ vault_key <$> assets).
      { intros Hin. apply existsb_is_same in Hin; [congruence|done..]. }
      destruct IH as [[Hok Hnd]|(Hnd & x & Hx & Herr)]; [left|right].
      * split; [done|]. by constructor.
      * split; [by intros [_ ?]%NoDup_cons|]. exists x. split; [by right|done].
Qed.

Lemma note_assets_new_ok assets na :
  Forall asset_valid assets ->
  note_assets_new assets = Ok na <-> na_assets na = assets /\ note_assets_wf na.
Proof.
  intros Hv. unfold note_assets_new, note_assets_wf.
  destruct (check_unique_spec assets Hv) as [[Hu Hnd]|(Hnd & x & _ & Hu)].
  - rewrite Hu. cbn [mbind res_bind]. rewrite compute_asset_commitment_valid by done.
    cbn [mbind res_bind]. split.
    + intros H. repeat case_decide; inv_res. cbn. split_and!; (done || lia).
    + intros [<- (_ & Hlen & _ & Hh)]. rewrite !decide_False by lia. rewrite <- Hh. by destruct na.
  - rewrite Hu. cbn [mbind res_bind]. split.
    + intros H. by repeat case_decide.
    + intros [<- (_ & _ & ? & _)]. done.
Qed.

Lemma note_assets_wf_new (na : NoteAssets) :
  note_assets_wf na -> note_assets_new (na_assets na) = Ok na.
Proof. intros Hwf. apply note_assets_new_ok; [apply Hwf|done]. Qed.

Lemma next_multiple_of_spec n k :
  (0 < k)%nat -> (n <= next_multiple_of n k < n + k)%nat /\ (next_multiple_of n k mod k = 0)%nat.
Proof.
  intros Hk. unfold next_multiple_of. pose proof (Nat.mod_upper_bound n k).
  destruct (n mod k)%nat eqn:Hm; [split; [lia|done]|].
  split; [lia|]. pose proof (Nat.div_mod_eq n k).
  replace (n + (k - S n0))%nat with ((n / k + 1) * k)%nat by lia. apply Nat.Div0.mod_mul.
Qed.

(** The padding of the inputs: the values, then zeros up to a multiple of eight. *)
Lemma pad_inputs_spec (values : list Felt) :
  exists n, pad_inputs values = values ++ replicate n ZERO /\ (n < 8)%nat /\
    (length (pad_inputs values) mod 8 = 0)%nat.
Proof.
  destruct (next_multiple_of_spec (length values) 8) as [Hr Hm]; [lia|].
  unfold pad_inputs, WORD_SIZE. change (4 * 2)%nat with 8%nat.
  exists (next_multiple_of (length values) 8 - length values)%nat.
  split; [apply resize_ge; lia|]. split; [lia|]. by rewrite length_resize.
Qed.

Lemma note_inputs_new_ok values ni :
  note_inputs_new values = Ok ni <-> ni_values ni = values /\ note_inputs_wf ni.
Proof.
  unfold note_inputs_new, note_inputs_wf. split.
  - intros H. case_decide; inv_res. cbn. split_and!; (done || lia).
  - intros [<- [Hl Hh]]. rewrite decide_False by lia. rewrite <- Hh. by destruct ni.
Qed.
End lemmas.

Section script_lemmas.
Context `{F : Field} {FL : FieldLaws F} {C : Crypto} {AS : Assembly} {P : Programs} {PL : ProgramLaws P}
  {D : Display}.

(** The bytes that come back from the encoding of a program: the padding brings
    a length of the form [4k + 1] to [4k + 2], and the last word is not full. *)
Definition decoded_bytes (b : list Z) : list Z :=
  if decide (length b mod 4 = 1)%nat then take (length b - 1) b
  else b ++ replicate ((4 - length b mod 4) mod 4) 0.

Lemma u32_chunks_padded b :
  Forall is_byte b ->
  concat (map (to_le_bytes 4) (u32_chunks (resize (length b + length b mod 4) 0 b))) = decoded_bytes b.
Proof.
  intros Hb. rewrite resize_ge, Nat.add_comm, Nat.add_sub by lia. unfold decoded_bytes.
  pose proof (Nat.div_mod_eq (length b) 4) as Hdm. set (k := (length b / 4)%nat) in *.
  assert (Hz : forall n, Forall is_byte (replicate n 0))
    by (intros n; apply Forall_replicate; by vm_compute).
  assert (length b mod 4 = 0 \/ length b mod 4 = 1 \/ length b mod 4 = 2 \/ length b mod 4 = 3)%nat
    as [Hm|[Hm|[Hm|Hm]]] by (pose proof (Nat.mod_upper_bound (length b) 4); lia); rewrite Hm in *; cbn [decide].
  - rewrite decide_False by done. cbn [replicate Nat.sub Nat.modulo Nat.divmod fst snd].
    rewrite (app_nil_r b). rewrite <- (app_nil_r b) at 1.
    apply (u32_chunks_bytes k); [done|lia|cbn; lia].
  - rewrite decide_True by done. rewrite <- (take_drop (length b - 1) b) at 1. rewrite <- app_assoc.
    apply (u32_chunks_bytes k); [by apply Forall_take|rewrite length_take; lia|].
    rewrite length_app, length_drop, length_replicate. lia.
  - rewrite decide_False by done. change ((4 - 2) mod 4)%nat with 2%nat.
    rewrite <- (app_nil_r (b ++ replicate 2 0)) at 1.
    apply (u32_chunks_bytes (S k)); [by apply Forall_app|rewrite length_app, length_replicate; lia|cbn; lia].
  - rewrite decide_False by done. change (replicate 3 0) with (replicate 1 0 ++ replicate 2 0). rewrite app_assoc.
    change ((4 - 3) mod 4)%nat with 1%nat. apply (u32_chunks_bytes (S k)); [by apply Forall_app|rewrite length_app, length_replicate; lia|cbn; lia].
Qed.

Lemma decode_chunks (chunks : list Z) :
  Forall (fun v => 0 <= v < 2 ^ 32) chunks ->
  mapM (fun felt => if decide (as_int felt < 2 ^ 32) then Ok (to_le_bytes 4 (as_int felt))
                    else Err (InvalidValue (to_string mkTryFromIntError)))
    (map Felt_new chunks) = Ok (map (to_le_bytes 4) chunks).
Proof.
  induction 1 as [|v chunks Hv _ IH]; cbn [map mapM]; [done|].
  rewrite as_int_new_small by (unfold MODULUS; lia). rewrite decide_True by lia.
  cbn [mbind res_bind]. by rewrite IH.
Qed.

Lemma note_script_felts_decode (s : NoteScript) :
  note_script_try_from (felts_of_note_script s) =
  (code ← program_from_bytes (decoded_bytes (program_to_bytes (ns_code s)));
   Ok (note_script_from_parts code (ns_hash s))).
Proof.
  unfold note_script_try_from, felts_of_note_script. cbn [word_elements app].
  pose proof (program_to_bytes_range (ns_code s)) as Hb. set (b := program_to_bytes (ns_code s)) in *.
  rewrite decode_chunks.
  - cbn [mbind res_bind]. rewrite u32_chunks_padded by done. by destruct (ns_hash s).
  - apply u32_chunks_range. rewrite resize_ge by lia. apply Forall_app. split; [done|].
    apply Forall_replicate. by vm_compute.
Qed.

Context {IO : ByteIO} {IOL : ByteIOLaws IO}.

Lemma note_script_round_trip : round_trips note_script_codec note_script_ok.
Proof.
  apply round_trip_intro. intros s Hs.
  destruct (round_trip_elim _ _ (ns_hash s) digest_round_trip I) as (b1 & Hw1 & Hr1).
  destruct (round_trip_elim _ _ _ program_round_trip Hs) as (b2 & Hw2 & Hr2).
  exists (b1 ++ b2). split; [by apply wappend_ok|]. intros rest. rewrite <- app_assoc.
  cbn [read_from note_script_codec]. erewrite mut_bind_ok by apply Hr1.
  erewrite mut_bind_ok by apply Hr2. by destruct s.
Qed.
End script_lemmas.

Section serialization.
Context `{F : Field} {FL : FieldLaws F} {C : Crypto} {AS : Assembly} {P : Programs} {PL : ProgramLaws P}
  {FE : Features} {D : Display} {B : Build} {IO : ByteIO} {IOL : ByteIOLaws IO}.

(** Writing the assets of a note succeeds; the first byte is the count less one. *)
Lemma note_assets_write (na : NoteAssets) :
  note_assets_wf na ->
  exists b1 b2, write_into note_assets_codec na = Ok (b1 ++ b2) /\
    (forall rest, read_from u8_codec (b1 ++ rest) = (rest, Ok (Z.of_nat (length (na_assets na)) - 1))) /\
    (forall rest, read_many asset_codec (length (na_assets na)) (b2 ++ rest) = (rest, Ok (na_assets na))).
Proof.
  intros (Hv & Hlen & _). unfold MAX_ASSETS_PER_NOTE in Hlen.
  set (n := Z.of_nat (length (na_assets na))) in *.
  destruct (round_trip_elim _ _ (n - 1) u8_round_trip) as (b1 & Hw1 & Hr1); [lia|].
  destruct (many_round_trip asset_codec asset_valid (na_assets na) asset_codec_round_trips Hv)
    as (b2 & Hw2 & Hr2).
  exists b1, b2. split; [|done]. cbn [write_into note_assets_codec]. fold n.
  unfold debug_assert, MAX_ASSETS_PER_NOTE. rewrite bool_decide_true by lia.
  assert (Hb : forall f : unit -> writer,
    ((match profile with Debug => assert_ true | Release => Ok tt end) ≫= f) = f tt)
    by (intros f; by destruct profile).
  rewrite Hb. apply wappend_ok; [|done]. unfold sub_w. rewrite decide_True by lia. cbn [mbind res_bind].
  by rewrite Z.mod_small by lia.
Qed.

Lemma note_assets_round_trip :
  round_trips note_assets_codec
    (fun na => note_assets_wf na /\ Z.of_nat (length (na_assets na)) < 256).
Proof.
  apply round_trip_intro. intros na [Hwf Hlt]. assert (Hlen := Hwf). destruct Hlen as (_ & Hlen & _).
  destruct (note_assets_write na Hwf) as (b1 & b2 & Hw & Hr1 & Hr2). exists (b1 ++ b2).
  split; [done|]. intros rest. rewrite <- app_assoc. cbn [read_from note_assets_codec].
  erewrite mut_bind_ok by apply Hr1. erewrite mut_bind_ok.
  2:{ apply lift_step. unfold add_w. by rewrite decide_True by lia. }
  rewrite Z.sub_add, Nat2Z.id. erewrite mut_bind_ok by apply Hr2.
  apply lift_step, map_err_ok. by apply note_assets_wf_new.
Qed.

(** What reading 256 assets gives: their count is one more than a byte holds. *)
Definition count_fault : option DeserializationError :=
  match profile with Debug => None | Release => Some (InvalidValue (to_string (EmptyAssetList : NoteError))) end.

Lemma note_assets_unreadable (na : NoteAssets) : note_assets_wf na -> Z.of_nat (length (na_assets na)) = 256 ->
  unreadable (write_into note_assets_codec na) (read_from note_assets_codec) count_fault.
Proof.
  intros Hwf Hlen. destruct (note_assets_write na Hwf) as (b1 & b2 & Hw & Hr1 & _).
  exists (b1 ++ b2). split; [done|]. intros rest. rewrite <- app_assoc.
  cbn [read_from note_assets_codec]. erewrite mut_bind_ok by apply Hr1. rewrite Hlen.
  unfold add_w, count_fault. cbn [decide]. rewrite decide_False by done. destruct profile; [done|].
  change ((256 - 1 + 1) mod 2 ^ 8) with 0. cbn [Z.to_nat].
  erewrite mut_bind_ok by (apply lift_step; done). erewrite mut_bind_ok by apply read_many_0. done.
Qed.

Lemma note_inputs_round_trip : round_trips note_inputs_codec note_inputs_wf.
Proof.
  apply round_trip_intro. intros ni Hwf. assert (Hlen := Hwf). destruct Hlen as [Hlen _].
  unfold MAX_INPUTS_PER_NOTE in Hlen. set (n := Z.of_nat (length (ni_values ni))) in *.
  destruct (round_trip_elim _ _ n u8_round_trip) as (b1 & Hw1 & Hr1); [lia|].
  destruct (many_round_trip felt_codec (fun _ => True) (ni_values ni) felt_round_trip)
    as (b2 & Hw2 & Hr2); [by apply Forall_true|].
  exists (b1 ++ b2). split.
  - cbn [write_into note_inputs_codec]. fold n. rewrite decide_True by lia. cbn [expect mbind res_bind].
    by apply wappend_ok.
  - intros rest. rewrite <- app_assoc. cbn [read_from note_inputs_codec].
    erewrite mut_bind_ok by apply Hr1. unfold n. rewrite Nat2Z.id.
    erewrite mut_bind_ok by apply Hr2. apply lift_step, map_err_ok. by apply note_inputs_new_ok.
Qed.

Lemma recipient_round_trip :
  round_trips recipient_codec (fun r => recipient_wf r /\ note_script_ok (nr_script r)).
Proof.
  apply round_trip_intro. intros r [[Hi Hd] Hs].
  destruct (round_trip_elim _ _ _ note_script_round_trip Hs) as (b1 & Hw1 & Hr1).
  destruct (round_trip_elim _ _ _ note_inputs_round_trip Hi) as (b2 & Hw2 & Hr2).
  destruct (round_trip_elim _ _ (nr_serial_num r) word_round_trip I) as (b3 & Hw3 & Hr3).
  exists (b1 ++ b2 ++ b3). split; [by repeat apply wappend_ok|]. intros rest. rewrite <- !app_assoc.
  cbn [read_from recipient_codec]. erewrite mut_bind_ok by apply Hr1.
  erewrite mut_bind_ok by apply Hr2. erewrite mut_bind_ok by apply Hr3.
  unfold recipient_new. rewrite <- Hd. by destruct r.
Qed.
End serialization.

(** ** Properties *)

Section properties.
Context `{F : Field} {FL : FieldLaws F} {C : Crypto} {AS : Assembly} {FE : Features} {D : Display}
  {B : Build}.

(** A list of valid assets makes note assets exactly when it has one to
    256 elements, no two of them the same asset; each other list is answered
    with the error of the rule it breaks, and the conversions never panic. The
    stored commitment is the hash of the padded elements, which fill whole
    blocks of eight. *)
Theorem note_assets_new_spec (assets : list Asset) (Hv : Forall asset_valid assets) :
  (forall na, note_assets_new assets = Ok na <-> na_assets na = assets /\ note_assets_wf na) /\
  (length assets = 0%nat -> note_assets_new assets = Err EmptyAssetList) /\
  (256 < Z.of_nat (length assets) ->
    note_assets_new assets = Err (TooManyAssets (Z.of_nat (length assets)))) /\
  (1 <= Z.of_nat (length assets) <= 256 -> ~ NoDup (vault_key <$> assets) ->
    exists a, a ∈ assets /\ note_assets_new assets = Err (match a with
      | Fungible x => DuplicateFungibleAsset (fa_faucet_id x)
      | NonFungible x => DuplicateNonFungible x end)) /\
  (forall na, note_assets_new assets = Ok na -> exists elements,
    to_padded_assets (E := NoteError) na = Ok elements /\
    (length elements mod 8 = 0)%nat /\ na_hash na = hash_elements elements).
Proof.
  split_and!; [by intros na; apply note_assets_new_ok|..]; unfold note_assets_new, MAX_ASSETS_PER_NOTE.
  - intros Hlen. by rewrite decide_True.
  - intros Hlen. by rewrite decide_False, decide_True by lia.
  - intros Hlen Hnd. rewrite !decide_False by lia.
    destruct (check_unique_spec assets Hv) as [[_ ?]|(_ & x & Hx & ->)]; [done|].
    exists x. split; [done|]. done.
  - intros na Hna. apply note_assets_new_ok in Hna as [<- (_ & _ & _ & Hh)]; [|done].
    destruct (to_padded_assets_valid (E := NoteError) na Hv) as [Hp Hm]. eauto.
Qed.

(** The inputs of a note number at most 128; they are padded with zeros to
    the next multiple of eight elements, and the stored commitment is the hash
    of the padded values. The count is reported for fewer than 128 inputs, and
    for 128 inputs only without debug assertions, although 128 are allowed. *)
Theorem note_inputs_spec (values : list Felt) :
  (forall ni, note_inputs_new values = Ok ni <-> ni_values ni = values /\ note_inputs_wf ni) /\
  (128 < Z.of_nat (length values) ->
    note_inputs_new values = Err (TooManyInputs (Z.of_nat (length values)))) /\
  (forall ni, note_inputs_new values = Ok ni ->
    (exists n, to_padded_values ni = values ++ replicate n ZERO /\ (n < 8)%nat) /\
    (length (to_padded_values ni) mod 8 = 0)%nat /\ ni_hash ni = hash_elements (to_padded_values ni) /\
    (Z.of_nat (length values) < 128 -> num_values (E := NoteError) ni = Ok (Z.of_nat (length values))) /\
    (Z.of_nat (length values) = 128 -> num_values (E := NoteError) ni =
      match profile with Debug => Panic | Release => Ok 128 end)).
Proof.
  split_and!; [apply note_inputs_new_ok| |].
  - intros Hlen. unfold note_inputs_new, MAX_INPUTS_PER_NOTE. by rewrite decide_True by lia.
  - intros ni [<- [_ Hh]]%note_inputs_new_ok. destruct (pad_inputs_spec (ni_values ni)) as (n & Hp & Hn & Hm).
    unfold to_padded_values, num_values, debug_assert. split_and!; [eauto|done|done|..]; intros Hlen.
    + rewrite bool_decide_true by lia. rewrite Z.mod_small by lia. by destruct profile.
    + rewrite Hlen. by destruct profile.
Qed.

Context {P : Programs} {PL : ProgramLaws P}.

(** A note script encoded as field elements decodes to the same script
    unless the length of its program leaves remainder 1 modulo 4; then the
    padding is one byte where three are needed, the last byte of the program
    is lost, and what is decoded is the program without it. *)
Theorem note_script_felts (s : NoteScript) (Hs : note_script_ok s) :
  let bytes := program_to_bytes (ns_code s) in
  ((length bytes mod 4 <> 1)%nat -> note_script_try_from (felts_of_note_script s) = Ok s) /\
  ((length bytes mod 4 = 1)%nat -> note_script_try_from (felts_of_note_script s) =
    (code ← program_from_bytes (take (length bytes - 1) bytes);
     Ok (note_script_from_parts code (ns_hash s)))).
Proof.
  intros bytes. rewrite note_script_felts_decode. unfold decoded_bytes. fold bytes. split; intros Hm.
  - rewrite decide_False by done. unfold bytes. rewrite program_bytes_round_trip by done. by destruct s.
  - by rewrite decide_True.
Qed.

(** Well-formed contents of notes that compare equal are equal, with their hashes, which
    are not compared. *)
Theorem contents_eq_exact :
  (forall na na', note_assets_wf na -> note_assets_wf na' -> note_assets_eq na na' = true <-> na = na') /\
  (forall ni ni', note_inputs_wf ni -> note_inputs_wf ni' -> note_inputs_eq ni ni' = true <-> ni = ni').
Proof.
  split.
  - intros [l h] [l' h'] (_ & _ & _ & Hh) (_ & _ & _ & Hh'). unfold note_assets_eq. rewrite bool_decide_eq_true.
    cbn [na_assets na_hash] in *. split; [|by intros [= ->]]. intros ->. by rewrite Hh, Hh'.
  - intros [l h] [l' h'] (_ & Hh) (_ & Hh'). unfold note_inputs_eq. rewrite bool_decide_eq_true.
    cbn [ni_values ni_hash] in *. split; [|by intros [= ->]]. intros ->. by rewrite Hh, Hh'.
Qed.

Context {IO : ByteIO} {IOL : ByteIOLaws IO}.

(** The assets of a note are written for every allowed count and read back
    when there are at most 255 of them; the bytes of a note with 256 assets,
    which is allowed, are never read back: the count overflows a byte. *)
Theorem note_assets_serialization :
  round_trips note_assets_codec
    (fun na => note_assets_wf na /\ Z.of_nat (length (na_assets na)) <= 255) /\
  (forall na, note_assets_wf na -> Z.of_nat (length (na_assets na)) = 256 ->
    exists bs, write_into note_assets_codec na = Ok bs /\
      forall rest, snd (read_from note_assets_codec (bs ++ rest)) =
        match profile with
        | Debug => Panic
        | Release => Err (InvalidValue (to_string (EmptyAssetList : NoteError)))
        end).
Proof.
  split.
  - intros na [Hwf Hlen]. apply note_assets_round_trip. split; [done|lia].
  - intros na Hwf Hlen. destruct (note_assets_unreadable na Hwf Hlen) as (bs & Hw & Hr). exists bs.
    split; [done|]. intros rest. rewrite Hr. unfold count_fault. by destruct profile.
Qed.
End properties.

(** ** Witnesses *)

Import RefInstances.

(** As many distinct assets as a note can hold. *)
Definition sample_nft (i : Z) : Asset :=
  NonFungible (mkNonFungibleAsset (mkWord (Felt_new i) (id_felt sample_faucet_2) (Felt_new 12) (Felt_new 13))).
Definition full_assets : list Asset := map sample_nft (seqZ 0 256).

Lemma full_assets_valid : Forall asset_valid full_assets.
Proof.
  apply Forall_forall. intros a (i & -> & _)%list_elem_of_fmap.
  vm_compute. split_and!; [discriminate|by left|reflexivity|reflexivity].
Qed.

Lemma full_assets_nodup : NoDup (vault_key <$> full_assets).
Proof. apply (bool_decide_unpack (NoDup (vault_key <$> full_assets))). vm_compute. exact I. Qed.

Definition full_note_assets : NoteAssets :=
  mkNoteAssets full_assets (hash_elements (asset_elements full_assets)).

Lemma full_assets_count : Z.of_nat (length full_assets) = 256.
Proof. reflexivity. Qed.

Lemma full_note_assets_wf : note_assets_wf full_note_assets.
Proof.
  split; [exact full_assets_valid|]. split; [by vm_compute|]. split; [exact full_assets_nodup|reflexivity].
Qed.

Lemma note_assets_new_spec_witness : note_assets_new full_assets = Ok full_note_assets.
Proof.
  apply (note_assets_new_spec full_assets full_assets_valid). split; [reflexivity|exact full_note_assets_wf].
Defined.

Lemma note_assets_serialization_witness :
  exists bs, write_into note_assets_codec full_note_assets = Ok bs /\
    snd (read_from note_assets_codec (bs ++ [])) = Panic.
Proof.
  destruct (proj2 note_assets_serialization full_note_assets full_note_assets_wf) as (bs & Hw & Hr);
    [reflexivity|]. exists bs. split; [exact Hw|apply Hr].
Defined.

Lemma note_inputs_spec_witness :
  exists ni, note_inputs_new (replicate 128 ONE) = Ok ni /\ num_values (E := NoteError) ni = Panic.
Proof.
  set (vs := replicate 128 ONE).
  destruct (note_inputs_spec vs) as (Hok & _ & Hspec).
  assert (Hni : note_inputs_new vs = Ok (mkNoteInputs vs (hash_elements (pad_inputs vs)))).
  { apply Hok. split; [reflexivity|]. split; [by vm_compute|reflexivity]. }
  eexists. split; [exact Hni|]. destruct (Hspec _ Hni) as (_ & _ & _ & _ & Hn). apply Hn. reflexivity.
Defined.

Definition sample_script (code : list Z) : NoteScript := mkNoteScript (P := RefPrograms) EMPTY_WORD code.

(** A program of one byte has an encoding of five, which does not survive. *)
Lemma note_script_felts_witness :
  note_script_try_from (felts_of_note_script (sample_script [])) = Ok (sample_script []) /\
  note_script_try_from (felts_of_note_script (sample_script [7])) = Err UnexpectedEOF.
Proof.
  split.
  - apply (note_script_felts (sample_script [])); [|by vm_compute]. split; [constructor|by vm_compute].
  - destruct (note_script_felts (sample_script [7])) as [_ Hbad].
    { split; [by repeat constructor|by vm_compute]. }
    rewrite Hbad by reflexivity. reflexivity.
Defined.
