(* ===== verification/Notes.v ===== *)
(** notes/note_id.rs, nullifier.rs, mod.rs and envelope.rs: a note, its identifier
    and nullifier, and the public part of it. *)
From S2P Require Import Prelude Interfaces Types Reference AccountIds Assets NoteMeta NoteContents.
Local Open Scope Z_scope.

(** ** Identifiers and nullifiers *)

Section ids.
Context `{F : Field} {C : Crypto} {IO : ByteIO}.

Definition note_id_new (recipient asset_commitment : Digest) : NoteId :=
  mkNoteId (merge recipient asset_commitment).
Definition note_id_as_elements (self : NoteId) : list Felt := word_elements (note_id_digest self).
Definition note_id_as_bytes (self : NoteId) : list Z := digest_bytes (note_id_digest self).

(** The digest is serialized first and its bytes are then written. *)
Definition note_id_codec : Codec NoteId := {|
  write_into self := bytes ← write_into digest_codec (note_id_digest self); write_bytes bytes;
  read_from := id ← read_from digest_codec; mret (mkNoteId id)
|}.

Record Nullifier := mkNullifier { nullifier_digest : Digest }.
#[export] Instance Nullifier_eq_dec : EqDecision Nullifier.
Proof. solve_decision. Defined.

Definition nullifier_new (script_hash inputs_hash asset_hash : Digest) (serial_num : Word) : Nullifier :=
  mkNullifier (hash_elements (word_elements serial_num ++ word_elements script_hash ++
                              word_elements inputs_hash ++ word_elements asset_hash)).
Definition nullifier_as_elements (self : Nullifier) : list Felt := word_elements (nullifier_digest self).
Definition most_significant_felt (self : Nullifier) : Felt := w3 (nullifier_digest self).

Definition nullifier_codec : Codec Nullifier := {|
  write_into self := bytes ← write_into digest_codec (nullifier_digest self); write_bytes bytes;
  read_from := nullifier ← read_from digest_codec; mret (mkNullifier nullifier)
|}.
End ids.
Arguments Nullifier : clear implicits.
Arguments Nullifier {_}.

(** ** Notes *)

Section note.
Context `{F : Field} {C : Crypto} {AS : Assembly} {P : Programs} {FE : Features} {D : Display} {B : Build}.

Record Note := mkNote {
  note_assets : NoteAssets; note_metadata : NoteMetadata; note_recipient : NoteRecipient;
  note_id : NoteId; note_nullifier : Nullifier }.

Definition note_new (assets : NoteAssets) (metadata : NoteMetadata) (recipient : NoteRecipient) : Note :=
  let id := note_id_new (nr_digest recipient) (na_hash assets) in
  let nullifier := nullifier_new (ns_hash (nr_script recipient)) (ni_hash (nr_inputs recipient))
                                 (na_hash assets) (nr_serial_num recipient) in
  mkNote assets metadata recipient id nullifier.

(** [From<&Note>] of [NoteId] and of [Nullifier]. *)
Definition note_id_of_note (note : Note) : NoteId :=
  note_id_new (nr_digest (note_recipient note)) (na_hash (note_assets note)).
Definition nullifier_of_note (note : Note) : Nullifier :=
  nullifier_new (ns_hash (nr_script (note_recipient note))) (ni_hash (nr_inputs (note_recipient note)))
                (na_hash (note_assets note)) (nr_serial_num (note_recipient note)).

Definition authentication_hash (self : Note) : Digest :=
  merge (note_id_digest (note_id self)) (word_of_metadata (note_metadata self)).

Context {IO : ByteIO}.

Definition note_codec : Codec Note := {|
  write_into self :=
    write_into note_assets_codec (note_assets self) +w+
    write_into metadata_codec (note_metadata self) +w+
    write_into recipient_codec (note_recipient self);
  read_from :=
    assets ← read_from note_assets_codec;
    metadata ← read_from metadata_codec;
    recipient ← read_from recipient_codec;
    mret (note_new assets metadata recipient)
|}.
End note.
Arguments Note : clear implicits.
Arguments Note {_ _ _}.

(** ** Envelopes *)

Section envelope.
Context `{F : Field} {C : Crypto} {AS : Assembly} {P : Programs} {FE : Features} {D : Display}.

Record NoteEnvelope := mkNoteEnvelope { env_note_id : NoteId; env_metadata : NoteMetadata }.

Definition note_envelope_new (note_id : NoteId) (note_metadata : NoteMetadata)
    : res NoteError NoteEnvelope :=
  let note_type := md_note_type note_metadata in
  if decide (note_type <> NoteOffChain) then Err (InvalidNoteType note_type)
  else Ok (mkNoteEnvelope note_id note_metadata).

(** The conversion from a note makes the envelope without the check of [new]. *)
Definition envelope_of_note (note : Note) : NoteEnvelope :=
  mkNoteEnvelope (note_id note) (note_metadata note).

Definition felts_of_envelope (e : NoteEnvelope) : list Felt :=
  word_elements (note_id_digest (env_note_id e)) ++ word_elements (word_of_metadata (env_metadata e)).
Definition words_of_envelope (e : NoteEnvelope) : list Word :=
  [note_id_digest (env_note_id e); word_of_metadata (env_metadata e)].
Definition bytes_of_envelope (e : NoteEnvelope) : list Z :=
  note_id_as_bytes (env_note_id e) ++
  concat (map (fun x => to_le_bytes 8 (as_int x)) (word_elements (word_of_metadata (env_metadata e)))).

Context {IO : ByteIO}.

Definition envelope_codec : Codec NoteEnvelope := {|
  write_into self := write_into note_id_codec (env_note_id self) +w+ write_into metadata_codec (env_metadata self);
  read_from :=
    note_id ← read_from note_id_codec;
    note_metadata ← read_from metadata_codec;
    mret (mkNoteEnvelope note_id note_metadata)
|}.
End envelope.
Arguments NoteEnvelope : clear implicits.
Arguments NoteEnvelope {_}.

(** ** Specification *)

Section spec.
Context `{F : Field} {C : Crypto} {AS : Assembly} {P : Programs}.

Definition note_wf (n : Note) : Prop :=
  note_assets_wf (note_assets n) /\ metadata_valid (note_metadata n) /\ recipient_wf (note_recipient n) /\
  note_id n = note_id_of_note n /\ note_nullifier n = nullifier_of_note n.

(** The data the identifier and the nullifier of a note commit to: the inputs
    count up to the padding. *)
Definition same_contents (n n' : Note) : Prop :=
  na_assets (note_assets n) = na_assets (note_assets n') /\
  nr_serial_num (note_recipient n) = nr_serial_num (note_recipient n') /\
  ns_hash (nr_script (note_recipient n)) = ns_hash (nr_script (note_recipient n')) /\
  pad_inputs (ni_values (nr_inputs (note_recipient n))) =
    pad_inputs (ni_values (nr_inputs (note_recipient n'))).

(** The hash inputs that occur in a note: the padded assets and inputs, the
    elements of the nullifier, and the pairs merged for the recipient digest
    and for the identifier. *)
Definition assets_preimage (n : Note) : list Felt := asset_elements (na_assets (note_assets n)).
Definition inputs_preimage (n : Note) : list Felt := pad_inputs (ni_values (nr_inputs (note_recipient n))).
Definition nullifier_preimage (n : Note) : list Felt :=
  word_elements (nr_serial_num (note_recipient n)) ++ word_elements (ns_hash (nr_script (note_recipient n))) ++
  word_elements (ni_hash (nr_inputs (note_recipient n))) ++ word_elements (na_hash (note_assets n)).
Definition merge_preimages (n : Note) : list (Digest * Digest) :=
  let r := note_recipient n in
  let serial_num_hash := merge (nr_serial_num r) EMPTY_WORD in
  let merge_script := merge serial_num_hash (ns_hash (nr_script r)) in
  [(nr_digest r, na_hash (note_assets n)); (merge_script, ni_hash (nr_inputs r));
   (serial_num_hash, ns_hash (nr_script r)); (nr_serial_num r, EMPTY_WORD)].

(** The two notes exhibit a collision among corresponding hash inputs. *)
Definition contents_collide (n n' : Note) : Prop :=
  hash_collision (assets_preimage n) (assets_preimage n') \/
  hash_collision (inputs_preimage n) (inputs_preimage n').
Definition merges_collide (n n' : Note) : Prop :=
  exists i p q, merge_preimages n !! i = Some p /\ merge_preimages n' !! i = Some q /\ merge_collision p q.
End spec.

(** ** Lemmas *)

Section lemmas.
Context `{F : Field} {FL : FieldLaws F} {C : Crypto} {AS : Assembly} {P : Programs}.

Lemma concat_words_inj (ws ws' : list Word) :
  concat (map word_elements ws) = concat (map word_elements ws') -> ws = ws'.
Proof.
  revert ws'. induction ws as [|w ws IH]; intros [|w' ws']; cbn [map concat]; try done.
  intros [-> Hrest]%word_elements_app_inj. f_equal. by apply IH.
Qed.

(** The words of a list of assets with the padding word. *)
Definition padded_words (assets : list Asset) : list Word :=
  map asset_word assets ++ (if decide (length assets mod 2 = 1)%nat then [EMPTY_WORD] else []).

Lemma asset_elements_words assets : asset_elements assets = concat (map word_elements (padded_words assets)).
Proof.
  unfold asset_elements, padded_words. rewrite map_app, concat_app, map_map.
  by case_decide.
Qed.

Lemma asset_words_inj l l' :
  Forall asset_valid l -> Forall asset_valid l' -> map asset_word l = map asset_word l' -> l = l'.
Proof.
  intros Hl. revert l'. induction Hl as [|a l Ha _ IH]; intros l' Hl' Heq; destruct Hl' as [|a' l' Ha' Hl'];
    try done. cbn in Heq. injection Heq as Hw Heq. f_equal; [by apply asset_word_inj|by apply IH].
Qed.

(** The padding word is not the word of a valid asset. *)
Lemma padding_not_an_asset l l' :
  Forall asset_valid l' -> map asset_word l ++ [EMPTY_WORD] <> map asset_word l'.
Proof.
  intros Hl' Heq. assert (Hin : EMPTY_WORD ∈ map asset_word l') by (rewrite <- Heq; set_solver).
  apply list_elem_of_fmap in Hin as (a & Ha & Hin). rewrite Forall_forall in Hl'.
  by apply (asset_word_nonempty a (Hl' a Hin)).
Qed.

(** The padded elements determine the assets. *)
Lemma asset_elements_inj l l' :
  Forall asset_valid l -> Forall asset_valid l' -> asset_elements l = asset_elements l' -> l = l'.
Proof.
  intros Hl Hl'. rewrite !asset_elements_words. intros Heq%concat_words_inj. unfold padded_words in Heq.
  repeat case_decide.
  - apply app_inj_tail in Heq as [Heq _]. by apply asset_words_inj.
  - rewrite app_nil_r in Heq. by apply padding_not_an_asset in Heq.
  - rewrite app_nil_r in Heq. symmetry in Heq. by apply padding_not_an_asset in Heq.
  - rewrite !app_nil_r in Heq. by apply asset_words_inj.
Qed.

(** Equal commitments to assets and inputs: equal contents, or a collision. *)
Lemma contents_bind n n' :
  note_wf n -> note_wf n' ->
  na_hash (note_assets n) = na_hash (note_assets n') ->
  ni_hash (nr_inputs (note_recipient n)) = ni_hash (nr_inputs (note_recipient n')) ->
  (na_assets (note_assets n) = na_assets (note_assets n') /\
   inputs_preimage n = inputs_preimage n') \/ contents_collide n n'.
Proof.
  intros ((Hv & _ & _ & Ha) & _ & [[_ Hi] _] & _) ((Hv' & _ & _ & Ha') & _ & [[_ Hi'] _] & _).
  rewrite Ha, Ha', Hi, Hi'. intros [Heq|Hc]%hash_equal; [|by right; left].
  intros [Heq'|Hc]%hash_equal; [|by right; right]. left. split; [by apply asset_elements_inj|done].
Qed.

(** The chain of merges of the identifier, from the outside in. *)
Lemma note_id_merges n n' :
  note_wf n -> note_wf n' -> note_id n = note_id n' ->
  (na_hash (note_assets n) = na_hash (note_assets n') /\
   ni_hash (nr_inputs (note_recipient n)) = ni_hash (nr_inputs (note_recipient n')) /\
   ns_hash (nr_script (note_recipient n)) = ns_hash (nr_script (note_recipient n')) /\
   nr_serial_num (note_recipient n) = nr_serial_num (note_recipient n')) \/ merges_collide n n'.
Proof.
  intros (_ & _ & [_ Hd] & Hid & _) (_ & _ & [_ Hd'] & Hid' & _) Heq.
  rewrite Hid, Hid' in Heq. injection Heq as Heq. unfold merges_collide, merge_preimages.
  apply (merge_equal (_, _) (_, _)) in Heq as [Heq|Hc]; [|right; exists 0%nat; eauto].
  injection Heq as Hr Ha. rewrite Hd, Hd' in Hr. unfold compute_recipient_digest in Hr.
  apply (merge_equal (_, _) (_, _)) in Hr as [Hr|Hc]; [|right; exists 1%nat; eauto].
  injection Hr as Hr Hi. apply (merge_equal (_, _) (_, _)) in Hr as [Hr|Hc]; [|right; exists 2%nat; eauto].
  injection Hr as Hr Hs. apply (merge_equal (_, _) (_, _)) in Hr as [Hr|Hc]; [|right; exists 3%nat; eauto].
  injection Hr as Hr. by left.
Qed.
End lemmas.

Section serialization.
Context `{F : Field} {FL : FieldLaws F} {C : Crypto} {AS : Assembly} {P : Programs} {PL : ProgramLaws P}
  {FE : Features} {D : Display} {B : Build} {IO : ByteIO} {IOL : ByteIOLaws IO}.

Lemma note_id_round_trip : round_trips note_id_codec (fun _ => True).
Proof.
  apply round_trip_intro. intros id _.
  destruct (round_trip_elim _ _ (note_id_digest id) digest_round_trip I) as (bs & Hw & Hr).
  exists bs. cbn [write_into read_from note_id_codec]. rewrite Hw. split; [apply (bytes_round_trip bs [])|].
  intros rest. erewrite mut_bind_ok by apply Hr. by destruct id.
Qed.

Lemma nullifier_round_trip : round_trips nullifier_codec (fun _ => True).
Proof.
  apply round_trip_intro. intros n _.
  destruct (round_trip_elim _ _ (nullifier_digest n) digest_round_trip I) as (bs & Hw & Hr).
  exists bs. cbn [write_into read_from nullifier_codec]. rewrite Hw. split; [apply (bytes_round_trip bs [])|].
  intros rest. erewrite mut_bind_ok by apply Hr. by destruct n.
Qed.

Lemma note_assets_read_wf src rest na : read_from note_assets_codec src = (rest, Ok na) -> note_assets_wf na.
Proof.
  intros Hread. cbn [read_from note_assets_codec] in Hread.
  apply mut_bind_inv in Hread as (s1 & b & _ & Hread). apply mut_bind_inv in Hread as (s2 & c & _ & Hread).
  apply mut_bind_inv in Hread as (s3 & l & Hl & Hread). apply lift_inv in Hread.
  apply map_err_ok in Hread. apply note_assets_new_ok in Hread as [_ ?]; [done|].
  eapply read_many_forall; [apply asset_codec_valid|exact Hl].
Qed.

Lemma note_inputs_read_wf src rest ni : read_from note_inputs_codec src = (rest, Ok ni) -> note_inputs_wf ni.
Proof.
  intros Hread. cbn [read_from note_inputs_codec] in Hread.
  apply mut_bind_inv in Hread as (s1 & b & _ & Hread). apply mut_bind_inv in Hread as (s2 & c & _ & Hread).
  apply lift_inv in Hread. by apply map_err_ok, note_inputs_new_ok in Hread as [_ ?].
Qed.

Lemma recipient_read_wf src rest r : read_from recipient_codec src = (rest, Ok r) -> recipient_wf r.
Proof.
  intros Hread. cbn [read_from recipient_codec] in Hread.
  apply mut_bind_inv in Hread as (s1 & s & _ & Hread). apply mut_bind_inv in Hread as (s2 & i & Hi & Hread).
  apply mut_bind_inv in Hread as (s3 & w & _ & Hread). injection Hread as _ <-.
  split; [by eapply note_inputs_read_wf|done].
Qed.

Lemma metadata_read_sender src rest m :
  read_from metadata_codec src = (rest, Ok m) -> AccountId_valid (md_sender m).
Proof.
  intros Hread. cbn [read_from metadata_codec] in Hread.
  apply mut_bind_inv in Hread as (s1 & id & Hid & Hread). apply mut_bind_inv in Hread as (s2 & t & _ & Hread).
  apply mut_bind_inv in Hread as (s3 & tag & _ & Hread). apply mut_bind_inv in Hread as (s4 & aux & _ & Hread).
  apply lift_inv, map_err_ok in Hread. unfold metadata_new in Hread. inv_res. cbn. by eapply account_id_codec_valid.
Qed.

Lemma note_round_trip :
  round_trips note_codec (fun n => note_wf n /\ note_script_ok (nr_script (note_recipient n)) /\
    Z.of_nat (length (na_assets (note_assets n))) < 256).
Proof.
  apply round_trip_intro. intros n ((Ha & Hm & Hr & Hid & Hnull) & Hs & Hlen).
  destruct (round_trip_elim _ _ _ note_assets_round_trip (conj Ha Hlen)) as (b1 & Hw1 & Hr1).
  destruct (round_trip_elim _ _ _ metadata_round_trip Hm) as (b2 & Hw2 & Hr2).
  destruct (round_trip_elim _ _ _ recipient_round_trip (conj Hr Hs)) as (b3 & Hw3 & Hr3).
  exists (b1 ++ b2 ++ b3). split; [by repeat apply wappend_ok|]. intros rest. rewrite <- !app_assoc.
  cbn [read_from note_codec]. erewrite mut_bind_ok by apply Hr1. erewrite mut_bind_ok by apply Hr2.
  erewrite mut_bind_ok by apply Hr3. destruct n as [a m r id nl]. cbn in *.
  unfold mret, mut_ret. by rewrite Hid, Hnull.
Qed.

Lemma note_new_made assets md r :
  note_assets_wf assets -> metadata_valid md -> recipient_wf r -> note_wf (note_new assets md r).
Proof. intros Ha Hm Hr. by split_and!. Qed.

(** A note with 256 assets is written and not read. *)
Lemma note_unreadable (n : Note) : note_wf n -> note_script_ok (nr_script (note_recipient n)) ->
  Z.of_nat (length (na_assets (note_assets n))) = 256 ->
  unreadable (write_into note_codec n) (read_from note_codec) count_fault.
Proof.
  intros (Ha & Hm & Hr & _) Hs Hlen. cbn [write_into read_from note_codec].
  apply unreadable_first; [by apply note_assets_unreadable|]. apply writes_app.
  - by eapply round_trip_writes; [apply metadata_round_trip|].
  - by eapply round_trip_writes; [apply recipient_round_trip|].
Qed.
End serialization.

(** ** Properties *)

Section properties.
Context `{F : Field} {FL : FieldLaws F} {C : Crypto} {AS : Assembly} {P : Programs} {PL : ProgramLaws P}
  {FE : Features} {D : Display} {B : Build} {IO : ByteIO} {IOL : ByteIOLaws IO}.

(** C35: the identifier of a note, and its nullifier, commit to its assets,
    serial number, script and padded inputs: two well-formed notes that share
    one of them have the same contents, unless corresponding hash inputs of
    the two notes are a collision of the hash function. *)
Theorem note_commitments_bind (n n' : Note) (Hn : note_wf n) (Hn' : note_wf n') :
  (note_id n = note_id n' ->
     same_contents n n' \/ contents_collide n n' \/ merges_collide n n') /\
  (note_nullifier n = note_nullifier n' ->
     same_contents n n' \/ contents_collide n n' \/
     hash_collision (nullifier_preimage n) (nullifier_preimage n')).
Proof.
  split; intros Heq.
  - destruct (note_id_merges n n' Hn Hn' Heq) as [(Ha & Hi & Hs & Hser)|Hc]; [|by right; right].
    destruct (contents_bind n n' Hn Hn' Ha Hi) as [[? ?]|Hc]; [by left|by right; left].
  - assert (Hnl := Hn). assert (Hnl' := Hn'). destruct Hnl as (_ & _ & _ & _ & Hnl).
    destruct Hnl' as (_ & _ & _ & _ & Hnl'). rewrite Hnl, Hnl' in Heq. injection Heq as Heq.
    destruct (hash_equal (nullifier_preimage n) (nullifier_preimage n') Heq) as [He|Hc]; [|by right; right].
    unfold nullifier_preimage in He.
    apply word_elements_app_inj in He as [Hser He]. apply word_elements_app_inj in He as [Hs He].
    apply word_elements_app_inj in He as [Hi He].
    rewrite <- (app_nil_r (word_elements (na_hash (note_assets n)))),
      <- (app_nil_r (word_elements (na_hash (note_assets n')))) in He.
    apply word_elements_app_inj in He as [Ha _].
    destruct (contents_bind n n' Hn Hn' Ha Hi) as [[? ?]|Hc]; [by left|by right; left].
Qed.

(** A well-formed note with at most 255 assets is written and reads back
    as itself, its identifier and nullifier recomputed; and reading bytes only
    ever gives notes whose assets, inputs, recipient digest, identifier and
    nullifier are consistent. *)
Theorem note_serialization :
  round_trips note_codec (fun n => note_wf n /\ note_script_ok (nr_script (note_recipient n)) /\
    Z.of_nat (length (na_assets (note_assets n))) < 256) /\
  (forall src rest n, read_from note_codec src = (rest, Ok n) ->
    note_assets_wf (note_assets n) /\ AccountId_valid (md_sender (note_metadata n)) /\
    recipient_wf (note_recipient n) /\ note_id n = note_id_of_note n /\
    note_nullifier n = nullifier_of_note n).
Proof.
  split; [apply note_round_trip|]. intros src rest n Hread. cbn [read_from note_codec] in Hread.
  apply mut_bind_inv in Hread as (s1 & a & Ha & Hread). apply mut_bind_inv in Hread as (s2 & m & Hm & Hread).
  apply mut_bind_inv in Hread as (s3 & r & Hr & Hread). injection Hread as _ <-. cbn.
  split_and!; [by eapply note_assets_read_wf|by eapply metadata_read_sender|by eapply recipient_read_wf|done|done].
Qed.

(** An envelope is made by its constructor for off-chain notes only, and any
    other note type is reported. Its two words are the identifier and a word
    the metadata decodes from, and the eight elements are theirs. Serialized
    envelopes read back as themselves, also those of other note types, which
    the conversion from a note makes: neither checks the type. *)
Theorem note_envelope_spec (id : NoteId) (m : NoteMetadata) (Hm : metadata_valid m) :
  (forall e, note_envelope_new id m = Ok e <-> e = mkNoteEnvelope id m /\ md_note_type m = NoteOffChain) /\
  (md_note_type m <> NoteOffChain -> note_envelope_new id m = Err (InvalidNoteType (md_note_type m))) /\
  (exists w, words_of_envelope (mkNoteEnvelope id m) = [note_id_digest id; w] /\ metadata_try_from w = Ok m /\
     felts_of_envelope (mkNoteEnvelope id m) = concat (map word_elements [note_id_digest id; w])) /\
  (forall n, note_id n = id -> note_metadata n = m ->
     exists bs, write_into envelope_codec (envelope_of_note n) = Ok bs /\
       forall rest, read_from envelope_codec (bs ++ rest) = (rest, Ok (mkNoteEnvelope id m))).
Proof.
  split_and!.
  - intros e. unfold note_envelope_new. case_decide; naive_solver.
  - intros Ht. unfold note_envelope_new. by rewrite decide_True.
  - eexists. split; [done|]. split; [by apply metadata_try_from_ok|].
    unfold felts_of_envelope. cbn [map concat]. by rewrite app_nil_r.
  - intros n <- <-.
    destruct (round_trip_elim _ _ (note_id n) note_id_round_trip I) as (b1 & Hw1 & Hr1).
    destruct (round_trip_elim _ _ _ metadata_round_trip Hm) as (b2 & Hw2 & Hr2).
    exists (b1 ++ b2). split; [by apply wappend_ok|]. intros rest. rewrite <- app_assoc.
    cbn [read_from envelope_codec]. erewrite mut_bind_ok by apply Hr1. by erewrite mut_bind_ok by apply Hr2.
Qed.
End properties.

(** ** Witnesses *)

Import RefInstances.

Definition sample_note_assets : NoteAssets :=
  mkNoteAssets [sample_nft 1] (hash_elements (asset_elements [sample_nft 1])).
Definition sample_inputs (values : list Felt) : NoteInputs :=
  mkNoteInputs values (hash_elements (pad_inputs values)).
Definition sample_note (values : list Felt) : Note :=
  note_new sample_note_assets sample_metadata
    (recipient_new EMPTY_WORD (sample_script []) (sample_inputs values)).

Lemma sample_note_wf values : Z.of_nat (length values) <= 128 -> note_wf (sample_note values).
Proof.
  intros Hlen. split; [|split; [exact sample_metadata_valid|split; [by split|by split]]].
  split; [|split; [by vm_compute|split; [apply NoDup_singleton|reflexivity]]].
  constructor; [|constructor]. vm_compute. split_and!; [discriminate|by left|reflexivity|reflexivity].
Qed.

(** Inputs that differ in their padding only: one identifier for two notes. *)
Lemma note_commitments_bind_witness :
  note_id (sample_note [ONE]) = note_id (sample_note [ONE; ZERO]) /\
  (same_contents (sample_note [ONE]) (sample_note [ONE; ZERO]) \/
   contents_collide (sample_note [ONE]) (sample_note [ONE; ZERO]) \/
   merges_collide (sample_note [ONE]) (sample_note [ONE; ZERO])).
Proof.
  assert (Hid : note_id (sample_note [ONE]) = note_id (sample_note [ONE; ZERO])) by reflexivity.
  split; [exact Hid|].
  apply (note_commitments_bind (sample_note [ONE]) (sample_note [ONE; ZERO])); [| |exact Hid];
    apply sample_note_wf; by vm_compute.
Defined.

Lemma note_serialization_witness :
  exists bs, write_into note_codec (sample_note [ONE]) = Ok bs /\
    read_from note_codec bs = ([], Ok (sample_note [ONE])).
Proof.
  destruct (proj1 note_serialization (sample_note [ONE])) as (bs & Hw & Hr).
  { split; [apply sample_note_wf; by vm_compute|]. split; [split; [constructor|by vm_compute]|by vm_compute]. }
  exists bs. split; [exact Hw|]. destruct (Hr []) as (n & Hread & <-). rewrite app_nil_r in Hread. exact Hread.
Defined.

Lemma note_envelope_spec_witness :
  note_envelope_new (note_id (sample_note [])) sample_metadata =
  Ok (mkNoteEnvelope (note_id (sample_note [])) sample_metadata).
Proof.
  apply (note_envelope_spec (note_id (sample_note [])) sample_metadata sample_metadata_valid).
  split; reflexivity.
Defined.
