(* ===== verification/Outputs.v ===== *)
(** transaction/outputs.rs: the notes a transaction creates and the commitment to
    them. *)
From S2P Require Import Prelude Interfaces Types Reference AccountIds Assets NoteMeta NoteContents Notes.
Local Open Scope Z_scope.

(** constants.rs *)
Definition MAX_OUTPUT_NOTES_PER_TX : Z := 4096.

#[export] Instance NoteId_eq_dec `{Field} : EqDecision NoteId.
Proof. solve_decision. Defined.

Section outputs.
Context `{F : Field} {C : Crypto} {AS : Assembly} {P : Programs} {FE : Features} {D : Display} {B : Build}.

Inductive TransactionOutputError :=
| DuplicateOutputNote (id : NoteId)
| FinalAccountDataNotFound
| FinalAccountStubDataInvalid (e : AccountError)
| OutputNoteDataNotFound
| OutputNoteDataInvalid (e : NoteError)
| OutputNotesCommitmentInconsistent (expected actual : Digest)
| TooManyOutputNotes (max actual : Z).

(** ** Output notes *)

Inductive OutputNote :=
| PublicNote (note : Note)
| PrivateNote (note : NoteEnvelope).

Definition out_assets (self : OutputNote) : option NoteAssets :=
  match self with PublicNote note => Some (note_assets note) | PrivateNote _ => None end.

Definition out_id (self : OutputNote) : NoteId :=
  match self with PublicNote note => note_id note | PrivateNote note => env_note_id note end.

Definition out_recipient_digest (self : OutputNote) : option Digest :=
  match self with PublicNote note => Some (nr_digest (note_recipient note)) | PrivateNote _ => None end.

Definition out_metadata (self : OutputNote) : NoteMetadata :=
  match self with PublicNote note => note_metadata note | PrivateNote note => env_metadata note end.

Definition envelope_of_output (value : OutputNote) : NoteEnvelope :=
  match value with PublicNote note => envelope_of_note note | PrivateNote note => note end.

(** ** Lists of output notes *)

Record OutputNotes := mkOutputNotes { on_notes : list OutputNote; on_commitment : Digest }.

Definition build_output_notes_commitment (notes : list OutputNote) : Digest :=
  match notes with
  | [] => EMPTY_WORD
  | _ => hash_elements (concat (map (fun note =>
      word_elements (note_id_digest (out_id note)) ++ word_elements (word_of_metadata (out_metadata note)))
      notes))
  end.

(** The loop of [new] over a set of the identifiers seen so far. *)
Definition check_output_ids (notes : list OutputNote) : res TransactionOutputError unit :=
  check_unseen out_id DuplicateOutputNote [] notes.

Definition output_notes_new (notes : list OutputNote) : res TransactionOutputError OutputNotes :=
  if decide (Z.of_nat (length notes) > MAX_OUTPUT_NOTES_PER_TX)
  then Err (TooManyOutputNotes MAX_OUTPUT_NOTES_PER_TX (Z.of_nat (length notes)))
  else
    _ ← check_output_ids notes;
    Ok (mkOutputNotes notes (build_output_notes_commitment notes)).

(** An index out of range panics. *)
Definition get_note {E} (self : OutputNotes) (idx : nat) : res E OutputNote := expect (on_notes self !! idx).

Context {IO : ByteIO}.

Definition OUT_PUBLIC : Z := 0.
Definition OUT_PRIVATE : Z := 1.

Definition output_note_codec : Codec OutputNote := {|
  write_into self :=
    match self with
    | PublicNote note => write_into u8_codec OUT_PUBLIC +w+ write_into note_codec note
    | PrivateNote note => write_into u8_codec OUT_PRIVATE +w+ write_into envelope_codec note
    end;
  read_from :=
    v ← read_from u8_codec;
    if decide (v = OUT_PUBLIC) then note ← read_from note_codec; mret (PublicNote note)
    else if decide (v = OUT_PRIVATE) then note ← read_from envelope_codec; mret (PrivateNote note)
    else lift (Err (InvalidValue (to_string v)))
|}.

Definition output_notes_codec : Codec OutputNotes := {|
  write_into self :=
    let n := Z.of_nat (length (on_notes self)) in
    assert_ (bool_decide (n <= 2 ^ 16 - 1)) ≫= fun _ =>
    write_into u16_codec (n mod 2 ^ 16) +w+ write_many output_note_codec (on_notes self);
  read_from :=
    num_notes ← read_from u16_codec;
    notes ← read_many output_note_codec (Z.to_nat num_notes);
    lift (map_err (fun err => InvalidValue (to_string err)) (output_notes_new notes))
|}.
End outputs.
Arguments TransactionOutputError : clear implicits.
Arguments TransactionOutputError {_ _ _}.
Arguments OutputNote : clear implicits.
Arguments OutputNote {_ _ _}.
Arguments OutputNotes : clear implicits.
Arguments OutputNotes {_ _ _}.

(** ** Specification *)

Section spec.
Context `{F : Field} {C : Crypto} {AS : Assembly} {P : Programs}.

(** An output note that serialization preserves. *)
Definition output_note_ok (o : OutputNote) : Prop :=
  match o with
  | PublicNote n => note_wf n /\ note_script_ok (nr_script (note_recipient n)) /\
      Z.of_nat (length (na_assets (note_assets n))) < 256
  | PrivateNote e => metadata_valid (env_metadata e)
  end.

(** An output note that is written; one with 256 assets is not read. *)
Definition output_note_writable (o : OutputNote) : Prop :=
  match o with
  | PublicNote n => note_wf n /\ note_script_ok (nr_script (note_recipient n))
  | PrivateNote e => metadata_valid (env_metadata e)
  end.
Definition full_note (o : OutputNote) : Prop :=
  match o with PublicNote n => Z.of_nat (length (na_assets (note_assets n))) = 256 | PrivateNote _ => False end.

(** At most 4096 notes with distinct identifiers, and their commitment. *)
Definition output_notes_wf (ns : OutputNotes) : Prop :=
  Z.of_nat (length (on_notes ns)) <= MAX_OUTPUT_NOTES_PER_TX /\ NoDup (out_id <$> on_notes ns) /\
  on_commitment ns = build_output_notes_commitment (on_notes ns).
End spec.

(** ** Lemmas *)

Section lemmas.
Context `{F : Field} {FL : FieldLaws F} {C : Crypto} {AS : Assembly} {P : Programs}.

Lemma output_notes_new_ok (notes : list OutputNote) ns :
  output_notes_new notes = Ok ns <-> on_notes ns = notes /\ output_notes_wf ns.
Proof.
  unfold output_notes_new, output_notes_wf. split.
  - intros H. case_decide; [done|]. inv_res. unfold check_output_ids in *.
    destruct (check_unseen_spec out_id DuplicateOutputNote notes) as [(_ & Hnd)|(n & _ & He & _)].
    + cbn. split_and!; (done || lia).
    + destruct x. congruence.
  - intros [<- (Hlen & Hnd & Hc)]. rewrite decide_False by lia.
    unfold check_output_ids.
    destruct (check_unseen_spec out_id DuplicateOutputNote (on_notes ns)) as [(-> & _)|(n & _ & _ & Hbad)]; [|done].
    cbn [mbind res_bind]. rewrite <- Hc. by destruct ns.
Qed.

Lemma output_notes_new_no_panic (notes : list OutputNote) : output_notes_new notes <> Panic.
Proof.
  unfold output_notes_new, check_output_ids. case_decide; [done|].
  by destruct (check_unseen_spec out_id DuplicateOutputNote notes) as [(-> & _)|(n & _ & -> & _)].
Qed.

Context {PL : ProgramLaws P} {FE : Features} {D : Display} {B : Build} {IO : ByteIO} {IOL : ByteIOLaws IO}.

Lemma output_note_round_trip : round_trips output_note_codec output_note_ok.
Proof.
  apply round_trip_intro. intros [n|[id m]] Ho.
  - destruct (round_trip_elim _ _ _ note_round_trip Ho) as (b2 & Hw2 & Hr2).
    destruct (round_trip_elim _ _ OUT_PUBLIC u8_round_trip) as (b1 & Hw1 & Hr1); [by vm_compute|].
    exists (b1 ++ b2). split; [by apply wappend_ok|]. intros rest. rewrite <- app_assoc.
    cbn [read_from output_note_codec]. erewrite mut_bind_ok by apply Hr1. rewrite decide_True by done.
    by erewrite mut_bind_ok by apply Hr2.
  - cbn in Ho. destruct (round_trip_elim _ _ id note_id_round_trip I) as (b2 & Hw2 & Hr2).
    destruct (round_trip_elim _ _ _ metadata_round_trip Ho) as (b3 & Hw3 & Hr3).
    destruct (round_trip_elim _ _ OUT_PRIVATE u8_round_trip) as (b1 & Hw1 & Hr1); [by vm_compute|].
    exists (b1 ++ b2 ++ b3). split; [by repeat apply wappend_ok|]. intros rest. rewrite <- !app_assoc.
    cbn [read_from output_note_codec]. erewrite mut_bind_ok by apply Hr1.
    rewrite decide_False, decide_True by done. cbn [read_from envelope_codec].
    erewrite mut_bind_ok; [done|]. erewrite mut_bind_ok by apply Hr2. by erewrite mut_bind_ok by apply Hr3.
Qed.
Lemma output_notes_round_trip :
  round_trips output_notes_codec (fun ns => output_notes_wf ns /\ Forall output_note_ok (on_notes ns)).
Proof.
  apply round_trip_intro. intros ns [Hwf Hok]. assert (Hlen := Hwf). destruct Hlen as [Hlen _].
  unfold MAX_OUTPUT_NOTES_PER_TX in Hlen. set (n := Z.of_nat (length (on_notes ns))) in *.
  destruct (round_trip_elim _ _ (n mod 2 ^ 16) u16_round_trip) as (b1 & Hw1 & Hr1); [by apply Z.mod_pos_bound|].
  destruct (many_round_trip output_note_codec output_note_ok (on_notes ns) output_note_round_trip Hok)
    as (b2 & Hw2 & Hr2).
  exists (b1 ++ b2). split.
  + cbn [write_into output_notes_codec]. fold n. rewrite bool_decide_true by lia. by apply wappend_ok.
  + intros rest. rewrite <- app_assoc. cbn [read_from output_notes_codec].
    erewrite mut_bind_ok by apply Hr1. rewrite Z.mod_small by lia. unfold n. rewrite Nat2Z.id.
    erewrite mut_bind_ok by apply Hr2. by apply lift_step, map_err_ok, output_notes_new_ok.
Qed.

Lemma output_note_cases o : output_note_writable o -> (~ full_note o <-> output_note_ok o).
Proof.
  destruct o as [n|e]; cbn; [|tauto]. intros [Hwf Hs]. pose proof Hwf as ((_ & [_ Hlen] & _) & _).
  unfold MAX_ASSETS_PER_NOTE in Hlen. split; [intros Hn; split_and!; (done || lia)|]. intros (_ & _ & Hlt). lia.
Qed.

Lemma output_note_unreadable o : output_note_writable o -> full_note o ->
  unreadable (write_into output_note_codec o) (read_from output_note_codec) count_fault.
Proof.
  destruct o as [n|e]; [|done]. intros [Hwf Hs] Hlen. cbn [write_into read_from output_note_codec].
  eapply reads_out_cons; [apply u8_round_trip|by vm_compute|]. rewrite decide_True by done.
  by apply unreadable_only, note_unreadable.
Qed.

Lemma output_notes_unreadable ns : output_notes_wf ns -> Forall output_note_writable (on_notes ns) ->
  Exists full_note (on_notes ns) -> unreadable (write_into output_notes_codec ns) (read_from output_notes_codec) count_fault.
Proof.
  intros [Hlen _] Hall Hex. unfold MAX_OUTPUT_NOTES_PER_TX in Hlen. cbn [write_into read_from output_notes_codec].
  rewrite bool_decide_true by lia. cbn [assert_ mbind res_bind]. rewrite Z.mod_small by lia.
  eapply reads_out_cons; [apply u16_round_trip|cbn; lia|]. rewrite Nat2Z.id.
  apply unreadable_only, (many_unreadable output_note_codec output_note_ok); [apply output_note_round_trip|..].
  - apply (Forall_impl _ _ _ Hall). intros o Ho. pose proof (output_note_cases o Ho) as Hc.
    destruct o as [n|e]; [|by left].
    destruct (decide (Z.of_nat (length (na_assets (note_assets n))) = 256)) as [Hf|Hf]; [|left; exact (proj1 Hc Hf)].
    right. by apply output_note_unreadable.
  - apply Exists_exists in Hex as (o & Ho & Hf). apply Exists_exists. exists o. split; [done|].
    intros Hok. exact (proj2 (output_note_cases o (proj1 (Forall_forall _ _) Hall o Ho)) Hok Hf).
Qed.

Lemma output_notes_read_wf src rest ns : read_from output_notes_codec src = (rest, Ok ns) -> output_notes_wf ns.
Proof.
  intros Hread. cbn [read_from output_notes_codec] in Hread.
  apply mut_bind_inv in Hread as (s1 & n & _ & Hread). apply mut_bind_inv in Hread as (s2 & l & _ & Hread).
  by apply lift_inv, map_err_ok, output_notes_new_ok in Hread as [_ ?].
Qed.
End lemmas.

(** ** Properties *)

Section properties.
Context `{F : Field} {FL : FieldLaws F} {C : Crypto} {AS : Assembly} {P : Programs} {PL : ProgramLaws P}
  {FE : Features} {D : Display} {B : Build} {IO : ByteIO} {IOL : ByteIOLaws IO}.

(** The list of output notes is made exactly from at most 4096 notes with
    distinct identifiers, otherwise the error names the count or a duplicate;
    the commitment depends only on the identifiers and metadata, so replacing
    notes by their envelopes keeps it; and the list is written and read back. *)
Theorem output_notes_spec (notes : list OutputNote) :
  (forall ns, output_notes_new notes = Ok ns <-> on_notes ns = notes /\ output_notes_wf ns) /\
  (4096 < Z.of_nat (length notes) ->
     output_notes_new notes = Err (TooManyOutputNotes 4096 (Z.of_nat (length notes)))) /\
  (Z.of_nat (length notes) <= 4096 -> ~ NoDup (out_id <$> notes) ->
     exists n, n ∈ notes /\ output_notes_new notes = Err (DuplicateOutputNote (out_id n))) /\
  (forall ns, output_notes_new notes = Ok ns ->
     exists ns', output_notes_new (map (fun n => PrivateNote (envelope_of_output n)) notes) = Ok ns' /\
       on_commitment ns' = on_commitment ns) /\
  round_trips output_notes_codec (fun ns => output_notes_wf ns /\ Forall output_note_ok (on_notes ns)).
Proof.
  assert (Hids : forall l : list OutputNote,
    out_id <$> map (fun n => PrivateNote (envelope_of_output n)) l = out_id <$> l).
  { induction l as [|[n|e] l IH]; cbn; [done|by f_equal..]. }
  split_and!; [apply output_notes_new_ok|..].
  - intros Hlen. unfold output_notes_new, MAX_OUTPUT_NOTES_PER_TX. by rewrite decide_True by lia.
  - intros Hlen Hnd. unfold output_notes_new, MAX_OUTPUT_NOTES_PER_TX. rewrite decide_False by lia.
    unfold check_output_ids.
    destruct (check_unseen_spec out_id DuplicateOutputNote notes) as [(_ & ?)|(n & Hn & -> & _)]; [done|by exists n].
  - intros ns [<- (Hlen & Hnd & Hc)]%output_notes_new_ok.
    exists (mkOutputNotes (map (fun n => PrivateNote (envelope_of_output n)) (on_notes ns)) (on_commitment ns)).
    split; [|done]. apply output_notes_new_ok. split; [done|]. unfold output_notes_wf. cbn [on_notes on_commitment].
    rewrite length_map, Hids. split_and!; [done|done|]. rewrite Hc. unfold build_output_notes_commitment.
    destruct (on_notes ns) as [|n l]; [done|]. cbn [map]. f_equal. f_equal.
    change (?x :: map ?f (map ?g l)) with (x :: map f (map g l)).
    f_equal; [by destruct n|]. rewrite map_map. apply map_ext. by intros [?|?].
  - exact output_notes_round_trip.
Qed.
End properties.

(** ** Witnesses *)

Import RefInstances.

Lemma output_notes_spec_witness :
  exists ns, output_notes_new [PublicNote (sample_note [ONE])] = Ok ns /\
    exists bs, write_into output_notes_codec ns = Ok bs /\ read_from output_notes_codec bs = ([], Ok ns).
Proof.
  set (notes := [PublicNote (sample_note [ONE])]).
  destruct (output_notes_spec notes) as (Hok & _ & _ & _ & Hrt).
  set (ns := mkOutputNotes notes (build_output_notes_commitment notes)).
  assert (Hwf : output_notes_wf ns).
  { split; [by vm_compute|]. split; [apply NoDup_singleton|reflexivity]. }
  exists ns. split; [by apply Hok|].
  destruct (Hrt ns) as (bs & Hw & Hr).
  { split; [exact Hwf|]. constructor; [|constructor]. split; [apply sample_note_wf; by vm_compute|].
    split; [split; [constructor|by vm_compute]|by vm_compute]. }
  exists bs. split; [exact Hw|]. destruct (Hr []) as (x & Hread & <-). rewrite app_nil_r in Hread. exact Hread.
Defined.
