(* ===== verification/Blocks.v ===== *)
(** block/header.rs, block/note_tree.rs, batches/note_tree.rs and notes/origin.rs:
    the header of a block, the trees of the notes created in a batch and in a
    block, and the proof that a note is in a block. *)
From S2P Require Import Prelude Interfaces Types Reference AccountIds Assets NoteMeta NoteContents Notes.
Local Open Scope Z_scope.

(** constants.rs *)
Definition NOTE_TREE_DEPTH : Z := 20.
Definition BATCH_OUTPUT_NOTES_TREE_DEPTH : Z := 13.
Definition MAX_NOTES_PER_BATCH : Z := 2 ^ (BATCH_OUTPUT_NOTES_TREE_DEPTH - 1).
Definition BLOCK_OUTPUT_NOTES_BATCH_TREE_DEPTH : Z := 8.
Definition BLOCK_OUTPUT_NOTES_TREE_DEPTH : Z :=
  BATCH_OUTPUT_NOTES_TREE_DEPTH + BLOCK_OUTPUT_NOTES_BATCH_TREE_DEPTH.
Definition MAX_BATCHES_PER_BLOCK : Z := 2 ^ BLOCK_OUTPUT_NOTES_BATCH_TREE_DEPTH.

(** ** Block headers *)

Section header.
Context `{F : Field} {C : Crypto}.

Record BlockHeader := mkBlockHeader {
  prev_hash : Digest; block_num : Z; chain_root : Digest; account_root : Digest;
  nullifier_root : Digest; note_root : Digest; batch_root : Digest; proof_hash : Digest;
  version : Felt; timestamp : Felt; sub_hash : Digest; block_hash : Digest }.

Definition compute_sub_hash (prev_hash chain_root account_root nullifier_root batch_root proof_hash : Digest)
    (version timestamp : Felt) (block_num : Z) : Digest :=
  let elements := word_elements prev_hash ++ word_elements chain_root ++ word_elements account_root ++
    word_elements nullifier_root ++ word_elements batch_root ++ word_elements proof_hash ++
    [Felt_new block_num; version; timestamp; ZERO] in
  hash_elements (resize 32 ZERO elements).

Definition block_header_new (prev_hash : Digest) (block_num : Z)
    (chain_root account_root nullifier_root note_root batch_root proof_hash : Digest)
    (version timestamp : Felt) : BlockHeader :=
  let sub_hash := compute_sub_hash prev_hash chain_root account_root nullifier_root batch_root proof_hash
                    version timestamp block_num in
  let hash := merge sub_hash note_root in
  mkBlockHeader prev_hash block_num chain_root account_root nullifier_root note_root batch_root proof_hash
    version timestamp sub_hash hash.

Context {IO : ByteIO}.

(** The two hashes are written and read with the other fields. *)
Definition block_header_codec : Codec BlockHeader := {|
  write_into self :=
    write_into digest_codec (prev_hash self) +w+ write_into u32_codec (block_num self) +w+
    write_into digest_codec (chain_root self) +w+ write_into digest_codec (account_root self) +w+
    write_into digest_codec (nullifier_root self) +w+ write_into digest_codec (note_root self) +w+
    write_into digest_codec (batch_root self) +w+ write_into digest_codec (proof_hash self) +w+
    write_into felt_codec (version self) +w+ write_into felt_codec (timestamp self) +w+
    write_into digest_codec (sub_hash self) +w+ write_into digest_codec (block_hash self);
  read_from :=
    prev_hash ← read_from digest_codec;
    block_num ← read_from u32_codec;
    chain_root ← read_from digest_codec;
    account_root ← read_from digest_codec;
    nullifier_root ← read_from digest_codec;
    note_root ← read_from digest_codec;
    batch_root ← read_from digest_codec;
    proof_hash ← read_from digest_codec;
    version ← read_from felt_codec;
    timestamp ← read_from felt_codec;
    sub_hash ← read_from digest_codec;
    hash ← read_from digest_codec;
    mret (mkBlockHeader prev_hash block_num chain_root account_root nullifier_root note_root batch_root
            proof_hash version timestamp sub_hash hash)
|}.
End header.
Arguments BlockHeader : clear implicits.
Arguments BlockHeader {_}.

(** ** Note trees *)

Section trees.
Context `{F : Field} {C : Crypto} {MK : Merkle} {B : Build}.

Abbreviation BlockNoteTree := (SimpleSmt BLOCK_OUTPUT_NOTES_TREE_DEPTH).
Abbreviation BatchNoteTree := (SimpleSmt BATCH_OUTPUT_NOTES_TREE_DEPTH).

(** The index arithmetic is on 64-bit integers ([usize], then [u64]). *)
Definition note_index {E} (batch_idx note_idx_in_batch : Z) : res E Z :=
  offset ← mul_w 64 batch_idx MAX_NOTES_PER_BATCH;
  add_w 64 offset note_idx_in_batch.

Definition leaf_index {E} (batch_idx note_idx_in_batch : Z) : res E Z :=
  index ← note_index batch_idx note_idx_in_batch;
  mul_w 64 index 2.

(** The two leaves of an entry: identifier, metadata. *)
Definition interleave_entry {E} (entry : Z * Z * (Digest * NoteMetadata)) : res E (list (Z * Word)) :=
  let '(batch_index, note_index, (note_id, metadata)) := entry in
  id_index ← leaf_index batch_index note_index;
  metadata_index ← add_w 64 id_index 1;
  Ok [(id_index, note_id); (metadata_index, word_of_metadata metadata)].

Definition block_note_tree_with_entries (entries : list (Z * Z * (Digest * NoteMetadata)))
    : res MerkleError BlockNoteTree :=
  interleaved ← mapM interleave_entry entries;
  SimpleSmt_with_leaves BLOCK_OUTPUT_NOTES_TREE_DEPTH (concat interleaved).

Definition block_note_tree_default {E} : res E BlockNoteTree :=
  expect_ok (SimpleSmt_new BLOCK_OUTPUT_NOTES_TREE_DEPTH).

(** The path of the parent of the two leaves of a note. *)
Definition get_note_path (self : BlockNoteTree) (batch_idx note_idx_in_batch : Z)
    : res MerkleError (list Digest) :=
  index ← leaf_index batch_idx note_idx_in_batch;
  leaf_index ← LeafIndex_new BLOCK_OUTPUT_NOTES_TREE_DEPTH index;
  match SimpleSmt_open self leaf_index with
  | [] => Panic
  | _ :: path => Ok path
  end.

Definition batch_note_tree_with_contiguous_leaves (entries : list (NoteId * NoteMetadata))
    : res MerkleError BatchNoteTree :=
  let interleaved := concat (map (fun e : NoteId * NoteMetadata =>
    [note_id_digest e.1; word_of_metadata e.2]) entries) in
  SimpleSmt_with_contiguous_leaves BATCH_OUTPUT_NOTES_TREE_DEPTH interleaved.

Context {IO : ByteIO} {D : Display}.

Definition block_note_tree_codec : Codec BlockNoteTree := {|
  write_into self :=
    write_into u32_codec (SimpleSmt_num_leaves self mod 2 ^ 32) +w+
    write_many (pair_codec u64_codec word_codec) (SimpleSmt_leaves self);
  read_from :=
    count ← read_from u32_codec;
    leaves ← read_many (pair_codec u64_codec word_codec) (Z.to_nat count);
    lift (map_err (fun err => InvalidValue (to_string err))
      (SimpleSmt_with_leaves BLOCK_OUTPUT_NOTES_TREE_DEPTH leaves))
|}.
End trees.

(** ** Inclusion proofs *)

Section origin.
Context `{F : Field} {C : Crypto} {MK : Merkle} {AS : Assembly} {D : Display}.

Record NoteOrigin := mkNoteOrigin { origin_block_num : Z; origin_node_index : NodeIndex }.

Record NoteInclusionProof := mkInclusionProof {
  ip_origin : NoteOrigin; ip_sub_hash : Digest; ip_note_root : Digest; ip_note_path : list Digest }.

Definition inclusion_proof_new (block_num : Z) (sub_hash note_root : Digest) (index : Z)
    (note_path : list Digest) : res NoteError NoteInclusionProof :=
  node_index ← map_err (fun e => InvalidOriginIndex (to_string e)) (NodeIndex_new NOTE_TREE_DEPTH index);
  Ok (mkInclusionProof (mkNoteOrigin block_num node_index) sub_hash note_root note_path).

Context {IO : ByteIO}.

Definition origin_codec : Codec NoteOrigin := {|
  write_into self := write_into u32_codec (origin_block_num self) +w+ write_into NodeIndex_codec (origin_node_index self);
  read_from :=
    block_num ← read_from u32_codec;
    node_index ← read_from NodeIndex_codec;
    mret (mkNoteOrigin block_num node_index)
|}.

Definition inclusion_proof_codec : Codec NoteInclusionProof := {|
  write_into self :=
    write_into origin_codec (ip_origin self) +w+ write_into digest_codec (ip_sub_hash self) +w+
    write_into digest_codec (ip_note_root self) +w+ write_into path_codec (ip_note_path self);
  read_from :=
    origin ← read_from origin_codec;
    sub_hash ← read_from digest_codec;
    note_root ← read_from digest_codec;
    note_path ← read_from path_codec;
    mret (mkInclusionProof origin sub_hash note_root note_path)
|}.
End origin.
Arguments NoteOrigin : clear implicits.
Arguments NoteOrigin {_ _ _}.
Arguments NoteInclusionProof : clear implicits.
Arguments NoteInclusionProof {_ _ _}.

(** ** Specification *)

Section spec.
Context `{F : Field} {C : Crypto} {MK : Merkle}.

(** The elements hashed for the hash of a header without its note root. *)
Definition sub_preimage (h : BlockHeader) : list Felt :=
  word_elements (prev_hash h) ++ word_elements (chain_root h) ++ word_elements (account_root h) ++
  word_elements (nullifier_root h) ++ word_elements (batch_root h) ++ word_elements (proof_hash h) ++
  [Felt_new (block_num h); version h; timestamp h; ZERO; ZERO; ZERO; ZERO; ZERO].

(** A header whose hashes are those of its fields. *)
Definition header_consistent (h : BlockHeader) : Prop :=
  0 <= block_num h < 2 ^ 32 /\ sub_hash h = hash_elements (sub_preimage h) /\
  block_hash h = merge (sub_hash h) (note_root h).

(** An entry of the tree of a block: a batch, a note of it, and its data. *)
Abbreviation note_entry := (Z * Z * (Digest * NoteMetadata))%type.
Definition position (e : Z * Z) : Z := e.1 * MAX_NOTES_PER_BATCH + e.2.
Definition entry_in_range (e : note_entry) : Prop :=
  0 <= e.1.1 < MAX_BATCHES_PER_BLOCK /\ 0 <= e.1.2 < MAX_NOTES_PER_BATCH.

Definition entry_leaves (e : note_entry) : list (Z * Word) :=
  [(2 * position e.1, e.2.1); (2 * position e.1 + 1, word_of_metadata e.2.2)].
Definition block_leaves (entries : list note_entry) : list (Z * Word) := concat (map entry_leaves entries).

(** What the leaf of a position of the tree holds. *)
Definition leaf_of (o : option (Digest * NoteMetadata)) (i : Z) : Word :=
  match o with
  | Some (id, md) => if decide (i mod 2 = 0) then id else word_of_metadata md
  | None => EMPTY_WORD
  end.

Definition entry_at (entries : list note_entry) (p : Z) : option (Digest * NoteMetadata) :=
  snd <$> find (fun e => bool_decide (position e.1 = p)) entries.

Definition origin_valid (o : NoteOrigin) : Prop := 0 <= origin_block_num o < 2 ^ 32.
Definition inclusion_proof_valid (ip : NoteInclusionProof) : Prop :=
  origin_valid (ip_origin ip) /\ Z.of_nat (length (ip_note_path ip)) < 2 ^ 8.
End spec.

(** ** Lemmas *)

Section lemmas.
Context `{F : Field} {FL : FieldLaws F} {C : Crypto} {SSL : SimpleSmtLaws C} {MK : Merkle} {ML : MerkleLaws MK}
  {B : Build}.

Lemma block_header_new_consistent ph num cr ar nr ntr br prf v t :
  0 <= num < 2 ^ 32 -> header_consistent (block_header_new ph num cr ar nr ntr br prf v t).
Proof.
  intros Hn. split; [done|]. split; [|done]. cbn [sub_hash block_header_new]. unfold compute_sub_hash.
  done.
Qed.

Lemma sub_preimage_inj h h' :
  0 <= block_num h < 2 ^ 32 -> 0 <= block_num h' < 2 ^ 32 -> sub_preimage h = sub_preimage h' ->
  prev_hash h = prev_hash h' /\ block_num h = block_num h' /\ chain_root h = chain_root h' /\
  account_root h = account_root h' /\ nullifier_root h = nullifier_root h' /\ batch_root h = batch_root h' /\
  proof_hash h = proof_hash h' /\ version h = version h' /\ timestamp h = timestamp h'.
Proof.
  intros Hn Hn'. unfold sub_preimage.
  intros (-> & (-> & (-> & (-> & (-> & (-> & Heq)%word_elements_app_inj)%word_elements_app_inj)
    %word_elements_app_inj)%word_elements_app_inj)%word_elements_app_inj)%word_elements_app_inj.
  injection Heq as Hnum -> ->. split_and!; try done.
  apply (f_equal as_int) in Hnum. by rewrite !as_int_new_small in Hnum by (unfold MODULUS; lia).
Qed.

Lemma note_index_ok {E} b n :
  0 <= b < MAX_BATCHES_PER_BLOCK -> 0 <= n < MAX_NOTES_PER_BATCH ->
  note_index (E := E) b n = Ok (position (b, n)) /\ leaf_index (E := E) b n = Ok (2 * position (b, n)) /\
  0 <= position (b, n) < 2 ^ NOTE_TREE_DEPTH.
Proof.
  change MAX_BATCHES_PER_BLOCK with 256. change (2 ^ NOTE_TREE_DEPTH) with 1048576.
  unfold leaf_index, note_index, mul_w, add_w, position. change MAX_NOTES_PER_BATCH with 4096. cbn [fst snd].
  intros Hb Hn. rewrite decide_True by lia. cbn [mbind res_bind]. rewrite decide_True by lia.
  cbn [mbind res_bind]. rewrite decide_True by lia. split_and!; (done || lia || (f_equal; lia)).
Qed.

Lemma interleave_ok {E} entries :
  Forall entry_in_range entries -> mapM (interleave_entry (E := E)) entries = Ok (map entry_leaves entries).
Proof.
  intros H. apply mapM_res_map. eapply Forall_impl; [exact H|]. intros [[b n] [id md]] [Hb Hn]. cbn in Hb, Hn.
  destruct (note_index_ok (E := E) b n Hb Hn) as (_ & Hleaf & Hp). change (2 ^ NOTE_TREE_DEPTH) with 1048576 in Hp.
  cbn [interleave_entry]. rewrite Hleaf. cbn [mbind res_bind]. unfold add_w. by rewrite decide_True by lia.
Qed.

Lemma block_leaf entries i : entry_or (block_leaves entries) i EMPTY_WORD = leaf_of (entry_at entries (i / 2)) i.
Proof.
  unfold block_leaves, entry_at. induction entries as [|[[b n] [id md]] es IH]; [done|].
  cbn [map concat entry_leaves app entry_or find fst snd].
  set (p := position (b, n)). pose proof (Z.div_mod i 2). pose proof (Z.mod_pos_bound i 2).
  destruct (decide (2 * p = i)) as [<-|]; [|destruct (decide (2 * p + 1 = i)) as [<-|]].
  - rewrite bool_decide_true by lia. cbn. by rewrite decide_True by lia.
  - rewrite bool_decide_true by lia. cbn. by rewrite decide_False by lia.
  - rewrite bool_decide_false by lia. exact IH.
Qed.

Lemma entry_at_Some entries b n x :
  NoDup (position <$> entries.*1) -> ((b, n), x) ∈ entries -> entry_at entries (position (b, n)) = Some x.
Proof.
  unfold entry_at. induction entries as [|[e y] es IH]; [set_solver|]. cbn.
  intros [Hni Hnd]%NoDup_cons [Heq|Hin]%elem_of_cons.
  - injection Heq as <- <-. by rewrite bool_decide_true.
  - rewrite bool_decide_false; [by apply IH|]. intros Heq. apply Hni. rewrite Heq.
    apply list_elem_of_fmap_2. by apply (list_elem_of_fmap_2 fst) in Hin.
Qed.

Lemma entry_at_elem entries p x : entry_at entries p = Some x -> exists e, (e, x) ∈ entries /\ position e = p.
Proof.
  unfold entry_at. intros (e & He & ->)%fmap_Some. apply find_some in He as [Hin Hp].
  apply bool_decide_eq_true in Hp. exists e.1. split; [|done]. apply list_elem_of_In. by destruct e.
Qed.

Lemma block_leaves_keys entries :
  Forall entry_in_range entries ->
  (NoDup (block_leaves entries).*1 <-> NoDup (position <$> entries.*1)) /\
  Forall (fun e => 0 <= e.1 < 2 ^ BLOCK_OUTPUT_NOTES_TREE_DEPTH) (block_leaves entries).
Proof.
  assert (Hkeys : forall es k, k ∈ (block_leaves es).*1 <-> k / 2 ∈ position <$> es.*1).
  { intros es k. unfold block_leaves. induction es as [|e es IH]; [cbn; set_solver|].
    cbn [map concat entry_leaves app]. rewrite !fmap_cons, !elem_of_cons, IH. cbn [fst].
    pose proof (Z.div_mod k 2). pose proof (Z.mod_pos_bound k 2). intuition lia. }
  induction 1 as [|[[b n] x] es [Hb Hn] _ [IHd IHr]]; [split; [done|constructor]|].
  destruct (note_index_ok (E := unit) b n Hb Hn) as (_ & _ & Hp). change (2 ^ NOTE_TREE_DEPTH) with 1048576 in Hp.
  change (2 ^ BLOCK_OUTPUT_NOTES_TREE_DEPTH) with 2097152 in *.
  change (block_leaves ((b, n, x) :: es)) with (entry_leaves (b, n, x) ++ block_leaves es).
  split.
  - cbn [entry_leaves app]. rewrite !fmap_cons, !NoDup_cons, IHd, elem_of_cons, !Hkeys. cbn [fst].
    rewrite !(Z.mul_comm 2), Z.div_mul by done. rewrite Z.div_add_l by done. change (1 / 2) with 0.
    rewrite Z.add_0_r. intuition lia.
  - cbn [entry_leaves app]. repeat constructor; cbn [fst]; (lia || done).
Qed.

(** The leaves of the tree of a block. *)
Lemma block_tree_ok entries :
  Forall entry_in_range entries -> NoDup (position <$> entries.*1) ->
  exists t, block_note_tree_with_entries entries = Ok t /\
    forall i, 0 <= i < 2 ^ BLOCK_OUTPUT_NOTES_TREE_DEPTH -> SimpleSmt_get t i = leaf_of (entry_at entries (i / 2)) i.
Proof.
  intros Hr Hnd. destruct (block_leaves_keys entries Hr) as [Hkeys Hrange].
  destruct (SimpleSmt_with_leaves_ok BLOCK_OUTPUT_NOTES_TREE_DEPTH (block_leaves entries)) as (t & Ht & Hget);
    [by apply Hkeys|done|].
  exists t. unfold block_note_tree_with_entries. rewrite interleave_ok by done. split; [exact Ht|].
  intros i Hi. by rewrite Hget, block_leaf.
Qed.

(** The path of a note leads from the hash of its two leaves to the root. *)
Lemma note_path_ok (t : SimpleSmt BLOCK_OUTPUT_NOTES_TREE_DEPTH) b n :
  0 <= b < MAX_BATCHES_PER_BLOCK -> 0 <= n < MAX_NOTES_PER_BATCH ->
  let p := position (b, n) in
  exists path, get_note_path t b n = Ok path /\ length path = Z.to_nat NOTE_TREE_DEPTH /\
    path_verify path p (merge (SimpleSmt_get t (2 * p)) (SimpleSmt_get t (2 * p + 1))) (SimpleSmt_root t) = true.
Proof.
  intros Hb Hn p. destruct (note_index_ok (E := MerkleError) b n Hb Hn) as (_ & Hleaf & Hp). fold p in Hleaf, Hp.
  change (2 ^ NOTE_TREE_DEPTH) with 1048576 in Hp.
  assert (Hp2 : 0 <= 2 * p < 2 ^ BLOCK_OUTPUT_NOTES_TREE_DEPTH)
    by (change (2 ^ BLOCK_OUTPUT_NOTES_TREE_DEPTH) with 2097152; lia).
  destruct (LeafIndex_new_ok BLOCK_OUTPUT_NOTES_TREE_DEPTH (2 * p)) as (l & Hl); [by vm_compute|done|].
  destruct (SimpleSmt_open_verifies _ (2 * p) t l) as [Hver (path & Hopen)]; [by vm_compute|done|done|].
  unfold get_note_path. rewrite Hleaf. cbn [mbind res_bind]. rewrite Hl. cbn [mbind res_bind]. rewrite Hopen in *.
  pose proof (SimpleSmt_open_length _ t l) as Hlen. rewrite Hopen in Hlen.
  exists path. split; [done|]. split; [by injection Hlen|]. rewrite path_verify_cons in Hver. unfold sibling in Hver.
  assert (Hmod : (2 * p) mod 2 = 0) by (rewrite Z.mul_comm; by apply Z.mod_mul).
  rewrite !decide_True in Hver by done. rewrite (Z.mul_comm 2 p), Z.div_mul in Hver by done.
  by rewrite (Z.mul_comm 2 p).
Qed.

(** The two leaves of an entry. *)
Lemma entry_leaf_values entries (t : SimpleSmt BLOCK_OUTPUT_NOTES_TREE_DEPTH) b n id md :
  NoDup (position <$> entries.*1) -> ((b, n), (id, md)) ∈ entries ->
  0 <= b < MAX_BATCHES_PER_BLOCK -> 0 <= n < MAX_NOTES_PER_BATCH ->
  (forall i, 0 <= i < 2 ^ BLOCK_OUTPUT_NOTES_TREE_DEPTH -> SimpleSmt_get t i = leaf_of (entry_at entries (i / 2)) i) ->
  SimpleSmt_get t (2 * position (b, n)) = id /\ SimpleSmt_get t (2 * position (b, n) + 1) = word_of_metadata md.
Proof.
  intros Hnd Hin Hb Hn Hget. destruct (note_index_ok (E := unit) b n Hb Hn) as (_ & _ & Hp).
  change (2 ^ NOTE_TREE_DEPTH) with 1048576 in Hp. change (2 ^ BLOCK_OUTPUT_NOTES_TREE_DEPTH) with 2097152 in Hget.
  rewrite !Hget by lia. rewrite (Z.mul_comm 2), Z.div_mul, Z.div_add_l by done. change (1 / 2) with 0.
  rewrite Z.add_0_r, (entry_at_Some _ _ _ _ Hnd Hin). cbn [leaf_of]. rewrite Z.mod_mul, decide_True by done.
  by rewrite decide_False by (by rewrite Z.add_comm, Z.mod_add).
Qed.

(** The notes of a batch as entries of the first batch of a block. *)
Definition batch_entries (k : nat) (notes : list (NoteId * NoteMetadata)) : list (Z * Z * (Digest * NoteMetadata)) :=
  imap (fun n (x : NoteId * NoteMetadata) => ((0, Z.of_nat (k + n)), (note_id_digest x.1, x.2))) notes.

Lemma batch_leaves notes k :
  imap (fun j w => (Z.of_nat (2 * k + j), w)) (concat (map (fun e : NoteId * NoteMetadata =>
    [note_id_digest e.1; word_of_metadata e.2]) notes)) = block_leaves (batch_entries k notes).
Proof.
  revert k. induction notes as [|[id md] notes IH]; intros k; [done|]. unfold batch_entries.
  cbn [map concat app imap]. unfold block_leaves in *. cbn [map concat entry_leaves app fst snd].
  unfold position. cbn [fst snd compose]. f_equal; [f_equal; lia|]. f_equal; [f_equal; lia|].
  specialize (IH (S k)). unfold batch_entries in IH.
  rewrite (imap_ext _ (fun n x => ((0, Z.of_nat (S k + n)), (note_id_digest x.1, x.2))) notes)
    by (intros n x _; cbn; do 3 f_equal; lia).
  rewrite <- IH. apply imap_ext. intros n x _. cbn. f_equal. lia.
Qed.

Lemma length_batch_words notes :
  length (concat (map (fun e : NoteId * NoteMetadata => [note_id_digest e.1; word_of_metadata e.2]) notes)) =
  (2 * length notes)%nat.
Proof. induction notes as [|x notes IH]; cbn; [done|]. rewrite IH. lia. Qed.

Lemma batch_entries_range notes :
  Z.of_nat (length notes) <= MAX_NOTES_PER_BATCH ->
  Forall entry_in_range (batch_entries 0 notes) /\
  Forall (fun e => 0 <= e.1 < 2 ^ BATCH_OUTPUT_NOTES_TREE_DEPTH) (block_leaves (batch_entries 0 notes)).
Proof.
  intros Hlen. change MAX_NOTES_PER_BATCH with 4096 in Hlen. rewrite <- batch_leaves. split.
  - unfold batch_entries. apply Forall_lookup. intros n e. rewrite list_lookup_imap.
    intros (x & Hx & ->)%fmap_Some. apply lookup_lt_Some in Hx. split; cbn; [by vm_compute|].
    change MAX_NOTES_PER_BATCH with 4096. lia.
  - apply Forall_lookup. intros j e. rewrite list_lookup_imap. intros (w & Hw & ->)%fmap_Some.
    apply lookup_lt_Some in Hw. change (2 ^ BATCH_OUTPUT_NOTES_TREE_DEPTH) with 8192.
    rewrite length_batch_words in Hw. cbn. lia.
Qed.

Lemma batch_entries_spec notes :
  NoDup (position <$> (batch_entries 0 notes).*1) /\
  forall e, e ∈ batch_entries 0 notes <->
    exists n x, notes !! n = Some x /\ e = ((0, Z.of_nat n), (note_id_digest x.1, x.2)).
Proof.
  unfold batch_entries. split.
  - apply NoDup_alt. intros i j p. rewrite !list_lookup_fmap, !list_lookup_imap.
    destruct (notes !! i), (notes !! j); cbn; try done. unfold position. cbn. intros [= <-] [= Heq]. lia.
  - intros e. rewrite elem_of_lookup_imap. split; intros (n & x & H1 & H2); eauto.
Qed.

(** The entries of a batch are those of the block from the position of the batch on. *)
Lemma batch_entry_at entries b notes p :
  Forall entry_in_range entries -> NoDup (position <$> entries.*1) ->
  (forall n id md, ((b, n), (id, md)) ∈ entries <-> 0 <= n /\ notes !! Z.to_nat n = Some (mkNoteId id, md)) ->
  0 <= p < MAX_NOTES_PER_BATCH ->
  entry_at (batch_entries 0 notes) p = entry_at entries (p + b * MAX_NOTES_PER_BATCH).
Proof.
  intros Hrange Hnd Hnotes Hp. destruct (batch_entries_spec notes) as [Hown Hin].
  apply option_eq. intros [id md]. split.
  - intros ([b' n] & He & Hpos)%entry_at_elem. apply Hin in He as (k & [[id'] md'] & Hk & Heq).
    injection Heq as -> -> -> ->. unfold position in Hpos. cbn [fst snd] in Hpos.
    replace (p + b * MAX_NOTES_PER_BATCH) with (position (b, p)) by (unfold position; cbn [fst snd]; lia).
    apply entry_at_Some; [done|]. apply Hnotes. split; [lia|]. by replace (Z.to_nat p) with k by lia.
  - intros ([b' n] & He & Hpos)%entry_at_elem. rewrite Forall_forall in Hrange.
    destruct (Hrange _ He) as [_ Hn]. cbn [fst snd] in Hn. unfold position in Hpos. cbn [fst snd] in Hpos.
    assert (b' = b /\ n = p) as [-> ->] by (change MAX_NOTES_PER_BATCH with 4096 in *; lia).
    apply Hnotes in He as [_ He]. replace p with (position (0, p)) by (unfold position; cbn [fst snd]; lia).
    apply entry_at_Some; [done|]. apply Hin. exists (Z.to_nat p), (mkNoteId id, md). split; [done|].
    by rewrite Z2Nat.id by lia.
Qed.

Lemma origin_round_trip {IO : ByteIO} {IOL : ByteIOLaws IO} : round_trips origin_codec origin_valid.
Proof. apply reads_back_round_trips. intros [num idx] Hv. cbn. fields; done. Qed.
End lemmas.
#[export] Hint Resolve origin_round_trip : codec.

Section serialization.
Context `{F : Field} {FL : FieldLaws F} {C : Crypto} {SSL : SimpleSmtLaws C} {MK : Merkle} {ML : MerkleLaws MK}
  {IO : ByteIO} {IOL : ByteIOLaws IO} {D : Display}.

Lemma block_header_round_trip : round_trips block_header_codec (fun h => 0 <= block_num h < 2 ^ 32).
Proof.
  apply reads_back_round_trips. intros [ph num cr ar nr ntr br prf v t sub hash] Hn. cbn in *. by fields.
Qed.

Lemma inclusion_proof_round_trip : round_trips inclusion_proof_codec inclusion_proof_valid.
Proof.
  apply reads_back_round_trips. intros ip [Ho Hp]. cbn [write_into read_from inclusion_proof_codec]. fields; try done. by destruct ip.
Qed.

(** The leaves of a tree of a block are read back. *)
Lemma block_note_tree_round_trip :
  round_trips_upto block_note_tree_codec (fun _ => True)
    (fun t t' => forall i, 0 <= i < 2 ^ BLOCK_OUTPUT_NOTES_TREE_DEPTH -> SimpleSmt_get t' i = SimpleSmt_get t i).
Proof.
  intros t _. set (ls := SimpleSmt_leaves t). set (n := length ls).
  assert (Hrange : Forall (fun e : Z * Word => 0 <= e.1 < 2 ^ BLOCK_OUTPUT_NOTES_TREE_DEPTH) ls).
  { apply Forall_forall. intros [i v] Hin. by apply SimpleSmt_leaves_range in Hin as [Hi _]. }
  assert (Hlen : (n <= Z.to_nat 2097152)%nat).
  { unfold n. rewrite <- (length_fmap fst). apply NoDup_range_length; [apply SimpleSmt_leaves_nodup|].
    apply Forall_fmap. rewrite Z2Nat.id by done. exact Hrange. }
  assert (Hn : 0 <= Z.of_nat n < 2 ^ 32) by (split; [lia|]; change (2 ^ 32) with 4294967296; lia).
  destruct (round_trip_elim _ _ (Z.of_nat n) u32_round_trip Hn) as (b1 & Hw1 & Hr1).
  destruct (many_round_trip (pair_codec u64_codec word_codec) (fun p => 0 <= p.1 < 2 ^ 64 /\ True) ls)
    as (b2 & Hw2 & Hr2).
  { apply (pair_round_trip u64_codec word_codec (fun v => 0 <= v < 2 ^ 64) (fun _ => True));
      [apply u64_round_trip|apply word_round_trip]. }
  { eapply Forall_impl; [exact Hrange|]. intros e He. split; [|done]. cbv beta in He.
    change (2 ^ BLOCK_OUTPUT_NOTES_TREE_DEPTH) with 2097152 in He. lia. }
  exists (b1 ++ b2). split.
  { cbn [write_into block_note_tree_codec]. rewrite SimpleSmt_num_leaves_spec. fold ls n.
    rewrite Z.mod_small by done. by apply wappend_ok. }
  intros rest. rewrite <- app_assoc. cbn [read_from block_note_tree_codec].
  erewrite mut_bind_ok by apply Hr1. rewrite Nat2Z.id. erewrite mut_bind_ok by apply Hr2.
  destruct (SimpleSmt_with_leaves_ok BLOCK_OUTPUT_NOTES_TREE_DEPTH ls) as (t' & Ht' & Hget);
    [apply SimpleSmt_leaves_nodup|done|].
  exists t'. rewrite Ht'. split; [done|]. intros i Hi. rewrite Hget by done.
  destruct (decide (SimpleSmt_get t i = EMPTY_WORD)) as [He|Hne].
  - rewrite He. destruct (entry_or_cases ls i EMPTY_WORD) as [[_ ->]|Hin]; [done|].
    apply SimpleSmt_leaves_range in Hin as [_ Hin]. by rewrite <- Hin, He.
  - apply entry_or_in; [apply SimpleSmt_leaves_nodup|]. by apply SimpleSmt_leaves_full.
Qed.
End serialization.

(** ** Properties *)

Section properties.
Context `{F : Field} {FL : FieldLaws F} {C : Crypto} {SSL : SimpleSmtLaws C} {MK : Merkle} {ML : MerkleLaws MK}
  {B : Build} {AS : Assembly} {D : Display}.

(** The hash of a block commits to its header: two headers made by [new] with one
    hash are the same header, or exhibit a collision of the hash function. *)
Theorem block_header_binds (h h' : BlockHeader) (Hh : header_consistent h) (Hh' : header_consistent h')
    (Heq : block_hash h = block_hash h') :
  h = h' \/ merge_collision (sub_hash h, note_root h) (sub_hash h', note_root h') \/
  hash_collision (sub_preimage h) (sub_preimage h').
Proof.
  destruct Hh as (Hn & Hs & Hb), Hh' as (Hn' & Hs' & Hb'). rewrite Hb, Hb' in Heq.
  apply (merge_equal (_, _) (_, _)) in Heq as [Heq|Hc]; [|by right; left]. injection Heq as Hsub Hroot.
  pose proof Hsub as Hpre. rewrite Hs, Hs' in Hpre. apply hash_equal in Hpre as [Hpre|Hc]; [|by right; right].
  left. destruct (sub_preimage_inj h h' Hn Hn' Hpre) as (? & ? & ? & ? & ? & ? & ? & ? & ?).
  destruct h, h'; cbn in *. congruence.
Qed.

(** The note tree of a block is made from entries at distinct positions of its
    batches, and from no others; for every entry the tree gives a path that leads
    from the hash of the identifier and metadata of the note, at the index of the
    entry, to the root, and that index is one an inclusion proof can have. *)
Theorem block_note_tree_paths (entries : list (Z * Z * (Digest * NoteMetadata)))
    (Hrange : Forall entry_in_range entries) :
  (NoDup (position <$> entries.*1) -> exists t, block_note_tree_with_entries entries = Ok t /\
     forall b n id md, ((b, n), (id, md)) ∈ entries -> exists i path,
       note_index (E := unit) b n = Ok i /\ get_note_path t b n = Ok path /\
       path_verify path i (merge id (word_of_metadata md)) (SimpleSmt_root t) = true /\
       forall num sub root, exists ip, inclusion_proof_new num sub root i path = Ok ip /\
         NodeIndex_value (origin_node_index (ip_origin ip)) = i /\ ip_note_path ip = path) /\
  (~ NoDup (position <$> entries.*1) -> exists e, block_note_tree_with_entries entries = Err e).
Proof.
  split.
  - intros Hnd. destruct (block_tree_ok entries Hrange Hnd) as (t & Ht & Hget). exists t. split; [done|].
    intros b n id md Hin. rewrite Forall_forall in Hrange. destruct (Hrange _ Hin) as [Hb Hn]. cbn in Hb, Hn.
    destruct (note_path_ok t b n Hb Hn) as (path & Hpath & _ & Hver).
    destruct (note_index_ok (E := unit) b n Hb Hn) as (Hidx & _ & Hp).
    exists (position (b, n)), path. split; [done|]. split; [done|]. pose proof Hp as Hp'.
    change (2 ^ NOTE_TREE_DEPTH) with 1048576 in Hp'.
    destruct (entry_leaf_values entries t b n id md Hnd Hin Hb Hn Hget) as [Hl Hr]. rewrite Hl, Hr in Hver.
    split; [exact Hver|]. intros num sub root.
    destruct (NodeIndex_new_ok NOTE_TREE_DEPTH (position (b, n))) as (ix & Hix & Hval); [by vm_compute|done|].
    unfold inclusion_proof_new. rewrite Hix. eexists. split; [reflexivity|]. done.
  - intros Hdup. unfold block_note_tree_with_entries. rewrite interleave_ok by done.
    apply SimpleSmt_with_leaves_err. intros [Hnd _]. by apply Hdup, block_leaves_keys.
Qed.

(** The tree of a block holds the trees of its batches: the leaves of the tree of
    the notes of a batch are the leaves of the tree of the block from the
    position of the batch on; and a batch has a tree exactly when it has at most
    as many notes as fit in it. *)
Theorem batch_tree_in_block (entries : list (Z * Z * (Digest * NoteMetadata))) (b : Z)
    (notes : list (NoteId * NoteMetadata))
    (Hrange : Forall entry_in_range entries) (Hnd : NoDup (position <$> entries.*1))
    (Hb : 0 <= b < MAX_BATCHES_PER_BLOCK)
    (Hnotes : forall n id md, ((b, n), (id, md)) ∈ entries <->
       0 <= n /\ notes !! Z.to_nat n = Some (mkNoteId id, md)) :
  (Z.of_nat (length notes) <= MAX_NOTES_PER_BATCH -> exists block batch,
     block_note_tree_with_entries entries = Ok block /\ batch_note_tree_with_contiguous_leaves notes = Ok batch /\
     forall i, 0 <= i < 2 ^ BATCH_OUTPUT_NOTES_TREE_DEPTH ->
       SimpleSmt_get batch i = SimpleSmt_get block (b * 2 ^ BATCH_OUTPUT_NOTES_TREE_DEPTH + i)) /\
  (MAX_NOTES_PER_BATCH < Z.of_nat (length notes) -> exists e, batch_note_tree_with_contiguous_leaves notes = Err e).
Proof.
  destruct (batch_entries_spec notes) as [Hown Hin].
  assert (Hleaves : batch_note_tree_with_contiguous_leaves notes =
    SimpleSmt_with_leaves BATCH_OUTPUT_NOTES_TREE_DEPTH (block_leaves (batch_entries 0 notes))).
  { unfold batch_note_tree_with_contiguous_leaves. rewrite SimpleSmt_contiguous by (by vm_compute).
    by rewrite <- batch_leaves. }
  rewrite Hleaves. change (2 ^ BATCH_OUTPUT_NOTES_TREE_DEPTH) with 8192 in *.
  change MAX_NOTES_PER_BATCH with 4096 in *. split; intros Hlen.
  - destruct (batch_entries_range notes) as [Hr Hlr]; [by change MAX_NOTES_PER_BATCH with 4096|].
    destruct (block_tree_ok entries Hrange Hnd) as (block & Hblock & Hget).
    destruct (SimpleSmt_with_leaves_ok BATCH_OUTPUT_NOTES_TREE_DEPTH (block_leaves (batch_entries 0 notes)))
      as (batch & Hbatch & Hgetb); [by apply block_leaves_keys|done|].
    exists block, batch. split; [done|]. split; [done|]. intros i Hi.
    change (2 ^ BLOCK_OUTPUT_NOTES_TREE_DEPTH) with 2097152 in Hget. change MAX_BATCHES_PER_BLOCK with 256 in Hb.
    rewrite Hgetb, Hget by (change (2 ^ BATCH_OUTPUT_NOTES_TREE_DEPTH) with 8192; lia).
    rewrite block_leaf. replace (b * 8192 + i) with (i + (b * 4096) * 2) by lia.
    unfold leaf_of. rewrite Z.mod_add, Z.div_add by done.
    pose proof (batch_entry_at entries b notes (i / 2) Hrange Hnd Hnotes) as Hat.
    change MAX_NOTES_PER_BATCH with 4096 in Hat. pose proof (Z.div_mod i 2). pose proof (Z.mod_pos_bound i 2).
    by rewrite Hat by lia.
  - apply SimpleSmt_with_leaves_err. rewrite <- batch_leaves. intros [_ Hall].
    destruct (lookup_lt_is_Some_2 (concat (map (fun e : NoteId * NoteMetadata =>
      [note_id_digest e.1; word_of_metadata e.2]) notes)) (Z.to_nat 8192)) as [w Hw];
      [rewrite length_batch_words; lia|].
    eapply (Forall_lookup_1 _ _ (Z.to_nat 8192)) in Hall; [|by rewrite list_lookup_imap, Hw].
    change (2 ^ BATCH_OUTPUT_NOTES_TREE_DEPTH) with 8192 in Hall. cbn [fst] in Hall.
    rewrite Nat2Z.inj_add, Z2Nat.id in Hall by done. lia.
Qed.
End properties.

Section serialization_property.
Context `{F : Field} {FL : FieldLaws F} {C : Crypto} {SSL : SimpleSmtLaws C} {MK : Merkle} {ML : MerkleLaws MK}
  {IO : ByteIO} {IOL : ByteIOLaws IO} {D : Display}.

(** Headers with any hashes, inclusion proofs and the note trees of blocks are
    written and read back; a tree is read back with the same leaves and so the
    same root. The hashes of a header are not recomputed. *)
Theorem block_serialization :
  round_trips block_header_codec (fun h => 0 <= block_num h < 2 ^ 32) /\
  round_trips inclusion_proof_codec inclusion_proof_valid /\
  round_trips_upto block_note_tree_codec (fun _ => True) (fun t t' =>
    (forall i, 0 <= i < 2 ^ BLOCK_OUTPUT_NOTES_TREE_DEPTH -> SimpleSmt_get t' i = SimpleSmt_get t i) /\
    SimpleSmt_root t' = SimpleSmt_root t).
Proof.
  split; [exact block_header_round_trip|]. split; [exact inclusion_proof_round_trip|].
  intros t Ht. destruct (block_note_tree_round_trip t Ht) as (bs & Hw & Hr). exists bs. split; [done|].
  intros rest. destruct (Hr rest) as (t' & Hread & Hget). exists t'. split; [done|]. split; [done|].
  by apply SimpleSmt_root_ext.
Qed.
End serialization_property.

(** ** Witnesses *)

Import RefInstances.

Definition sample_header (num : Z) : BlockHeader :=
  block_header_new EMPTY_WORD num EMPTY_WORD EMPTY_WORD EMPTY_WORD EMPTY_WORD EMPTY_WORD EMPTY_WORD ONE ZERO.

Lemma sample_header_consistent num : 0 <= num < 2 ^ 32 -> header_consistent (sample_header num).
Proof. apply block_header_new_consistent. Qed.

Lemma block_header_binds_witness :
  sample_header 7 = sample_header 7 \/
  merge_collision (sub_hash (sample_header 7), EMPTY_WORD) (sub_hash (sample_header 7), EMPTY_WORD) \/
  hash_collision (sub_preimage (sample_header 7)) (sub_preimage (sample_header 7)).
Proof.
  apply (block_header_binds (sample_header 7) (sample_header 7)); [apply sample_header_consistent; lia..|reflexivity].
Defined.

(** A note of the fourth batch of a block. *)
Definition sample_entries : list (Z * Z * (Digest * NoteMetadata)) := [((3, 1), (EMPTY_WORD, sample_metadata))].

Lemma sample_entries_ok : Forall entry_in_range sample_entries /\ NoDup (position <$> sample_entries.*1).
Proof.
  split; [|apply NoDup_singleton]. constructor; [|constructor].
  split; cbn; (split; [lia|by vm_compute]).
Qed.

Lemma block_note_tree_paths_witness :
  exists t path, block_note_tree_with_entries sample_entries = Ok t /\ get_note_path t 3 1 = Ok path.
Proof.
  destruct (proj1 (block_note_tree_paths sample_entries (proj1 sample_entries_ok)) (proj2 sample_entries_ok))
    as (t & Ht & Hpaths).
  destruct (Hpaths 3 1 EMPTY_WORD sample_metadata) as (i & path & _ & Hpath & _); [by left|].
  exists t, path. split; [exact Ht|exact Hpath].
Defined.

Definition sample_batch : list (NoteId * NoteMetadata) := [(mkNoteId EMPTY_WORD, sample_metadata)].
Definition batch_entries_3 : list (Z * Z * (Digest * NoteMetadata)) := [((3, 0), (EMPTY_WORD, sample_metadata))].

Lemma batch_tree_in_block_witness :
  exists block batch, block_note_tree_with_entries batch_entries_3 = Ok block /\
    batch_note_tree_with_contiguous_leaves sample_batch = Ok batch /\
    SimpleSmt_get batch 1 = SimpleSmt_get block 24577.
Proof.
  destruct (batch_tree_in_block batch_entries_3 3 sample_batch) as [Hok _].
  - constructor; [|constructor]. split; cbn; (split; [lia|by vm_compute]).
  - apply NoDup_singleton.
  - split; [lia|by vm_compute].
  - intros n id md. split.
    + intros Heq%list_elem_of_singleton. injection Heq as -> -> ->. split; [lia|reflexivity].
    + intros [Hn Hl]. destruct (Z.to_nat n) as [|k] eqn:Hk; [|by destruct k].
      injection Hl as <- <-. replace n with 0 by lia. by left.
  - destruct Hok as (block & batch & Hblock & Hbatch & Hget); [by vm_compute|].
    exists block, batch. split; [exact Hblock|]. split; [exact Hbatch|]. apply (Hget 1). by vm_compute.
Defined.

Lemma block_serialization_witness :
  exists bs, write_into block_header_codec (sample_header 7) = Ok bs /\
    read_from block_header_codec bs = ([], Ok (sample_header 7)).
Proof.
  destruct (proj1 block_serialization (sample_header 7)) as (bs & Hw & Hr); [cbn; lia|].
  exists bs. split; [exact Hw|]. destruct (Hr []) as (h & Hread & <-). rewrite app_nil_r in Hread. exact Hread.
Defined.
