(* ===== verification/Vault.v ===== *)
(** assets/vault.rs: the asset vault of an account, a sparse Merkle tree of asset
    words, with its specification as a map from vault keys to assets. *)
From S2P Require Import Prelude Interfaces Types Reference AccountIds Assets.
Local Open Scope Z_scope.

Section vault.
Context `{F : Field} {C : Crypto} {AS : Assembly} {FE : Features} {D : Display} {B : Build}.

Record AssetVault := mkAssetVault { asset_tree : Smt }.

Definition vault_default : AssetVault := mkAssetVault Smt_new.

(** [AssetVault::new]: the entries are made in order and handed to the tree. *)
Definition vault_new (assets : list Asset) : res AssetVaultError AssetVault :=
  entries ← mapM (fun asset => w ← word_of_asset asset; Ok (vault_key asset, w)) assets;
  asset_tree ← map_err DuplicateAsset (Smt_with_entries entries);
  Ok (mkAssetVault asset_tree).

Definition commitment (self : AssetVault) : Digest := Smt_root (asset_tree self).

Definition has_non_fungible_asset (self : AssetVault) (asset : Asset) : res AssetVaultError bool :=
  if is_fungible asset then Err (NotANonFungibleAsset asset)
  else if decide (Smt_get_value (asset_tree self) (vault_key asset) = EMPTY_WORD)
  then Ok false else Ok true.

Definition get_balance (self : AssetVault) (faucet_id : AccountId) : res AssetVaultError Z :=
  t ← account_type faucet_id;
  if decide (t <> FungibleFaucet) then Err (VaultNotAFungibleFaucetId faucet_id)
  else
    let asset := Smt_get_value (asset_tree self) (mkWord ZERO ZERO ZERO (felt_of_id faucet_id)) in
    if decide (asset = EMPTY_WORD) then Ok 0 else Ok (fa_amount (fungible_new_unchecked asset)).

Definition assets (self : AssetVault) : list Asset :=
  (fun x => asset_new_unchecked (snd x)) <$> Smt_entries (asset_tree self).

(** [self.asset_tree.insert(key, value)], with the replaced value. *)
Definition tree_insert {E} (key value : Word) : mut AssetVault E Word :=
  fun self => let '(t, old) := Smt_insert (asset_tree self) key value in (mkAssetVault t, Ok old).

Definition add_fungible_asset (asset : FungibleAsset) : mut AssetVault AssetVaultError FungibleAsset :=
  self ← read_self;
  let current := Smt_get_value (asset_tree self) (fungible_vault_key asset) in
  new ← lift (if decide (current = EMPTY_WORD) then Ok asset
              else map_err AddFungibleAssetBalanceError
                     (fungible_add (fungible_new_unchecked current) asset));
  w ← lift (word_of_fungible new);
  _ ← tree_insert (fungible_vault_key new) w;
  mret new.

Definition add_non_fungible_asset (asset : NonFungibleAsset)
    : mut AssetVault AssetVaultError NonFungibleAsset :=
  old ← tree_insert (non_fungible_vault_key asset) (nfa_word asset);
  if decide (old <> EMPTY_WORD) then lift (Err (DuplicateNonFungibleAsset asset)) else mret asset.

Definition add_asset (asset : Asset) : mut AssetVault AssetVaultError Asset :=
  match asset with
  | Fungible asset => a ← add_fungible_asset asset; mret (Fungible a)
  | NonFungible asset => a ← add_non_fungible_asset asset; mret (NonFungible a)
  end.

Definition remove_fungible_asset (asset : FungibleAsset)
    : mut AssetVault AssetVaultError FungibleAsset :=
  self ← read_self;
  let current := Smt_get_value (asset_tree self) (fungible_vault_key asset) in
  current ← lift (if decide (current = EMPTY_WORD) then Err (FungibleAssetNotFound asset)
                  else Ok (fungible_new_unchecked current));
  (* [current] is a local of the method: [sub] mutates it, not the vault *)
  let '(current, r) := fungible_sub (fa_amount asset) current in
  _ ← lift (map_err SubtractFungibleAssetBalanceError r);
  new ← lift (if decide (fa_amount current = 0) then Ok EMPTY_WORD else word_of_fungible current);
  _ ← tree_insert (fungible_vault_key asset) new;
  mret asset.

Definition remove_non_fungible_asset (asset : NonFungibleAsset)
    : mut AssetVault AssetVaultError NonFungibleAsset :=
  old ← tree_insert (non_fungible_vault_key asset) EMPTY_WORD;
  if decide (old = EMPTY_WORD) then lift (Err (NonFungibleAssetNotFound asset)) else mret asset.

Definition remove_asset (asset : Asset) : mut AssetVault AssetVaultError Asset :=
  match asset with
  | Fungible asset => a ← remove_fungible_asset asset; mret (Fungible a)
  | NonFungible asset => a ← remove_non_fungible_asset asset; mret (NonFungible a)
  end.

Context {IO : ByteIO}.

Definition vault_codec : Codec AssetVault := {|
  write_into self :=
    let assets := assets self in
    assert_ (bool_decide (Z.of_nat (length assets) <= 2 ^ 32 - 1)) ≫= fun _ =>
    write_into u32_codec (Z.of_nat (length assets)) +w+ write_many asset_codec assets;
  read_from :=
    num_assets ← read_from u32_codec;
    assets ← read_many asset_codec (Z.to_nat num_assets);
    lift (map_err (fun err => InvalidValue (to_string err)) (vault_new assets))
|}.
End vault.
Arguments AssetVault {_ _}.

(** ** Specification *)

(** What a vault holds: a map from keys to assets. *)
Section spec.
Context `{F : Field}.

Definition holdings : Type := Word -> option Asset.

Definition update (m : holdings) (k : Word) (o : option Asset) : holdings :=
  fun k' => if decide (k = k') then o else m k'.

(** Adding joins amounts of one faucet up to the maximum, and refuses a second copy
    of a non-fungible asset; the asset is the new holding. *)
Definition spec_add (m : holdings) (a : Asset) : option (holdings * Asset) :=
  match a, m (vault_key a) with
  | _, None => Some (update m (vault_key a) (Some a), a)
  | Fungible x, Some (Fungible y) =>
      if decide (fa_amount y + fa_amount x <= MAX_AMOUNT) then
        let new := Fungible (mkFungibleAsset (fa_faucet_id x) (fa_amount y + fa_amount x)) in
        Some (update m (vault_key a) (Some new), new)
      else None
  | _, Some _ => None
  end.

(** Removing needs the asset, in a sufficient amount; an emptied balance leaves no entry. *)
Definition spec_remove (m : holdings) (a : Asset) : option (holdings * Asset) :=
  match a, m (vault_key a) with
  | Fungible x, Some (Fungible y) =>
      if decide (fa_amount x <= fa_amount y) then
        let rest := mkFungibleAsset (fa_faucet_id x) (fa_amount y - fa_amount x) in
        Some (update m (vault_key a)
          (if decide (fa_amount rest = 0) then None else Some (Fungible rest)), a)
      else None
  | NonFungible x, Some _ => Some (update m (vault_key a) None, a)
  | _, _ => None
  end.

Context {C : Crypto}.

(** The holdings a vault represents. *)
Definition view (v : AssetVault) : holdings := fun k =>
  let w := Smt_get_value (asset_tree v) k in
  if decide (w = EMPTY_WORD) then None else Some (asset_new_unchecked w).

(** Every node of the tree is empty or holds a valid asset under its own key. *)
Definition vault_wf (v : AssetVault) : Prop :=
  forall k, Smt_get_value (asset_tree v) k = EMPTY_WORD \/
    exists a, asset_valid a /\ k = vault_key a /\ Smt_get_value (asset_tree v) k = asset_word a.

(** Vaults with the same nodes. *)
#[export] Instance vault_equiv : Equiv AssetVault := fun v v' =>
  forall k, Smt_get_value (asset_tree v) k = Smt_get_value (asset_tree v') k.

#[export] Instance vault_equiv_equivalence : Equivalence (≡@{AssetVault}).
Proof.
  split.
  - by intros v k.
  - intros v v' Heq k. by rewrite (Heq k).
  - intros v1 v2 v3 H12 H23 k. by rewrite (H12 k).
Qed.
End spec.

(** ** Lemmas *)

(** In the specification, removing undoes adding unless the balance was zero. *)
Lemma spec_add_remove `{F : Field} (m m1 m1' : holdings) (a r : Asset) :
  spec_add m a = Some (m1, r) -> (forall k, m1' k = m1 k) ->
  (forall x, a = Fungible x -> forall b, m (fungible_vault_key x) = Some b -> exists y,
     b = Fungible y /\ fa_faucet_id y = fa_faucet_id x /\ 0 < fa_amount y) ->
  exists m2, spec_remove m1' a = Some (m2, a) /\ forall k, m2 k = m k.
Proof.
  intros Hadd Hext Hold.
  assert (Hback : forall o, m1 = update m (vault_key a) o ->
    forall k, update m1' (vault_key a) (m (vault_key a)) k = m k).
  { intros o -> k. unfold update at 1. case_decide; [by subst|]. rewrite Hext. unfold update.
    by rewrite decide_False. }
  pose proof (Hext (vault_key a)) as Hk. unfold spec_add in Hadd.
  destruct a as [x|x]; cbn [vault_key spec_remove] in *.
  - destruct (m (fungible_vault_key x)) as [b|] eqn:Hm.
    + destruct (Hold x eq_refl b Hm) as ([yid yam] & -> & Hid & Hpos). cbn in Hid, Hpos. subst yid.
      cbn [fa_amount fa_faucet_id] in *. case_decide; [|done]. simplify_eq.
      unfold update in Hk. rewrite decide_True in Hk by done. rewrite Hk. cbn [fa_amount].
      rewrite decide_True by lia. rewrite decide_False by lia. eexists. split; [done|].
      rewrite Z.add_simpl_r. eauto.
    + simplify_eq. unfold update in Hk. rewrite decide_True in Hk by done. rewrite Hk. cbn [fa_amount].
      rewrite decide_True by lia. rewrite Z.sub_diag, decide_True by done. eexists. split; [done|]. eauto.
  - destruct (m (non_fungible_vault_key x)) as [b|] eqn:Hm; [done|]. simplify_eq.
    unfold update in Hk. rewrite decide_True in Hk by done. rewrite Hk.
    eexists. split; [done|]. eauto.
Qed.

Section lemmas.
Context `{F : Field} {FL : FieldLaws F} {C : Crypto} {SL : SmtLaws C} {AS : Assembly} {FE : Features}
  {D : Display} {B : Build}.
Implicit Types (v : AssetVault) (a : Asset) (k w : Word).

Definition node_word (o : option Asset) : Word :=
  match o with Some a => asset_word a | None => EMPTY_WORD end.

(** A node of a well-formed vault, through the view. *)
Lemma view_node v k :
  vault_wf v ->
  Smt_get_value (asset_tree v) k = node_word (view v k) /\
  forall a, view v k = Some a -> asset_valid a /\ k = vault_key a.
Proof.
  intros Hwf. unfold view. destruct (Hwf k) as [He|(a & Ha & Hk & Hw)].
  - rewrite He. by rewrite decide_True.
  - rewrite Hw, decide_False by (by apply asset_word_nonempty). cbn.
    rewrite asset_new_unchecked_word by done. split; [done|]. by intros ? [= <-].
Qed.

(** The holding under the key of a fungible asset is a balance of its faucet. *)
Lemma view_fungible v (x : FungibleAsset) b :
  vault_wf v -> fungible_valid x -> view v (fungible_vault_key x) = Some b ->
  exists y, b = Fungible y /\ fungible_valid y /\ fa_faucet_id y = fa_faucet_id x /\
    fungible_new_unchecked (Smt_get_value (asset_tree v) (fungible_vault_key x)) = y.
Proof.
  intros Hwf Hx Hb. destruct (view_node v (fungible_vault_key x) Hwf) as [Hw Hv].
  destruct (Hv b Hb) as [Hbv Hk].
  apply (vault_key_is_same (Fungible x) b) in Hk; [|done..]. destruct b as [y|y]; [|done].
  exists y. apply bool_decide_eq_true in Hk. split_and!; [done|done|done|].
  rewrite Hw, Hb. cbn [node_word].
  pose proof (asset_new_unchecked_word (Fungible y) Hbv) as Hn. unfold asset_new_unchecked in Hn.
  by destruct (is_not_a_non_fungible_asset _); simplify_eq.
Qed.

Lemma view_non_fungible v (x : NonFungibleAsset) b :
  vault_wf v -> non_fungible_valid x -> view v (nfa_word x) = Some b -> b = NonFungible x.
Proof.
  intros Hwf Hx Hb. destruct (view_node v (nfa_word x) Hwf) as [_ Hv].
  destruct (Hv b Hb) as [Hbv Hk].
  apply (vault_key_is_same (NonFungible x) b) in Hk; [|done..]. destruct b as [y|y]; [done|].
  apply bool_decide_eq_true in Hk. by subst.
Qed.

Lemma view_None v k : vault_wf v -> view v k = None <-> Smt_get_value (asset_tree v) k = EMPTY_WORD.
Proof.
  intros Hwf. unfold view. split; [by case_decide|]. intros ->. by rewrite decide_True.
Qed.

(** Writing a node updates the view and keeps the vault well formed. *)
Lemma vault_insert v k (o : option Asset) :
  vault_wf v -> (forall a, o = Some a -> asset_valid a /\ k = vault_key a) ->
  let v' := mkAssetVault (fst (Smt_insert (asset_tree v) k (node_word o))) in
  vault_wf v' /\ forall k', view v' k' = update (view v) k o k'.
Proof.
  intros Hwf Ho v'. subst v'. split.
  - intros k'. cbn. rewrite Smt_get_insert. case_decide as Hk; [|apply Hwf]. subst k'.
    destruct o as [a|]; [|by left]. right. exists a. destruct (Ho a eq_refl). done.
  - intros k'. unfold view, update. cbn. rewrite Smt_get_insert.
    destruct (decide (k = k')) as [Hk|Hk]; [|done]. subst k'.
    destruct o as [a|]; cbn; [|by rewrite decide_True].
    destruct (Ho a eq_refl) as [Ha _].
    by rewrite decide_False, asset_new_unchecked_word by (done || by apply asset_word_nonempty).
Qed.

Lemma tree_insert_eq {E} v k w :
  tree_insert (E := E) k w v =
  (mkAssetVault (fst (Smt_insert (asset_tree v) k w)), Ok (Smt_get_value (asset_tree v) k)).
Proof.
  unfold tree_insert. rewrite <- Smt_insert_old with (v := w).
  by destruct (Smt_insert (asset_tree v) k w).
Qed.

(** What a refinement lemma says of one run of an operation. *)
Definition refines (v : AssetVault) (a : Asset) (run : AssetVault * res AssetVaultError Asset)
    (spec : option (holdings * Asset)) : Prop :=
  match spec with
  | Some (m', a') => snd run = Ok a' /\ asset_valid a' /\ vault_wf (fst run) /\
      (forall k, view (fst run) k = m' k)
  | None => (exists e, snd run = Err e) /\ vault_wf (fst run) /\ fst run ≡ v
  end.

(** Writing back the word a node already has changes nothing. *)
Lemma insert_same v k :
  vault_wf v ->
  let v' := mkAssetVault (fst (Smt_insert (asset_tree v) k (Smt_get_value (asset_tree v) k))) in
  vault_wf v' /\ v' ≡ v.
Proof.
  intros Hwf v'. assert (Heq : v' ≡ v).
  { intros k'. unfold v'. cbn. rewrite Smt_get_insert. case_decide; [by subst|done]. }
  split; [|done]. intros k'. rewrite (Heq k'). apply Hwf.
Qed.

(** The vault after a node is written. *)
Definition put (v : AssetVault) (k : Word) (o : option Asset) : AssetVault :=
  mkAssetVault (fst (Smt_insert (asset_tree v) k (node_word o))).

Lemma add_fungible_eq v (x : FungibleAsset) :
  vault_wf v -> fungible_valid x ->
  let k := fungible_vault_key x in
  add_asset (Fungible x) v =
  match view v k with
  | Some (Fungible y) =>
      let new := mkFungibleAsset (fa_faucet_id x) (fa_amount y + fa_amount x) in
      if decide (fa_amount y + fa_amount x <= MAX_AMOUNT)
      then (put v k (Some (Fungible new)), Ok (Fungible new))
      else (v, Err (AddFungibleAssetBalanceError (AmountTooBig (fa_amount y + fa_amount x))))
  | _ => (put v k (Some (Fungible x)), Ok (Fungible x))
  end.
Proof.
  intros Hwf Hx k. cbn [add_asset]. unfold add_fungible_asset. fold k. run_mut.
  assert (Hword : forall y, fungible_valid y ->
    word_of_fungible (E := AssetVaultError) y = Ok (asset_word (Fungible y)))
    by (intros y Hy; apply (word_of_asset_valid (Fungible y) Hy)).
  destruct (view v k) as [b|] eqn:Hview.
  - destruct (view_fungible v x b Hwf Hx Hview) as (y & -> & Hy & Hid & Hcur). fold k in Hcur.
    rewrite decide_False by (intros He; apply view_None in He; [congruence|done]).
    rewrite Hcur, fungible_add_valid, decide_True by done.
    destruct (decide (_ <= _)) as [Hle|Hgt]; [|done]. cbn [map_err]. rewrite Hid.
    rewrite Hword, tree_insert_eq; [done|].
    destruct Hx as (? & ? & ?), Hy as (? & ? & ?). split_and!; cbn; (done || lia).
  - rewrite decide_True by (by apply view_None). by rewrite Hword, tree_insert_eq.
Qed.

Lemma remove_fungible_eq v (x : FungibleAsset) :
  vault_wf v -> fungible_valid x ->
  let k := fungible_vault_key x in
  remove_asset (Fungible x) v =
  match view v k with
  | Some (Fungible y) =>
      let rest := mkFungibleAsset (fa_faucet_id x) (fa_amount y - fa_amount x) in
      if decide (fa_amount x <= fa_amount y)
      then (put v k (if decide (fa_amount rest = 0) then None else Some (Fungible rest)),
            Ok (Fungible x))
      else (v, Err (SubtractFungibleAssetBalanceError
              (AssetAmountNotSufficient (fa_amount y) (fa_amount x))))
  | _ => (v, Err (FungibleAssetNotFound x))
  end.
Proof.
  intros Hwf Hx k. cbn [remove_asset]. unfold remove_fungible_asset. fold k. run_mut.
  destruct (view v k) as [b|] eqn:Hview.
  - destruct (view_fungible v x b Hwf Hx Hview) as (y & -> & Hy & Hid & Hcur). fold k in Hcur.
    rewrite decide_False by (intros He; apply view_None in He; [congruence|done]).
    rewrite Hcur, fungible_sub_eq.
    destruct (decide (fa_amount x <= fa_amount y)) as [Hle|Hgt]; [|done]. cbn [map_err fa_amount].
    rewrite Hid. set (rest := mkFungibleAsset _ _).
    destruct (decide (fa_amount y - fa_amount x = 0)) as [Hz|Hnz]; [by rewrite tree_insert_eq|].
    pose proof (word_of_asset_valid (E := AssetVaultError) (Fungible rest)) as Hw.
    cbn [word_of_asset] in Hw. rewrite Hw, tree_insert_eq; [done|].
    destruct Hx as (? & ? & ?), Hy as (? & ? & ?). split_and!; cbn; (done || lia).
  - by rewrite decide_True by (by apply view_None).
Qed.

Lemma add_non_fungible_eq v (x : NonFungibleAsset) :
  vault_wf v -> non_fungible_valid x ->
  add_asset (NonFungible x) v =
  (put v (nfa_word x) (Some (NonFungible x)),
   if view v (nfa_word x) is None then Ok (NonFungible x)
   else Err (DuplicateNonFungibleAsset x)).
Proof.
  intros Hwf Hx. cbn [add_asset]. unfold add_non_fungible_asset, non_fungible_vault_key. run_mut.
  rewrite tree_insert_eq. destruct (view v (nfa_word x)) as [b|] eqn:Hv.
  - rewrite decide_True by (intros He; apply view_None in He; [congruence|done]). done.
  - apply view_None in Hv; [|done]. by rewrite decide_False by (intros He; by apply He).
Qed.

Lemma remove_non_fungible_eq v (x : NonFungibleAsset) :
  vault_wf v -> non_fungible_valid x ->
  remove_asset (NonFungible x) v =
  (put v (nfa_word x) None,
   if view v (nfa_word x) is None then Err (NonFungibleAssetNotFound x)
   else Ok (NonFungible x)).
Proof.
  intros Hwf Hx. cbn [remove_asset]. unfold remove_non_fungible_asset, non_fungible_vault_key. run_mut.
  rewrite tree_insert_eq. destruct (view v (nfa_word x)) as [b|] eqn:Hv.
  - rewrite decide_False by (intros He; apply view_None in He; [congruence|done]). done.
  - apply view_None in Hv; [|done]. by rewrite decide_True.
Qed.

Lemma put_same v k : vault_wf v -> vault_wf (put v k (view v k)) /\ put v k (view v k) ≡ v.
Proof. intros Hwf. unfold put. rewrite <- (proj1 (view_node v k Hwf)). by apply insert_same. Qed.

Lemma add_asset_refines v a :
  vault_wf v -> asset_valid a -> refines v a (add_asset a v) (spec_add (view v) a).
Proof.
  intros Hwf Ha. unfold refines. destruct a as [x|x].
  - rewrite add_fungible_eq by done. cbn [spec_add vault_key]. set (k := fungible_vault_key x).
    destruct (view v k) as [b|] eqn:Hview.
    + destruct (view_fungible v x b Hwf Ha Hview) as (y & -> & Hy & Hid & _).
      destruct (decide (_ <= _)) as [Hle|Hgt]; cbn [fst snd]; [|by eauto].
      set (new := mkFungibleAsset (fa_faucet_id x) _).
      assert (Hnew : asset_valid (Fungible new)).
      { destruct Ha as (? & ? & ?), Hy as (? & ? & ?). split_and!; cbn; (done || lia). }
      split; [done|]. split; [done|]. apply vault_insert; [done|]. by intros ? [= <-].
    + cbn [fst snd]. split; [done|]. split; [done|]. apply vault_insert; [done|]. by intros ? [= <-].
  - rewrite add_non_fungible_eq by done. cbn [spec_add vault_key].
    unfold non_fungible_vault_key. destruct (view v (nfa_word x)) as [b|] eqn:Hview; cbn [fst snd].
    + pose proof (view_non_fungible v x b Hwf Ha Hview). subst b. split; [by eexists|].
      rewrite <- Hview. by apply put_same.
    + split; [done|]. split; [done|]. apply vault_insert; [done|]. by intros ? [= <-].
Qed.

Lemma remove_asset_refines v a :
  vault_wf v -> asset_valid a -> refines v a (remove_asset a v) (spec_remove (view v) a).
Proof.
  intros Hwf Ha. unfold refines. destruct a as [x|x].
  - rewrite remove_fungible_eq by done. cbn [spec_remove vault_key]. set (k := fungible_vault_key x).
    destruct (view v k) as [b|] eqn:Hview; [|cbn; eauto].
    destruct (view_fungible v x b Hwf Ha Hview) as (y & -> & Hy & Hid & _).
    destruct (decide (_ <= _)) as [Hle|Hgt]; cbn [fst snd]; [|by eauto].
    split; [done|]. split; [done|]. apply vault_insert; [done|]. cbn [fa_amount].
    destruct (decide (_ = 0)) as [Hz|Hnz]; [done|]. intros ? [= <-]. split; [|done].
    destruct Ha as (? & ? & ?), Hy as (? & ? & ?). split_and!; cbn; (done || lia).
  - rewrite remove_non_fungible_eq by done. cbn [spec_remove vault_key].
    unfold non_fungible_vault_key. destruct (view v (nfa_word x)) as [b|] eqn:Hview; cbn [fst snd].
    + split; [done|]. split; [done|]. by apply vault_insert.
    + split; [by eexists|]. rewrite <- Hview. by apply put_same.
Qed.

Definition asset_entry (a : Asset) : Word * Word := (vault_key a, asset_word a).

Lemma vault_new_entries (assets : list Asset) :
  Forall asset_valid assets ->
  vault_new assets =
  (asset_tree ← map_err DuplicateAsset (Smt_with_entries (asset_entry <$> assets));
   Ok (mkAssetVault asset_tree)).
Proof.
  intros Hall. unfold vault_new.
  assert (Hm : mapM (fun a => w ← word_of_asset (E := AssetVaultError) a; Ok (vault_key a, w)) assets =
    Ok (asset_entry <$> assets)).
  { apply mapM_res_map. eapply Forall_impl; [exact Hall|]. intros a Ha. by rewrite word_of_asset_valid. }
  by rewrite Hm.
Qed.

Lemma asset_entry_keys (assets : list Asset) : (asset_entry <$> assets).*1 = vault_key <$> assets.
Proof. rewrite <- list_fmap_compose. done. Qed.

Lemma vault_new_ok (assets : list Asset) :
  Forall asset_valid assets -> NoDup (vault_key <$> assets) ->
  exists v, vault_new assets = Ok v /\ vault_wf v /\
    forall k, Smt_get_value (asset_tree v) k = entry_or (asset_entry <$> assets) k EMPTY_WORD.
Proof.
  intros Hall Hnd. rewrite vault_new_entries by done.
  destruct (Smt_with_entries_ok (asset_entry <$> assets)) as (t & -> & Hget).
  { by rewrite asset_entry_keys. }
  exists (mkAssetVault t). split_and!; [done| |done]. intros k. cbn. rewrite Hget.
  destruct (entry_or_cases (asset_entry <$> assets) k EMPTY_WORD) as [[_ He]|Hin]; [by left|right].
  apply list_elem_of_fmap in Hin as (a & Heq & Hin). exists a.
  rewrite Forall_forall in Hall. injection Heq as -> Hw. rewrite Hw. auto.
Qed.

Lemma vault_new_dup (assets : list Asset) :
  Forall asset_valid assets -> ~ NoDup (vault_key <$> assets) ->
  exists e, vault_new assets = Err (DuplicateAsset e).
Proof.
  intros Hall Hnd. rewrite vault_new_entries by done.
  destruct (Smt_with_entries_dup (asset_entry <$> assets)) as (e & ->).
  - by rewrite asset_entry_keys.
  - by exists e.
Qed.

(** The listed assets of a well-formed vault are exactly its nodes. *)
Lemma assets_entries v :
  vault_wf v -> asset_entry <$> assets v = Smt_entries (asset_tree v) /\ Forall asset_valid (assets v).
Proof.
  intros Hwf. unfold assets.
  assert (Hall : Forall (fun e => asset_entry (asset_new_unchecked (snd e)) = e /\
    asset_valid (asset_new_unchecked (snd e))) (Smt_entries (asset_tree v))).
  { apply Forall_forall. intros [k w] Hin. apply Smt_entries_spec in Hin as [Hget Hne]. cbn.
    destruct (Hwf k) as [He|(a & Ha & -> & Hw)]; [congruence|].
    rewrite <- Hget, Hw. by rewrite asset_new_unchecked_word. }
  induction Hall as [|e es [He Hv] _ IH]; [done|]. cbn. destruct IH as [-> ?].
  rewrite He. split; [done|]. by constructor.
Qed.

Lemma vault_equiv_view v v' : v ≡ v' -> forall k, view v k = view v' k.
Proof. intros Heq k. unfold view. by rewrite (Heq k). Qed.

(** For well-formed vaults the view determines the nodes. *)
Lemma view_equiv v v' : vault_wf v -> vault_wf v' -> (forall k, view v k = view v' k) -> v ≡ v'.
Proof.
  intros Hwf Hwf' Hview k. rewrite (proj1 (view_node v k Hwf)), (proj1 (view_node v' k Hwf')).
  by rewrite Hview.
Qed.

#[export] Instance commitment_proper : Proper ((≡) ==> (=)) (commitment (C := C)).
Proof. intros v v' Heq. apply Smt_root_ext, Heq. Qed.

#[export] Instance vault_wf_proper : Proper ((≡) ==> iff) (vault_wf (C := C)).
Proof. intros v v' Heq. split; intros Hwf k; [rewrite <- (Heq k)|rewrite (Heq k)]; apply Hwf. Qed.

Lemma get_balance_view v (faucet_id : AccountId) :
  vault_wf v -> AccountId_valid faucet_id ->
  get_balance v faucet_id =
  if decide (type_of_id faucet_id = FungibleFaucet) then
    Ok (match view v (mkWord ZERO ZERO ZERO (id_felt faucet_id)) with
        | Some (Fungible y) => fa_amount y
        | _ => 0
        end)
  else Err (VaultNotAFungibleFaucetId faucet_id).
Proof.
  intros Hwf Hid. unfold get_balance. rewrite account_type_total. cbn [mbind res_bind].
  destruct (decide (type_of_id faucet_id = FungibleFaucet)) as [Ht|Ht];
    [|by rewrite decide_True].
  rewrite decide_False by naive_solver.
  assert (Hx : fungible_valid (mkFungibleAsset faucet_id 0)) by (split_and!; cbn; done).
  change (mkWord ZERO ZERO ZERO (felt_of_id faucet_id)) with
    (fungible_vault_key (mkFungibleAsset faucet_id 0)).
  change (mkWord ZERO ZERO ZERO (id_felt faucet_id)) with
    (fungible_vault_key (mkFungibleAsset faucet_id 0)).
  destruct (view v _) as [b|] eqn:Hv.
  - destruct (view_fungible v _ b Hwf Hx Hv) as (y & -> & _ & _ & Hcur).
    rewrite decide_False by (intros He; apply view_None in He; [congruence|done]). by rewrite Hcur.
  - by rewrite decide_True by (by apply view_None).
Qed.
End lemmas.
#[export] Hint Resolve vault_insert : rust.

Section serialization.
Context `{F : Field} {FL : FieldLaws F} {C : Crypto} {SL : SmtLaws C} {AS : Assembly} {FE : Features}
  {D : Display} {B : Build} {IO : ByteIO} {IOL : ByteIOLaws IO}.

Definition vault_encodable (v : AssetVault) : Prop :=
  vault_wf v /\ Z.of_nat (length (Smt_entries (asset_tree v))) < 2 ^ 32.

Lemma vault_codec_round_trips : round_trips_upto vault_codec vault_encodable (≡).
Proof.
  intros v [Hwf Hlen]. destruct (assets_entries v Hwf) as [Hent Hall].
  assert (Hl : length (assets v) = length (Smt_entries (asset_tree v)))
    by (unfold assets; apply length_fmap).
  destruct (round_trip_elim _ _ (Z.of_nat (length (assets v))) u32_round_trip) as (b1 & Hw1 & Hr1);
    [lia|].
  destruct (many_round_trip asset_codec asset_valid (assets v) asset_codec_round_trips Hall)
    as (b2 & Hw2 & Hr2).
  exists (b1 ++ b2). split.
  - cbn [write_into vault_codec]. rewrite bool_decide_true by lia. by apply wappend_ok.
  - intros rest. destruct (vault_new_ok (assets v) Hall) as (v' & Hnew & Hwf' & Hget).
    { rewrite <- asset_entry_keys, Hent. apply Smt_entries_nodup. }
    exists v'. split.
    + cbn [read_from vault_codec]. rewrite <- app_assoc.
      erewrite mut_bind_ok by apply Hr1. rewrite Nat2Z.id.
      erewrite mut_bind_ok by apply Hr2. apply lift_step, map_err_ok, Hnew.
    + intros k. rewrite Hget, Hent. symmetry.
      destruct (entry_or_cases (Smt_entries (asset_tree v)) k EMPTY_WORD) as [[Hni ->]|Hin].
      * destruct (decide (Smt_get_value (asset_tree v) k = EMPTY_WORD)) as [|Hne]; [done|].
        exfalso. apply Hni, list_elem_of_fmap. exists (k, Smt_get_value (asset_tree v) k).
        split; [done|]. by apply Smt_entries_spec.
      * by apply Smt_entries_spec in Hin as [-> _].
Qed.
End serialization.

(** ** Properties *)

Section properties.
Context `{F : Field} {FL : FieldLaws F} {C : Crypto} {SL : SmtLaws C} {AS : Assembly} {FE : Features}
  {D : Display} {B : Build} {IO : ByteIO} {IOL : ByteIOLaws IO}.

(** C7: adding a valid asset to a well-formed vault implements the specification:
    it succeeds exactly when the specification does, with its resulting asset
    and holdings; otherwise it returns an error and the vault keeps the same
    nodes; it never panics, and the vault stays well formed. *)
Theorem vault_add_asset_refines v (a : Asset) (Hwf : vault_wf v) (Ha : asset_valid a) :
  let '(v', r) := add_asset a v in
  vault_wf v' /\
  match spec_add (view v) a with
  | Some (m', a') => r = Ok a' /\ asset_valid a' /\ forall k, view v' k = m' k
  | None => (exists e, r = Err e) /\ v' ≡ v
  end.
Proof.
  pose proof (add_asset_refines v a Hwf Ha) as Href. unfold refines in Href.
  destruct (add_asset a v) as [v' r], (spec_add (view v) a) as [[m' a']|]; naive_solver.
Qed.

(** C8: removing a valid asset from a well-formed vault implements the
    specification in the same sense. *)
Theorem vault_remove_asset_refines v (a : Asset) (Hwf : vault_wf v) (Ha : asset_valid a) :
  let '(v', r) := remove_asset a v in
  vault_wf v' /\
  match spec_remove (view v) a with
  | Some (m', a') => r = Ok a' /\ a' = a /\ forall k, view v' k = m' k
  | None => (exists e, r = Err e) /\ v' ≡ v
  end.
Proof.
  pose proof (remove_asset_refines v a Hwf Ha) as Href. unfold refines in Href.
  assert (Hsame : forall m' a', spec_remove (view v) a = Some (m', a') -> a' = a).
  { intros m' a'. unfold spec_remove. repeat case_match; naive_solver. }
  destruct (remove_asset a v) as [v' r], (spec_remove (view v) a) as [[m' a']|]; naive_solver.
Qed.

(** Removing an asset that was just added restores the vault, with its
    commitment, unless the vault held a zero balance of its faucet before. *)
Theorem vault_add_then_remove v v1 (a r : Asset) (Hwf : vault_wf v) (Ha : asset_valid a)
    (Hadd : add_asset a v = (v1, Ok r))
    (Hzero : forall y, view v (vault_key a) = Some (Fungible y) -> fa_amount y <> 0) :
  exists v2, remove_asset a v1 = (v2, Ok a) /\ v2 ≡ v /\ commitment v2 = commitment v.
Proof.
  pose proof (add_asset_refines v a Hwf Ha) as Href. rewrite Hadd in Href.
  unfold refines in Href. cbn [fst snd] in Href.
  destruct (spec_add (view v) a) as [[m1 a1]|] eqn:Hspec; [|by destruct Href as ([? ?] & _)].
  destruct Href as (Hr & Hval & Hwf1 & Hv1).
  assert (exists m2, spec_remove (view v1) a = Some (m2, a) /\ forall k, m2 k = view v k)
    as (m2 & Hspec2 & Hm2).
  { apply (spec_add_remove _ m1 _ a a1); [done..|].
    intros x -> b Hb. destruct (view_fungible v x b Hwf Ha Hb) as (y & -> & Hy & Hid & _).
    exists y. destruct Ha as (_ & _ & ?), Hy as (_ & _ & ?). specialize (Hzero y Hb).
    split_and!; [done|done|lia]. }
  pose proof (remove_asset_refines v1 a Hwf1 Ha) as Href. unfold refines in Href.
  rewrite Hspec2 in Href. destruct (remove_asset a v1) as [v2 r2]. destruct Href as (Hr2 & _ & Hwf2 & Hv2).
  cbn [fst snd] in *. subst r2.
  assert (v2 ≡ v) as Heq by (apply view_equiv; [done..|]; intros k; by rewrite Hv2, Hm2).
  exists v2. split_and!; [done|done|]. by rewrite Heq.
Qed.

(** A vault is built from valid assets exactly when no two of them share a
    key; it is well formed, holds each listed asset under its key and nothing
    else. *)
Theorem vault_new_spec (assets : list Asset) (Hall : Forall asset_valid assets) :
  (NoDup (vault_key <$> assets) -> exists v, vault_new assets = Ok v /\ vault_wf v /\
    forall k a, view v k = Some a <-> a ∈ assets /\ k = vault_key a) /\
  (~ NoDup (vault_key <$> assets) -> exists e, vault_new assets = Err (DuplicateAsset e)).
Proof.
  split; intros Hnd; [|by apply vault_new_dup].
  destruct (vault_new_ok assets Hall Hnd) as (v & Hv & Hwf & Hget). exists v.
  split_and!; [done|done|]. intros k a. unfold view. rewrite Hget. split.
  - case_decide as He; [done|]. intros [= <-].
    destruct (entry_or_cases (asset_entry <$> assets) k EMPTY_WORD) as [[_ ?]|Hin]; [done|].
    apply list_elem_of_fmap in Hin as (a & Heq & Hin). injection Heq as -> Hw. rewrite Hw.
    rewrite Forall_forall in Hall. rewrite asset_new_unchecked_word by auto. done.
  - intros [Hin ->]. rewrite Forall_forall in Hall.
    rewrite (entry_or_in _ _ (asset_word a)).
    + rewrite decide_False by (apply asset_word_nonempty; auto).
      by rewrite asset_new_unchecked_word by auto.
    + by rewrite asset_entry_keys.
    + apply list_elem_of_fmap. by exists a.
Qed.

(** After a fungible asset was added, the balance of its faucet is the old
    balance plus the amount, every other balance is as before, and so is the
    presence of every non-fungible asset. *)
Theorem vault_balances v v' (x : FungibleAsset) (r : Asset) (Hwf : vault_wf v)
    (Hx : fungible_valid x) (Hadd : add_asset (Fungible x) v = (v', Ok r)) :
  exists b, get_balance v (fa_faucet_id x) = Ok b /\
    get_balance v' (fa_faucet_id x) = Ok (b + fa_amount x) /\ b + fa_amount x <= MAX_AMOUNT /\
    (forall f, AccountId_valid f -> f <> fa_faucet_id x -> get_balance v' f = get_balance v f) /\
    (forall n, asset_valid (NonFungible n) ->
       has_non_fungible_asset v' (NonFungible n) = has_non_fungible_asset v (NonFungible n)).
Proof.
  pose proof (add_asset_refines v (Fungible x) Hwf Hx) as Href. rewrite Hadd in Href.
  unfold refines in Href. cbn [fst snd] in Href.
  destruct (spec_add (view v) (Fungible x)) as [[m1 a1]|] eqn:Hspec; [|by destruct Href as ([? ?] & _)].
  destruct Href as (_ & _ & Hwf1 & Hv1). pose proof Hx as (Hid & Ht & Ha).
  assert (Hm1 : exists y, m1 = update (view v) (fungible_vault_key x) (Some (Fungible y)) /\
    fa_amount y <= MAX_AMOUNT /\ get_balance v (fa_faucet_id x) = Ok (fa_amount y - fa_amount x)).
  { rewrite get_balance_view, decide_True by done. unfold spec_add in Hspec. cbn [vault_key] in Hspec.
    change (mkWord ZERO ZERO ZERO (id_felt (fa_faucet_id x))) with (fungible_vault_key x).
    destruct (view v (fungible_vault_key x)) as [b|] eqn:Hvw.
    - destruct (view_fungible v x b Hwf Hx Hvw) as (y & -> & _). case_decide; [|done]. simplify_eq.
      eexists. split_and!; [done|done|]. cbn [fa_amount]. f_equal. lia.
    - simplify_eq. eexists. split_and!; [done|lia|]. f_equal. lia. }
  destruct Hm1 as (y & -> & Hy & Hbal). eexists. split; [exact Hbal|].
  rewrite Z.sub_add. split_and!; [|done| |].
  - rewrite get_balance_view, decide_True by done. rewrite Hv1. unfold update.
    by rewrite decide_True.
  - intros f Hf Hne. rewrite !get_balance_view by done. rewrite Hv1. unfold update.
    destruct (decide (type_of_id f = _)); [|done]. rewrite decide_False; [done|]. intros Heq. apply Hne. injection Heq as Heq.
    destruct f, (fa_faucet_id x). cbn in *. congruence.
  - intros n Hn. unfold has_non_fungible_asset. cbn [is_fungible vault_key].
    rewrite (proj1 (view_node v _ Hwf)), (proj1 (view_node v' _ Hwf1)), Hv1. unfold update.
    rewrite (decide_False (P := fungible_vault_key x = _)); [done|].
    intros Heq. by apply (vault_key_is_same (Fungible x) (NonFungible n)) in Heq.
Qed.

(** A well-formed vault of fewer than 2^32 assets is written without panicking
    and read back as a vault with the same nodes and the same commitment. *)
Theorem vault_serialization :
  round_trips_upto vault_codec vault_encodable
    (fun v v' => vault_wf v' /\ v ≡ v' /\ commitment v = commitment v').
Proof.
  intros v Hv. destruct (vault_codec_round_trips v Hv) as (bs & Hw & Hr).
  exists bs. split; [done|]. intros rest. destruct (Hr rest) as (v' & Hread & Heq). exists v'.
  destruct Hv as [Hwf _]. split_and!; [done| |done|]; by rewrite <- Heq.
Qed.
End properties.

(** ** Witnesses *)

Import RefInstances.

Lemma vault_default_wf : vault_wf vault_default.
Proof. intros k. left. apply Smt_get_new. Qed.

Definition sample_assets : list Asset :=
  [Fungible (sample_fungible 100); NonFungible sample_non_fungible].

Lemma sample_assets_valid : Forall asset_valid sample_assets.
Proof.
  repeat constructor; [by apply sample_id_valid..| |]; apply sample_non_fungible_valid.
Qed.

Lemma sample_assets_keys : NoDup (vault_key <$> sample_assets).
Proof.
  apply NoDup_cons_2; [|by apply NoDup_singleton].
  intros Hin%list_elem_of_singleton. apply (f_equal (fun w => as_int (w3 w))) in Hin. done.
Qed.

Lemma vault_add_asset_refines_witness :
  exists v', add_asset (Fungible (sample_fungible 5)) vault_default =
    (v', Ok (Fungible (sample_fungible 5))) /\ vault_wf v'.
Proof.
  pose proof (vault_add_asset_refines vault_default (Fungible (sample_fungible 5)) vault_default_wf
    (sample_fungible_valid 5 ltac:(done))) as Hadd.
  destruct (add_asset _ _) as [v' r] eqn:Hrun. exists v'. destruct Hadd as [Hwf Hspec].
  split; [|exact Hwf]. f_equal.
  assert (Hnone : view vault_default (vault_key (Fungible (sample_fungible 5))) = None)
    by (apply view_None; [apply vault_default_wf|apply Smt_get_new]).
  unfold spec_add in Hspec. rewrite Hnone in Hspec. apply Hspec.
Defined.

Lemma vault_remove_asset_refines_witness :
  exists v' e, remove_asset (Fungible (sample_fungible 5)) vault_default = (v', Err e) /\
    v' ≡ vault_default.
Proof.
  pose proof (vault_remove_asset_refines vault_default (Fungible (sample_fungible 5)) vault_default_wf
    (sample_fungible_valid 5 ltac:(done))) as Hrem.
  destruct (remove_asset _ _) as [v' r] eqn:Hrun. destruct Hrem as [Hwf Hspec].
  assert (Hnone : view vault_default (vault_key (Fungible (sample_fungible 5))) = None)
    by (apply view_None; [apply vault_default_wf|apply Smt_get_new]).
  unfold spec_remove in Hspec. rewrite Hnone in Hspec. destruct Hspec as [(e & ->) Heq].
  exists v', e. split; [reflexivity|exact Heq].
Defined.

Lemma vault_add_then_remove_witness :
  let v1 := fst (add_asset (Fungible (sample_fungible 5)) vault_default) in
  exists v2, remove_asset (Fungible (sample_fungible 5)) v1 = (v2, Ok (Fungible (sample_fungible 5))) /\
    commitment v2 = commitment vault_default.
Proof.
  intros v1.
  destruct (vault_add_then_remove vault_default v1 (Fungible (sample_fungible 5))
    (Fungible (sample_fungible 5)) vault_default_wf (sample_fungible_valid 5 ltac:(done)))
    as (v2 & Hrem & _ & Hc).
  - reflexivity.
  - intros y Hy. exfalso.
    assert (Hnone : view vault_default (vault_key (Fungible (sample_fungible 5))) = None)
      by (apply view_None; [apply vault_default_wf|apply Smt_get_new]). congruence.
  - exists v2. split; [exact Hrem|exact Hc].
Defined.

Lemma vault_new_spec_witness : exists v, vault_new sample_assets = Ok v /\ vault_wf v.
Proof.
  destruct (vault_new_spec sample_assets sample_assets_valid) as [Hok _].
  destruct (Hok sample_assets_keys) as (v & Hv & Hwf & _). exists v. split; [exact Hv|exact Hwf].
Defined.

Lemma vault_balances_witness :
  let v1 := fst (add_asset (Fungible (sample_fungible 5)) vault_default) in
  exists b, get_balance v1 sample_id = Ok (b + 5).
Proof.
  intros v1.
  destruct (vault_balances vault_default v1 (sample_fungible 5) (Fungible (sample_fungible 5))
    vault_default_wf (sample_fungible_valid 5 ltac:(done))) as (b & _ & Hb & _).
  - reflexivity.
  - exists b. exact Hb.
Defined.

Lemma vault_serialization_witness : exists bs, write_into vault_codec vault_default = Ok bs.
Proof.
  destruct (vault_serialization vault_default) as (bs & Hw & _).
  - split; [apply vault_default_wf|reflexivity].
  - exists bs. exact Hw.
Defined.
