(* ===== verification/Storage.v ===== *)
(** accounts/storage/slot.rs and accounts/storage/mod.rs: slot types and the
    storage of an account, 256 slots of which the last commits to the types. *)
From stdpp Require Import gmap.
From S2P Require Import Prelude Interfaces Types Reference.
Local Open Scope Z_scope.

(** ** Slot types *)

Definition MAX_VALUE_ARITY : Z := 255 - 1.
Definition MIN_ARRAY_DEPTH : Z := 2.
Definition MAX_ARRAY_DEPTH : Z := 64.
Definition DEFAULT_SLOT_TYPE : StorageSlotType := SlotValue 0.

Definition slot_type_is_valid (self : StorageSlotType) : bool :=
  match self with
  | SlotValue value_arity => bool_decide (value_arity <= MAX_VALUE_ARITY)
  | SlotMap value_arity => bool_decide (value_arity <= MAX_VALUE_ARITY)
  | SlotArray depth value_arity =>
      bool_decide (value_arity < MAX_VALUE_ARITY) && bool_decide (depth >= MIN_ARRAY_DEPTH) &&
      bool_decide (depth <= MAX_ARRAY_DEPTH)
  end.

Definition slot_type_is_default (self : StorageSlotType) : bool :=
  match self with SlotValue value_arity => bool_decide (value_arity = 0) | _ => false end.

(** [impl TryFrom<u16>]; [value as u8] keeps the low byte. *)
Definition slot_type_try_from (value : Z) : res string StorageSlotType :=
  let data_type := value mod 2 ^ 8 in
  let value_arity := Z.shiftr value 8 mod 2 ^ 8 in
  if decide (value_arity > MAX_VALUE_ARITY) then Err "Invalid value arity"%string
  else if decide (data_type = 0) then Ok (SlotValue value_arity)
  else if decide (data_type = 1) then Ok (SlotMap value_arity)
  else if decide (2 <= data_type <= MAX_ARRAY_DEPTH) then Ok (SlotArray data_type value_arity)
  else Err "invalid slot data type"%string.

Definition u16_of_slot_type (slot_type : StorageSlotType) : Z :=
  match slot_type with
  | SlotValue value_arity => Z.shiftl value_arity 8
  | SlotMap value_arity => Z.lor (Z.shiftl value_arity 8) 1
  | SlotArray depth value_arity => Z.lor (Z.shiftl value_arity 8) depth
  end.

Definition felt_of_slot_type `{Field} (slot_type : StorageSlotType) : Felt :=
  match slot_type with
  | SlotValue value_arity => Felt_new (Z.shiftl value_arity 32)
  | SlotMap value_arity => Felt_new (Z.lor (Z.shiftl value_arity 32) 1)
  | SlotArray depth value_arity => Felt_new (Z.lor (Z.shiftl value_arity 32) depth)
  end.

(** ** Storage *)

Definition STORAGE_TREE_DEPTH : Z := 8.
Definition NUM_STORAGE_SLOTS : nat := 256.
Definition SLOT_LAYOUT_COMMITMENT_INDEX : Z := 255.

(** [iter().enumerate()]. *)
Definition enumerate {A} (l : list A) : list (Z * A) := imap (fun i x => (Z.of_nat i, x)) l.

(** [for x in xs { body(x) }] over a writer. *)
Fixpoint write_each {A} (body : A -> writer) (xs : list A) : writer :=
  match xs with
  | [] => Ok []
  | x :: xs' => body x +w+ write_each body xs'
  end.

(** [for _ in 0..n { acc = body(acc)? }] over a reader. *)
Fixpoint read_loop {A} (n : nat) (body : A -> reader A) (acc : A) : reader A :=
  match n with
  | O => mret acc
  | S n' => acc' ← body acc; read_loop n' body acc'
  end.

Section storage.
Context `{F : Field} {C : Crypto} {AS : Assembly} {D : Display}.

Record StorageSlot := mkStorageSlot { slot_type : StorageSlotType; slot_value : Word }.
Record SlotItem := mkSlotItem { item_index : Z; item_slot : StorageSlot }.

Definition new_value (value : Word) : StorageSlot := mkStorageSlot (SlotValue 0) value.
Definition new_map (root : Word) : StorageSlot := mkStorageSlot (SlotMap 0) root.
Definition new_array (root : Word) (log_n : Z) : StorageSlot := mkStorageSlot (SlotArray log_n 0) root.

Record AccountStorage := mkAccountStorage {
  slots : SimpleSmt STORAGE_TREE_DEPTH;
  layout : list StorageSlotType }.

Definition hash_layout (layout : list StorageSlotType) : Digest :=
  hash_elements (felt_of_slot_type <$> layout).

(** The closure of [AccountStorage::new] over the items: it fills the layout (a
    vector it captures) and collects the entries up to the first error. *)
Fixpoint collect_items (layout : list StorageSlotType) (items : list SlotItem)
    : res AccountError (list StorageSlotType * list (Z * Word)) :=
  match items with
  | [] => Ok (layout, [])
  | item :: items' =>
      if decide (item_index item = SLOT_LAYOUT_COMMITMENT_INDEX)
      then Err (StorageSlotIsReserved (item_index item))
      else
        _ ← assert_ (bool_decide (Z.to_nat (item_index item) < length layout)%nat);
        let layout := <[Z.to_nat (item_index item) := slot_type (item_slot item)]> layout in
        '(layout, entries) ← collect_items layout items';
        Ok (layout, (item_index item, slot_value (item_slot item)) :: entries)
  end.

Definition initial_layout : list StorageSlotType :=
  <[Z.to_nat SLOT_LAYOUT_COMMITMENT_INDEX := SlotValue 64]>
    (replicate NUM_STORAGE_SLOTS DEFAULT_SLOT_TYPE).

Definition storage_new (items : list SlotItem) : res AccountError AccountStorage :=
  '(layout, entries) ← collect_items initial_layout items;
  let entries := entries ++ [(SLOT_LAYOUT_COMMITMENT_INDEX, hash_layout layout)] in
  slots ← map_err DuplicateStorageItems (SimpleSmt_with_leaves STORAGE_TREE_DEPTH entries);
  Ok (mkAccountStorage slots layout).

Definition storage_root (self : AccountStorage) : Digest := SimpleSmt_root (slots self).

(** The index of a node is checked against the depth, with [expect]. *)
Definition get_item {E} (self : AccountStorage) (index : Z) : res E Digest :=
  _ ← assert_ (bool_decide (index < 2 ^ STORAGE_TREE_DEPTH));
  Ok (SimpleSmt_get (slots self) index).

Definition layout_commitment (self : AccountStorage) : Digest := hash_layout (layout self).

Definition set_item (index : Z) (value : Word) : mut AccountStorage AccountError Word :=
  if decide (index = SLOT_LAYOUT_COMMITMENT_INDEX)
  then lift (Err (StorageSlotIsReserved index))
  else
    self ← read_self;
    t ← lift (expect (layout self !! Z.to_nat index));
    _ ← lift (match t with
              | SlotValue value_arity =>
                  if decide (value_arity > 0)
                  then Err (StorageSlotInvalidValueArity index 0 value_arity) else Ok tt
              | t => Err (StorageSlotNotValueSlot index t)
              end);
    _ ← lift (assert_ (bool_decide (index < 2 ^ STORAGE_TREE_DEPTH)));
    let '(slots', old) := SimpleSmt_insert (slots self) index value in
    _ ← write_self (mkAccountStorage slots' (layout self));
    mret old.

Context {IO : ByteIO}.

(** The slot types and the slots that are written. *)
Definition complex_types (self : AccountStorage) : list (Z * StorageSlotType) :=
  filter (fun e => slot_type_is_default (snd e) = false) (enumerate (take 255 (layout self))).
Definition filled_slots (self : AccountStorage) : list (Z * Word) :=
  filter (fun e => snd e <> EMPTY_WORD /\ fst e mod 2 ^ 8 <> SLOT_LAYOUT_COMMITMENT_INDEX)
    (SimpleSmt_leaves (slots self)).

Definition storage_write (self : AccountStorage) : writer :=
  _ ← assert_ (bool_decide (255 <= length (layout self))%nat);
  write_into u8_codec (Z.of_nat (length (complex_types self)) mod 2 ^ 8) +w+
  write_each (fun e => write_into u8_codec (fst e mod 2 ^ 8) +w+
                       write_into u16_codec (u16_of_slot_type (snd e))) (complex_types self) +w+
  write_into u8_codec (Z.of_nat (length (filled_slots self)) mod 2 ^ 8) +w+
  write_each (fun e => write_into u8_codec (fst e mod 2 ^ 8) +w+
                       write_into word_codec (snd e)) (filled_slots self).

(** One round of each of the two reading loops. *)
Definition read_complex_type (complex_types : gmap Z StorageSlotType)
    : reader (gmap Z StorageSlotType) :=
  idx ← read_from u8_codec;
  value ← read_from u16_codec;
  t ← lift (map_err InvalidValue (slot_type_try_from value));
  mret (<[idx := t]> complex_types).

Definition read_slot (st : gmap Z StorageSlotType * list SlotItem)
    : reader (gmap Z StorageSlotType * list SlotItem) :=
  let '(complex_types, items) := st in
  index ← read_from u8_codec;
  value ← read_from word_codec;
  let t := default DEFAULT_SLOT_TYPE (complex_types !! index) in
  mret (delete index complex_types, items ++ [mkSlotItem index (mkStorageSlot t value)]).

Definition storage_read : reader AccountStorage :=
  num_complex_types ← read_from u8_codec;
  complex_types ← read_loop (Z.to_nat num_complex_types) read_complex_type ∅;
  num_filled_slots ← read_from u8_codec;
  '(_, items) ← read_loop (Z.to_nat num_filled_slots) read_slot (complex_types, []);
  lift (map_err (fun err => InvalidValue (to_string err)) (storage_new items)).

Definition storage_codec : Codec AccountStorage :=
  {| write_into := storage_write; read_from := storage_read |}.
End storage.
Arguments StorageSlot {_}.
Arguments SlotItem {_}.
Arguments AccountStorage {_ _}.

(** ** Specification *)

(** The slot types the 16-bit encoding can carry. *)
Definition slot_type_readable (t : StorageSlotType) : Prop :=
  match t with
  | SlotValue a | SlotMap a => 0 <= a <= MAX_VALUE_ARITY
  | SlotArray d a => 0 <= a <= MAX_VALUE_ARITY /\ MIN_ARRAY_DEPTH <= d <= MAX_ARRAY_DEPTH
  end.

(** A slot type whose fields are bytes. *)
Definition slot_type_u8 (t : StorageSlotType) : Prop :=
  match t with
  | SlotValue a | SlotMap a => 0 <= a < 2 ^ 8
  | SlotArray d a => 0 <= a < 2 ^ 8 /\ 0 <= d < 2 ^ 8
  end.

Section spec.
Context `{F : Field} {C : Crypto}.

(** 256 slot types, the last one of the commitment; slot 255 holds the hash of the
    types. *)
Definition storage_wf (s : AccountStorage) : Prop :=
  length (layout s) = NUM_STORAGE_SLOTS /\
  layout s !! Z.to_nat SLOT_LAYOUT_COMMITMENT_INDEX = Some (SlotValue 64) /\
  SimpleSmt_get (slots s) SLOT_LAYOUT_COMMITMENT_INDEX = hash_layout (layout s).

(** The same types and the same slots. *)
#[export] Instance storage_equiv : Equiv AccountStorage := fun s s' =>
  layout s = layout s' /\
  forall i, 0 <= i < 2 ^ STORAGE_TREE_DEPTH -> SimpleSmt_get (slots s) i = SimpleSmt_get (slots s') i.

#[export] Instance storage_equiv_equivalence : Equivalence (≡@{AccountStorage}).
Proof.
  split.
  - by intros s.
  - intros s s' [Hl Hs]. split; [done|]. intros i Hi. by rewrite Hs.
  - intros s1 s2 s3 [Hl12 Hs12] [Hl23 Hs23]. split; [congruence|].
    intros i Hi. by rewrite Hs12, Hs23.
Qed.

#[export] Instance storage_root_proper `{!SimpleSmtLaws C} :
  Proper ((≡) ==> (=)) (storage_root (C := C)).
Proof. intros s s' [_ Hs]. by apply SimpleSmt_root_ext. Qed.
End spec.

(** ** Lemmas *)

Lemma lor_shiftl_add a k d : 0 <= k -> 0 <= d < 2 ^ k -> Z.lor (Z.shiftl a k) d = a * 2 ^ k + d.
Proof.
  intros Hk Hd. rewrite <- Z.shiftl_mul_pow2 by done.
  rewrite <- Z.add_lor_land. cut (Z.land (Z.shiftl a k) d = 0); [intros ->; lia|].
  apply Z.bits_inj'. intros i Hi. rewrite Z.land_spec, Z.bits_0.
  destruct (decide (i < k)).
  - by rewrite Z.shiftl_spec_low.
  - rewrite <- (Z.mod_small d (2 ^ k)), Z.mod_pow2_bits_high by lia. apply andb_false_r.
Qed.

(** The low part and the high part of an encoded type. *)
Definition slot_type_code (t : StorageSlotType) : Z * Z :=
  match t with SlotValue a => (0, a) | SlotMap a => (1, a) | SlotArray d a => (d, a) end.

Lemma slot_type_code_inj t t' :
  slot_type_readable t -> slot_type_readable t' -> slot_type_code t = slot_type_code t' -> t = t'.
Proof.
  unfold slot_type_readable, MIN_ARRAY_DEPTH.
  destruct t, t'; cbn; intros Ht Ht' Heq; simplify_eq; (done || lia).
Qed.

Lemma slot_type_code_range t :
  slot_type_readable t -> 0 <= (slot_type_code t).1 < 2 ^ 8 /\ 0 <= (slot_type_code t).2 < 255.
Proof.
  unfold slot_type_readable, MAX_VALUE_ARITY, MIN_ARRAY_DEPTH, MAX_ARRAY_DEPTH.
  destruct t; cbn; lia.
Qed.

Lemma u16_of_slot_type_code t :
  slot_type_readable t -> u16_of_slot_type t = (slot_type_code t).2 * 2 ^ 8 + (slot_type_code t).1.
Proof.
  intros Ht. pose proof (slot_type_code_range t Ht) as [Hd Ha]. destruct t; cbn -[Z.pow] in *.
  - rewrite Z.shiftl_mul_pow2; lia.
  - apply lor_shiftl_add; lia.
  - apply lor_shiftl_add; lia.
Qed.

Lemma u16_of_slot_type_range t : slot_type_readable t -> 0 <= u16_of_slot_type t < 2 ^ 16.
Proof.
  intros Ht. rewrite u16_of_slot_type_code by done. pose proof (slot_type_code_range t Ht). lia.
Qed.

(** Decoding in terms of the two parts. *)
Lemma slot_type_try_from_parts d a :
  0 <= d < 2 ^ 8 -> 0 <= a < 2 ^ 8 ->
  (forall t, slot_type_try_from (a * 2 ^ 8 + d) = Ok t <->
     slot_type_readable t /\ slot_type_code t = (d, a)).
Proof.
  intros Hd Ha t. unfold slot_type_try_from.
  rewrite Z.shiftr_div_pow2, Z.div_add_l, (Z.div_small d), Z.add_0_r, (Z.mod_small a) by lia.
  rewrite Z.add_comm, Z.mod_add, (Z.mod_small d) by lia.
  unfold slot_type_readable, MAX_VALUE_ARITY, MIN_ARRAY_DEPTH, MAX_ARRAY_DEPTH.
  repeat case_decide; (split; [intros Heq; simplify_eq; cbn; try (split; [lia|done])|
    intros [Hr Hc]; destruct t; cbn in *; simplify_eq; (done || lia)]).
Qed.

Lemma slot_type_try_from_spec v t :
  0 <= v < 2 ^ 16 ->
  slot_type_try_from v = Ok t <-> slot_type_readable t /\ u16_of_slot_type t = v.
Proof.
  intros Hv. pose proof (Z.div_mod v (2 ^ 8)). pose proof (Z.mod_pos_bound v (2 ^ 8)).
  assert (0 <= v / 2 ^ 8 < 2 ^ 8).
  { split; [apply Z.div_pos; lia|]. apply Z.div_lt_upper_bound; lia. }
  assert (Heq : v = v / 2 ^ 8 * 2 ^ 8 + v mod 2 ^ 8) by lia. rewrite Heq at 1.
  rewrite slot_type_try_from_parts by lia. split; intros [Hr Hc]; (split; [done|]).
  - rewrite u16_of_slot_type_code, Hc by done. cbn -[Z.pow Z.mul]. lia.
  - rewrite u16_of_slot_type_code in Hc by done.
    pose proof (slot_type_code_range t Hr) as [Hd Ha]. destruct (slot_type_code t) as [d a]. cbn -[Z.pow] in *.
    subst v. rewrite Z.div_add_l, (Z.div_small d), Z.add_0_r by lia.
    by rewrite Z.add_comm, Z.mod_add, (Z.mod_small d) by lia.
Qed.

Lemma slot_type_valid_readable t : slot_type_u8 t -> slot_type_is_valid t = true -> slot_type_readable t.
Proof.
  unfold slot_type_u8, slot_type_is_valid, slot_type_readable, MAX_VALUE_ARITY, MIN_ARRAY_DEPTH,
    MAX_ARRAY_DEPTH.
  destruct t; rewrite ?andb_true_iff, ?bool_decide_eq_true; lia.
Qed.

Lemma felt_of_slot_type_inj `{F : Field} {FL : FieldLaws F} t t' :
  slot_type_readable t -> slot_type_readable t' ->
  felt_of_slot_type t = felt_of_slot_type t' -> t = t'.
Proof.
  assert (Hcode : forall t, slot_type_readable t ->
    as_int (felt_of_slot_type t) = (slot_type_code t).2 * 2 ^ 32 + (slot_type_code t).1).
  { intros u Hu. pose proof (slot_type_code_range u Hu) as [Hd Ha].
    assert (Hsmall : as_int (Felt_new ((slot_type_code u).2 * 2 ^ 32 + (slot_type_code u).1)) =
      (slot_type_code u).2 * 2 ^ 32 + (slot_type_code u).1)
      by (apply as_int_new_small; unfold MODULUS; lia).
    destruct u; cbn -[Z.pow Z.mul] in *; rewrite <- Hsmall; f_equal; f_equal.
    - rewrite Z.shiftl_mul_pow2; lia.
    - apply lor_shiftl_add; lia.
    - apply lor_shiftl_add; lia. }
  intros Ht Ht' Heq. apply (f_equal as_int) in Heq. rewrite !Hcode in Heq by done.
  apply slot_type_code_inj; [done..|].
  pose proof (slot_type_code_range t Ht). pose proof (slot_type_code_range t' Ht').
  destruct (slot_type_code t), (slot_type_code t'). cbn -[Z.pow Z.mul] in *. f_equal; lia.
Qed.

Section lemmas.
Context `{F : Field} {C : Crypto} {SL : SimpleSmtLaws C} {AS : Assembly} {D : Display}.
Implicit Types (s : AccountStorage) (items : list SlotItem).

Definition item_pair (it : SlotItem) : Z * StorageSlot := (item_index it, item_slot it).
Definition empty_slot : StorageSlot := mkStorageSlot DEFAULT_SLOT_TYPE EMPTY_WORD.

(** The slot a list of items gives to an index. *)
Definition slot_at items (i : Z) : StorageSlot := entry_or (item_pair <$> items) i empty_slot.

(** Indices of items are bytes; 255 is reserved. *)
Definition items_ok items : Prop :=
  Forall (fun it => 0 <= item_index it < SLOT_LAYOUT_COMMITMENT_INDEX) items /\
  NoDup (item_index <$> items).

Lemma item_pair_keys items : (item_pair <$> items).*1 = item_index <$> items.
Proof. by rewrite <- list_fmap_compose. Qed.

Lemma collect_items_ok l items :
  length l = NUM_STORAGE_SLOTS -> items_ok items ->
  exists l', collect_items l items =
      Ok (l', (fun it => (item_index it, slot_value (item_slot it))) <$> items) /\
    length l' = NUM_STORAGE_SLOTS /\
    forall i, 0 <= i -> l' !! Z.to_nat i =
      if decide (i ∈ item_index <$> items) then Some (slot_type (slot_at items i))
      else l !! Z.to_nat i.
Proof.
  intros Hlen [Hr Hnd]. revert l Hlen.
  induction items as [|it items IH]; intros l Hlen; cbn [collect_items].
  { exists l. split_and!; [done|done|]. intros i Hi. by rewrite decide_False by set_solver. }
  inversion_clear Hr as [|? ? Hi Hrest]. apply NoDup_cons in Hnd as [Hni Hnd].
  unfold SLOT_LAYOUT_COMMITMENT_INDEX, NUM_STORAGE_SLOTS in *.
  rewrite decide_False by lia. rewrite bool_decide_true by lia. cbn [assert_ mbind res_bind].
  set (l1 := <[_ := _]> l).
  destruct (IH Hrest Hnd l1) as (l' & Hcol & Hlen' & Hlook); [by unfold l1; rewrite length_insert|].
  rewrite Hcol. exists l'. split_and!; [done|done|]. intros i Hipos. rewrite Hlook by done.
  unfold slot_at. cbn [fmap list_fmap entry_or item_pair].
  destruct (decide (item_index it = i)) as [Heq|Hne].
  - subst i. rewrite decide_False by done. rewrite decide_True by set_solver.
    unfold l1. rewrite list_lookup_insert_eq by lia. done.
  - unfold l1. rewrite list_lookup_insert_ne by lia.
    destruct (decide (i ∈ item_index <$> items)).
    + by rewrite decide_True by set_solver.
    + by rewrite decide_False by set_solver.
Qed.

Lemma collect_items_reserved l items :
  length l = NUM_STORAGE_SLOTS ->
  Forall (fun it => 0 <= item_index it <= SLOT_LAYOUT_COMMITMENT_INDEX) items ->
  SLOT_LAYOUT_COMMITMENT_INDEX ∈ item_index <$> items ->
  collect_items l items = Err (StorageSlotIsReserved SLOT_LAYOUT_COMMITMENT_INDEX).
Proof.
  intros Hlen Hr. revert l Hlen. induction Hr as [|it items Hi _ IH]; intros l Hlen Hin; [set_solver|].
  cbn [collect_items]. unfold SLOT_LAYOUT_COMMITMENT_INDEX, NUM_STORAGE_SLOTS in *.
  case_decide as Hd; [by rewrite Hd|]. rewrite bool_decide_true by lia. cbn [assert_ mbind res_bind].
  rewrite IH; [done|by rewrite length_insert|]. cbn in Hin. apply elem_of_cons in Hin as [?|?]; [lia|done].
Qed.

Lemma initial_layout_lookup (i : Z) :
  0 <= i < SLOT_LAYOUT_COMMITMENT_INDEX ->
  initial_layout !! Z.to_nat i = Some DEFAULT_SLOT_TYPE.
Proof.
  intros Hi. unfold initial_layout, SLOT_LAYOUT_COMMITMENT_INDEX, NUM_STORAGE_SLOTS in *.
  rewrite list_lookup_insert_ne by lia. apply lookup_replicate_2. lia.
Qed.

Lemma storage_new_ok items :
  items_ok items ->
  exists s, storage_new items = Ok s /\ storage_wf s /\
    forall i, 0 <= i < SLOT_LAYOUT_COMMITMENT_INDEX ->
      layout s !! Z.to_nat i = Some (slot_type (slot_at items i)) /\
      SimpleSmt_get (slots s) i = slot_value (slot_at items i).
Proof.
  intros Hok. pose proof Hok as [Hr Hnd]. unfold storage_new.
  destruct (collect_items_ok initial_layout items) as (l & -> & Hlen & Hlook); [done|done|].
  cbn [mbind res_bind].
  set (es := (fun it => (item_index it, slot_value (item_slot it))) <$> items).
  assert (Hkeys : es.*1 = item_index <$> items) by (unfold es; by rewrite <- list_fmap_compose).
  assert (Hni : SLOT_LAYOUT_COMMITMENT_INDEX ∉ es.*1).
  { rewrite Hkeys. intros (it & Heq & Hin)%list_elem_of_fmap. rewrite Forall_forall in Hr.
    specialize (Hr it Hin). unfold SLOT_LAYOUT_COMMITMENT_INDEX in *. lia. }
  destruct (SimpleSmt_with_leaves_ok STORAGE_TREE_DEPTH
    (es ++ [(SLOT_LAYOUT_COMMITMENT_INDEX, hash_layout l)])) as (t & -> & Hget).
  { rewrite fmap_app. apply NoDup_app. rewrite Hkeys. split_and!; [done| |apply NoDup_singleton].
    intros x Hx ->%list_elem_of_singleton. apply Hni. by rewrite Hkeys. }
  { apply Forall_app. split; [|by repeat constructor]. unfold es. apply Forall_fmap.
    eapply Forall_impl; [exact Hr|]. intros it Hi. cbn.
    unfold SLOT_LAYOUT_COMMITMENT_INDEX, STORAGE_TREE_DEPTH in *. lia. }
  cbn. eexists. split; [reflexivity|].
  assert (Hslots : forall i, 0 <= i < 2 ^ STORAGE_TREE_DEPTH -> SimpleSmt_get t i =
    if decide (SLOT_LAYOUT_COMMITMENT_INDEX = i) then hash_layout l
    else entry_or es i EMPTY_WORD).
  { intros i Hi. rewrite Hget by done. by apply entry_or_snoc. }
  split.
  - split_and!; cbn; [done| |by rewrite Hslots].
    rewrite Hlook, decide_False by (done || by rewrite <- Hkeys). done.
  - intros i Hi. cbn [layout slots]. unfold SLOT_LAYOUT_COMMITMENT_INDEX, STORAGE_TREE_DEPTH in *.
    rewrite Hslots, (decide_False (P := 255 = i)), Hlook by lia.
    assert (Hval : slot_value (slot_at items i) = entry_or es i EMPTY_WORD).
    { unfold slot_at, es. clear. induction items as [|it items IH]; [done|]. cbn. by case_decide. }
    split; [|by rewrite Hval].
    case_decide as Hin; [done|]. rewrite initial_layout_lookup by done.
    unfold slot_at. by rewrite entry_or_notin by (by rewrite item_pair_keys).
Qed.

(** [set_item] on a storage with all its slot types. *)
Lemma set_item_eq s (index : Z) (value : Word) :
  length (layout s) = NUM_STORAGE_SLOTS -> 0 <= index < SLOT_LAYOUT_COMMITMENT_INDEX ->
  exists t, layout s !! Z.to_nat index = Some t /\
  set_item index value s =
  match t with
  | SlotValue a =>
      if decide (a > 0) then (s, Err (StorageSlotInvalidValueArity index 0 a))
      else (mkAccountStorage (fst (SimpleSmt_insert (slots s) index value)) (layout s),
            Ok (SimpleSmt_get (slots s) index))
  | t => (s, Err (StorageSlotNotValueSlot index t))
  end.
Proof.
  intros Hlen Hi. unfold NUM_STORAGE_SLOTS, SLOT_LAYOUT_COMMITMENT_INDEX in *.
  destruct (lookup_lt_is_Some_2 (layout s) (Z.to_nat index)) as [t Ht]; [lia|]. exists t. split; [done|].
  unfold set_item, SLOT_LAYOUT_COMMITMENT_INDEX. rewrite decide_False by lia. run_mut. rewrite Ht. cbn [expect].
  destruct t as [a|a|d a]; [|done..]. case_decide; [done|].
  rewrite bool_decide_true by (unfold STORAGE_TREE_DEPTH; lia).
  cbn [assert_]. rewrite <- SimpleSmt_insert_old with (v := value) by (unfold STORAGE_TREE_DEPTH; lia).
  by destruct (SimpleSmt_insert (slots s) index value).
Qed.

Lemma set_item_wf s (index : Z) (value : Word) :
  storage_wf s -> 0 <= index < SLOT_LAYOUT_COMMITMENT_INDEX ->
  storage_wf (mkAccountStorage (fst (SimpleSmt_insert (slots s) index value)) (layout s)).
Proof.
  unfold SLOT_LAYOUT_COMMITMENT_INDEX. intros (Hlen & H255 & Hcom) Hi.
  split_and!; [done|done|]. cbn [slots layout].
  rewrite SimpleSmt_get_insert by (unfold STORAGE_TREE_DEPTH; lia).
  unfold SLOT_LAYOUT_COMMITMENT_INDEX. by rewrite decide_False by lia.
Qed.
End lemmas.

(** ** Serialization *)

(** A loop that writes elements and a loop that reads as many of them. *)
Lemma write_read_loop {X A} (bw : X -> writer) (br : A -> reader A) (f : A -> X -> A) (xs : list X) :
  Forall (fun x => exists bs, bw x = Ok bs /\
    forall acc rest, br acc (bs ++ rest) = (rest, Ok (f acc x))) xs ->
  exists bs, write_each bw xs = Ok bs /\
    forall acc rest, read_loop (length xs) br acc (bs ++ rest) = (rest, Ok (foldl f acc xs)).
Proof.
  induction 1 as [|x xs (b1 & Hw1 & Hr1) _ (b2 & Hw2 & Hr2)].
  - exists []. split; [done|]. intros acc rest. done.
  - exists (b1 ++ b2). split; [by apply wappend_ok|]. intros acc rest. cbn [length read_loop foldl].
    rewrite <- app_assoc. erewrite mut_bind_ok by apply Hr1. apply Hr2.
Qed.

Lemma foldl_insert_lookup {V} (es : list (Z * V)) (m : gmap Z V) (i : Z) :
  NoDup es.*1 ->
  foldl (fun m e => <[e.1 := e.2]> m) m es !! i =
  match list_find (fun e => e.1 = i) es with Some (_, e) => Some e.2 | None => m !! i end.
Proof.
  revert m. induction es as [|[k v] es IH]; intros m; [done|].
  cbn [fmap list_fmap foldl list_find fst snd]. intros [Hni Hnd]%NoDup_cons. rewrite IH by done.
  destruct (list_find (fun e => e.1 = i) es) as [[j e]|] eqn:Hf.
  - apply list_find_Some in Hf as (Hj & He & _).
    rewrite decide_False; [done|]. intros ->. apply Hni, list_elem_of_fmap. exists e.
    split; [done|]. by eapply list_elem_of_lookup_2.
  - case_decide; [subst; by rewrite lookup_insert_eq|by rewrite lookup_insert_ne].
Qed.

Section serialization.
Context `{F : Field} {C : Crypto} {SL : SimpleSmtLaws C} {AS : Assembly} {D : Display}
  {IO : ByteIO} {IOL : ByteIOLaws IO}.
Implicit Types (s : AccountStorage).

(** Every type before the last can be carried by the encoding. *)
Definition storage_encodable s : Prop :=
  storage_wf s /\
  forall i t, 0 <= i < SLOT_LAYOUT_COMMITMENT_INDEX -> layout s !! Z.to_nat i = Some t ->
    slot_type_readable t.

Lemma elem_of_complex_types s i t :
  (i, t) ∈ complex_types s <->
  0 <= i < 255 /\ layout s !! Z.to_nat i = Some t /\ slot_type_is_default t = false.
Proof.
  unfold complex_types, enumerate. rewrite list_elem_of_filter, elem_of_lookup_imap. split.
  - intros [Hd (j & x & Heq & Hj)]. simplify_eq. rewrite lookup_take_Some in Hj.
    destruct Hj. rewrite Nat2Z.id. split_and!; (done || lia).
  - intros (Hi & Hl & Hd). split; [done|]. exists (Z.to_nat i), t.
    rewrite Z2Nat.id by lia. split; [done|]. apply lookup_take_Some. split; [done|lia].
Qed.

Lemma complex_types_nodup s : NoDup (complex_types s).*1.
Proof.
  unfold complex_types. eapply sublist_NoDup; [|apply fmap_sublist, sublist_filter].
  unfold enumerate. rewrite fmap_imap. apply NoDup_alt. intros i j x Hi Hj.
  apply list_lookup_imap_Some in Hi as (? & _ & ->), Hj as (? & _ & Heq). cbn in Heq. lia.
Qed.

Lemma elem_of_filled_slots s i v :
  (i, v) ∈ filled_slots s <->
  0 <= i < SLOT_LAYOUT_COMMITMENT_INDEX /\ SimpleSmt_get (slots s) i = v /\ v <> EMPTY_WORD.
Proof.
  unfold filled_slots. rewrite list_elem_of_filter. cbn. split.
  - intros [[Hne Hi] Hin]. apply SimpleSmt_leaves_range in Hin as [Hr Hg].
    unfold SLOT_LAYOUT_COMMITMENT_INDEX, STORAGE_TREE_DEPTH in *. rewrite Z.mod_small in Hi by lia.
    split_and!; (done || lia).
  - intros (Hi & Hg & Hne).
    assert (Hr : 0 <= i < 2 ^ STORAGE_TREE_DEPTH)
      by (unfold SLOT_LAYOUT_COMMITMENT_INDEX, STORAGE_TREE_DEPTH in *; lia).
    split; [split; [done|]|].
    + unfold SLOT_LAYOUT_COMMITMENT_INDEX in *. rewrite Z.mod_small by lia. lia.
    + subst v. by apply SimpleSmt_leaves_full.
Qed.

Lemma filled_slots_nodup s : NoDup (filled_slots s).*1.
Proof.
  unfold filled_slots. eapply sublist_NoDup; [|apply fmap_sublist, sublist_filter].
  apply SimpleSmt_leaves_nodup.
Qed.

(** The type an index has after reading: the written one, or the default. *)
Definition read_types s : gmap Z StorageSlotType :=
  foldl (fun m e => <[e.1 := e.2]> m) ∅ (complex_types s).

Lemma read_types_lookup s i :
  storage_wf s -> 0 <= i < 255 -> Some (default DEFAULT_SLOT_TYPE (read_types s !! i)) = layout s !! Z.to_nat i.
Proof.
  intros (Hlen & _) Hi. unfold read_types. rewrite foldl_insert_lookup by apply complex_types_nodup.
  destruct (list_find _ _) as [[j [i' t]]|] eqn:Hf.
  - apply list_find_Some in Hf as (Hj & Heq & _). cbn in Heq. subst i'.
    apply list_elem_of_lookup_2, elem_of_complex_types in Hj. by destruct Hj as (_ & -> & _).
  - apply list_find_None in Hf. rewrite lookup_empty. cbn.
    destruct (lookup_lt_is_Some_2 (layout s) (Z.to_nat i)) as [t Ht]; [unfold NUM_STORAGE_SLOTS in Hlen; lia|].
    rewrite Ht. f_equal. destruct (slot_type_is_default t) eqn:Hd.
    + destruct t; try done. apply bool_decide_eq_true in Hd. by subst.
    + rewrite Forall_forall in Hf. exfalso.
      apply (Hf (i, t)); [|done]. by apply elem_of_complex_types.
Qed.

(** The items the second reading loop collects. *)
Definition read_items (m : gmap Z StorageSlotType) (es : list (Z * Word)) : list SlotItem :=
  (fun e => mkSlotItem e.1 (mkStorageSlot (default DEFAULT_SLOT_TYPE (m !! e.1)) e.2)) <$> es.

Definition read_slot_step (st : gmap Z StorageSlotType * list SlotItem) (e : Z * Word) :=
  (delete e.1 st.1, st.2 ++ [mkSlotItem e.1 (mkStorageSlot
     (default DEFAULT_SLOT_TYPE (st.1 !! e.1)) e.2)]).

Lemma foldl_read_slot m its es :
  NoDup es.*1 -> (foldl read_slot_step (m, its) es).2 = its ++ read_items m es.
Proof.
  revert m its. induction es as [|e es IH]; intros m its; [by rewrite app_nil_r|].
  cbn [fmap list_fmap foldl]. intros [Hni Hnd]%NoDup_cons. unfold read_slot_step at 2. cbn [fst snd].
  rewrite IH, <- app_assoc by done. unfold read_items. cbn. do 2 f_equal.
  apply list_fmap_ext. intros i e' He'. rewrite lookup_delete_ne; [done|].
  intros Heq. apply Hni. rewrite Heq. apply list_elem_of_fmap. exists e'. split; [done|].
  by eapply list_elem_of_lookup_2.
Qed.

(** Writing and reading [n] as a byte count. *)
Lemma u8_step (v : Z) :
  0 <= v < 2 ^ 8 -> exists bs, write_into u8_codec (v mod 2 ^ 8) = Ok bs /\
    forall rest, read_from u8_codec (bs ++ rest) = (rest, Ok v).
Proof.
  intros Hv. rewrite Z.mod_small by done. by apply (round_trip_elim _ _ v u8_round_trip).
Qed.

Lemma complex_types_written s :
  storage_encodable s ->
  exists bs, write_each (fun e => write_into u8_codec (fst e mod 2 ^ 8) +w+
      write_into u16_codec (u16_of_slot_type (snd e))) (complex_types s) = Ok bs /\
    forall rest, read_loop (length (complex_types s)) read_complex_type ∅ (bs ++ rest) =
      (rest, Ok (read_types s)).
Proof.
  intros [Hwf Henc]. destruct (write_read_loop (fun e => write_into u8_codec (fst e mod 2 ^ 8) +w+
    write_into u16_codec (u16_of_slot_type (snd e))) read_complex_type
    (fun m e => <[e.1 := e.2]> m) (complex_types s)) as (bs & Hw & Hr); [|by exists bs].
  apply Forall_forall. intros [i t] Hin. apply elem_of_complex_types in Hin as (Hi & Hl & Hd).
  assert (Ht : slot_type_readable t) by (apply (Henc i); done).
  pose proof (u16_of_slot_type_range t Ht) as Hu.
  destruct (u8_step i) as (b1 & Hw1 & Hr1); [lia|].
  destruct (round_trip_elim _ _ _ u16_round_trip Hu) as (b2 & Hw2 & Hr2).
  exists (b1 ++ b2). split; [by apply wappend_ok|]. intros m rest. rewrite <- app_assoc.
  unfold read_complex_type. erewrite mut_bind_ok by apply Hr1. erewrite mut_bind_ok by apply Hr2.
  erewrite mut_bind_ok; [reflexivity|]. apply lift_step, map_err_ok.
  by apply slot_type_try_from_spec.
Qed.

Lemma filled_slots_written s :
  exists bs, write_each (fun e => write_into u8_codec (fst e mod 2 ^ 8) +w+
      write_into word_codec (snd e)) (filled_slots s) = Ok bs /\
    forall rest, exists m, read_loop (length (filled_slots s)) read_slot (read_types s, []) (bs ++ rest) =
      (rest, Ok (m, read_items (read_types s) (filled_slots s))).
Proof.
  destruct (write_read_loop (fun e => write_into u8_codec (fst e mod 2 ^ 8) +w+
    write_into word_codec (snd e)) read_slot read_slot_step (filled_slots s)) as (bs & Hw & Hr).
  - apply Forall_forall. intros [i v] Hin.
    apply elem_of_filled_slots in Hin as (Hi & _). unfold SLOT_LAYOUT_COMMITMENT_INDEX in Hi.
    destruct (u8_step i) as (b1 & Hw1 & Hr1); [lia|].
    destruct (round_trip_elim _ _ v word_round_trip I) as (b2 & Hw2 & Hr2).
    exists (b1 ++ b2). split; [by apply wappend_ok|]. intros [m its] rest. rewrite <- app_assoc.
    unfold read_slot. erewrite mut_bind_ok by apply Hr1. by erewrite mut_bind_ok by apply Hr2.
  - exists bs. split; [done|]. intros rest. rewrite Hr.
    destruct (foldl read_slot_step (read_types s, []) (filled_slots s)) as [m its] eqn:Hf.
    exists m. do 3 f_equal.
    pose proof (foldl_read_slot (read_types s) [] (filled_slots s) (filled_slots_nodup s)) as Hfs.
    rewrite Hf in Hfs. exact Hfs.
Qed.

Lemma read_items_ok m s : items_ok (read_items m (filled_slots s)).
Proof.
  split.
  - apply Forall_fmap, Forall_forall. intros [i v] Hin. by apply elem_of_filled_slots in Hin as [? _].
  - unfold read_items. rewrite <- list_fmap_compose. apply filled_slots_nodup.
Qed.

Lemma slot_at_read_items s i :
  storage_wf s -> 0 <= i < SLOT_LAYOUT_COMMITMENT_INDEX ->
  let v := SimpleSmt_get (slots s) i in
  slot_value (slot_at (read_items (read_types s) (filled_slots s)) i) = v /\
  Some (slot_type (slot_at (read_items (read_types s) (filled_slots s)) i)) =
    if decide (v = EMPTY_WORD) then Some DEFAULT_SLOT_TYPE else layout s !! Z.to_nat i.
Proof.
  intros Hwf Hi v. unfold slot_at. destruct (decide (v = EMPTY_WORD)) as [He|Hne].
  - rewrite entry_or_notin; [done|]. rewrite item_pair_keys. unfold read_items.
    rewrite <- list_fmap_compose. intros ([j w] & Heq & Hin)%list_elem_of_fmap. cbn in Heq. subst j.
    apply elem_of_filled_slots in Hin as (_ & Hg & Hne). unfold v in He. congruence.
  - rewrite (entry_or_in _ i (mkStorageSlot (default DEFAULT_SLOT_TYPE (read_types s !! i)) v)).
    + cbn [slot_value slot_type]. split; [done|]. apply read_types_lookup; [done|].
      unfold SLOT_LAYOUT_COMMITMENT_INDEX in Hi. lia.
    + rewrite item_pair_keys. unfold read_items. rewrite <- list_fmap_compose. apply filled_slots_nodup.
    + unfold read_items. rewrite <- list_fmap_compose. apply list_elem_of_fmap. exists (i, v).
      split; [done|]. by apply elem_of_filled_slots.
Qed.

(** A storage whose types survive the encoding: no slot with a type other than the
    default is empty. *)
Definition storage_typed_filled s : Prop :=
  forall i, 0 <= i < SLOT_LAYOUT_COMMITMENT_INDEX ->
    SimpleSmt_get (slots s) i = EMPTY_WORD -> layout s !! Z.to_nat i = Some DEFAULT_SLOT_TYPE.

(** What reading a written storage gives: the slots, and the types of the slots
    that are not empty. *)
Definition storage_read_as s s' : Prop :=
  storage_wf s' /\
  forall i, 0 <= i < SLOT_LAYOUT_COMMITMENT_INDEX ->
    SimpleSmt_get (slots s') i = SimpleSmt_get (slots s) i /\
    layout s' !! Z.to_nat i =
      if decide (SimpleSmt_get (slots s) i = EMPTY_WORD) then Some DEFAULT_SLOT_TYPE
      else layout s !! Z.to_nat i.

(** It is the storage itself exactly when its types survive. *)
Lemma storage_read_as_same s s' : storage_wf s -> storage_read_as s s' -> s' ≡ s <-> storage_typed_filled s.
Proof.
  intros (Hlen & H255 & Hcom) [(Hlen' & H255' & Hcom') Heff]. split.
  - intros [Hl _] i Hi He. destruct (Heff i Hi) as [_ Hli]. rewrite Hl, decide_True in Hli by done. done.
  - intros Hdef.
    assert (Hl : layout s' = layout s).
    { apply list_eq. intros n. destruct (decide (n < 255)%nat) as [Hn|Hn].
      - destruct (Heff (Z.of_nat n)) as [_ Hli]; [unfold SLOT_LAYOUT_COMMITMENT_INDEX; lia|].
        rewrite Nat2Z.id in Hli. rewrite Hli. case_decide as He; [|done].
        rewrite <- (Nat2Z.id n), Hdef; [done| |done]. unfold SLOT_LAYOUT_COMMITMENT_INDEX; lia.
      - unfold NUM_STORAGE_SLOTS in *. destruct (decide (n = 255%nat)) as [->|Hne].
        + change 255%nat with (Z.to_nat SLOT_LAYOUT_COMMITMENT_INDEX). congruence.
        + by rewrite !lookup_ge_None_2 by lia. }
    split; [done|]. intros i Hi. unfold STORAGE_TREE_DEPTH in Hi.
    destruct (decide (i = SLOT_LAYOUT_COMMITMENT_INDEX)) as [->|Hne]; [congruence|].
    apply Heff. unfold SLOT_LAYOUT_COMMITMENT_INDEX in *. lia.
Qed.

Lemma storage_codec_effect : round_trips_upto storage_codec storage_encodable storage_read_as.
Proof.
  intros s Henc. pose proof Henc as [Hwf _].
  destruct (complex_types_written s Henc) as (b2 & Hw2 & Hr2).
  destruct (filled_slots_written s) as (b4 & Hw4 & Hr4).
  assert (Hlc : (length (complex_types s) <= 255)%nat).
  { rewrite <- (length_fmap fst). apply NoDup_range_length; [apply complex_types_nodup|].
    apply Forall_fmap, Forall_forall. intros [i t] Hin. apply elem_of_complex_types in Hin as [? _]. cbn. lia. }
  assert (Hlf : (length (filled_slots s) <= 255)%nat).
  { rewrite <- (length_fmap fst). apply NoDup_range_length; [apply filled_slots_nodup|].
    apply Forall_fmap, Forall_forall. intros [i t] Hin. apply elem_of_filled_slots in Hin as [? _]. cbn.
    unfold SLOT_LAYOUT_COMMITMENT_INDEX in *. lia. }
  destruct (u8_step (Z.of_nat (length (complex_types s)))) as (b1 & Hw1 & Hr1); [lia|].
  destruct (u8_step (Z.of_nat (length (filled_slots s)))) as (b3 & Hw3 & Hr3); [lia|].
  exists (b1 ++ b2 ++ b3 ++ b4). split.
  - cbn [write_into storage_codec]. unfold storage_write. destruct Hwf as (-> & _).
    rewrite bool_decide_true by (unfold NUM_STORAGE_SLOTS; lia). cbn [assert_ mbind res_bind].
    by repeat apply wappend_ok.
  - intros rest. destruct (Hr4 rest) as (m & Hr4').
    destruct (storage_new_ok _ (read_items_ok (read_types s) s)) as (s' & Hnew & Hwf' & Hs').
    exists s'. split; [|split; [done|]].
    + cbn [read_from storage_codec]. unfold storage_read. rewrite <- !app_assoc.
      erewrite mut_bind_ok by apply Hr1. rewrite Nat2Z.id.
      erewrite mut_bind_ok by apply Hr2. erewrite mut_bind_ok by apply Hr3. rewrite Nat2Z.id.
      erewrite mut_bind_ok by apply Hr4'. apply lift_step, map_err_ok, Hnew.
    + intros i Hi. destruct (Hs' i Hi) as [-> ->].
      destruct (slot_at_read_items s i Hwf Hi) as [-> ->]. done.
Qed.
End serialization.

(** ** Properties *)

(** Decoding a 16-bit slot type is the exact inverse of encoding one: it accepts
    precisely the encodings of value and map types with arity up to 254 and of
    array types of depth 2 to 64; every type the validity check accepts is among
    them, and the field encoding that goes in the layout commitment separates
    them. Arrays of arity 254 are decoded, but the check refuses them. *)
Theorem slot_type_encoding `{F : Field} {FL : FieldLaws F} (v : Z) (t : StorageSlotType)
    (Hv : 0 <= v < 2 ^ 16) :
  (slot_type_try_from v = Ok t <-> slot_type_readable t /\ u16_of_slot_type t = v) /\
  (slot_type_u8 t -> slot_type_is_valid t = true -> slot_type_try_from (u16_of_slot_type t) = Ok t) /\
  (forall t', slot_type_readable t -> slot_type_readable t' ->
     felt_of_slot_type t = felt_of_slot_type t' -> t = t') /\
  (forall depth, MIN_ARRAY_DEPTH <= depth <= MAX_ARRAY_DEPTH ->
     slot_type_try_from (u16_of_slot_type (SlotArray depth 254)) = Ok (SlotArray depth 254) /\
     slot_type_is_valid (SlotArray depth 254) = false).
Proof.
  split_and!.
  - by apply slot_type_try_from_spec.
  - intros Hu Hval. pose proof (slot_type_valid_readable t Hu Hval) as Hr.
    apply slot_type_try_from_spec; [by apply u16_of_slot_type_range|done].
  - intros t'. apply felt_of_slot_type_inj.
  - intros depth Hd. assert (Hr : slot_type_readable (SlotArray depth 254)) by (cbn; unfold MAX_VALUE_ARITY; lia).
    split; [apply slot_type_try_from_spec; [by apply u16_of_slot_type_range|done]|].
    unfold slot_type_is_valid, MAX_VALUE_ARITY. apply not_true_iff_false. intros Hval. revert Hval.
    rewrite ?andb_true_iff, ?Z.ltb_lt, ?Z.leb_le, ?bool_decide_eq_true. lia.
Qed.

Section properties.
Context `{F : Field} {C : Crypto} {SL : SimpleSmtLaws C} {AS : Assembly} {D : Display}
  {IO : ByteIO} {IOL : ByteIOLaws IO}.

(** A storage is built from items whose indices are distinct and not reserved;
    it has the type and value of each item, the default type and the empty
    value elsewhere, and slot 255 commits to the types.  An item for slot 255 is
    refused. *)
Theorem storage_new_spec (items : list SlotItem)
    (Hidx : Forall (fun it => 0 <= item_index it < 2 ^ 8) items) :
  (items_ok items -> exists s, storage_new items = Ok s /\ storage_wf s /\
    forall i, 0 <= i < SLOT_LAYOUT_COMMITMENT_INDEX ->
      layout s !! Z.to_nat i = Some (slot_type (slot_at items i)) /\
      get_item (E := AccountError) s i = Ok (slot_value (slot_at items i))) /\
  (SLOT_LAYOUT_COMMITMENT_INDEX ∈ item_index <$> items ->
    storage_new items = Err (StorageSlotIsReserved SLOT_LAYOUT_COMMITMENT_INDEX)).
Proof.
  split.
  - intros Hok. destruct (storage_new_ok items Hok) as (s & Hs & Hwf & Hslots). exists s.
    split_and!; [done|done|]. intros i Hi. destruct (Hslots i Hi) as [Hl Hg]. split; [done|].
    unfold get_item. rewrite bool_decide_true, <- Hg; [done|].
    unfold SLOT_LAYOUT_COMMITMENT_INDEX, STORAGE_TREE_DEPTH in *. lia.
  - intros Hin. unfold storage_new. rewrite collect_items_reserved; [done|done| |done].
    eapply Forall_impl; [exact Hidx|]. unfold SLOT_LAYOUT_COMMITMENT_INDEX. cbn. lia.
Qed.

(** C16: setting an item of a well-formed storage writes exactly the slots of type
    value with arity zero: there it returns the old value, changes that slot
    only and keeps the layout and its commitment; the reserved slot, other
    arities and other types are refused with the error that names them and the
    storage is untouched; it never panics. *)
Theorem storage_set_item_spec s (index : Z) (value : Word) (Hwf : storage_wf s)
    (Hu8 : Forall slot_type_u8 (layout s)) (Hidx : 0 <= index < 2 ^ 8) :
  let '(s', r) := set_item index value s in
  storage_wf s' /\ layout s' = layout s /\
  if decide (index = SLOT_LAYOUT_COMMITMENT_INDEX) then s' = s /\ r = Err (StorageSlotIsReserved index)
  else exists t, layout s !! Z.to_nat index = Some t /\
    match t with
    | SlotValue 0 => r = Ok (SimpleSmt_get (slots s) index) /\
        forall i, SimpleSmt_get (slots s') i =
          if decide (index = i) then value else SimpleSmt_get (slots s) i
    | SlotValue a => s' = s /\ r = Err (StorageSlotInvalidValueArity index 0 a)
    | t => s' = s /\ r = Err (StorageSlotNotValueSlot index t)
    end.
Proof.
  destruct (decide (index = SLOT_LAYOUT_COMMITMENT_INDEX)) as [Hr|Hr].
  { unfold set_item. rewrite decide_True by done. done. }
  assert (Hi : 0 <= index < SLOT_LAYOUT_COMMITMENT_INDEX)
    by (unfold SLOT_LAYOUT_COMMITMENT_INDEX in *; lia).
  pose proof Hwf as (Hlen & _). destruct (set_item_eq s index value Hlen Hi) as (t & Ht & ->).
  pose proof (Forall_lookup_1 _ _ _ _ Hu8 Ht) as Hu.
  destruct t as [a|a|d a];
    [|split; [done|]; split; [done|]; eexists; split; [exact Ht|done]..]. cbn in Hu. destruct (decide (a > 0)) as [Hpos|Hnpos].
  - split; [done|]. split; [done|]. exists (SlotValue a). split; [done|]. by destruct a; [lia| |lia].
  - split; [by apply set_item_wf|]. split; [done|]. exists (SlotValue a). split; [done|].
    assert (a = 0) as -> by lia. split; [done|]. intros i. cbn [slots].
    apply SimpleSmt_get_insert. unfold STORAGE_TREE_DEPTH; lia.
Qed.

(** A storage is written and read back as a well-formed storage with the same
    slots before the reserved one; it is the same storage, with the same root,
    exactly when every empty slot has the default type: the type of an empty
    slot with another type is lost. *)
Theorem storage_serialization s (Henc : storage_encodable s) :
  exists bs, write_into storage_codec s = Ok bs /\ forall rest, exists s',
    read_from storage_codec (bs ++ rest) = (rest, Ok s') /\ storage_wf s' /\
    (forall i, 0 <= i < SLOT_LAYOUT_COMMITMENT_INDEX ->
      SimpleSmt_get (slots s') i = SimpleSmt_get (slots s) i) /\
    (s' ≡ s <-> forall i, 0 <= i < SLOT_LAYOUT_COMMITMENT_INDEX ->
      SimpleSmt_get (slots s) i = EMPTY_WORD -> layout s !! Z.to_nat i = Some DEFAULT_SLOT_TYPE) /\
    (s' ≡ s -> storage_root s' = storage_root s).
Proof.
  destruct (storage_codec_effect s Henc) as (bs & Hw & Hr). exists bs. split; [done|].
  intros rest. destruct (Hr rest) as (s' & Hread & Has). exists s'. split; [done|]. split; [apply Has|].
  split; [intros i Hi; by apply Has|]. split; [by apply storage_read_as_same; [apply Henc|]|intros Heq; by rewrite Heq].
Qed.
End properties.

(** ** Witnesses *)

Import RefInstances.

Lemma slot_type_encoding_witness : slot_type_try_from 257 = Ok (SlotMap 1).
Proof. by apply (slot_type_encoding 257 (SlotMap 1)). Defined.

(** A map slot that is still empty. *)
Definition sample_items : list SlotItem := [mkSlotItem 3 (new_map EMPTY_WORD)].

Lemma sample_items_ok : items_ok sample_items.
Proof. split; [by repeat constructor|apply NoDup_singleton]. Qed.

Lemma storage_new_spec_witness : exists s, storage_new sample_items = Ok s /\ storage_wf s /\
  layout s !! 3%nat = Some (SlotMap 0).
Proof.
  destruct (storage_new_spec sample_items) as [Hok _]; [by repeat constructor|].
  destruct (Hok sample_items_ok) as (s & Hs & Hwf & Hslots). exists s.
  split; [exact Hs|]. split; [exact Hwf|]. apply (Hslots 3). by split.
Defined.

Lemma storage_set_item_spec_witness :
  exists s s', storage_wf s /\
    set_item 3 EMPTY_WORD s = (s', Err (StorageSlotNotValueSlot 3 (SlotMap 0))) /\ s' = s.
Proof.
  destruct (storage_new_ok sample_items sample_items_ok) as (s & _ & Hwf & Hslots).
  assert (Hu8 : Forall slot_type_u8 (layout s)).
  { apply Forall_lookup. intros n t Hn. pose proof Hwf as (Hlen & H255 & _).
    apply lookup_lt_Some in Hn as Hlt. unfold NUM_STORAGE_SLOTS in Hlen.
    destruct (decide (n = 255%nat)) as [->|Hne].
    - change 255%nat with (Z.to_nat SLOT_LAYOUT_COMMITMENT_INDEX) in Hn. rewrite H255 in Hn. by simplify_eq.
    - destruct (Hslots (Z.of_nat n)) as [Hl _]; [unfold SLOT_LAYOUT_COMMITMENT_INDEX; lia|].
      rewrite Nat2Z.id, Hn in Hl. simplify_eq. unfold slot_at, sample_items. cbn.
      by case_decide. }
  pose proof (storage_set_item_spec s 3 EMPTY_WORD Hwf Hu8 ltac:(done)) as Hset.
  destruct (set_item 3 EMPTY_WORD s) as [s' r] eqn:Hrun. exists s, s'.
  destruct Hset as (_ & _ & Hset). destruct (Hslots 3) as [Hl _]; [done|].
  rewrite decide_False in Hset by done. destruct Hset as (t & Ht & Hset).
  assert (t = SlotMap 0) as -> by (rewrite Hl in Ht; by simplify_eq). destruct Hset as [-> ->].
  split_and!; [exact Hwf|exact Hrun|reflexivity].
Defined.

(** Its type does not survive the encoding. *)
Lemma sample_typed_storage : exists s, storage_encodable s /\ ~ storage_typed_filled s.
Proof.
  destruct (storage_new_ok sample_items sample_items_ok) as (s & _ & Hwf & Hslots). exists s. split.
  - split; [exact Hwf|]. intros i t Hi Ht. destruct (Hslots i Hi) as [Hl _]. rewrite Hl in Ht.
    simplify_eq. unfold slot_at, sample_items. cbn. by case_decide.
  - intros Hdef. destruct (Hslots 3) as [Hl Hg]; [done|]. rewrite Hdef in Hl by done. discriminate Hl.
Qed.

Lemma storage_serialization_witness :
  exists s bs s', storage_wf s /\ write_into storage_codec s = Ok bs /\
    read_from storage_codec bs = ([], Ok s') /\ ~ s' ≡ s.
Proof.
  destruct sample_typed_storage as (s & Henc & Hnot). destruct (storage_serialization s Henc) as (bs & Hw & Hr).
  destruct (Hr []) as (s' & Hread & _ & _ & Hiff & _). exists s, bs, s'.
  rewrite app_nil_r in Hread. split; [apply Henc|]. split; [exact Hw|]. split; [exact Hread|].
  rewrite Hiff. exact Hnot.
Defined.
