(* ===== verification/Delta.v ===== *)
(** accounts/delta: the changes to an account's storage and vault, their
    validation, and the deserializers that validate while reading. *)
From S2P Require Import Prelude Interfaces Types Reference AccountIds Assets Storage.
Local Open Scope Z_scope.

Definition MAX_MUTABLE_STORAGE_SLOT_IDX : Z := 254.

Section delta.
Context `{F : Field} {C : Crypto} {AS : Assembly} {FE : Features} {D : Display} {B : Build}.

(** ** Storage deltas (delta/storage.rs) *)

Record AccountStorageDelta := mkAccountStorageDelta {
  cleared_items : list Z;
  updated_items : list (Z * Word) }.

(** The bodies of the two loops of [validate], given the elements before the current one. *)
Definition check_cleared_item (before : list Z) (idx : Z) : res AccountDeltaError unit :=
  if decide (idx > MAX_MUTABLE_STORAGE_SLOT_IDX) then Err (ImmutableStorageSlot idx)
  else if decide (idx ∈ before) then Err (DuplicateStorageItemUpdate idx)
  else Ok tt.

Definition check_updated_item (cleared : list Z) (before : list (Z * Word)) (e : Z * Word)
    : res AccountDeltaError unit :=
  let idx := fst e in
  if decide (idx > MAX_MUTABLE_STORAGE_SLOT_IDX) then Err (ImmutableStorageSlot idx)
  else if decide (idx ∈ cleared) then Err (DuplicateStorageItemUpdate idx)
  else if decide (idx ∈ before.*1) then Err (DuplicateStorageItemUpdate idx)
  else Ok tt.

Definition storage_delta_validate (self : AccountStorageDelta) : res AccountDeltaError unit :=
  let num_cleared_items := Z.of_nat (length (cleared_items self)) in
  let num_updated_items := Z.of_nat (length (updated_items self)) in
  if decide (num_cleared_items > 255) then Err (TooManyClearedStorageItems num_cleared_items 255)
  else if decide (num_updated_items > 255) then Err (TooManyRemovedAssets num_updated_items 255)
  else
    _ ← check_each check_cleared_item [] (cleared_items self);
    check_each (check_updated_item (cleared_items self)) [] (updated_items self).

Definition storage_delta_is_empty (self : AccountStorageDelta) : bool :=
  bool_decide (cleared_items self = []) && bool_decide (updated_items self = []).

(** ** Vault deltas (delta/vault.rs) *)

Record AccountVaultDelta := mkAccountVaultDelta {
  added_assets : list Asset;
  removed_assets : list Asset }.

Definition any_same (l : list Asset) (asset : Asset) : bool := existsb (fun a => is_same a asset) l.

Definition check_added_asset (before : list Asset) (asset : Asset) : res AccountDeltaError unit :=
  if any_same before asset then Err (DuplicateVaultUpdate asset) else Ok tt.

Definition check_removed_asset (added before : list Asset) (asset : Asset)
    : res AccountDeltaError unit :=
  if any_same before asset then Err (DuplicateVaultUpdate asset)
  else if any_same added asset then Err (DuplicateVaultUpdate asset)
  else Ok tt.

Definition vault_delta_validate (self : AccountVaultDelta) : res AccountDeltaError unit :=
  let num_added := Z.of_nat (length (added_assets self)) in
  let num_removed := Z.of_nat (length (removed_assets self)) in
  if decide (num_added > 65535) then Err (TooManyAddedAsset num_added 65535)
  else if decide (num_removed > 65535) then Err (TooManyRemovedAssets num_removed 65535)
  else
    _ ← check_each check_added_asset [] (added_assets self);
    check_each (check_removed_asset (added_assets self)) [] (removed_assets self).

Definition vault_delta_is_empty (self : AccountVaultDelta) : bool :=
  bool_decide (added_assets self = []) && bool_decide (removed_assets self = []).

(** ** Account deltas (delta/mod.rs) *)

Record AccountDelta := mkAccountDelta {
  delta_storage : AccountStorageDelta;
  delta_vault : AccountVaultDelta;
  delta_nonce : option Felt }.

Definition validate_nonce (nonce : option Felt) (storage : AccountStorageDelta)
    (vault : AccountVaultDelta) : res AccountDeltaError unit :=
  if negb (storage_delta_is_empty storage) || negb (vault_delta_is_empty vault) then
    match nonce with
    | Some nonce =>
        if decide (nonce = ZERO)
        then Err (InconsistentNonceUpdate "zero nonce for a non-empty account delta") else Ok tt
    | None => Err (InconsistentNonceUpdate "nonce not updated for non-empty account delta")
    end
  else match nonce with
       | Some _ => Err (InconsistentNonceUpdate "nonce updated for empty delta")
       | None => Ok tt
       end.

Definition account_delta_new (storage : AccountStorageDelta) (vault : AccountVaultDelta)
    (nonce : option Felt) : res AccountDeltaError AccountDelta :=
  _ ← storage_delta_validate storage;
  _ ← vault_delta_validate vault;
  _ ← validate_nonce nonce storage vault;
  Ok (mkAccountDelta storage vault nonce).

Definition account_delta_is_empty (self : AccountDelta) : bool :=
  storage_delta_is_empty (delta_storage self) && vault_delta_is_empty (delta_vault self).

(** ** Serialization *)

Context {IO : ByteIO}.

Definition invalid {A} (msg : string) : reader A := lift (Err (InvalidValue msg)).

Definition read_cleared_item (acc : list Z) : reader (list Z) :=
  idx ← read_from u8_codec;
  if decide (idx > MAX_MUTABLE_STORAGE_SLOT_IDX) then invalid "immutable storage item cleared"
  else if decide (idx ∈ acc) then invalid "storage item cleared more than once"
  else mret (acc ++ [idx]).

Definition read_updated_item (cleared : list Z) (acc : list (Z * Word)) : reader (list (Z * Word)) :=
  idx ← read_from u8_codec;
  value ← read_from word_codec;
  if decide (idx > MAX_MUTABLE_STORAGE_SLOT_IDX) then invalid "immutable storage item updated"
  else if decide (idx ∈ acc.*1) then invalid "storage item updated more than once"
  else if decide (idx ∈ cleared) then invalid "storage item both cleared and updated"
  else mret (acc ++ [(idx, value)]).

Definition storage_delta_codec : Codec AccountStorageDelta := {|
  write_into self :=
    (_ ← assert_ (bool_decide (Z.of_nat (length (cleared_items self)) <= 255));
     write_into u8_codec (Z.of_nat (length (cleared_items self)))) +w+
    write_each (write_into u8_codec) (cleared_items self) +w+
    (_ ← assert_ (bool_decide (Z.of_nat (length (updated_items self)) <= 255));
     write_into u8_codec (Z.of_nat (length (updated_items self)))) +w+
    write_each (fun e => write_into u8_codec (fst e) +w+ write_into word_codec (snd e))
      (updated_items self);
  read_from :=
    num_cleared_items ← read_from u8_codec;
    cleared ← read_loop (Z.to_nat num_cleared_items) read_cleared_item [];
    num_updated_items ← read_from u8_codec;
    updated ← read_loop (Z.to_nat num_updated_items) (read_updated_item cleared) [];
    mret (mkAccountStorageDelta cleared updated)
|}.

Definition read_added_asset (acc : list Asset) : reader (list Asset) :=
  asset ← read_from asset_codec;
  if any_same acc asset then invalid "asset added more than once" else mret (acc ++ [asset]).

Definition read_removed_asset (added acc : list Asset) : reader (list Asset) :=
  asset ← read_from asset_codec;
  if any_same acc asset then invalid "asset added more than once"
  else if any_same added asset then invalid "asset both added and removed"
  else mret (acc ++ [asset]).

Definition vault_delta_codec : Codec AccountVaultDelta := {|
  write_into self :=
    (_ ← assert_ (bool_decide (Z.of_nat (length (added_assets self)) <= 65535));
     write_into u16_codec (Z.of_nat (length (added_assets self)))) +w+
    write_many asset_codec (added_assets self) +w+
    (_ ← assert_ (bool_decide (Z.of_nat (length (removed_assets self)) <= 65535));
     write_into u16_codec (Z.of_nat (length (removed_assets self)))) +w+
    write_many asset_codec (removed_assets self);
  read_from :=
    num_added_assets ← read_from u16_codec;
    added ← read_loop (Z.to_nat num_added_assets) read_added_asset [];
    num_removed_assets ← read_from u16_codec;
    removed ← read_loop (Z.to_nat num_removed_assets) (read_removed_asset added) [];
    mret (mkAccountVaultDelta added removed)
|}.

Definition account_delta_codec : Codec AccountDelta := {|
  write_into self :=
    write_into storage_delta_codec (delta_storage self) +w+
    write_into vault_delta_codec (delta_vault self) +w+
    write_into (option_codec felt_codec) (delta_nonce self);
  read_from :=
    storage ← read_from storage_delta_codec;
    vault ← read_from vault_delta_codec;
    nonce ← read_from (option_codec felt_codec);
    _ ← lift (map_err (fun err => InvalidValue (to_string err)) (validate_nonce nonce storage vault));
    mret (mkAccountDelta storage vault nonce)
|}.
End delta.
Arguments AccountStorageDelta {_}.
Arguments AccountVaultDelta {_}.
Arguments AccountDelta {_}.

(** ** Specification *)

Section spec.
Context `{F : Field}.

(** No slot is touched twice, and none is the reserved one. *)
Definition storage_delta_valid (d : AccountStorageDelta) : Prop :=
  (length (cleared_items d) <= 255)%nat /\ (length (updated_items d) <= 255)%nat /\
  Forall (fun i => i <= MAX_MUTABLE_STORAGE_SLOT_IDX) (cleared_items d ++ (updated_items d).*1) /\
  NoDup (cleared_items d ++ (updated_items d).*1).

(** Indices are bytes. *)
Definition storage_delta_u8 (d : AccountStorageDelta) : Prop :=
  Forall (fun i => 0 <= i < 2 ^ 8) (cleared_items d ++ (updated_items d).*1).

(** No asset is added or removed twice, or both. *)
Definition vault_delta_valid (d : AccountVaultDelta) : Prop :=
  Z.of_nat (length (added_assets d)) <= 65535 /\ Z.of_nat (length (removed_assets d)) <= 65535 /\
  NoDup (vault_key <$> (added_assets d ++ removed_assets d)).

Definition vault_delta_assets_valid (d : AccountVaultDelta) : Prop :=
  Forall asset_valid (added_assets d ++ removed_assets d).

(** The nonce is updated, to a value other than zero, exactly when something is. *)
Definition nonce_rule (nonce : option Felt) (s : AccountStorageDelta) (v : AccountVaultDelta) : Prop :=
  match nonce with
  | Some n => n <> ZERO /\ (s <> mkAccountStorageDelta [] [] \/ v <> mkAccountVaultDelta [] [])
  | None => s = mkAccountStorageDelta [] [] /\ v = mkAccountVaultDelta [] []
  end.

Definition account_delta_valid (d : AccountDelta) : Prop :=
  storage_delta_valid (delta_storage d) /\ vault_delta_valid (delta_vault d) /\
  nonce_rule (delta_nonce d) (delta_storage d) (delta_vault d).

(** A delta whose fields have the values their types allow. *)
Definition account_delta_typed (d : AccountDelta) : Prop :=
  storage_delta_u8 (delta_storage d) /\ vault_delta_assets_valid (delta_vault d).
End spec.

(** ** Lemmas *)

(** Every position of a list passes a test on the elements before it. *)
Definition chained {A} (ok : list A -> A -> bool) (before xs : list A) : Prop :=
  forall l x r, xs = l ++ x :: r -> ok (before ++ l) x = true.

Lemma chained_cons {A} (ok : list A -> A -> bool) before x xs :
  chained ok before (x :: xs) <-> ok before x = true /\ chained ok (before ++ [x]) xs.
Proof.
  unfold chained. split.
  - intros Hch. split.
    + rewrite <- (app_nil_r before). by apply (Hch [] x xs).
    + intros l y r ->. rewrite <- app_assoc. by apply (Hch (x :: l) y r).
  - intros [Hx Hch] l y r Heq. destruct l as [|z l]; simplify_eq/=.
    + by rewrite app_nil_r.
    + specialize (Hch l y r eq_refl). by rewrite <- app_assoc in Hch.
Qed.

#[export] Instance chained_dec {A} (ok : list A -> A -> bool) before xs : Decision (chained ok before xs).
Proof.
  revert before. induction xs as [|x xs IH]; intros before.
  - left. intros l y r Heq. by destruct l.
  - destruct (decide (ok before x = true)), (IH (before ++ [x]));
      [left|right|right|right]; rewrite chained_cons; tauto.
Defined.

(** The test that an element differs from the ones before, through a key. *)
Lemma chained_fresh {A K} `{EqDecision K} (f : A -> K) (P : A -> bool) xs :
  chained (fun before x => P x && bool_decide (f x ∉ f <$> before)) [] xs <->
  Forall (fun x => P x = true) xs /\ NoDup (f <$> xs).
Proof.
  unfold chained. cbn [app]. induction xs as [|y xs IH] using rev_ind.
  { split; [|intros _ [|? ?] ? ? ?; done]. intros _. split; constructor. }
  rewrite Forall_app, Forall_singleton, fmap_app, NoDup_app. cbn [fmap list_fmap]. split.
  - intros Hch. destruct IH as [IH _]. destruct IH as [HP Hnd].
    { intros l x r ->. apply (Hch l x (r ++ [y])). by rewrite <- app_assoc. }
    specialize (Hch xs y [] eq_refl). apply andb_true_iff in Hch as [HPy Hy].
    apply bool_decide_eq_true in Hy.
    split_and!; [done|done|done| |apply NoDup_singleton].
    intros k Hk ->%list_elem_of_singleton. done.
  - intros ((HP & HPy) & Hnd & Hdis & _) l x r Heq. destruct IH as [_ IH].
    destruct r as [|z r _] using rev_ind.
    + apply app_inj_tail in Heq as [-> ->]. rewrite HPy. cbn. apply bool_decide_eq_true.
      intros Hin. apply (Hdis _ Hin). set_solver.
    + rewrite app_comm_cons, app_assoc in Heq. apply app_inj_tail in Heq as [-> _].
      by apply (IH (conj HP Hnd) l x r).
Qed.

(** A validation loop whose body is a test. *)
Lemma check_each_chained {E A} (check : list A -> A -> res E unit) (ok : list A -> A -> bool) before xs :
  (forall l x, check l x = Ok tt <-> ok l x = true) ->
  check_each check before xs = Ok tt <-> chained ok before xs.
Proof.
  intros Hc. rewrite check_each_ok. unfold chained. split; intros H l x r Heq.
  - by apply Hc, (H l x r).
  - by apply Hc, (H l x r).
Qed.

(** A reading loop that accepts an element when it passes the test and fails
    otherwise: on written elements it returns them if they all pass, and an
    error if one does not. *)
Lemma read_loop_chained {A} (c : Codec A) (P : A -> Prop) (ok : list A -> A -> bool)
    (body : list A -> reader (list A)) xs :
  round_trips c P -> Forall P xs ->
  (forall acc x src rest, read_from c src = (rest, Ok x) -> ok acc x = true ->
     body acc src = (rest, Ok (acc ++ [x]))) ->
  (forall acc x src rest, read_from c src = (rest, Ok x) -> ok acc x = false ->
     exists e, body acc src = (rest, Err e)) ->
  exists bs, write_each (write_into c) xs = Ok bs /\ forall acc rest,
    (chained ok acc xs -> read_loop (length xs) body acc (bs ++ rest) = (rest, Ok (acc ++ xs))) /\
    (~ chained ok acc xs -> exists rest' e, read_loop (length xs) body acc (bs ++ rest) = (rest', Err e)).
Proof.
  intros Hc HP Hgood Hbad. induction HP as [|x xs Hx _ (b2 & Hw2 & Hr2)].
  { exists []. split; [done|]. intros acc rest. split.
    - intros _. by rewrite app_nil_r.
    - intros Hn. exfalso. apply Hn. intros l y r Heq. by destruct l. }
  destruct (round_trip_elim c P x Hc Hx) as (b1 & Hw1 & Hr1). exists (b1 ++ b2).
  split; [by apply wappend_ok|]. intros acc rest. rewrite chained_cons, <- app_assoc.
  cbn [length read_loop]. destruct (ok acc x) eqn:Hok.
  - erewrite mut_bind_ok by (by eapply Hgood). destruct (Hr2 (acc ++ [x]) rest) as [Hy Hn]. split.
    + intros [_ Hch]. rewrite Hy by done. by rewrite <- app_assoc.
    + intros Hnch. apply Hn. tauto.
  - split; [naive_solver|]. intros _.
    destruct (Hbad acc x _ _ (Hr1 (b2 ++ rest)) Hok) as (e & He).
    exists (b2 ++ rest), e. by apply mut_bind_err.
Qed.

Section lemmas.
Context `{F : Field} {FL : FieldLaws F} {C : Crypto} {AS : Assembly} {FE : Features} {D : Display}
  {B : Build}.

Definition slot_ok (i : Z) : bool := bool_decide (i <= MAX_MUTABLE_STORAGE_SLOT_IDX).
Definition cleared_ok (before : list Z) (i : Z) : bool :=
  slot_ok i && bool_decide (id i ∉ id <$> before).
Definition updated_ok (cleared : list Z) (before : list (Z * Word)) (e : Z * Word) : bool :=
  (slot_ok e.1 && bool_decide (e.1 ∉ cleared)) && bool_decide (e.1 ∉ before.*1).

Definition storage_delta_chained (d : AccountStorageDelta) : Prop :=
  chained cleared_ok [] (cleared_items d) /\
  chained (updated_ok (cleared_items d)) [] (updated_items d).

Lemma storage_delta_chained_spec (d : AccountStorageDelta) :
  storage_delta_chained d <->
  Forall (fun i => i <= MAX_MUTABLE_STORAGE_SLOT_IDX) (cleared_items d ++ (updated_items d).*1) /\
  NoDup (cleared_items d ++ (updated_items d).*1).
Proof.
  unfold storage_delta_chained, cleared_ok, updated_ok.
  rewrite (chained_fresh id slot_ok).
  rewrite (chained_fresh fst (fun e => slot_ok e.1 && bool_decide (e.1 ∉ cleared_items d))).
  rewrite list_fmap_id, Forall_app, NoDup_app, Forall_fmap, !Forall_forall.
  unfold slot_ok. setoid_rewrite andb_true_iff. setoid_rewrite bool_decide_eq_true. cbn.
  split.
  - intros [[Hc Hnc] [Hu Hnu]]. split_and!; [done|naive_solver|done| |done].
    intros i Hi (e & -> & He)%list_elem_of_fmap. by apply (Hu e He).
  - intros [[Hc Hu] (Hnc & Hdis & Hnu)]. split_and!; [done|done| |done].
    intros e He. split; [naive_solver|]. intros Hin. apply (Hdis _ Hin), list_elem_of_fmap. eauto.
Qed.

Lemma storage_delta_validate_spec (d : AccountStorageDelta) :
  storage_delta_validate d = Ok tt <-> storage_delta_valid d.
Proof.
  unfold storage_delta_validate, storage_delta_valid. rewrite <- storage_delta_chained_spec.
  destruct (decide (_ > 255)); [split; [done|lia]|].
  destruct (decide (_ > 255)); [split; [done|lia]|].
  rewrite bind_ok. unfold storage_delta_chained.
  rewrite <- (check_each_chained check_cleared_item).
  2: { intros l x. unfold check_cleared_item, cleared_ok, slot_ok.
       rewrite list_fmap_id, andb_true_iff, !bool_decide_eq_true. cbn.
       repeat case_decide; split; intros; (done || naive_solver lia). }
  rewrite <- (check_each_chained (check_updated_item (cleared_items d))).
  2: { intros l x. unfold check_updated_item, updated_ok, slot_ok.
       rewrite !andb_true_iff, !bool_decide_eq_true. cbn.
       repeat case_decide; split; intros; (done || naive_solver lia). }
  split.
  - intros ([] & Hc & Hu). split_and!; (done || lia).
  - intros (_ & _ & Hc & Hu). by exists tt.
Qed.

(** Tests on assets, through their vault keys. *)
Definition added_ok (before : list Asset) (a : Asset) : bool := negb (any_same before a).
Definition removed_ok (added before : list Asset) (a : Asset) : bool :=
  negb (any_same before a) && negb (any_same added a).

Definition vault_delta_chained (d : AccountVaultDelta) : Prop :=
  chained added_ok [] (added_assets d) /\
  chained (removed_ok (added_assets d)) [] (removed_assets d).

Lemma any_same_keys l a :
  Forall asset_valid l -> asset_valid a ->
  negb (any_same l a) = bool_decide (vault_key a ∉ vault_key <$> l).
Proof.
  intros Hl Ha. unfold any_same. induction Hl as [|b l Hb _ IH]; cbn [existsb].
  { symmetry. apply bool_decide_eq_true. set_solver. }
  rewrite negb_orb, IH. pose proof (vault_key_is_same b a Hb Ha) as Hk. cbn [fmap list_fmap].
  destruct (is_same b a); cbn [negb andb].
  - symmetry. apply bool_decide_eq_false. rewrite <- (proj2 Hk eq_refl). set_solver.
  - apply bool_decide_ext. rewrite not_elem_of_cons. split; [|tauto].
    intros Hni. split; [|done]. intros Heq. symmetry in Heq. by apply Hk in Heq.
Qed.

Lemma chained_ext {A} (ok ok' : list A -> A -> bool) before xs :
  (forall l x r, xs = l ++ x :: r -> ok (before ++ l) x = ok' (before ++ l) x) ->
  chained ok before xs <-> chained ok' before xs.
Proof.
  intros Hext. unfold chained. split; intros Hch l x r Heq.
  - by rewrite <- (Hext l x r Heq), (Hch l x r Heq).
  - by rewrite (Hext l x r Heq), (Hch l x r Heq).
Qed.

Lemma vault_delta_chained_spec (d : AccountVaultDelta) :
  vault_delta_assets_valid d ->
  vault_delta_chained d <-> NoDup (vault_key <$> (added_assets d ++ removed_assets d)).
Proof.
  intros Hv. unfold vault_delta_assets_valid in Hv. apply Forall_app in Hv as [Hadd Hrem].
  unfold vault_delta_chained.
  rewrite (chained_ext added_ok
    (fun before x => true && bool_decide (vault_key x ∉ vault_key <$> before)) []).
  2: { intros l x r Heq. cbn [app andb]. rewrite Heq in Hadd.
       apply Forall_app in Hadd as [Hl Hx]. inversion_clear Hx. by apply any_same_keys. }
  rewrite (chained_ext (removed_ok (added_assets d))
    (fun before x => bool_decide (vault_key x ∉ vault_key <$> added_assets d) &&
                     bool_decide (vault_key x ∉ vault_key <$> before)) []).
  2: { intros l x r Heq. cbn [app]. unfold removed_ok. rewrite Heq in Hrem.
       apply Forall_app in Hrem as [Hl Hx]. inversion_clear Hx.
       rewrite !any_same_keys by done. apply andb_comm. }
  rewrite (chained_fresh vault_key (fun _ => true)).
  rewrite (chained_fresh vault_key (fun x => bool_decide (vault_key x ∉ vault_key <$> added_assets d))).
  rewrite fmap_app, NoDup_app, (Forall_forall _ (removed_assets d)).
  setoid_rewrite bool_decide_eq_true. split.
  - intros [[_ Hna] [Hdis Hnr]]. split_and!; [done| |done].
    intros k Hk (a & -> & Ha)%list_elem_of_fmap. by apply (Hdis a Ha).
  - intros (Hna & Hdis & Hnr). split_and!; [by apply Forall_true|done| |done].
    intros a Ha Hk. apply (Hdis _ Hk), list_elem_of_fmap. eauto.
Qed.

Lemma vault_delta_validate_spec (d : AccountVaultDelta) :
  vault_delta_assets_valid d -> vault_delta_validate d = Ok tt <-> vault_delta_valid d.
Proof.
  intros Hv. unfold vault_delta_validate, vault_delta_valid. rewrite <- vault_delta_chained_spec by done.
  destruct (decide (_ > 65535)); [split; [done|lia]|].
  destruct (decide (_ > 65535)); [split; [done|lia]|].
  rewrite bind_ok. unfold vault_delta_chained.
  rewrite <- (check_each_chained check_added_asset).
  2: { intros l x. unfold check_added_asset, added_ok. by destruct (any_same l x). }
  rewrite <- (check_each_chained (check_removed_asset (added_assets d))).
  2: { intros l x. unfold check_removed_asset, removed_ok.
       by destruct (any_same l x), (any_same (added_assets d) x). }
  split.
  - intros ([] & Hc & Hu). split_and!; (done || lia).
  - intros (_ & _ & Hc & Hu). by exists tt.
Qed.

Lemma validate_nonce_spec nonce s v :
  validate_nonce nonce s v = Ok tt <-> nonce_rule nonce s v.
Proof.
  unfold validate_nonce, nonce_rule, storage_delta_is_empty, vault_delta_is_empty.
  destruct s as [[|c cs] [|u us]], v as [[|a la] [|r rs]]; cbn;
    destruct nonce as [n|]; try case_decide; naive_solver.
Qed.

Lemma account_delta_new_spec s v nonce d :
  vault_delta_assets_valid v ->
  account_delta_new s v nonce = Ok d <->
  d = mkAccountDelta s v nonce /\ account_delta_valid d.
Proof.
  intros Hv. unfold account_delta_new, account_delta_valid. split.
  - intros Hnew. inv_res. destruct x, x0, x1. cbn.
    rewrite storage_delta_validate_spec in H. rewrite vault_delta_validate_spec in H0 by done.
    rewrite validate_nonce_spec in H1. done.
  - intros (-> & Hs & Hva & Hn). cbn in *.
    apply storage_delta_validate_spec in Hs. apply vault_delta_validate_spec in Hva; [|done].
    apply validate_nonce_spec in Hn. by rewrite Hs, Hva; cbn; rewrite Hn.
Qed.
End lemmas.

Section serialization.
Context `{F : Field} {FL : FieldLaws F} {C : Crypto} {AS : Assembly} {FE : Features} {D : Display}
  {B : Build} {IO : ByteIO} {IOL : ByteIOLaws IO}.

(** An updated item on the wire: its index, then its value. *)
Definition updated_item_codec : Codec (Z * Word) := {|
  write_into e := write_into u8_codec (fst e) +w+ write_into word_codec (snd e);
  read_from := idx ← read_from u8_codec; value ← read_from word_codec; mret (idx, value)
|}.

Lemma updated_item_round_trips : round_trips updated_item_codec (fun e => 0 <= e.1 < 2 ^ 8).
Proof.
  apply round_trip_intro. intros [i w] Hi.
  destruct (round_trip_elim _ _ i u8_round_trip Hi) as (b1 & Hw1 & Hr1).
  destruct (round_trip_elim _ _ w word_round_trip I) as (b2 & Hw2 & Hr2).
  exists (b1 ++ b2). split; [by apply wappend_ok|]. intros rest. rewrite <- app_assoc.
  cbn [read_from updated_item_codec]. erewrite mut_bind_ok by apply Hr1.
  by erewrite mut_bind_ok by apply Hr2.
Qed.

Lemma write_many_each {A} (c : Codec A) xs : write_many c xs = write_each (write_into c) xs.
Proof.
  induction xs as [|x xs IH]; [apply write_many_nil|]. rewrite write_many_cons, IH. done.
Qed.

Lemma read_cleared_loop xs :
  Forall (fun i => 0 <= i < 2 ^ 8) xs ->
  exists bs, write_each (write_into u8_codec) xs = Ok bs /\ forall rest,
    (chained cleared_ok [] xs ->
       read_loop (length xs) read_cleared_item [] (bs ++ rest) = (rest, Ok xs)) /\
    (~ chained cleared_ok [] xs ->
       exists rest' e, read_loop (length xs) read_cleared_item [] (bs ++ rest) = (rest', Err e)).
Proof.
  intros Hxs. destruct (read_loop_chained u8_codec (fun i => 0 <= i < 2 ^ 8) cleared_ok
    read_cleared_item xs u8_round_trip Hxs) as (bs & Hw & Hr).
  - intros acc x src rest Hread Hok. unfold read_cleared_item. erewrite mut_bind_ok by exact Hread.
    unfold cleared_ok, slot_ok in Hok. rewrite list_fmap_id, andb_true_iff, !bool_decide_eq_true in Hok.
    cbn in Hok. by rewrite !decide_False by (tauto || lia).
  - intros acc x src rest Hread Hok. unfold read_cleared_item, invalid.
    erewrite mut_bind_ok by exact Hread.
    unfold cleared_ok, slot_ok in Hok. rewrite list_fmap_id in Hok.
    apply andb_false_iff in Hok. rewrite !bool_decide_eq_false in Hok. cbn in Hok.
    case_decide; [by eexists|]. case_decide; [by eexists|]. exfalso. destruct Hok; [lia|tauto].
  - exists bs. split; [done|]. intros rest. apply (Hr [] rest).
Qed.

Lemma read_updated_loop cleared xs :
  Forall (fun e => 0 <= e.1 < 2 ^ 8) xs ->
  exists bs, write_each (write_into updated_item_codec) xs = Ok bs /\ forall rest,
    (chained (updated_ok cleared) [] xs ->
       read_loop (length xs) (read_updated_item cleared) [] (bs ++ rest) = (rest, Ok xs)) /\
    (~ chained (updated_ok cleared) [] xs -> exists rest' e,
       read_loop (length xs) (read_updated_item cleared) [] (bs ++ rest) = (rest', Err e)).
Proof.
  intros Hxs. destruct (read_loop_chained updated_item_codec (fun e => 0 <= e.1 < 2 ^ 8)
    (updated_ok cleared) (read_updated_item cleared) xs updated_item_round_trips Hxs) as (bs & Hw & Hr).
  - intros acc [i w] src rest Hread Hok.
    apply mut_bind_inv in Hread as (src1 & i' & Hi & Hread).
    apply mut_bind_inv in Hread as (src2 & w' & Hwd & Hread). cbv in Hread. simplify_eq.
    unfold read_updated_item. erewrite mut_bind_ok by exact Hi. erewrite mut_bind_ok by exact Hwd.
    unfold updated_ok, slot_ok in Hok. rewrite !andb_true_iff, !bool_decide_eq_true in Hok. cbn in Hok.
    by rewrite !decide_False by (tauto || lia).
  - intros acc [i w] src rest Hread Hok.
    apply mut_bind_inv in Hread as (src1 & i' & Hi & Hread).
    apply mut_bind_inv in Hread as (src2 & w' & Hwd & Hread). cbv in Hread. simplify_eq.
    unfold read_updated_item, invalid. erewrite mut_bind_ok by exact Hi. erewrite mut_bind_ok by exact Hwd.
    unfold updated_ok, slot_ok in Hok.
    rewrite !andb_false_iff, !bool_decide_eq_false in Hok. cbn in Hok.
    repeat (case_decide; [by eexists|]). exfalso. destruct Hok as [[?|?]|?]; [lia|tauto|tauto].
  - exists bs. split; [done|]. intros rest. apply (Hr [] rest).
Qed.

Lemma read_added_loop xs :
  Forall asset_valid xs ->
  exists bs, write_many asset_codec xs = Ok bs /\ forall rest,
    (chained added_ok [] xs ->
       read_loop (length xs) read_added_asset [] (bs ++ rest) = (rest, Ok xs)) /\
    (~ chained added_ok [] xs ->
       exists rest' e, read_loop (length xs) read_added_asset [] (bs ++ rest) = (rest', Err e)).
Proof.
  intros Hxs. rewrite write_many_each. destruct (read_loop_chained asset_codec asset_valid added_ok
    read_added_asset xs asset_codec_round_trips Hxs) as (bs & Hw & Hr).
  - intros acc x src rest Hread Hok. unfold read_added_asset. erewrite mut_bind_ok by exact Hread.
    unfold added_ok in Hok. by destruct (any_same acc x).
  - intros acc x src rest Hread Hok. unfold read_added_asset, invalid. erewrite mut_bind_ok by exact Hread.
    unfold added_ok in Hok. destruct (any_same acc x); [by eexists|done].
  - exists bs. split; [done|]. intros rest. apply (Hr [] rest).
Qed.

Lemma read_removed_loop added xs :
  Forall asset_valid xs ->
  exists bs, write_many asset_codec xs = Ok bs /\ forall rest,
    (chained (removed_ok added) [] xs ->
       read_loop (length xs) (read_removed_asset added) [] (bs ++ rest) = (rest, Ok xs)) /\
    (~ chained (removed_ok added) [] xs -> exists rest' e,
       read_loop (length xs) (read_removed_asset added) [] (bs ++ rest) = (rest', Err e)).
Proof.
  intros Hxs. rewrite write_many_each. destruct (read_loop_chained asset_codec asset_valid
    (removed_ok added) (read_removed_asset added) xs asset_codec_round_trips Hxs) as (bs & Hw & Hr).
  - intros acc x src rest Hread Hok. unfold read_removed_asset. erewrite mut_bind_ok by exact Hread.
    unfold removed_ok in Hok. by destruct (any_same acc x), (any_same added x).
  - intros acc x src rest Hread Hok. unfold read_removed_asset, invalid.
    erewrite mut_bind_ok by exact Hread. unfold removed_ok in Hok.
    destruct (any_same acc x), (any_same added x); (done || by eexists).
  - exists bs. split; [done|]. intros rest. apply (Hr [] rest).
Qed.

(** A count that is asserted to fit is written and read back. *)
Lemma count_step (c : Codec Z) (w : Z) (n : nat) :
  round_trips c (fun v => 0 <= v < 2 ^ w) -> Z.of_nat n <= 2 ^ w - 1 ->
  exists bs, (_ ← assert_ (bool_decide (Z.of_nat n <= 2 ^ w - 1)); write_into c (Z.of_nat n)) = Ok bs /\
    forall rest, read_from c (bs ++ rest) = (rest, Ok (Z.of_nat n)).
Proof.
  intros Hc Hn. rewrite bool_decide_true by done. cbn [assert_ mbind res_bind].
  apply (round_trip_elim _ _ _ Hc). lia.
Qed.

Lemma storage_delta_codec_effect d :
  storage_delta_u8 d -> (length (cleared_items d) <= 255)%nat -> (length (updated_items d) <= 255)%nat ->
  exists bs, write_into storage_delta_codec d = Ok bs /\ forall rest,
    (storage_delta_chained d -> read_from storage_delta_codec (bs ++ rest) = (rest, Ok d)) /\
    (~ storage_delta_chained d ->
       exists rest' e, read_from storage_delta_codec (bs ++ rest) = (rest', Err e)).
Proof.
  intros Hu8 Hlc Hlu. unfold storage_delta_u8 in Hu8. rewrite Forall_app, Forall_fmap in Hu8.
  destruct Hu8 as [Hu8c Hu8u].
  destruct (count_step u8_codec 8 (length (cleared_items d)) u8_round_trip) as (b1 & Hw1 & Hr1); [lia|].
  destruct (count_step u8_codec 8 (length (updated_items d)) u8_round_trip) as (b3 & Hw3 & Hr3); [lia|].
  destruct (read_cleared_loop (cleared_items d) Hu8c) as (b2 & Hw2 & Hr2).
  destruct (read_updated_loop (cleared_items d) (updated_items d) Hu8u) as (b4 & Hw4 & Hr4).
  exists (b1 ++ b2 ++ b3 ++ b4). split; [by repeat apply wappend_ok|].
  intros rest. rewrite <- !app_assoc. cbn [read_from storage_delta_codec].
  erewrite mut_bind_ok by apply Hr1. rewrite Nat2Z.id.
  destruct (Hr2 (b3 ++ b4 ++ rest)) as [Hgood2 Hbad2]. destruct (Hr4 rest) as [Hgood4 Hbad4].
  unfold storage_delta_chained.
  destruct (decide (chained cleared_ok [] (cleared_items d))) as [Hc|Hc].
  - erewrite mut_bind_ok by (by apply Hgood2). erewrite mut_bind_ok by apply Hr3. rewrite Nat2Z.id. split.
    + intros [_ Hu]. erewrite mut_bind_ok by (by apply Hgood4). by destruct d.
    + intros Hn. destruct Hbad4 as (rest' & e & He); [tauto|]. exists rest', e. by apply mut_bind_err.
  - split; [tauto|]. intros _. destruct (Hbad2 Hc) as (rest' & e & He). exists rest', e.
    by apply mut_bind_err.
Qed.

Lemma vault_delta_codec_effect d :
  vault_delta_assets_valid d -> Z.of_nat (length (added_assets d)) <= 65535 ->
  Z.of_nat (length (removed_assets d)) <= 65535 ->
  exists bs, write_into vault_delta_codec d = Ok bs /\ forall rest,
    (vault_delta_chained d -> read_from vault_delta_codec (bs ++ rest) = (rest, Ok d)) /\
    (~ vault_delta_chained d ->
       exists rest' e, read_from vault_delta_codec (bs ++ rest) = (rest', Err e)).
Proof.
  intros Hv Hla Hlr. unfold vault_delta_assets_valid in Hv. apply Forall_app in Hv as [Hva Hvr].
  destruct (count_step u16_codec 16 (length (added_assets d)) u16_round_trip) as (b1 & Hw1 & Hr1); [lia|].
  destruct (count_step u16_codec 16 (length (removed_assets d)) u16_round_trip) as (b3 & Hw3 & Hr3); [lia|].
  destruct (read_added_loop (added_assets d) Hva) as (b2 & Hw2 & Hr2).
  destruct (read_removed_loop (added_assets d) (removed_assets d) Hvr) as (b4 & Hw4 & Hr4).
  exists (b1 ++ b2 ++ b3 ++ b4). split; [by repeat apply wappend_ok|].
  intros rest. rewrite <- !app_assoc. cbn [read_from vault_delta_codec].
  erewrite mut_bind_ok by apply Hr1. rewrite Nat2Z.id.
  destruct (Hr2 (b3 ++ b4 ++ rest)) as [Hgood2 Hbad2]. destruct (Hr4 rest) as [Hgood4 Hbad4].
  unfold vault_delta_chained.
  destruct (decide (chained added_ok [] (added_assets d))) as [Hc|Hc].
  - erewrite mut_bind_ok by (by apply Hgood2). erewrite mut_bind_ok by apply Hr3. rewrite Nat2Z.id. split.
    + intros [_ Hu]. erewrite mut_bind_ok by (by apply Hgood4). by destruct d.
    + intros Hn. destruct Hbad4 as (rest' & e & He); [tauto|]. exists rest', e. by apply mut_bind_err.
  - split; [tauto|]. intros _. destruct (Hbad2 Hc) as (rest' & e & He). exists rest', e.
    by apply mut_bind_err.
Qed.

(** Sizes the count prefixes can carry. *)
Definition account_delta_sized (d : AccountDelta) : Prop :=
  (length (cleared_items (delta_storage d)) <= 255)%nat /\
  (length (updated_items (delta_storage d)) <= 255)%nat /\
  Z.of_nat (length (added_assets (delta_vault d))) <= 65535 /\
  Z.of_nat (length (removed_assets (delta_vault d))) <= 65535.

#[export] Instance nonce_rule_dec nonce s v : Decision (nonce_rule nonce s v).
Proof.
  pose proof (validate_nonce_spec nonce s v) as Hspec.
  destruct (validate_nonce nonce s v) as [[]|e|]; [left; by apply Hspec|right; by intros ?%Hspec..].
Defined.
End serialization.

Section effect.
Context `{F : Field} {FL : FieldLaws F} {C : Crypto} {AS : Assembly} {FE : Features} {D : Display}
  {B : Build} {IO : ByteIO} {IOL : ByteIOLaws IO}.

Lemma account_delta_codec_effect d (Ht : account_delta_typed d) (Hsz : account_delta_sized d) :
  exists bs, write_into account_delta_codec d = Ok bs /\ forall rest,
    (account_delta_valid d -> read_from account_delta_codec (bs ++ rest) = (rest, Ok d)) /\
    (~ account_delta_valid d ->
       exists rest' e, read_from account_delta_codec (bs ++ rest) = (rest', Err e)).
Proof.
  destruct d as [s v nonce], Ht as [Hs Hv], Hsz as (H1 & H2 & H3 & H4). cbn in *.
  destruct (storage_delta_codec_effect s Hs H1 H2) as (b1 & Hw1 & Hr1).
  destruct (vault_delta_codec_effect v Hv H3 H4) as (b2 & Hw2 & Hr2).
  destruct (round_trip_elim _ _ nonce (option_round_trip felt_codec _ felt_round_trip))
    as (b3 & Hw3 & Hr3); [done|].
  exists (b1 ++ b2 ++ b3). split; [by repeat apply wappend_ok|]. intros rest.
  assert (Hiff : account_delta_valid (mkAccountDelta s v nonce) <->
    storage_delta_chained s /\ vault_delta_chained v /\ nonce_rule nonce s v).
  { unfold account_delta_valid, storage_delta_valid, vault_delta_valid. cbn.
    rewrite storage_delta_chained_spec, vault_delta_chained_spec by done. tauto. }
  rewrite Hiff, <- !app_assoc. clear Hiff. cbn [read_from account_delta_codec].
  destruct (Hr1 (b2 ++ b3 ++ rest)) as [Hg1 Hb1], (Hr2 (b3 ++ rest)) as [Hg2 Hb2].
  destruct (decide (storage_delta_chained s)) as [Hcs|Hcs].
  2: { split; [tauto|]. intros _. destruct (Hb1 Hcs) as (r & e & He). exists r, e. by apply mut_bind_err. }
  erewrite mut_bind_ok by (by apply Hg1). destruct (decide (vault_delta_chained v)) as [Hcv|Hcv].
  2: { split; [tauto|]. intros _. destruct (Hb2 Hcv) as (r & e & He). exists r, e. by apply mut_bind_err. }
  erewrite mut_bind_ok by (by apply Hg2). erewrite mut_bind_ok by apply Hr3.
  rewrite <- validate_nonce_spec.
  assert (Hnp : validate_nonce nonce s v <> Panic).
  { unfold validate_nonce. repeat case_match; done. }
  destruct (validate_nonce nonce s v) as [[]|e|]; [|split; [naive_solver|intros _; by do 2 eexists]|done].
  split; [done|tauto].
Qed.
End effect.

(** ** Properties *)

Section properties.
Context `{F : Field} {FL : FieldLaws F} {C : Crypto} {AS : Assembly} {FE : Features} {D : Display}
  {B : Build} {IO : ByteIO} {IOL : ByteIOLaws IO}.

(** An account delta is accepted exactly when no storage slot is touched twice
    and none is the reserved slot, no asset is added or removed twice or both,
    the counts fit their prefixes, and the nonce is updated, to a value other
    than zero, if and only if the delta is not empty. Too many updated storage
    items are reported with the error for removed assets. *)
Theorem account_delta_new_accepts s v nonce d (Hv : vault_delta_assets_valid v) :
  (account_delta_new s v nonce = Ok d <->
   d = mkAccountDelta s v nonce /\ storage_delta_valid s /\ vault_delta_valid v /\ nonce_rule nonce s v) /\
  ((length (cleared_items s) <= 255)%nat -> (255 < length (updated_items s))%nat ->
   account_delta_new s v nonce = Err (TooManyRemovedAssets (Z.of_nat (length (updated_items s))) 255)).
Proof.
  split.
  - rewrite account_delta_new_spec by done. unfold account_delta_valid. naive_solver.
  - intros Hc Hu. unfold account_delta_new, storage_delta_validate. rewrite decide_False by lia.
    by rewrite decide_True by lia.
Qed.

(** A delta that the constructor accepts is written and read back unchanged; a
    delta of the same sizes that it refuses is refused by the deserializer as
    well, which validates with its own loops. *)
Theorem account_delta_serialization d (Ht : account_delta_typed d) (Hsz : account_delta_sized d) :
  exists bs, write_into account_delta_codec d = Ok bs /\ forall rest,
    (account_delta_valid d -> read_from account_delta_codec (bs ++ rest) = (rest, Ok d)) /\
    (~ account_delta_valid d ->
       exists rest' e, read_from account_delta_codec (bs ++ rest) = (rest', Err e)).
Proof. by apply account_delta_codec_effect. Qed.
End properties.

(** ** Witnesses *)

Import RefInstances.

Definition sample_delta : AccountDelta :=
  mkAccountDelta (mkAccountStorageDelta [1; 2] [(3, EMPTY_WORD)])
    (mkAccountVaultDelta [Fungible (sample_fungible 5)] [NonFungible sample_non_fungible])
    (Some (Felt_new 1)).

Lemma sample_delta_typed : account_delta_typed sample_delta.
Proof.
  split.
  - unfold storage_delta_u8; cbn. repeat constructor; lia.
  - unfold vault_delta_assets_valid. cbn [delta_vault sample_delta added_assets removed_assets app].
    constructor; [by apply sample_fungible_valid|]. constructor; [|constructor].
    apply sample_non_fungible_valid.
Qed.

Lemma sample_delta_valid : account_delta_valid sample_delta.
Proof.
  split; [|split].
  - split_and!; cbn; [lia|lia|repeat constructor; unfold MAX_MUTABLE_STORAGE_SLOT_IDX; lia|].
    repeat (apply NoDup_cons_2; [set_solver|]). constructor.
  - split_and!; cbn -[vault_key]; [lia|lia|]. apply NoDup_cons_2; [|by apply NoDup_singleton].
    intros Hin%list_elem_of_singleton. apply (f_equal (fun w => as_int (w3 w))) in Hin. done.
  - split; [|by left]. intros Heq. apply (f_equal as_int) in Heq. done.
Qed.

Lemma account_delta_new_accepts_witness :
  account_delta_new (delta_storage sample_delta) (delta_vault sample_delta) (delta_nonce sample_delta) =
  Ok sample_delta.
Proof.
  apply (account_delta_new_accepts (delta_storage sample_delta) (delta_vault sample_delta)
    (delta_nonce sample_delta) sample_delta (proj2 sample_delta_typed)).
  split; [reflexivity|apply sample_delta_valid].
Defined.

Lemma account_delta_serialization_witness :
  exists bs, write_into account_delta_codec sample_delta = Ok bs /\
    read_from account_delta_codec bs = ([], Ok sample_delta).
Proof.
  destruct (account_delta_serialization sample_delta sample_delta_typed) as (bs & Hw & Hr).
  { unfold account_delta_sized. cbn. lia. }
  exists bs. split; [exact Hw|]. destruct (Hr []) as [Hok _]. rewrite app_nil_r in Hok.
  apply Hok, sample_delta_valid.
Defined.
