(* ===== verification/Code.v ===== *)
(** accounts/code.rs: the public interface of an account, the list of its
    procedure roots and the tree that commits to it. *)
From stdpp Require Import sorting.
From S2P Require Import Prelude Interfaces Types Reference Storage.
Local Open Scope Z_scope.

(** The order of byte arrays, which [sort_by_key] uses. *)
Fixpoint lex_le (a b : list Z) : bool :=
  match a, b with
  | [], _ => true
  | _ :: _, [] => false
  | x :: a', y :: b' => (x <? y) || ((x =? y) && lex_le a' b')
  end.

Definition PROCEDURE_TREE_DEPTH : Z := 8.
Definition MAX_NUM_PROCEDURES : Z := 2 ^ PROCEDURE_TREE_DEPTH.

Section code.
Context `{F : Field} {C : Crypto} {AS : Assembly} {B : Build}.

Record AccountCode := mkAccountCode {
  module : ModuleAst;
  procedures : list Digest;
  procedure_tree : SimpleSmt PROCEDURE_TREE_DEPTH }.

Definition digest_le (a b : Digest) : Prop := lex_le (digest_bytes a) (digest_bytes b) = true.
#[export] Instance digest_le_dec : RelDecision digest_le.
Proof. intros a b. unfold digest_le. apply _. Defined.

Definition build_procedure_tree {E} (procedures : list Digest)
    : res E (SimpleSmt PROCEDURE_TREE_DEPTH) :=
  let procedures := merge_sort digest_le procedures in
  expect_ok (SimpleSmt_with_leaves PROCEDURE_TREE_DEPTH (enumerate procedures)).

Definition code_new (module : ModuleAst) (assembler : Assembler) : res AccountError AccountCode :=
  procedures ← map_err AccountCodeAssemblerError (compile_module assembler module);
  let n := Z.of_nat (length procedures) in
  if decide (n = 0) then Err AccountCodeNoProcedures
  else if decide (n > MAX_NUM_PROCEDURES)
  then Err (AccountCodeTooManyProcedures MAX_NUM_PROCEDURES n)
  else
    tree ← build_procedure_tree procedures;
    Ok (mkAccountCode module procedures tree).

Definition code_from_parts {E} (module : ModuleAst) (procedures : list Digest) : res E AccountCode :=
  _ ← assert_ (bool_decide (length procedures <> 0%nat));
  _ ← assert_ (bool_decide (Z.of_nat (length procedures) <= MAX_NUM_PROCEDURES));
  tree ← build_procedure_tree procedures;
  Ok (mkAccountCode module procedures tree).

Definition code_root (self : AccountCode) : Digest := SimpleSmt_root (procedure_tree self).
Definition num_procedures (self : AccountCode) : Z := Z.of_nat (length (procedures self)).
Definition has_procedure (self : AccountCode) (root : Digest) : bool :=
  bool_decide (root ∈ procedures self).
Definition get_procedure_by_index {E} (self : AccountCode) (index : nat) : res E Digest :=
  expect (procedures self !! index).
Definition get_procedure_index_by_root (self : AccountCode) (root : Digest) : option nat :=
  fst <$> list_find (fun r => r = root) (procedures self).

(** [impl PartialEq]: the tree is not compared. *)
Definition code_eq (self other : AccountCode) : bool :=
  bool_decide (module self = module other) && bool_decide (procedures self = procedures other).

Context {IO : ByteIO}.

(** The count is stored minus one, so that 256 fits a byte. *)
Definition code_codec : Codec AccountCode := {|
  write_into self :=
    write_into module_codec (module self) +w+
    (n ← sub_w 64 (Z.of_nat (length (procedures self))) 1;
     write_into u8_codec (n mod 2 ^ 8)) +w+
    write_many digest_codec (procedures self);
  read_from :=
    m ← read_from module_codec;
    n ← read_from u8_codec;
    ps ← read_many digest_codec (Z.to_nat (n + 1));
    lift (code_from_parts m ps)
|}.
End code.
Arguments AccountCode {_ _ _}.

(** ** Specification *)

Section spec.
Context `{F : Field} {C : Crypto} {AS : Assembly}.

(** One to 256 procedures, and the tree is built from them. *)
Definition code_wf (c : AccountCode) : Prop :=
  1 <= Z.of_nat (length (procedures c)) <= MAX_NUM_PROCEDURES /\
  build_procedure_tree (E := Empty_set) (procedures c) = Ok (procedure_tree c).

Definition code_encodable (c : AccountCode) : Prop := code_wf c /\ module_bare (module c).
End spec.

(** ** Lemmas *)

Lemma lex_le_total a b : lex_le a b = true \/ lex_le b a = true.
Proof.
  revert b. induction a as [|x a IH]; intros [|y b]; cbn; auto.
  destruct (Z.ltb_spec x y), (Z.ltb_spec y x), (Z.eqb_spec x y), (Z.eqb_spec y x); cbn; auto; lia.
Qed.

Lemma lex_le_trans a b c : lex_le a b = true -> lex_le b c = true -> lex_le a c = true.
Proof.
  revert b c. induction a as [|x a IH]; intros [|y b] [|z c]; cbn; try done.
  rewrite !orb_true_iff, !andb_true_iff, !Z.ltb_lt, !Z.eqb_eq.
  intros [?|[? ?]] [?|[? ?]]; [left; lia|left; lia|left; lia|right]. split; [lia|eauto].
Qed.

Lemma lex_le_antisym a b : lex_le a b = true -> lex_le b a = true -> a = b.
Proof.
  revert b. induction a as [|x a IH]; intros [|y b]; cbn; try done.
  rewrite !orb_true_iff, !andb_true_iff, !Z.ltb_lt, !Z.eqb_eq.
  intros [?|[? ?]] [?|[? ?]]; [lia|lia|lia|]. f_equal; auto.
Qed.

Lemma enumerate_lookup {A} (l : list A) i x :
  (i, x) ∈ enumerate l <-> 0 <= i /\ l !! Z.to_nat i = Some x.
Proof.
  unfold enumerate. rewrite elem_of_lookup_imap. split.
  - intros (j & y & Heq & Hj). simplify_eq. rewrite Nat2Z.id. split; [lia|done].
  - intros [Hi Hx]. exists (Z.to_nat i), x. by rewrite Z2Nat.id.
Qed.

Lemma enumerate_nodup {A} (l : list A) : NoDup (enumerate l).*1.
Proof.
  unfold enumerate. rewrite fmap_imap. apply NoDup_alt. intros i j x Hi Hj.
  apply list_lookup_imap_Some in Hi as (? & _ & ->), Hj as (? & _ & Heq). cbn in Heq. lia.
Qed.

Section lemmas.
Context `{F : Field} {C : Crypto} {SL : SimpleSmtLaws C} {DL : DigestLaws C} {AS : Assembly} {B : Build}.

#[local] Instance digest_le_total : Total (digest_le (C := C)).
Proof. intros a b. apply lex_le_total. Qed.
#[local] Instance digest_le_trans : Transitive (digest_le (C := C)).
Proof. intros a b c. apply lex_le_trans. Qed.
#[local] Instance digest_le_antisym : AntiSymm eq (digest_le (C := C)).
Proof. intros a b Hab Hba. apply digest_bytes_inj. by apply lex_le_antisym. Qed.

Lemma sorted_procedures_perm (ps ps' : list Digest) :
  ps ≡ₚ ps' -> merge_sort digest_le ps = merge_sort digest_le ps'.
Proof.
  intros Hp. apply (Sorted_unique digest_le).
  - apply (Sorted_merge_sort digest_le).
  - apply (Sorted_merge_sort digest_le).
  - by rewrite !merge_sort_Permutation.
Qed.

(** The tree is built for up to 256 procedures, and its leaves are the sorted list. *)
Lemma build_procedure_tree_ok {E} (ps : list Digest) :
  Z.of_nat (length ps) <= MAX_NUM_PROCEDURES ->
  exists t, build_procedure_tree (E := E) ps = Ok t /\
    forall i p, merge_sort digest_le ps !! i = Some p -> SimpleSmt_get t (Z.of_nat i) = p.
Proof.
  intros Hlen. set (l := merge_sort digest_le ps).
  assert (Hl : length l = length ps) by (apply Permutation_length, merge_sort_Permutation).
  assert (Hr : Forall (fun e => 0 <= fst e < 2 ^ PROCEDURE_TREE_DEPTH) (enumerate l)).
  { apply Forall_forall. intros [i p] [Hi Hp]%enumerate_lookup.
    apply lookup_lt_Some in Hp. unfold MAX_NUM_PROCEDURES in Hlen. cbn [fst]. lia. }
  destruct (SimpleSmt_with_leaves_ok PROCEDURE_TREE_DEPTH (enumerate l) (enumerate_nodup l) Hr)
    as (t & Ht & Hget).
  exists t. unfold build_procedure_tree. fold l. rewrite Ht. split; [done|].
  intros i p Hp. apply lookup_lt_Some in Hp as Hlt. rewrite Hget.
  - apply entry_or_in; [apply enumerate_nodup|]. apply enumerate_lookup. rewrite Nat2Z.id. split; [lia|done].
  - unfold MAX_NUM_PROCEDURES in Hlen. lia.
Qed.

(** The error type of the build is immaterial: it only succeeds or panics. *)
Lemma build_procedure_tree_error {E E'} (ps : list Digest) t :
  build_procedure_tree (E := E) ps = Ok t <-> build_procedure_tree (E := E') ps = Ok t.
Proof. unfold build_procedure_tree. by rewrite !expect_ok_ok. Qed.

Lemma code_from_parts_wf {E} (m : ModuleAst) (ps : list Digest) :
  1 <= Z.of_nat (length ps) <= MAX_NUM_PROCEDURES ->
  exists t, code_from_parts (E := E) m ps = Ok (mkAccountCode m ps t) /\
    code_wf (mkAccountCode m ps t).
Proof.
  intros Hlen. destruct (build_procedure_tree_ok (E := Empty_set) ps) as (t & Ht & _); [lia|].
  exists t. unfold code_from_parts. rewrite !bool_decide_true by lia. cbn [assert_ mbind res_bind].
  rewrite (proj1 (build_procedure_tree_error ps t) Ht). done.
Qed.
End lemmas.

Section serialization.
Context `{F : Field} {C : Crypto} {SL : SimpleSmtLaws C} {AS : Assembly} {AL : AssemblyLaws AS}
  {B : Build} {IO : ByteIO} {IOL : ByteIOLaws IO}.

Lemma code_codec_round_trips : round_trips code_codec code_encodable.
Proof.
  apply round_trip_intro. intros c [[Hlen Htree] Hbare].
  destruct (round_trip_elim _ _ (module c) module_round_trip Hbare) as (b1 & Hw1 & Hr1).
  set (n := Z.of_nat (length (procedures c))) in *. unfold MAX_NUM_PROCEDURES, PROCEDURE_TREE_DEPTH in Hlen.
  destruct (round_trip_elim _ _ ((n - 1) mod 2 ^ 8) u8_round_trip) as (b2 & Hw2 & Hr2);
    [by apply Z.mod_pos_bound|].
  destruct (many_round_trip digest_codec (fun _ => True) (procedures c) digest_round_trip)
    as (b3 & Hw3 & Hr3); [by apply Forall_true|].
  exists (b1 ++ b2 ++ b3). split.
  - apply wappend_ok; [done|]. apply wappend_ok; [|done]. unfold sub_w. fold n.
    rewrite decide_True by lia. done.
  - intros rest. rewrite <- !app_assoc. cbn [read_from code_codec].
    erewrite mut_bind_ok by apply Hr1. erewrite mut_bind_ok by apply Hr2.
    rewrite Z.mod_small by lia. replace (Z.to_nat (n - 1 + 1)) with (length (procedures c)) by lia.
    erewrite mut_bind_ok by apply Hr3. apply lift_step. unfold code_from_parts.
    rewrite !bool_decide_true by (unfold MAX_NUM_PROCEDURES, PROCEDURE_TREE_DEPTH; lia).
    cbn [assert_ mbind res_bind].
    rewrite (proj1 (build_procedure_tree_error _ _) Htree). by destruct c.
Qed.
End serialization.

(** ** Properties *)

Section properties.
Context `{F : Field} {C : Crypto} {SL : SimpleSmtLaws C} {DL : DigestLaws C} {AS : Assembly}
  {AL : AssemblyLaws AS} {B : Build} {IO : ByteIO} {IOL : ByteIOLaws IO}.

Lemma code_new_ok (m : ModuleAst) (assembler : Assembler) c :
  code_new m assembler = Ok c <-> compile_module assembler m = Ok (procedures c) /\ module c = m /\ code_wf c.
Proof.
  unfold code_new, code_wf, MAX_NUM_PROCEDURES, PROCEDURE_TREE_DEPTH. split.
  - intros Hc. inv_res. repeat case_decide; inv_res. cbn.
    apply (build_procedure_tree_error (E' := Empty_set)) in H0. split_and!; (done || lia).
  - intros (Hc & <- & Hlen & Htree). rewrite Hc. cbn [map_err mbind res_bind].
    rewrite !decide_False by lia.
    rewrite (proj1 (build_procedure_tree_error _ _) Htree). by destruct c.
Qed.

(** Account code is made exactly from modules that compile to 1 to 256
    procedures; then building the tree never panics, and the root does not
    depend on the order in which the procedures were compiled. *)
Theorem code_new_spec (m : ModuleAst) (assembler : Assembler) :
  (forall c, code_new m assembler = Ok c <->
    compile_module assembler m = Ok (procedures c) /\ module c = m /\ code_wf c) /\
  (code_new m assembler <> Panic \/ compile_module assembler m = Panic) /\
  (forall m' assembler' c c', code_new m assembler = Ok c -> code_new m' assembler' = Ok c' ->
    procedures c ≡ₚ procedures c' -> code_root c = code_root c').
Proof.
  split; [apply code_new_ok|]. split.
  - unfold code_new. destruct (compile_module assembler m) as [ps|e|]; [|by left|by right]. left.
    cbn [map_err mbind res_bind]. repeat case_decide; try done.
    destruct (build_procedure_tree_ok (E := AccountError) ps) as (t & -> & _); [lia|done].
  - intros m' a' c c' [_ [_ [_ Ht]]]%code_new_ok [_ [_ [_ Ht']]]%code_new_ok Hp. unfold code_root. f_equal.
    unfold build_procedure_tree in Ht, Ht'. rewrite (sorted_procedures_perm _ _ Hp) in Ht. congruence.
Qed.

(** Looking a procedure up by root finds the first position that has it,
    exactly when the procedure is defined; reading that position back gives
    the root. *)
Theorem code_procedure_lookup (c : AccountCode) (root : Digest) :
  (has_procedure c root = true <-> get_procedure_index_by_root c root <> None) /\
  (forall i, get_procedure_index_by_root c root = Some i ->
    get_procedure_by_index (E := Empty_set) c i = Ok root /\
    forall j, (j < i)%nat -> procedures c !! j <> Some root).
Proof.
  unfold has_procedure, get_procedure_index_by_root, get_procedure_by_index.
  rewrite bool_decide_eq_true. destruct (list_find (fun r => r = root) (procedures c)) as [[i r]|] eqn:Hf; cbn.
  - apply list_find_Some in Hf as (Hi & -> & Hmin). split.
    + split; [done|]. intros _. by eapply list_elem_of_lookup_2.
    + intros ? [= <-]. rewrite Hi. split; [done|]. intros j Hj Heq. by apply (Hmin j root Heq).
  - apply list_find_None in Hf. split; [|done]. split; [|done].
    intros Hin. rewrite Forall_forall in Hf. by apply Hf in Hin.
Qed.

(** Account code with 1 to 256 procedures is written without underflow and
    read back as the same code, tree included. *)
Theorem code_serialization : round_trips code_codec code_encodable.
Proof. apply code_codec_round_trips. Qed.
End properties.

(** ** Witnesses *)

Import RefInstances.

Definition sample_module : ModuleAst := [EMPTY_WORD; mkWord ONE ONE ONE ONE].

Lemma sample_code_exists :
  exists c, code_from_parts (E := Empty_set) sample_module sample_module = Ok c /\ code_encodable c.
Proof.
  destruct (code_from_parts_wf (E := Empty_set) sample_module sample_module) as (t & Ht & Hwf).
  { by vm_compute. }
  exists (mkAccountCode sample_module sample_module t). split; [exact Ht|]. split; [exact Hwf|]. reflexivity.
Qed.

Lemma code_new_spec_witness : exists c, code_new sample_module tt = Ok c /\ procedures c = sample_module.
Proof.
  destruct sample_code_exists as (c & Hc & [Hwf _]). exists c.
  assert (Hp : procedures c = sample_module /\ module c = sample_module).
  { unfold code_from_parts in Hc. inv_res. done. }
  split; [|apply Hp]. apply (code_new_spec sample_module tt). rewrite (proj1 Hp).
  split; [reflexivity|]. split; [apply Hp|exact Hwf].
Defined.

Lemma code_serialization_witness :
  exists c bs, write_into code_codec c = Ok bs /\ read_from code_codec bs = ([], Ok c).
Proof.
  destruct sample_code_exists as (c & _ & Henc).
  destruct (code_serialization c Henc) as (bs & Hw & Hr). exists c, bs. split; [exact Hw|].
  destruct (Hr []) as (c' & Hread & Heq). rewrite app_nil_r in Hread. rewrite Hread, <- Heq. reflexivity.
Defined.
