(* ===== verification/Account.v ===== *)
(** accounts/mod.rs, stub.rs and data.rs: the account, the application of a delta
    to it, its commitment and its serialization. *)
From S2P Require Import Prelude Interfaces Types Reference AccountIds Assets Vault Storage Delta Code.
Local Open Scope Z_scope.

Section account.
Context `{F : Field} {C : Crypto} {AS : Assembly} {FE : Features} {D : Display} {B : Build}.

Record Account := mkAccount {
  acc_id : AccountId;
  acc_vault : AssetVault;
  acc_storage : AccountStorage;
  acc_code : AccountCode;
  acc_nonce : Felt }.

(** [hash_account]: sixteen elements, the positions 1 and 2 stay zero. *)
Definition hash_account (id : AccountId) (nonce : Felt) (vault_root storage_root code_root : Digest)
    : Digest :=
  hash_elements ([felt_of_id id; ZERO; ZERO; nonce] ++ word_elements vault_root ++
                 word_elements storage_root ++ word_elements code_root).

Definition account_hash (self : Account) : Digest :=
  hash_account (acc_id self) (acc_nonce self) (commitment (acc_vault self))
    (storage_root (acc_storage self)) (code_root (acc_code self)).

Definition is_new (self : Account) : bool := bool_decide (acc_nonce self = ZERO).

Definition proof_init_hash (self : Account) : Digest :=
  if is_new self then EMPTY_WORD else account_hash self.

(** Writes to the fields of an account. *)
Definition put_vault (v : AssetVault) (a : Account) : Account :=
  mkAccount (acc_id a) v (acc_storage a) (acc_code a) (acc_nonce a).
Definition put_storage (s : AccountStorage) (a : Account) : Account :=
  mkAccount (acc_id a) (acc_vault a) s (acc_code a) (acc_nonce a).
Definition put_nonce (n : Felt) (a : Account) : Account :=
  mkAccount (acc_id a) (acc_vault a) (acc_storage a) (acc_code a) n.

Definition set_nonce (nonce : Felt) : mut Account AccountError unit :=
  self ← read_self;
  if decide (as_int (acc_nonce self) >= as_int nonce)
  then lift (Err (NonceNotMonotonicallyIncreasing (as_int (acc_nonce self)) (as_int nonce)))
  else write_self (put_nonce nonce self).

(** [AccountStorage::apply_delta]: first the cleared items, then the updated ones. *)
Definition storage_apply_delta (delta : AccountStorageDelta) : mut AccountStorage AccountError unit :=
  _ ← for_each (fun slot_idx => _ ← set_item slot_idx EMPTY_WORD; mret tt) (cleared_items delta);
  for_each (fun e => _ ← set_item (fst e) (snd e); mret tt) (updated_items delta).

(** The loops over the vault delta. *)
Definition vault_add_all (assets : list Asset) : mut AssetVault AccountError unit :=
  for_each (fun a => _ ← mut_map_err AssetVaultUpdateError (add_asset a); mret tt) assets.
Definition vault_remove_all (assets : list Asset) : mut AssetVault AccountError unit :=
  for_each (fun a => _ ← mut_map_err AssetVaultUpdateError (remove_asset a); mret tt) assets.

Definition apply_delta (delta : AccountDelta) : mut Account AccountError unit :=
  _ ← on_field acc_vault put_vault (vault_add_all (added_assets (delta_vault delta)));
  _ ← on_field acc_vault put_vault (vault_remove_all (removed_assets (delta_vault delta)));
  _ ← on_field acc_storage put_storage (storage_apply_delta (delta_storage delta));
  match delta_nonce delta with
  | Some nonce => set_nonce nonce
  | None => mret tt
  end.

(** ** Stubs (accounts/stub.rs) *)

Record AccountStub := mkAccountStub {
  stub_id : AccountId;
  stub_nonce : Felt;
  stub_vault_root : Digest;
  stub_storage_root : Digest;
  stub_code_root : Digest }.

Definition stub_hash (self : AccountStub) : Digest :=
  hash_account (stub_id self) (stub_nonce self) (stub_vault_root self) (stub_storage_root self)
    (stub_code_root self).

Definition stub_of_account (account : Account) : AccountStub :=
  mkAccountStub (acc_id account) (acc_nonce account) (commitment (acc_vault account))
    (storage_root (acc_storage account)) (code_root (acc_code account)).

(** ** Account data (accounts/data.rs) *)

Inductive AuthData := RpoFalcon512Seed (seed : list Z).

Record AccountData := mkAccountData {
  ad_account : Account;
  ad_account_seed : option Word;
  ad_auth : AuthData }.

Context {IO : ByteIO}.

Definition account_codec : Codec Account := {|
  write_into self :=
    write_into account_id_codec (acc_id self) +w+ write_into vault_codec (acc_vault self) +w+
    write_into storage_codec (acc_storage self) +w+ write_into code_codec (acc_code self) +w+
    write_into felt_codec (acc_nonce self);
  read_from :=
    id ← read_from account_id_codec;
    vault ← read_from vault_codec;
    storage ← read_from storage_codec;
    code ← read_from code_codec;
    nonce ← read_from felt_codec;
    mret (mkAccount id vault storage code nonce)
|}.

Definition auth_data_codec : Codec AuthData := {|
  write_into self :=
    match self with
    | RpoFalcon512Seed seed => write_into u8_codec 0 +w+ write_many u8_codec seed
    end;
  read_from :=
    scheme ← read_from u8_codec;
    if decide (scheme = 0) then seed ← read_many u8_codec 32; mret (RpoFalcon512Seed seed)
    else lift (Err (InvalidValue ("Invalid value: " +:+ to_string scheme)%string))
|}.

Definition account_data_codec : Codec AccountData := {|
  write_into self :=
    write_into account_codec (ad_account self) +w+
    write_into (option_codec word_codec) (ad_account_seed self) +w+
    write_into auth_data_codec (ad_auth self);
  read_from :=
    account ← read_from account_codec;
    account_seed ← read_from (option_codec word_codec);
    auth ← read_from auth_data_codec;
    mret (mkAccountData account account_seed auth)
|}.
End account.
Arguments Account {_ _ _}.
Arguments AccountStub {_}.
Arguments AccountData {_ _ _}.

(** ** Specification *)

Section spec.
Context `{F : Field} {C : Crypto} {AS : Assembly}.

(** An operation of the vault specification over a list of assets. *)
Fixpoint spec_each (op : holdings -> Asset -> option (holdings * Asset)) (assets : list Asset)
    (m : holdings) : option holdings :=
  match assets with
  | [] => Some m
  | a :: assets' => '(m', _) ← op m a; spec_each op assets' m'
  end.

(** The slots a delta touches are plain values. *)
Definition storage_writable (s : AccountStorage) (d : AccountStorageDelta) : Prop :=
  Forall (fun i => layout s !! Z.to_nat i = Some (SlotValue 0)) (cleared_items d ++ (updated_items d).*1).

(** The holdings a vault delta leads to, if it can be applied. *)
Definition vault_after (a : Account) (d : AccountDelta) : option holdings :=
  spec_each spec_add (added_assets (delta_vault d)) (view (acc_vault a)) ≫=
  spec_each spec_remove (removed_assets (delta_vault d)).

(** What a slot holds after a delta. *)
Definition slot_after (s : AccountStorage) (d : AccountStorageDelta) (i : Z) : Word :=
  entry_or (updated_items d) i
    (if decide (i ∈ cleared_items d) then EMPTY_WORD else SimpleSmt_get (slots s) i).

Definition account_wf (a : Account) : Prop :=
  AccountId_valid (acc_id a) /\ vault_wf (acc_vault a) /\ storage_wf (acc_storage a) /\
  Forall slot_type_u8 (layout (acc_storage a)) /\ code_wf (acc_code a).

(** Accounts with the same identifier, code and nonce and the same vault and storage. *)
#[export] Instance account_equiv : Equiv Account := fun a a' =>
  acc_id a = acc_id a' /\ acc_vault a ≡ acc_vault a' /\ acc_storage a ≡ acc_storage a' /\
  acc_code a = acc_code a' /\ acc_nonce a = acc_nonce a'.

#[export] Instance account_equiv_equivalence : Equivalence (≡@{Account}).
Proof.
  split.
  - intros a. split_and!; reflexivity.
  - intros a a' (? & ? & ? & ? & ?). split_and!; by symmetry.
  - intros a1 a2 a3 (? & ? & ? & ? & ?) (? & ? & ? & ? & ?). split_and!; by etransitivity.
Qed.
End spec.

(** ** Lemmas *)

Section spec_lemmas.
Context `{F : Field}.

(** The specification depends on the holdings only pointwise. *)
Definition respects (op : holdings -> Asset -> option (holdings * Asset)) : Prop :=
  forall m m' a, (forall k, m k = m' k) ->
    match op m a, op m' a with
    | Some (n, x), Some (n', x') => x = x' /\ forall k, n k = n' k
    | None, None => True
    | _, _ => False
    end.

Lemma update_ext (m m' : holdings) k o : (forall k, m k = m' k) -> forall k', update m k o k' = update m' k o k'.
Proof. intros Hm k'. unfold update. by case_decide. Qed.

Lemma spec_add_respects : respects spec_add.
Proof.
  intros m m' a Hm. unfold spec_add. destruct a as [x|x]; rewrite <- Hm;
    destruct (m _) as [[y|y]|]; try case_decide; try done;
    (split; [done|]; by apply update_ext).
Qed.

Lemma spec_remove_respects : respects spec_remove.
Proof.
  intros m m' a Hm. unfold spec_remove. destruct a as [x|x]; rewrite <- Hm;
    destruct (m _) as [[y|y]|]; cbn [fa_amount];
    try destruct (decide (fa_amount x <= fa_amount y)); try done;
    (split; [done|]; by apply update_ext).
Qed.

Lemma spec_each_ext op assets m m' :
  respects op -> (forall k, m k = m' k) ->
  match spec_each op assets m, spec_each op assets m' with
  | Some n, Some n' => forall k, n k = n' k
  | None, None => True
  | _, _ => False
  end.
Proof.
  intros Hop. revert m m'. induction assets as [|a assets IH]; intros m m' Hm; cbn; [done|].
  specialize (Hop m m' a Hm). destruct (op m a) as [[n x]|], (op m' a) as [[n' x']|]; try done; cbn.
  apply IH, Hop.
Qed.
End spec_lemmas.

Section lemmas.
Context `{F : Field} {FL : FieldLaws F} {C : Crypto} {SL : SmtLaws C} {SSL : SimpleSmtLaws C}
  {AS : Assembly} {FE : Features} {D : Display} {B : Build}.

(** A loop over assets implements the specification over the list. *)
Lemma vault_each_refines (op : Asset -> mut AssetVault AssetVaultError Asset) spec assets v :
  (forall v a, vault_wf v -> asset_valid a -> refines v a (op a v) (spec (view v) a)) ->
  respects spec -> vault_wf v -> Forall asset_valid assets ->
  let '(v', r) := for_each (fun a => _ ← mut_map_err AssetVaultUpdateError (op a); mret tt) assets v in
  vault_wf v' /\
  match spec_each spec assets (view v) with
  | Some m' => r = Ok tt /\ forall k, view v' k = m' k
  | None => exists e, r = Err (AssetVaultUpdateError e)
  end.
Proof.
  intros Href Hresp Hwf Hall. revert v Hwf.
  induction Hall as [|a assets Ha _ IH]; intros v Hwf; cbn [spec_each]; [done|].
  specialize (Href v a Hwf Ha). unfold refines in Href. rewrite for_each_cons, mut_ignore.
  rewrite mut_map_err_run. destruct (op a v) as [v1 r1]. cbn [fst snd] in Href |- *.
  destruct (spec (view v) a) as [[m1 a1]|].
  - destruct Href as (-> & _ & Hwf1 & Hv1). cbn [map_err res_map mbind option_bind]. specialize (IH v1 Hwf1).
    destruct (for_each _ assets v1) as [v' r]. destruct IH as [Hwf' IH]. split; [done|].
    pose proof (spec_each_ext spec assets (view v1) m1 Hresp Hv1) as Hext.
    destruct (spec_each spec assets (view v1)) as [n|], (spec_each spec assets m1) as [n'|]; try done.
    destruct IH as [-> IH]. split; [done|]. intros k. by rewrite IH.
  - destruct Href as ((e & ->) & Hwf1 & _). cbn. eauto.
Qed.

Lemma vault_add_all_refines assets v :
  vault_wf v -> Forall asset_valid assets ->
  let '(v', r) := vault_add_all assets v in
  vault_wf v' /\
  match spec_each spec_add assets (view v) with
  | Some m' => r = Ok tt /\ forall k, view v' k = m' k
  | None => exists e, r = Err (AssetVaultUpdateError e)
  end.
Proof. apply vault_each_refines; [apply add_asset_refines|apply spec_add_respects]. Qed.

Lemma vault_remove_all_refines assets v :
  vault_wf v -> Forall asset_valid assets ->
  let '(v', r) := vault_remove_all assets v in
  vault_wf v' /\
  match spec_each spec_remove assets (view v) with
  | Some m' => r = Ok tt /\ forall k, view v' k = m' k
  | None => exists e, r = Err (AssetVaultUpdateError e)
  end.
Proof. apply vault_each_refines; [apply remove_asset_refines|apply spec_remove_respects]. Qed.

(** A loop of [set_item]s: it ends when a slot is not a plain value. *)
Lemma set_items_effect {A} (fi : A -> Z) (fv : A -> Word) (xs : list A) (s : AccountStorage) :
  storage_wf s -> Forall slot_type_u8 (layout s) ->
  Forall (fun x => 0 <= fi x < SLOT_LAYOUT_COMMITMENT_INDEX) xs ->
  let '(s', r) := for_each (fun x => _ ← set_item (fi x) (fv x); mret tt) xs s in
  storage_wf s' /\ layout s' = layout s /\
  ((r = Ok tt /\ Forall (fun x => layout s !! Z.to_nat (fi x) = Some (SlotValue 0)) xs /\
    (NoDup (fi <$> xs) -> forall i, SimpleSmt_get (slots s') i =
       entry_or ((fun x => (fi x, fv x)) <$> xs) i (SimpleSmt_get (slots s) i))) \/
   ((exists e, r = Err e) /\ ~ Forall (fun x => layout s !! Z.to_nat (fi x) = Some (SlotValue 0)) xs)).
Proof.
  intros Hwf Hu8 Hr. revert s Hwf Hu8.
  induction Hr as [|x xs Hx _ IH]; intros s Hwf Hu8.
  { cbn. split_and!; [apply Hwf..|done|]. left. split_and!; [done|constructor|done]. }
  destruct (set_item_eq s (fi x) (fv x) (proj1 Hwf) Hx) as (t & Ht & Hset).
  pose proof (Forall_lookup_1 _ _ _ _ Hu8 Ht) as Hut.
  rewrite for_each_cons, mut_ignore, Hset. clear Hset.
  assert (Hbad : forall e, t <> SlotValue 0 ->
    storage_wf s /\ layout s = layout s /\
    ((Err e = Ok tt /\ Forall (fun x => layout s !! Z.to_nat (fi x) = Some (SlotValue 0)) (x :: xs) /\
      (NoDup (fi <$> x :: xs) -> forall i, SimpleSmt_get (slots s) i =
       entry_or ((fun x => (fi x, fv x)) <$> x :: xs) i (SimpleSmt_get (slots s) i))) \/
     ((exists e' : AccountError, Err (A := unit) e = Err e') /\
      ~ Forall (fun x => layout s !! Z.to_nat (fi x) = Some (SlotValue 0)) (x :: xs)))).
  { intros e Hne. split; [done|]. split; [done|]. right. split; [by eexists|].
    rewrite Forall_cons, Ht. naive_solver. }
  destruct t as [a|a|d a]; [|by apply Hbad..].
  destruct (decide (a > 0)) as [Hpos|Hnpos]; [apply Hbad; intros [= ->]; lia|].
  cbn in Hut. assert (a = 0) as -> by lia. cbn [fst snd res_map].
  set (s1 := mkAccountStorage _ _).
  specialize (IH s1 (set_item_wf s (fi x) (fv x) Hwf Hx) Hu8).
  destruct (for_each _ xs s1) as [s' r]. destruct IH as (Hwf' & Hl' & IH).
  split; [done|]. split; [done|]. unfold s1 in IH. cbn [layout] in IH.
  rewrite Forall_cons. destruct IH as [(-> & Hall & Heff)|[He Hn]]; [left|right; naive_solver].
  split_and!; [done|done|done|]. cbn [fmap list_fmap]. intros [Hni Hnd]%NoDup_cons i.
  rewrite (Heff Hnd). cbn [slots entry_or]. rewrite SimpleSmt_get_insert
    by (unfold SLOT_LAYOUT_COMMITMENT_INDEX, STORAGE_TREE_DEPTH in *; lia).
  case_decide as Hi; [|done]. subst i. apply entry_or_notin.
  rewrite <- list_fmap_compose. done.
Qed.

Lemma storage_delta_indices (d : AccountStorageDelta) :
  storage_delta_u8 d -> storage_delta_valid d ->
  Forall (fun i => 0 <= i < SLOT_LAYOUT_COMMITMENT_INDEX) (cleared_items d) /\
  Forall (fun e => 0 <= e.1 < SLOT_LAYOUT_COMMITMENT_INDEX) (updated_items d) /\
  NoDup (cleared_items d) /\ NoDup (updated_items d).*1.
Proof.
  intros Hu8 (_ & _ & Hmax & Hnd). unfold storage_delta_u8 in Hu8.
  assert (Hall : Forall (fun i => 0 <= i < SLOT_LAYOUT_COMMITMENT_INDEX)
    (cleared_items d ++ (updated_items d).*1)).
  { rewrite Forall_forall in Hu8, Hmax |- *. intros i Hi. specialize (Hu8 i Hi). specialize (Hmax i Hi).
    unfold SLOT_LAYOUT_COMMITMENT_INDEX, MAX_MUTABLE_STORAGE_SLOT_IDX in *. lia. }
  apply Forall_app in Hall as [Hc Hu]. rewrite Forall_fmap in Hu.
  apply NoDup_app in Hnd as (Hnc & _ & Hnu). done.
Qed.

(** Applying a valid storage delta: all slots are written, or an error is returned
    because one of them is not a plain value. *)
Lemma storage_apply_delta_effect s (d : AccountStorageDelta) :
  storage_wf s -> Forall slot_type_u8 (layout s) -> storage_delta_u8 d -> storage_delta_valid d ->
  let '(s', r) := storage_apply_delta d s in
  storage_wf s' /\ layout s' = layout s /\
  ((r = Ok tt /\ storage_writable s d /\ forall i, SimpleSmt_get (slots s') i = slot_after s d i) \/
   ((exists e, r = Err e) /\ ~ storage_writable s d)).
Proof.
  intros Hwf Hu8 Hd8 Hd. destruct (storage_delta_indices d Hd8 Hd) as (Hc & Hu & Hnc & Hnu).
  assert (Hwr : storage_writable s d <->
    Forall (fun i => layout s !! Z.to_nat i = Some (SlotValue 0)) (cleared_items d) /\
    Forall (fun e => layout s !! Z.to_nat e.1 = Some (SlotValue 0)) (updated_items d))
    by (unfold storage_writable; by rewrite Forall_app, Forall_fmap).
  unfold storage_apply_delta.
  pose proof (set_items_effect id (fun _ => EMPTY_WORD) (cleared_items d) s Hwf Hu8 Hc) as H1.
  unfold id in H1. unfold mbind at 1, mut_bind at 1.
  destruct (for_each _ (cleared_items d) s) as [s1 r1]. destruct H1 as (Hwf1 & Hl1 & H1).
  destruct H1 as [(-> & Hw1 & Heff1)|[[e ->] Hn]].
  2: { split; [done|]. split; [done|]. right. split; [by eexists|]. tauto. }
  rewrite <- Hl1 in Hu8.
  pose proof (set_items_effect fst snd (updated_items d) s1 Hwf1 Hu8 Hu) as H2.
  destruct (for_each _ (updated_items d) s1) as [s2 r2]. destruct H2 as (Hwf2 & Hl2 & H2).
  split; [done|]. split; [congruence|]. rewrite Hl1 in H2.
  destruct H2 as [(-> & Hw2 & Heff2)|[[e ->] Hn]].
  2: { right. split; [by eexists|]. tauto. }
  left. split; [done|]. split; [tauto|]. intros i. rewrite (Heff2 Hnu). unfold slot_after.
  assert (Hid : (fun x : Z * Word => (x.1, x.2)) <$> updated_items d = updated_items d)
    by (clear; induction (updated_items d) as [|[? ?] l IH]; cbn; congruence).
  rewrite Hid. f_equal. rewrite list_fmap_id in Heff1. rewrite (Heff1 Hnc).
  clear. induction (cleared_items d) as [|j l IH]; cbn.
  { by rewrite decide_False by set_solver. }
  destruct (decide (j = i)) as [->|Hne]; [by rewrite decide_True by set_solver|]. rewrite IH.
  destruct (decide (i ∈ l)); [by rewrite decide_True by set_solver|by rewrite decide_False by set_solver].
Qed.

(** The nonce of a delta is acceptable for an account. *)
Definition nonce_accepted (a : Account) (nonce : option Felt) : Prop :=
  match nonce with Some n => as_int (acc_nonce a) < as_int n | None => True end.

(** The run of [apply_delta]: each stage, with the account it leaves. *)
Lemma apply_delta_stages a (d : AccountDelta) :
  account_wf a -> account_delta_typed d -> account_delta_valid d ->
  let '(a', r) := apply_delta d a in
  account_wf a' /\ acc_id a' = acc_id a /\ acc_code a' = acc_code a /\
  match vault_after a d with
  | None => (exists e, r = Err (AssetVaultUpdateError e)) /\
      acc_storage a' = acc_storage a /\ acc_nonce a' = acc_nonce a
  | Some m =>
      (forall k, view (acc_vault a') k = m k) /\
      (((exists e, r = Err e) /\ ~ storage_writable (acc_storage a) (delta_storage d) /\
        acc_nonce a' = acc_nonce a) \/
       (storage_writable (acc_storage a) (delta_storage d) /\
        layout (acc_storage a') = layout (acc_storage a) /\
        (forall i, SimpleSmt_get (slots (acc_storage a')) i =
           slot_after (acc_storage a) (delta_storage d) i) /\
        ((nonce_accepted a (delta_nonce d) /\ r = Ok tt /\
          acc_nonce a' = default (acc_nonce a) (delta_nonce d)) \/
         (~ nonce_accepted a (delta_nonce d) /\ acc_nonce a' = acc_nonce a /\
          exists n, delta_nonce d = Some n /\ r =
            Err (NonceNotMonotonicallyIncreasing (as_int (acc_nonce a)) (as_int n))))))
  end.
Proof.
  intros (Hid & Hv & Hs & Hu8 & Hc) [Hds Hdv] (Hvs & Hvv & Hn).
  unfold vault_delta_assets_valid in Hdv. apply Forall_app in Hdv as [Hadd Hrem].
  pose proof (vault_add_all_refines _ (acc_vault a) Hv Hadd) as H1.
  unfold vault_after, apply_delta, on_field. unfold mbind at 1, mut_bind at 1.
  destruct (vault_add_all (added_assets (delta_vault d)) (acc_vault a)) as [v1 r1]. destruct H1 as [Hwf1 H1].
  destruct (spec_each spec_add _ (view (acc_vault a))) as [m1|]; cbn [mbind option_bind].
  2: { destruct H1 as [e ->]. cbn. split_and!; try done. by eexists. }
  destruct H1 as [-> H1]. unfold mbind at 1, mut_bind at 1. cbn [put_vault acc_vault].
  pose proof (vault_remove_all_refines _ v1 Hwf1 Hrem) as H2.
  pose proof (spec_each_ext spec_remove (removed_assets (delta_vault d)) (view v1) m1
    spec_remove_respects H1) as Hext.
  destruct (vault_remove_all (removed_assets (delta_vault d)) v1) as [v2 r2]. destruct H2 as [Hwf2 H2].
  destruct (spec_each spec_remove _ (view v1)) as [n2|], (spec_each spec_remove _ m1) as [m2|]; try done.
  2: { destruct H2 as [e ->]. cbn. split_and!; try done. by eexists. }
  destruct H2 as [-> H2]. unfold mbind at 1, mut_bind at 1. cbn [put_vault acc_vault acc_storage].
  pose proof (storage_apply_delta_effect (acc_storage a) (delta_storage d) Hs Hu8 Hds Hvs) as H3.
  destruct (storage_apply_delta (delta_storage d) (acc_storage a)) as [s3 r3].
  destruct H3 as (Hwf3 & Hl3 & H3).
  assert (Hview : forall k, view v2 k = m2 k) by (intros k; by rewrite H2).
  assert (Hu83 : Forall slot_type_u8 (layout s3)) by (by rewrite Hl3).
  destruct H3 as [(-> & Hw & Heff)|[[e ->] Hnw]].
  2: { cbn. split_and!; try done. left. split_and!; try done. by eexists. }
  cbn [put_storage acc_id acc_vault acc_storage acc_code acc_nonce]. unfold nonce_accepted.
  destruct (delta_nonce d) as [n|]; cbn [default].
  2: { cbn. split_and!; try done. right. split_and!; try done. by left. }
  unfold set_nonce. run_mut. cbn [acc_nonce put_storage put_vault].
  destruct (decide _) as [Hge|Hlt]; cbn.
  - split_and!; try done. right. split_and!; try done. right. split_and!; [lia|done|]. by exists n.
  - split_and!; try done. right. split_and!; try done. left. split_and!; (done || lia).
Qed.
End lemmas.

#[export] Instance stub_of_account_proper `{F : Field} {C : Crypto} {SL : SmtLaws C} {SSL : SimpleSmtLaws C}
    {AS : Assembly} : Proper ((≡) ==> (=)) (stub_of_account (C := C)).
Proof.
  intros a a' (Hid & Hv & Hs & Hc & Hn). unfold stub_of_account. by rewrite Hid, Hv, Hs, Hc, Hn.
Qed.

Section serialization.
Context `{F : Field} {FL : FieldLaws F} {C : Crypto} {SL : SmtLaws C} {SSL : SimpleSmtLaws C}
  {AS : Assembly} {AL : AssemblyLaws AS} {FE : Features} {D : Display} {B : Build} {IO : ByteIO}
  {IOL : ByteIOLaws IO}.

(** An account the encoding takes, with code without debug information, and one that
    is read back from it the same. *)
Definition account_writable (a : Account) : Prop :=
  AccountId_valid (acc_id a) /\ vault_encodable (acc_vault a) /\ storage_encodable (acc_storage a) /\
  code_encodable (acc_code a).
Definition account_encodable (a : Account) : Prop :=
  account_writable a /\ storage_typed_filled (acc_storage a).

(** What reading a written account gives: all but the types of empty slots. *)
Definition account_read_as (a a' : Account) : Prop :=
  acc_id a' = acc_id a /\ acc_vault a ≡ acc_vault a' /\ storage_read_as (acc_storage a) (acc_storage a') /\
  acc_code a' = acc_code a /\ acc_nonce a' = acc_nonce a.

Lemma account_read_as_same (a a' : Account) : account_writable a -> account_read_as a a' ->
  a ≡ a' <-> storage_typed_filled (acc_storage a).
Proof.
  intros (_ & _ & [Hwf _] & _) (Hid & Hv & Hs & Hc & Hn).
  rewrite <- (storage_read_as_same _ _ Hwf Hs). split; [intros (_ & _ & Heq & _); by symmetry|].
  intros Heq. split_and!; done.
Qed.

Lemma account_codec_reads : round_trips_upto account_codec account_writable account_read_as.
Proof.
  intros [id v s c n] (Hid & Hv & Hs & Hc). cbn in *.
  destruct (round_trip_elim _ _ id account_id_codec_round_trips Hid) as (b1 & Hw1 & Hr1).
  destruct (vault_codec_round_trips v Hv) as (b2 & Hw2 & Hr2).
  destruct (storage_codec_effect s Hs) as (b3 & Hw3 & Hr3).
  destruct (round_trip_elim _ _ c code_codec_round_trips Hc) as (b4 & Hw4 & Hr4).
  destruct (round_trip_elim _ _ n felt_round_trip I) as (b5 & Hw5 & Hr5).
  exists (b1 ++ b2 ++ b3 ++ b4 ++ b5). split; [by repeat apply wappend_ok|].
  intros rest. rewrite <- !app_assoc. cbn [read_from account_codec].
  destruct (Hr2 (b3 ++ b4 ++ b5 ++ rest)) as (v' & Hr2' & Hv'), (Hr3 (b4 ++ b5 ++ rest)) as (s' & Hr3' & Hs').
  exists (mkAccount id v' s' c n). split; [|by split_and!].
  erewrite mut_bind_ok by apply Hr1. erewrite mut_bind_ok by apply Hr2'.
  erewrite mut_bind_ok by apply Hr3'. erewrite mut_bind_ok by apply Hr4.
  by erewrite mut_bind_ok by apply Hr5.
Qed.

Lemma storage_codec_round_trips :
  round_trips_upto storage_codec (fun s => storage_encodable s /\ storage_typed_filled s) (≡).
Proof.
  eapply round_trips_weaken; [apply storage_codec_effect|by intros s [? _]|].
  intros s s' [[Hwf _] Hfill] Has. symmetry. by apply storage_read_as_same.
Qed.

Lemma account_codec_round_trips : round_trips_upto account_codec account_encodable (≡).
Proof.
  eapply round_trips_weaken; [apply account_codec_reads|by intros a [? _]|].
  intros a a' [Hw Hfill] Has. by apply account_read_as_same.
Qed.

Definition auth_data_ok (auth : AuthData) : Prop :=
  match auth with RpoFalcon512Seed seed => length seed = 32%nat /\ Forall (fun b => 0 <= b < 2 ^ 8) seed end.

Lemma auth_data_codec_round_trips : round_trips auth_data_codec auth_data_ok.
Proof.
  apply round_trip_intro. intros [seed] [Hlen Hb].
  destruct (round_trip_elim _ _ 0 u8_round_trip) as (b1 & Hw1 & Hr1); [lia|].
  destruct (many_round_trip u8_codec _ seed u8_round_trip Hb) as (b2 & Hw2 & Hr2).
  exists (b1 ++ b2). split; [by apply wappend_ok|]. intros rest. rewrite <- app_assoc.
  cbn [read_from auth_data_codec]. erewrite mut_bind_ok by apply Hr1.
  rewrite decide_True by done. rewrite Hlen in Hr2. by erewrite mut_bind_ok by apply Hr2.
Qed.
End serialization.

(** ** Properties *)

Section properties.
Context `{F : Field} {FL : FieldLaws F} {C : Crypto} {SL : SmtLaws C} {SSL : SimpleSmtLaws C}
  {AS : Assembly} {AL : AssemblyLaws AS} {FE : Features} {D : Display} {B : Build} {IO : ByteIO}
  {IOL : ByteIOLaws IO}.

(** C4: applying a valid delta to a well-formed account succeeds exactly when the
    vault specification allows every addition and then every removal, every
    touched slot is a plain value, and the new nonce is greater; the account
    then has the specified holdings, slots and nonce. *)
Theorem account_apply_delta_refines a (d : AccountDelta) (Hwf : account_wf a)
    (Ht : account_delta_typed d) (Hv : account_delta_valid d) :
  let '(a', r) := apply_delta d a in
  (r = Ok tt <-> vault_after a d <> None /\ storage_writable (acc_storage a) (delta_storage d) /\
     nonce_accepted a (delta_nonce d)) /\
  (r = Ok tt ->
     (forall k, Some (view (acc_vault a') k) = (fun m => m k) <$> vault_after a d) /\
     layout (acc_storage a') = layout (acc_storage a) /\
     (forall i, SimpleSmt_get (slots (acc_storage a')) i =
        slot_after (acc_storage a) (delta_storage d) i) /\
     acc_nonce a' = default (acc_nonce a) (delta_nonce d)).
Proof.
  pose proof (apply_delta_stages a d Hwf Ht Hv) as Hst.
  destruct (apply_delta d a) as [a' r]. destruct Hst as (_ & _ & _ & Hst).
  destruct (vault_after a d) as [m|]; [|destruct Hst as [[e ->] _]; split; naive_solver].
  destruct Hst as [Hview [[[e ->] [Hn _]]|(Hw & Hl & Hs & [(Hacc & -> & Hn)|(Hacc & Hn & n & _ & ->)])]].
  - split; [|done]. split; [done|]. tauto.
  - split; [split; [done|done]|]. intros _. split_and!; try done. intros k. cbn. by rewrite Hview.
  - split; [|done]. split; [done|]. tauto.
Qed.

(** C6: applying a valid delta never panics and never breaks an account: the
    identifier and the code stay, vault and storage stay well formed, and the
    nonce never decreases; when a delta that changes something is applied, the
    nonce strictly increases. *)
Theorem account_apply_delta_safe a (d : AccountDelta) (Hwf : account_wf a)
    (Ht : account_delta_typed d) (Hv : account_delta_valid d) :
  let '(a', r) := apply_delta d a in
  r <> Panic /\ account_wf a' /\ acc_id a' = acc_id a /\ acc_code a' = acc_code a /\
  as_int (acc_nonce a) <= as_int (acc_nonce a') /\
  (r = Ok tt -> account_delta_is_empty d = false -> as_int (acc_nonce a) < as_int (acc_nonce a')).
Proof.
  pose proof (apply_delta_stages a d Hwf Ht Hv) as Hst.
  assert (Hsome : account_delta_is_empty d = false -> delta_nonce d <> None).
  { destruct Hv as (_ & _ & Hn). intros He Hnone. rewrite Hnone in Hn. destruct Hn as [Hn1 Hn2].
    unfold account_delta_is_empty in He. by rewrite Hn1, Hn2 in He. }
  destruct (apply_delta d a) as [a' r]. destruct Hst as (Hwf' & Hid & Hc & Hst).
  assert (r <> Panic /\ as_int (acc_nonce a) <= as_int (acc_nonce a') /\
    (r = Ok tt -> account_delta_is_empty d = false -> as_int (acc_nonce a) < as_int (acc_nonce a')))
    as (? & ? & ?); [|by split_and!].
  destruct (vault_after a d) as [m|].
  2: { destruct Hst as ([e ->] & _ & ->). split_and!; [done|lia|done]. }
  destruct Hst as [_ [([e ->] & _ & ->)|(_ & _ & _ & [(Hacc & -> & ->)|(_ & -> & n & _ & ->)])]];
    [split_and!; [done|lia|done]| |split_and!; [done|lia|done]].
  unfold nonce_accepted in Hacc. destruct (delta_nonce d) as [n|]; unfold default; cbn [from_option id].
  - split_and!; [done|lia|done].
  - split_and!; [done|lia|]. intros _ He. by destruct (Hsome He).
Qed.

(** Applying a delta is not atomic: when only the nonce is refused, the error is
    returned after the vault and the storage were changed. *)
Theorem account_apply_delta_not_atomic a (d : AccountDelta) n m (Hwf : account_wf a)
    (Ht : account_delta_typed d) (Hv : account_delta_valid d)
    (Hvault : vault_after a d = Some m) (Hst : storage_writable (acc_storage a) (delta_storage d))
    (Hn : delta_nonce d = Some n) (Hle : as_int n <= as_int (acc_nonce a)) :
  exists a', apply_delta d a =
      (a', Err (NonceNotMonotonicallyIncreasing (as_int (acc_nonce a)) (as_int n))) /\
    (forall k, view (acc_vault a') k = m k) /\
    (forall i, SimpleSmt_get (slots (acc_storage a')) i = slot_after (acc_storage a) (delta_storage d) i) /\
    acc_nonce a' = acc_nonce a.
Proof.
  pose proof (apply_delta_stages a d Hwf Ht Hv) as Hs.
  destruct (apply_delta d a) as [a' r]. rewrite Hvault in Hs. exists a'.
  destruct Hs as (_ & _ & _ & Hview & [(_ & Hnw & _)|(_ & _ & Hslots & [(Hacc & _)|(_ & Hnon & n' & Hn' & ->)])]).
  - done.
  - rewrite Hn in Hacc. cbn in Hacc. lia.
  - rewrite Hn in Hn'. simplify_eq. done.
Qed.

Lemma account_data_codec_reads :
  round_trips_upto account_data_codec
    (fun x => account_writable (ad_account x) /\ auth_data_ok (ad_auth x))
    (fun x x' => account_read_as (ad_account x) (ad_account x') /\ ad_account_seed x = ad_account_seed x' /\
       ad_auth x = ad_auth x').
Proof.
  intros [a seed auth] [Ha Hauth]. cbn in *.
  destruct (account_codec_reads a Ha) as (b1 & Hw1 & Hr1).
  destruct (round_trip_elim _ _ seed (option_round_trip word_codec _ word_round_trip))
    as (b2 & Hw2 & Hr2); [done|].
  destruct (round_trip_elim _ _ auth auth_data_codec_round_trips Hauth) as (b3 & Hw3 & Hr3).
  exists (b1 ++ b2 ++ b3). split; [by repeat apply wappend_ok|]. intros rest. rewrite <- !app_assoc.
  destruct (Hr1 (b2 ++ b3 ++ rest)) as (a' & Hr1' & Heq). exists (mkAccountData a' seed auth).
  split; [|done]. cbn [read_from account_data_codec]. erewrite mut_bind_ok by apply Hr1'.
  erewrite mut_bind_ok by apply Hr2. by erewrite mut_bind_ok by apply Hr3.
Qed.

Lemma account_data_codec_round_trips :
  round_trips_upto account_data_codec
    (fun x => account_encodable (ad_account x) /\ auth_data_ok (ad_auth x))
    (fun x x' => ad_account x ≡ ad_account x' /\ ad_account_seed x = ad_account_seed x' /\
       ad_auth x = ad_auth x').
Proof.
  eapply round_trips_weaken; [apply account_data_codec_reads|by intros x [[? _] ?]|].
  intros x x' [[Hw Hfill] _] [Has Hrest]. split; [by apply account_read_as_same|exact Hrest].
Qed.

(** An account whose typed slots are not empty is written and read back as an
    account with the same identifier, code, nonce, vault and storage, and
    therefore with the same stub and the same hash; so is account data (an
    account, its seed and the key seed). *)
Theorem account_serialization :
  round_trips_upto account_codec account_encodable
    (fun a a' => a ≡ a' /\ stub_of_account a = stub_of_account a' /\
       stub_hash (stub_of_account a') = account_hash a) /\
  round_trips_upto account_data_codec
    (fun x => account_encodable (ad_account x) /\ auth_data_ok (ad_auth x))
    (fun x x' => ad_account x ≡ ad_account x' /\ ad_account_seed x = ad_account_seed x' /\
       ad_auth x = ad_auth x').
Proof.
  split.
  { intros a Ha. destruct (account_codec_round_trips a Ha) as (bs & Hw & Hr). exists bs.
    split; [done|]. intros rest. destruct (Hr rest) as (a' & Hread & Heq). exists a'.
    split_and!; [done|done|by rewrite Heq|]. by rewrite <- Heq. }
  exact account_data_codec_round_trips.
Qed.
End properties.

(** A storage with the default slots only, as [AccountStorage::new] makes of values. *)
Section default_slots.
Context `{F : Field} {C : Crypto}.

Lemma slot_types_u8 (s : AccountStorage) : storage_wf s ->
  (forall i, 0 <= i < SLOT_LAYOUT_COMMITMENT_INDEX -> layout s !! Z.to_nat i = Some DEFAULT_SLOT_TYPE) ->
  Forall slot_type_u8 (layout s).
Proof.
  intros (Hlen & H255 & _) Hdef. apply Forall_lookup. intros j t Hj. apply lookup_lt_Some in Hj as Hlt.
  unfold NUM_STORAGE_SLOTS in Hlen. destruct (decide (j = 255%nat)) as [->|Hne].
  - change 255%nat with (Z.to_nat SLOT_LAYOUT_COMMITMENT_INDEX) in Hj. rewrite H255 in Hj. by simplify_eq.
  - rewrite <- (Nat2Z.id j), Hdef in Hj by (unfold SLOT_LAYOUT_COMMITMENT_INDEX; lia). by simplify_eq.
Qed.
End default_slots.

(** ** Witnesses *)

Import RefInstances.

Lemma sample_account (n : Felt) :
  exists a, account_wf a /\ account_encodable a /\ acc_vault a = vault_default /\ acc_nonce a = n /\
    layout (acc_storage a) !! 1%nat = Some (SlotValue 0).
Proof.
  destruct (storage_new_ok []) as (s & _ & Hwf & Hslots); [split; constructor|].
  destruct sample_code_exists as (c & _ & Hc). pose proof Hwf as (Hlen & H255 & _).
  assert (Hdef : forall i, 0 <= i < SLOT_LAYOUT_COMMITMENT_INDEX ->
    layout s !! Z.to_nat i = Some DEFAULT_SLOT_TYPE) by (intros i Hi; apply (Hslots i Hi)).
  assert (Hu8 : Forall slot_type_u8 (layout s)) by by apply slot_types_u8.
  assert (Henc : storage_encodable s).
  { split; [done|]. intros i t Hi Ht. rewrite Hdef in Ht by done. by simplify_eq. }
  exists (mkAccount sample_id vault_default s c n).
  split; [|split; [|split_and!; [done|done|by apply (Hdef 1)]]].
  - split; [apply sample_id_valid|]. split; [apply vault_default_wf|]. split; [done|]. split; [done|]. apply Hc.
  - split; [|intros i Hi _; by apply Hdef]. split; [apply sample_id_valid|].
    split; [split; [apply vault_default_wf|reflexivity]|]. by split.
Qed.

(** Clears slot 1 and sets the nonce to 1. *)
Definition sample_clear : AccountDelta :=
  mkAccountDelta (mkAccountStorageDelta [1] []) (mkAccountVaultDelta [] []) (Some ONE).

Lemma sample_clear_typed : account_delta_typed sample_clear.
Proof. split; [|constructor]. unfold storage_delta_u8. cbn. repeat constructor; lia. Qed.

Lemma sample_clear_valid : account_delta_valid sample_clear.
Proof.
  split; [|split].
  - split_and!; cbn; [lia|lia| |apply NoDup_singleton].
    repeat constructor; unfold MAX_MUTABLE_STORAGE_SLOT_IDX; lia.
  - split_and!; cbn; [lia|lia|constructor].
  - split; [|by left]. intros Heq. apply (f_equal as_int) in Heq. done.
Qed.

Lemma account_apply_delta_refines_witness :
  exists a a', apply_delta sample_clear a = (a', Ok tt) /\ acc_nonce a' = ONE.
Proof.
  destruct (sample_account ZERO) as (a & Hwf & _ & Hv & Hn & Hl).
  pose proof (account_apply_delta_refines a sample_clear Hwf sample_clear_typed sample_clear_valid) as Happ.
  destruct (apply_delta sample_clear a) as [a' r] eqn:Hrun. destruct Happ as [Hiff Heff].
  assert (Hr : r = Ok tt).
  { apply Hiff. split; [discriminate|]. split; [by repeat constructor|]. cbn. rewrite Hn. reflexivity. }
  exists a, a'. rewrite Hrun, Hr. split; [reflexivity|]. apply (Heff Hr).
Defined.

Lemma account_apply_delta_safe_witness :
  exists a a' r, apply_delta sample_clear a = (a', r) /\ r <> Panic /\ account_wf a'.
Proof.
  destruct (sample_account ZERO) as (a & Hwf & _).
  pose proof (account_apply_delta_safe a sample_clear Hwf sample_clear_typed sample_clear_valid) as Hsafe.
  destruct (apply_delta sample_clear a) as [a' r] eqn:Hrun. exists a, a', r.
  split; [exact Hrun|]. split; apply Hsafe.
Defined.

Lemma account_apply_delta_not_atomic_witness :
  exists a a' e, apply_delta sample_clear a = (a', Err e) /\
    SimpleSmt_get (slots (acc_storage a')) 1 = EMPTY_WORD.
Proof.
  destruct (sample_account (Felt_new 5)) as (a & Hwf & _ & Hv & Hn & Hl).
  destruct (account_apply_delta_not_atomic a sample_clear ONE (view (acc_vault a)) Hwf
    sample_clear_typed sample_clear_valid) as (a' & Hrun & _ & Hs & _).
  - reflexivity.
  - by repeat constructor.
  - reflexivity.
  - rewrite Hn. vm_compute. discriminate.
  - eexists a, a', _. split; [exact Hrun|]. rewrite Hs. reflexivity.
Defined.

Lemma account_serialization_witness :
  exists a bs bs', write_into account_codec a = Ok bs /\ acc_nonce a = ONE /\
    write_into account_data_codec (mkAccountData a None (RpoFalcon512Seed (replicate 32 7))) = Ok bs'.
Proof.
  destruct (sample_account ONE) as (a & _ & Henc & _ & Hn & _).
  destruct (proj1 account_serialization a Henc) as (bs & Hw & _).
  destruct (proj2 account_serialization (mkAccountData a None (RpoFalcon512Seed (replicate 32 7))))
    as (bs' & Hw' & _).
  - split; [exact Henc|]. split; [reflexivity|]. apply Forall_replicate. lia.
  - exists a, bs, bs'. split; [exact Hw|]. split; [exact Hn|exact Hw'].
Defined.
