(* ===== verification/Chain.v ===== *)
(** transaction/chain_mmr.rs: the part of the chain of blocks a transaction sees,
    as the Merkle mountain range of the chain and the headers of some blocks. *)
From S2P Require Import Prelude Interfaces Types Reference BTree AccountIds Assets NoteMeta NoteContents Notes Blocks.
Local Open Scope Z_scope.

Section chain.
Context `{F : Field} {C : Crypto} {MK : Merkle}.

(** errors.rs *)
Inductive ChainMmrError :=
| BlockNumTooBig (chain_length block_num : Z)
| DuplicateBlock (block_num : Z)
| UntrackedBlock (block_num : Z).

(** The headers are a [BTreeMap] from block numbers. *)
Record ChainMmr := mkChainMmr { cm_mmr : PartialMmr; cm_blocks : list (Z * BlockHeader) }.

(** One round of the loop of [new] over the headers. *)
Definition insert_block (mmr : PartialMmr) (block : BlockHeader)
    : mut (list (Z * BlockHeader)) ChainMmrError unit :=
  block_map ← read_self;
  let chain_length := mmr_forest mmr in
  if decide (block_num block >= chain_length) then lift (Err (BlockNumTooBig chain_length (block_num block)))
  else
    _ ← write_self (btree_insert Z.compare block_map (block_num block) block);
    if decide (is_Some (btree_get block_map (block_num block))) then lift (Err (DuplicateBlock (block_num block)))
    else if mmr_is_tracked mmr (block_num block) then mret tt
    else lift (Err (UntrackedBlock (block_num block))).

Definition chain_mmr_new (mmr : PartialMmr) (blocks : list BlockHeader) : res ChainMmrError ChainMmr :=
  let '(block_map, r) := for_each (insert_block mmr) blocks [] in
  _ ← r;
  Ok (mkChainMmr mmr block_map).

Definition chain_peaks (self : ChainMmr) : MmrPeaks := mmr_peaks (cm_mmr self).
Definition chain_length (self : ChainMmr) : Z := mmr_forest (cm_mmr self).
Definition contains_block (self : ChainMmr) (block_num : Z) : bool :=
  bool_decide (is_Some (btree_get (cm_blocks self) block_num)).
Definition get_block (self : ChainMmr) (block_num : Z) : option BlockHeader :=
  btree_get (cm_blocks self) block_num.

(** The header goes to the mountain range only. *)
Definition add_block {E} (block_header : BlockHeader) (track : bool) : mut ChainMmr E unit :=
  self ← read_self;
  _ ← lift (assert_ (bool_decide (block_num block_header = chain_length self mod 2 ^ 32)));
  write_self (mkChainMmr (mmr_add (cm_mmr self) (block_hash block_header) track) (cm_blocks self)).

Definition chain_inner_nodes (self : ChainMmr) : list InnerNodeInfo :=
  mmr_inner_nodes (cm_mmr self) (map (fun e => (block_num (snd e), block_hash (snd e))) (cm_blocks self)).
End chain.
Arguments ChainMmrError : clear implicits.
Arguments ChainMmr : clear implicits.
Arguments ChainMmr {_ _ _}.

(** ** Specification *)

Section spec.
Context `{F : Field} {C : Crypto} {MK : Merkle}.

(** A header the range has an authentication path for. *)
Definition block_tracked (mmr : PartialMmr) (h : BlockHeader) : Prop :=
  block_num h < mmr_forest mmr /\ mmr_is_tracked mmr (block_num h) = true.

(** The headers are in the map under their numbers, and are all tracked. *)
Definition chain_wf (c : ChainMmr) : Prop :=
  NoDup (cm_blocks c).*1 /\
  forall num h, get_block c num = Some h -> block_num h = num /\ block_tracked (cm_mmr c) h.

(** What is wrong with a header, after those before it. *)
Definition block_fault (mmr : PartialMmr) (before : list BlockHeader) (h : BlockHeader) (e : ChainMmrError) : Prop :=
  match e with
  | BlockNumTooBig len num => num = block_num h /\ len = mmr_forest mmr /\ mmr_forest mmr <= num
  | DuplicateBlock num => num = block_num h /\ num < mmr_forest mmr /\ num ∈ (block_num <$> before)
  | UntrackedBlock num => num = block_num h /\ num < mmr_forest mmr /\ (num ∉ block_num <$> before) /\
      mmr_is_tracked mmr num = false
  end.
End spec.

(** ** Lemmas *)

Section lemmas.
Context `{F : Field} {C : Crypto} {MK : Merkle} {ML : MerkleLaws MK}.

(** The map built from the headers before the current one. *)
Definition map_of_blocks (m : list (Z * BlockHeader)) (before : list BlockHeader) : Prop :=
  NoDup m.*1 /\ forall num h, (btree_get m num = Some h <-> h ∈ before /\ block_num h = num).

Lemma map_of_blocks_get m before num :
  map_of_blocks m before -> (is_Some (btree_get m num) <-> num ∈ (block_num <$> before)).
Proof.
  intros [_ Hm]. rewrite list_elem_of_fmap. split.
  - intros [h Hh]. apply Hm in Hh as [? ?]. by exists h.
  - intros (h & Hnum & Hin). exists h. by apply Hm.
Qed.

Lemma insert_block_spec mmr m before h :
  map_of_blocks m before ->
  (exists m', insert_block mmr h m = (m', Ok tt) /\ block_tracked mmr h /\ (block_num h ∉ block_num <$> before) /\
     map_of_blocks m' (before ++ [h])) \/
  (exists m' e, insert_block mmr h m = (m', Err e) /\ block_fault mmr before h e).
Proof.
  intros Hm. pose proof (map_of_blocks_get m before (block_num h) Hm) as Hin.
  unfold insert_block, read_self, write_self, lift, mbind, mut_bind. case_decide as Hbig.
  { right. eexists _, _. split; [done|]. cbn. lia. }
  case_decide as Hdup.
  { right. eexists _, _. split; [done|]. cbn. split; [done|]. split; [lia|]. by apply Hin. }
  assert (Hnew : block_num h ∉ (block_num <$> before)) by (by rewrite <- Hin).
  destruct (mmr_is_tracked mmr (block_num h)) eqn:Htr.
  - left. eexists. split; [done|]. split; [split; [lia|done]|]. split; [done|].
    destruct Hm as [Hnd Hm]. split; [by apply btree_insert_nodup|]. intros num g.
    rewrite btree_get_insert by done. rewrite elem_of_app, list_elem_of_singleton.
    case_decide as Hnum; [|rewrite Hm; intuition congruence]. split.
    + intros [= <-]. by split; [right|].
    + intros [[Hg| ->] Hg']; [|done]. exfalso. apply Hnew. rewrite Hnum, <- Hg'. by apply list_elem_of_fmap_2.
  - right. eexists _, _. split; [done|]. cbn. split_and!; (done || lia).
Qed.

Lemma insert_blocks_spec mmr m before blocks :
  map_of_blocks m before ->
  (exists m', for_each (insert_block mmr) blocks m = (m', Ok tt) /\ Forall (block_tracked mmr) blocks /\
     NoDup (block_num <$> blocks) /\ Forall (fun h => block_num h ∉ (block_num <$> before)) blocks /\
     map_of_blocks m' (before ++ blocks)) \/
  (exists m' e l h r, for_each (insert_block mmr) blocks m = (m', Err e) /\ blocks = l ++ h :: r /\
     block_fault mmr (before ++ l) h e).
Proof.
  revert m before. induction blocks as [|h blocks IH]; intros m before Hm.
  - left. exists m. rewrite app_nil_r. split_and!; try done; constructor.
  - rewrite for_each_cons. destruct (insert_block_spec mmr m before h Hm) as
      [(m' & -> & Htr & Hnew & Hm')|(m' & e & -> & Hf)].
    + destruct (IH m' (before ++ [h]) Hm') as [(m2 & Hrun & Hall & Hnd & Hfresh & Hm2)|(m2 & e & l & g & r & Hrun & -> & Hf)].
      * left. exists m2. rewrite <- app_assoc in Hm2. split; [done|]. split; [by constructor|].
        rewrite Forall_forall in Hfresh. split_and!; [| |done].
        -- cbn. constructor; [|done]. intros (g & Hg & Hgin)%list_elem_of_fmap.
           apply (Hfresh g Hgin). rewrite fmap_app, <- Hg. set_solver.
        -- constructor; [done|]. apply Forall_forall. intros g Hg. specialize (Hfresh g Hg).
           rewrite fmap_app in Hfresh. set_solver.
      * right. exists m2, e, (h :: l), g, r. rewrite <- app_assoc in Hf. done.
    + right. exists m', e, [], h, blocks. by rewrite app_nil_r.
Qed.

Lemma chain_mmr_new_outcome mmr blocks :
  (exists c, chain_mmr_new mmr blocks = Ok c /\ chain_wf c /\ cm_mmr c = mmr /\
     Forall (block_tracked mmr) blocks /\ NoDup (block_num <$> blocks) /\
     forall num h, get_block c num = Some h <-> h ∈ blocks /\ block_num h = num) \/
  (exists e l h r, chain_mmr_new mmr blocks = Err e /\ blocks = l ++ h :: r /\ block_fault mmr l h e).
Proof.
  assert (Hnil : map_of_blocks [] []).
  { split; [constructor|]. intros num h. cbn. split; [done|]. intros [Hin _]. by apply elem_of_nil in Hin. }
  unfold chain_mmr_new.
  destruct (insert_blocks_spec mmr [] [] blocks Hnil) as [(m & -> & Hall & Hnd & _ & Hm)|(m & e & l & h & r & -> & -> & Hf)].
  + left. destruct Hm as [Hmd Hm]. eexists. split; [done|]. split; [|done]. split; [done|].
    intros num h. cbn. intros [Hin Hnum]%Hm. rewrite Forall_forall in Hall. by split; [|apply Hall].
  + right. by exists e, l, h, r.
Qed.

(** Headers with distinct numbers that are all tracked make a view. *)
Lemma chain_mmr_new_ok mmr blocks : Forall (block_tracked mmr) blocks -> NoDup (block_num <$> blocks) ->
  exists c, chain_mmr_new mmr blocks = Ok c /\ chain_wf c /\ cm_mmr c = mmr /\
    forall num h, get_block c num = Some h <-> h ∈ blocks /\ block_num h = num.
Proof.
  intros Hall Hnd. destruct (chain_mmr_new_outcome mmr blocks) as [(c & Hc & Hwf & Hm & _ & _ & Hget)|(e & l & h & r & _ & -> & Hf)].
  - by exists c.
  - exfalso. rewrite fmap_app in Hnd. apply NoDup_app in Hnd as (_ & Hnd & _). apply Forall_app in Hall as [_ Hall].
    apply Forall_inv in Hall as [Hlt Htr]. cbn in Hnd. destruct e; cbn in Hf; destruct Hf as (-> & Hf); [lia| |].
    + destruct Hf as [_ Hin]. by apply (Hnd (block_num h)); [|left].
    + destruct Hf as (_ & _ & Hf). congruence.
Qed.
End lemmas.

(** ** Properties *)

Section properties.
Context `{F : Field} {C : Crypto} {MK : Merkle} {ML : MerkleLaws MK}.

(** C33: the view of the chain is made exactly when the range tracks every given header
    and no two have one number; it then holds the given headers, and an error
    tells what is wrong with the first header refused. Appending a block keeps
    the view well-formed and extends the chain by one; it panics when the
    number of the block is not the length of the chain. The header of an
    appended block is not added to the map, even when it is to be tracked. *)
Theorem chain_mmr_spec :
  (forall mmr blocks,
     (exists c, chain_mmr_new mmr blocks = Ok c /\ chain_wf c /\ cm_mmr c = mmr /\
        Forall (block_tracked mmr) blocks /\ NoDup (block_num <$> blocks) /\
        forall num h, get_block c num = Some h <-> h ∈ blocks /\ block_num h = num) \/
     (exists e l h r, chain_mmr_new mmr blocks = Err e /\ blocks = l ++ h :: r /\ block_fault mmr l h e)) /\
  (forall (c : ChainMmr) h track, chain_wf c ->
     add_block (E := unit) h track c =
       (if decide (block_num h = chain_length c mod 2 ^ 32)
        then (mkChainMmr (mmr_add (cm_mmr c) (block_hash h) track) (cm_blocks c), Ok tt) else (c, Panic)) /\
     let c' := fst (add_block (E := unit) h track c) in
     chain_wf c' /\ (forall num, get_block c' num = get_block c num) /\
     (block_num h = chain_length c mod 2 ^ 32 -> chain_length c' = chain_length c + 1)).
Proof.
  split.
  - apply chain_mmr_new_outcome.
  - intros c h track [Hnd Hwf]. unfold add_block, read_self, write_self, lift, mbind, mut_bind.
    case_decide as Hnum.
    + rewrite bool_decide_true by done. cbn. split; [done|]. split; [|split; [done|]].
      * split; [done|]. intros num g Hg. destruct (Hwf num g Hg) as [? [Hlt Htr]]. split; [done|]. split.
        -- cbn. rewrite mmr_add_forest. lia.
        -- by apply mmr_add_tracked.
      * intros _. unfold chain_length. cbn. apply mmr_add_forest.
    + rewrite bool_decide_false by done. cbn. split; [done|]. by split.
Qed.
End properties.

(** ** Witnesses *)

Import RefInstances.

(** A chain of three blocks, the second of which is tracked. *)
Definition sample_mmr : PartialMmr := mkRefMmr (map (fun i => block_hash (sample_header i)) [0; 1; 2]) [1].

Lemma chain_mmr_spec_witness :
  exists c, chain_mmr_new sample_mmr [sample_header 1] = Ok c /\ chain_length c = 3 /\
    get_block (fst (add_block (E := unit) (sample_header 3) true c)) 3 = None.
Proof.
  destruct chain_mmr_spec as [Hnew Hadd].
  destruct (Hnew sample_mmr [sample_header 1]) as [(c & Hc & Hwf & Hm & _ & _ & Hget)|(e & l & h & r & _ & Hl & Hf)].
  - exists c. split; [exact Hc|]. split; [unfold chain_length; rewrite Hm; reflexivity|].
    destruct (Hadd c (sample_header 3) true Hwf) as (_ & _ & Hsame & _).
    rewrite Hsame. destruct (get_block c 3) as [h|] eqn:Hh; [|reflexivity].
    apply Hget in Hh as [Hin Hnum]. apply list_elem_of_singleton in Hin as ->. discriminate Hnum.
  - exfalso. destruct l as [|h' l]; [|by destruct l]. injection Hl as <- _.
    destruct e as [len num|num|num]; cbn [block_fault] in Hf.
    + destruct Hf as (-> & _ & Hf). by apply Hf.
    + destruct Hf as (_ & _ & Hin). by apply elem_of_nil in Hin.
    + destruct Hf as (-> & _ & _ & Hf). discriminate Hf.
Defined.
