(* ===== verification/Inputs.v ===== *)
(** transaction/inputs.rs: the notes a transaction consumes, the commitment to
    them, and the checked data a transaction is executed on. *)
From S2P Require Import Prelude Interfaces Types Reference BTree AccountIds Assets NoteMeta NoteContents Notes Blocks Chain.
From S2P Require Import Vault Storage Code Account.
Local Open Scope Z_scope.

(** constants.rs *)
Definition MAX_INPUT_NOTES_PER_TX : Z := 1023.

Section inputs.
Context `{F : Field} {C : Crypto} {MK : Merkle} {AS : Assembly} {P : Programs} {FE : Features} {D : Display} {B : Build}.

(** errors.rs *)
Inductive TransactionInputError :=
| AccountSeedNotProvidedForNewAccount
| AccountSeedProvidedForExistingAccount
| DuplicateInputNote (nullifier : Digest)
| InconsistentAccountSeed (expected actual : AccountId)
| InconsistentChainLength (expected actual : Z)
| InconsistentChainRoot (expected actual : Digest)
| InputNoteBlockNotInChainMmr (id : NoteId)
| InputNoteNotInBlock (id : NoteId) (block_num : Z)
| InvalidAccountSeed (e : AccountError)
| TooManyInputNotes (max actual : Z).

(** ** Input notes *)

Record InputNote := mkInputNote { in_note : Note; in_proof : NoteInclusionProof }.

Definition in_id (self : InputNote) : NoteId := note_id (in_note self).
Definition in_origin (self : InputNote) : NoteOrigin := ip_origin (in_proof self).

Definition is_in_block (self : InputNote) (block_header : BlockHeader) : bool :=
  let note_index := NodeIndex_value (origin_node_index (in_origin self)) in
  let note_hash := authentication_hash (in_note self) in
  path_verify (ip_note_path (in_proof self)) note_index note_hash (note_root block_header).

Context {IO : ByteIO}.

Definition input_note_codec : Codec InputNote := {|
  write_into self := write_into note_codec (in_note self) +w+ write_into inclusion_proof_codec (in_proof self);
  read_from :=
    note ← read_from note_codec;
    proof ← read_from inclusion_proof_codec;
    mret (mkInputNote note proof)
|}.

(** The trait [ToNullifier], with the serialization it extends. *)
Class ToNullifier (T : Type) := {
  nullifier : T -> Nullifier;
  input_codec : Codec T
}.
#[export] Instance InputNote_nullifier : ToNullifier InputNote :=
  {| nullifier self := note_nullifier (in_note self); input_codec := input_note_codec |}.
#[export] Instance Nullifier_nullifier : ToNullifier Nullifier :=
  {| nullifier self := self; input_codec := nullifier_codec |}.

(** ** Lists of input notes *)

Record InputNotes (T : Type) := mkInputNotes { is_notes : list T; is_commitment : Digest }.
Arguments mkInputNotes {T} _ _.
Arguments is_notes {T} _.
Arguments is_commitment {T} _.

Section notes.
Context {T : Type} {TN : ToNullifier T}.

Definition build_input_notes_commitment (notes : list T) : Digest :=
  match notes with
  | [] => EMPTY_WORD
  | _ => hash_elements (concat (map (fun note =>
      word_elements (nullifier_digest (nullifier note)) ++ word_elements EMPTY_WORD) notes))
  end.

(** The loop of [new] over a set of the nullifiers seen so far. *)
Definition check_nullifiers (notes : list T) : res TransactionInputError unit :=
  check_unseen (fun note => nullifier_digest (nullifier note)) DuplicateInputNote [] notes.

Definition input_notes_new (notes : list T) : res TransactionInputError (InputNotes T) :=
  if decide (Z.of_nat (length notes) > MAX_INPUT_NOTES_PER_TX)
  then Err (TooManyInputNotes MAX_INPUT_NOTES_PER_TX (Z.of_nat (length notes)))
  else
    _ ← check_nullifiers notes;
    Ok (mkInputNotes notes (build_input_notes_commitment notes)).

Definition input_notes_default : InputNotes T := mkInputNotes [] (build_input_notes_commitment []).

(** An index out of range panics. *)
Definition get_input_note {E} (self : InputNotes T) (idx : nat) : res E T := expect (is_notes self !! idx).

Definition input_notes_codec : Codec (InputNotes T) := {|
  write_into self :=
    let n := Z.of_nat (length (is_notes self)) in
    assert_ (bool_decide (n <= 2 ^ 16 - 1)) ≫= fun _ =>
    write_into u16_codec (n mod 2 ^ 16) +w+ write_many input_codec (is_notes self);
  read_from :=
    num_notes ← read_from u16_codec;
    notes ← read_many input_codec (Z.to_nat num_notes);
    lift (map_err (fun err => InvalidValue (to_string err)) (input_notes_new notes))
|}.

(** [impl PartialEq]: the commitment is not compared. *)
Definition input_notes_eq `{EqDecision T} (self other : InputNotes T) : bool := bool_decide (is_notes self = is_notes other).
End notes.

(** [From<InputNotes>] of [InputNotes<Nullifier>]. *)
Definition nullifiers_of_inputs (value : InputNotes InputNote) : InputNotes Nullifier :=
  mkInputNotes (map nullifier (is_notes value)) (build_input_notes_commitment (is_notes value)).

(** ** Transaction inputs *)

Definition validate_account_seed (account : Account) (account_seed : option Word)
    : res TransactionInputError unit :=
  match is_new account, account_seed with
  | true, Some seed =>
      account_id ← map_err InvalidAccountSeed
        (AccountId_new seed (code_root (acc_code account)) (storage_root (acc_storage account)));
      if decide (account_id <> acc_id account)
      then Err (InconsistentAccountSeed (acc_id account) account_id) else Ok tt
  | true, None => Err AccountSeedNotProvidedForNewAccount
  | false, Some _ => Err AccountSeedProvidedForExistingAccount
  | false, None => Ok tt
  end.

Record TransactionInputs := mkTransactionInputs {
  ti_account : Account; ti_account_seed : option Word; ti_block_header : BlockHeader;
  ti_block_chain : ChainMmr; ti_input_notes : InputNotes InputNote }.

(** The loop of [new] over the notes. *)
Fixpoint check_note_blocks (block_header : BlockHeader) (block_chain : ChainMmr) (notes : list InputNote)
    : res TransactionInputError unit :=
  match notes with
  | [] => Ok tt
  | note :: notes' =>
      let note_block_num := origin_block_num (in_origin note) in
      note_header ←
        (if decide (note_block_num = block_num block_header) then Ok block_header
         else match get_block block_chain note_block_num with
              | Some header => Ok header
              | None => Err (InputNoteBlockNotInChainMmr (in_id note))
              end);
      if is_in_block note note_header then check_note_blocks block_header block_chain notes'
      else Err (InputNoteNotInBlock (in_id note) note_block_num)
  end.

Definition transaction_inputs_new (account : Account) (account_seed : option Word) (block_header : BlockHeader)
    (block_chain : ChainMmr) (input_notes : InputNotes InputNote) : res TransactionInputError TransactionInputs :=
  _ ← validate_account_seed account account_seed;
  if decide (chain_length block_chain <> block_num block_header)
  then Err (InconsistentChainLength (block_num block_header) (chain_length block_chain mod 2 ^ 32))
  else if decide (hash_peaks (chain_peaks block_chain) <> chain_root block_header)
  then Err (InconsistentChainRoot (chain_root block_header) (hash_peaks (chain_peaks block_chain)))
  else
    _ ← check_note_blocks block_header block_chain (is_notes input_notes);
    Ok (mkTransactionInputs account account_seed block_header block_chain input_notes).
End inputs.
Arguments TransactionInputError : clear implicits.
Arguments TransactionInputError {_ _ _}.
Arguments InputNote : clear implicits.
Arguments InputNote {_ _ _ _ _}.
Arguments mkInputNotes {_ _} _ _.
Arguments is_notes {_ _} _.
Arguments is_commitment {_ _} _.
Arguments TransactionInputs : clear implicits.
Arguments TransactionInputs {_ _ _ _ _}.

(** ** Specification *)

(** The notes of a block: batch, position in it, identifier and metadata. *)
Abbreviation note_entries := (list (Z * Z * (Digest * NoteMetadata))).

Section spec.
Context `{F : Field} {C : Crypto} {MK : Merkle} {AS : Assembly} {P : Programs} {FE : Features}.

(** An input note that serialization preserves. *)
Definition input_note_ok (n : InputNote) : Prop :=
  (note_wf (in_note n) /\ note_script_ok (nr_script (note_recipient (in_note n))) /\
   Z.of_nat (length (na_assets (note_assets (in_note n)))) < 256) /\
  inclusion_proof_valid (in_proof n).

(** At most 1023 notes with distinct nullifiers, and their commitment. *)
Definition input_notes_wf {IO : ByteIO} {D : Display} {B : Build} {T} {TN : ToNullifier T} (ns : InputNotes T) : Prop :=
  Z.of_nat (length (is_notes ns)) <= MAX_INPUT_NOTES_PER_TX /\ NoDup (nullifier <$> is_notes ns) /\
  is_commitment ns = build_input_notes_commitment (is_notes ns).

(** A new account has a seed its identifier is derived from, another has none. *)
Definition seed_accepted (a : Account) (seed : option Word) : Prop :=
  match is_new a, seed with
  | true, Some s => AccountId_new s (code_root (acc_code a)) (storage_root (acc_storage a)) = Ok (acc_id a)
  | false, None => True
  | _, _ => False
  end.

(** The header of the block a note comes from, if the transaction knows it. *)
Definition note_header (header : BlockHeader) (chain : ChainMmr) (n : InputNote) : option BlockHeader :=
  let num := origin_block_num (in_origin n) in
  if decide (num = block_num header) then Some header else get_block chain num.

Definition note_included (header : BlockHeader) (chain : ChainMmr) (n : InputNote) : Prop :=
  exists h, note_header header chain n = Some h /\ is_in_block n h = true.

(** Why transaction inputs are refused: the first failing check. *)
Definition inputs_fault (a : Account) (seed : option Word) (header : BlockHeader) (chain : ChainMmr)
    (notes : list InputNote) (e : TransactionInputError) : Prop :=
  let derived s := AccountId_new s (code_root (acc_code a)) (storage_root (acc_storage a)) in
  let consistent := seed_accepted a seed /\ chain_length chain = block_num header in
  let first_bad bad := exists l n r, notes = l ++ n :: r /\ Forall (note_included header chain) l /\ bad n in
  match e with
  | AccountSeedNotProvidedForNewAccount => is_new a = true /\ seed = None
  | AccountSeedProvidedForExistingAccount => is_new a = false /\ is_Some seed
  | InvalidAccountSeed err => is_new a = true /\ exists s, seed = Some s /\ derived s = Err err
  | InconsistentAccountSeed expected actual =>
      is_new a = true /\ expected = acc_id a /\ actual <> expected /\ exists s, seed = Some s /\ derived s = Ok actual
  | InconsistentChainLength expected actual =>
      seed_accepted a seed /\ expected = block_num header /\ chain_length chain <> expected /\
      actual = chain_length chain mod 2 ^ 32
  | InconsistentChainRoot expected actual =>
      consistent /\ expected = chain_root header /\ actual = hash_peaks (chain_peaks chain) /\ actual <> expected
  | InputNoteBlockNotInChainMmr id =>
      consistent /\ hash_peaks (chain_peaks chain) = chain_root header /\
      first_bad (fun n => id = in_id n /\ note_header header chain n = None)
  | InputNoteNotInBlock id num =>
      consistent /\ hash_peaks (chain_peaks chain) = chain_root header /\
      first_bad (fun n => id = in_id n /\ num = origin_block_num (in_origin n) /\
        exists h, note_header header chain n = Some h /\ is_in_block n h = false)
  | DuplicateInputNote _ | TooManyInputNotes _ _ => False
  end.

(** ** Notes of the chain *)

(** The block of the header created the given notes. *)
Definition block_created {B : Build} (h : BlockHeader) (entries : note_entries) : Prop :=
  Forall entry_in_range entries /\ NoDup (position <$> entries.*1) /\
  Forall (fun e => metadata_valid e.2.2) entries /\
  exists t, block_note_tree_with_entries entries = Ok t /\ note_root h = SimpleSmt_root t.

Definition in_index (n : InputNote) : Z := NodeIndex_value (origin_node_index (in_origin n)).

(** The proof has the shape of one for the note tree of a block. *)
Definition proof_shaped (n : InputNote) : Prop :=
  metadata_valid (note_metadata (in_note n)) /\ 0 <= in_index n < 2 ^ NOTE_TREE_DEPTH /\
  length (ip_note_path (in_proof n)) = Z.to_nat NOTE_TREE_DEPTH.

(** The note is the entry at its index. *)
Definition note_listed (entries : note_entries) (n : InputNote) : Prop :=
  exists b k, ((b, k), (note_id_digest (in_id n), note_metadata (in_note n))) ∈ entries /\ position (b, k) = in_index n.

(** The proof of the note and the tree of the block exhibit a collision. *)
Definition note_forged {B : Build} (entries : note_entries) (n : InputNote) : Prop :=
  exists t path b k, block_note_tree_with_entries entries = Ok t /\ get_note_path t b k = Ok path /\
    position (b, k) = in_index n /\
    let left := SimpleSmt_get t (2 * in_index n) in
    let right := SimpleSmt_get t (2 * in_index n + 1) in
    paths_collide (ip_note_path (in_proof n)) path (in_index n) (authentication_hash (in_note n)) (merge left right) \/
    merge_collision (note_id_digest (in_id n), word_of_metadata (note_metadata (in_note n))) (left, right).

(** The proof of the note is the one the tree of the block gives. *)
Definition note_proved {B : Build} (entries : note_entries) (n : InputNote) : Prop :=
  exists t b k, block_note_tree_with_entries entries = Ok t /\
    ((b, k), (note_id_digest (in_id n), note_metadata (in_note n))) ∈ entries /\ position (b, k) = in_index n /\
    get_note_path t b k = Ok (ip_note_path (in_proof n)).
End spec.

(** ** Lemmas *)

Section lemmas.
Context `{F : Field} {FL : FieldLaws F} {C : Crypto} {SSL : SimpleSmtLaws C} {MK : Merkle} {ML : MerkleLaws MK}
  {AS : Assembly} {P : Programs} {FE : Features} {D : Display} {B : Build} {IO : ByteIO}.

Section notes.
Context {T : Type} {TN : ToNullifier T}.

Lemma check_nullifiers_spec (notes : list T) :
  (check_nullifiers notes = Ok tt /\ NoDup (nullifier <$> notes)) \/
  (exists n, n ∈ notes /\ check_nullifiers notes = Err (DuplicateInputNote (nullifier_digest (nullifier n))) /\
     ~ NoDup (nullifier <$> notes)).
Proof.
  set (key := fun n : T => nullifier_digest (nullifier n)).
  assert (Hkey : NoDup (key <$> notes) <-> NoDup (nullifier <$> notes)).
  { change (key <$> notes) with ((nullifier_digest ∘ nullifier) <$> notes). rewrite list_fmap_compose.
    split; [apply NoDup_fmap_1|].
    apply NoDup_fmap_2. by intros [x] [y] [= ->]. }
  unfold check_nullifiers. pose proof (check_unseen_spec key DuplicateInputNote notes) as Hspec.
  change (fun note : T => nullifier_digest (nullifier note)) with key. naive_solver.
Qed.

Lemma input_notes_new_ok (notes : list T) ns :
  input_notes_new notes = Ok ns <-> is_notes ns = notes /\ input_notes_wf ns.
Proof.
  unfold input_notes_new, input_notes_wf. split.
  - intros H. case_decide; [done|]. inv_res.
    destruct (check_nullifiers_spec notes) as [(_ & Hnd)|(n & _ & He & _)]; [|destruct x; congruence].
    cbn. split_and!; (done || lia).
  - intros [<- (Hlen & Hnd & Hc)]. rewrite decide_False by lia.
    destruct (check_nullifiers_spec (is_notes ns)) as [(-> & _)|(n & _ & _ & Hbad)]; [|done].
    cbn [mbind res_bind]. rewrite <- Hc. by destruct ns.
Qed.

Lemma input_notes_new_no_panic (notes : list T) : input_notes_new notes <> Panic.
Proof.
  unfold input_notes_new. case_decide; [done|].
  by destruct (check_nullifiers_spec notes) as [(-> & _)|(n & _ & -> & _)].
Qed.

Lemma input_notes_read_wf src rest (ns : InputNotes T) :
  read_from input_notes_codec src = (rest, Ok ns) -> input_notes_wf ns.
Proof.
  intros Hread. cbn [read_from input_notes_codec] in Hread.
  apply mut_bind_inv in Hread as (s1 & n & _ & Hread). apply mut_bind_inv in Hread as (s2 & l & _ & Hread).
  by apply lift_inv, map_err_ok, input_notes_new_ok in Hread as [_ ?].
Qed.
End notes.

Lemma validate_account_seed_spec a seed :
  match validate_account_seed a seed with
  | Ok _ => seed_accepted a seed
  | Err e => ~ seed_accepted a seed /\ forall header chain notes, inputs_fault a seed header chain notes e
  | Panic => False
  end.
Proof.
  unfold validate_account_seed, seed_accepted, inputs_fault.
  destruct (is_new a), seed as [s|]; cbn beta iota; [|by split; [intros []|]|split; [by intros []|by eauto]|done].
  destruct (AccountId_new s (code_root (acc_code a)) (storage_root (acc_storage a))) as [id|e|] eqn:Hid;
    cbn [map_err mbind res_bind].
  - destruct (decide (id = acc_id a)) as [->|Hne]; [by rewrite decide_False by tauto|].
    rewrite decide_True by done. split; [congruence|].
    intros _ _ _. split_and!; try done. by exists s.
  - split; [done|]. intros _ _ _. split; [done|]. by exists s.
  - by apply AccountId_new_no_panic in Hid.
Qed.

Lemma check_note_blocks_spec header chain notes :
  match check_note_blocks header chain notes with
  | Ok _ => Forall (note_included header chain) notes
  | Err e => exists l n r, notes = l ++ n :: r /\ Forall (note_included header chain) l /\
      ~ note_included header chain n /\
      match e with
      | InputNoteBlockNotInChainMmr id => id = in_id n /\ note_header header chain n = None
      | InputNoteNotInBlock id num => id = in_id n /\ num = origin_block_num (in_origin n) /\
          exists h, note_header header chain n = Some h /\ is_in_block n h = false
      | _ => False
      end
  | Panic => False
  end.
Proof.
  induction notes as [|n notes IH]; cbn [check_note_blocks]; [constructor|].
  assert (Hhead : (if decide (origin_block_num (in_origin n) = block_num header) then Ok header
    else match get_block chain (origin_block_num (in_origin n)) with
         | Some h => Ok h | None => Err (InputNoteBlockNotInChainMmr (in_id n)) end) =
    ok_or (note_header header chain n) (InputNoteBlockNotInChainMmr (in_id n))).
  { unfold note_header. case_decide; [done|]. by destruct (get_block _ _). }
  rewrite Hhead. destruct (note_header header chain n) as [h|] eqn:Hh; cbn.
  - destruct (is_in_block n h) eqn:Hin.
    + assert (Hn : note_included header chain n) by (by exists h).
      destruct (check_note_blocks header chain notes) as [u|e|]; [by constructor| |done].
      destruct IH as (l & m & r & -> & Hl & Hrest). exists (n :: l), m, r. split; [done|]. by split; [constructor|].
    + exists [], n, notes. split; [done|]. split; [constructor|].
      split; [|by split_and!; [..|exists h]]. intros (h' & Hh' & Hin'). congruence.
  - exists [], n, notes. split; [done|]. split; [constructor|].
    split; [|done]. intros (h' & Hh' & _). congruence.
Qed.

(** The tree of a block and the leaves at the position of a proof. *)
Lemma in_index_split n :
  0 <= in_index n < 2 ^ NOTE_TREE_DEPTH ->
  exists b k, position (b, k) = in_index n /\ 0 <= b < MAX_BATCHES_PER_BLOCK /\ 0 <= k < MAX_NOTES_PER_BATCH.
Proof.
  intros Hi. exists (in_index n / MAX_NOTES_PER_BATCH), (in_index n mod MAX_NOTES_PER_BATCH).
  change (2 ^ NOTE_TREE_DEPTH) with 1048576 in Hi. unfold position. cbn [fst snd].
  change MAX_NOTES_PER_BATCH with 4096. change MAX_BATCHES_PER_BLOCK with 256.
  pose proof (Z.div_mod (in_index n) 4096). pose proof (Z.mod_pos_bound (in_index n) 4096). lia.
Qed.

Lemma word_of_metadata_inj m m' :
  metadata_valid m -> metadata_valid m' -> word_of_metadata m = word_of_metadata m' -> m = m'.
Proof.
  intros Hm Hm' Heq.
  assert (H1 : metadata_try_from (word_of_metadata m) = Ok m) by (by apply metadata_try_from_ok).
  assert (H2 : metadata_try_from (word_of_metadata m) = Ok m') by (by apply metadata_try_from_ok).
  congruence.
Qed.

(** The word of metadata is not empty: it holds an account identifier. *)
Lemma word_of_metadata_full m : metadata_valid m -> word_of_metadata m <> EMPTY_WORD.
Proof.
  intros Hm Heq. assert (Ht : metadata_try_from (word_of_metadata m) = Ok m) by (by apply metadata_try_from_ok).
  rewrite Heq in Ht. destruct Hm as [[Hones _] _]. unfold metadata_try_from in Ht. inv_res.
  match goal with H : try_from_felt (w1 EMPTY_WORD) = Ok ?s |- _ => apply try_from_felt_ok_iff in H as [-> [Hones' _]] end.
  cbn in Hones'. rewrite as_int_ZERO in Hones'. by apply Hones'.
Qed.

(** An included note with a proof of the right shape is in the tree of the block. *)
Lemma included_listed_or_forged h entries n :
  block_created h entries -> metadata_valid (note_metadata (in_note n)) -> 0 <= in_index n < 2 ^ NOTE_TREE_DEPTH ->
  length (ip_note_path (in_proof n)) = Z.to_nat NOTE_TREE_DEPTH -> is_in_block n h = true ->
  note_listed entries n \/ note_forged entries n.
Proof.
  intros (Hrange & Hnd & Hmds & t & Ht & Hroot) Hmd Hidx Hlen Hver.
  destruct (in_index_split n Hidx) as (b & k & Hpos & Hb & Hk).
  destruct (note_path_ok t b k Hb Hk) as (path & Hpath & Hplen & Hpver). cbv zeta in Hpver. rewrite Hpos in Hpver.
  unfold is_in_block in Hver. fold (in_index n) in Hver. rewrite Hroot in Hver.
  destruct (path_binds _ path _ _ _ _ (eq_trans Hlen (eq_sym Hplen)) Hver Hpver) as [Hauth|Hc].
  2:{ right. exists t, path, b, k. by split_and!; [..|left]. }
  unfold authentication_hash in Hauth.
  destruct (merge_equal (_, _) (_, _) Hauth) as [Heq|Hc]; [left|right].
  2:{ exists t, path, b, k. by split_and!; [..|right]. }
  injection Heq as Hid Hword.
  destruct (block_tree_ok entries Hrange Hnd) as (t' & Ht' & Hget). rewrite Ht in Ht'. injection Ht' as <-.
  destruct (entry_at entries (in_index n)) as [[id md]|] eqn:Hat.
  - destruct (entry_at_elem entries (in_index n) (id, md) Hat) as ([b' k'] & Hin & Hpos').
    rewrite Forall_forall in Hrange, Hmds. destruct (Hrange _ Hin) as [Hb' Hk']. specialize (Hmds _ Hin).
    cbn in Hb', Hk', Hmds.
    destruct (entry_leaf_values entries t b' k' id md Hnd Hin Hb' Hk' Hget) as [Hl Hr].
    rewrite Hpos' in Hl, Hr. exists b', k'. split; [|done].
    rewrite Hl in Hid. rewrite Hr in Hword. apply word_of_metadata_inj in Hword as <-; [|done|done].
    unfold in_id. by rewrite Hid.
  - exfalso. apply (word_of_metadata_full (note_metadata (in_note n)) Hmd). rewrite Hword.
    change (2 ^ NOTE_TREE_DEPTH) with 1048576 in Hidx.
    change (2 ^ BLOCK_OUTPUT_NOTES_TREE_DEPTH) with 2097152 in Hget. rewrite Hget by lia.
    rewrite Z.mul_comm, Z.div_add_l by done. change (1 / 2) with 0. by rewrite Z.add_0_r, Hat.
Qed.

(** A note of the block with the path of the tree is included. *)
Lemma proved_included h entries n : block_created h entries -> note_proved entries n -> is_in_block n h = true.
Proof.
  intros (Hrange & Hnd & _ & t & Ht & Hroot) (t' & b & k & Ht' & Hin & Hpos & Hpath).
  rewrite Ht in Ht'. injection Ht' as <-.
  destruct (block_tree_ok entries Hrange Hnd) as (t' & Ht' & Hget). rewrite Ht in Ht'. injection Ht' as <-.
  rewrite Forall_forall in Hrange. destruct (Hrange _ Hin) as [Hb Hk]. cbn in Hb, Hk.
  destruct (entry_leaf_values entries t b k _ _ Hnd Hin Hb Hk Hget) as [Hl Hr].
  destruct (note_path_ok t b k Hb Hk) as (path & Hpath' & _ & Hver). rewrite Hpath in Hpath'. injection Hpath' as <-.
  cbv zeta in Hver. rewrite Hl, Hr, Hpos in Hver. unfold is_in_block. fold (in_index n). by rewrite Hroot.
Qed.

(** The checks of [new], in order. *)
Lemma transaction_inputs_new_outcome a seed header chain (notes : InputNotes InputNote) :
  let accepted := seed_accepted a seed /\ chain_length chain = block_num header /\
    hash_peaks (chain_peaks chain) = chain_root header /\ Forall (note_included header chain) (is_notes notes) in
  match transaction_inputs_new a seed header chain notes with
  | Ok ti => ti = mkTransactionInputs a seed header chain notes /\ accepted
  | Err e => ~ accepted /\ inputs_fault a seed header chain (is_notes notes) e
  | Panic => False
  end.
Proof.
  cbv zeta. unfold transaction_inputs_new.
  pose proof (validate_account_seed_spec a seed) as Hseed.
  pose proof (check_note_blocks_spec header chain (is_notes notes)) as Hnotes.
  destruct (validate_account_seed a seed) as [u|e|]; cbn [mbind res_bind]; [|by destruct Hseed; split; [tauto|]|done].
  destruct (decide (chain_length chain = block_num header)) as [Hlen|Hlen].
  2:{ rewrite decide_True by done. split; [tauto|]. cbn. by split_and!. }
  rewrite decide_False by tauto.
  destruct (decide (hash_peaks (chain_peaks chain) = chain_root header)) as [Hroot|Hroot].
  2:{ rewrite decide_True by done. split; [tauto|]. cbn. by split_and!. }
  rewrite decide_False by tauto.
  destruct (check_note_blocks header chain (is_notes notes)) as [u'|e|]; cbn [mbind res_bind]; [done| |done].
  destruct Hnotes as (l & n & r & Heq & Hl & Hbad & Hcase). split.
  - intros (_ & _ & _ & Hall). apply Hbad. rewrite Heq, Forall_forall in Hall. apply Hall. set_solver.
  - destruct e; try done; (split; [by split|]; split; [done|]); exists l, n, r;
      (split; [done|]; split; [done|exact Hcase]).
Qed.

Lemma transaction_inputs_new_ok a seed header chain (notes : InputNotes InputNote) ti :
  transaction_inputs_new a seed header chain notes = Ok ti <->
  ti = mkTransactionInputs a seed header chain notes /\ seed_accepted a seed /\
  chain_length chain = block_num header /\ hash_peaks (chain_peaks chain) = chain_root header /\
  Forall (note_included header chain) (is_notes notes).
Proof.
  pose proof (transaction_inputs_new_outcome a seed header chain notes) as Hout. cbv zeta in Hout.
  destruct (transaction_inputs_new a seed header chain notes) as [ti'|e|].
  - destruct Hout as [-> Hacc]. split; [intros [= <-]; tauto|]. by intros [-> _].
  - split; [done|]. tauto.
  - done.
Qed.
End lemmas.

(** ** Properties *)

Section properties.
Context `{F : Field} {FL : FieldLaws F} {C : Crypto} {SSL : SimpleSmtLaws C} {MK : Merkle} {ML : MerkleLaws MK}
  {AS : Assembly} {P : Programs} {FE : Features} {D : Display} {B : Build} {IO : ByteIO}.

(** C22: the inputs of a transaction are accepted exactly when the seed fits the
    account, the view of the chain has the length and root the reference block
    claims, and the proof of every input note leads to the note root of the
    block it comes from, which is the reference block or one of the view. A
    refusal is an error that names the first check to fail, never a panic. *)
Theorem transaction_inputs_new_spec (a : Account) (seed : option Word) (header : BlockHeader) (chain : ChainMmr)
    (notes : InputNotes InputNote) :
  (forall ti, transaction_inputs_new a seed header chain notes = Ok ti <->
     ti = mkTransactionInputs a seed header chain notes /\ seed_accepted a seed /\
     chain_length chain = block_num header /\ hash_peaks (chain_peaks chain) = chain_root header /\
     Forall (note_included header chain) (is_notes notes)) /\
  (forall e, transaction_inputs_new a seed header chain notes = Err e ->
     inputs_fault a seed header chain (is_notes notes) e) /\
  transaction_inputs_new a seed header chain notes <> Panic.
Proof.
  split; [intros ti; apply transaction_inputs_new_ok|].
  pose proof (transaction_inputs_new_outcome a seed header chain notes) as Hout. cbv zeta in Hout.
  destruct (transaction_inputs_new a seed header chain notes) as [ti|e|]; [done| |done].
  split; [|done]. intros e' [= <-]. tauto.
Qed.

(** C5: accepted input notes exist: when the blocks the transaction knows created
    certain notes, every accepted note with a proof of the right shape is among
    the notes its block created, at the index of the proof, or its proof and
    the note tree of the block exhibit a collision of the hash function. *)
Theorem input_notes_authentic (a : Account) (seed : option Word) (header : BlockHeader) (chain : ChainMmr)
    (notes : InputNotes InputNote) (ti : TransactionInputs) (created : Z -> note_entries)
    (Hchain : chain_wf chain)
    (Hcreated : forall h, h = header \/ get_block chain (block_num h) = Some h ->
       block_created h (created (block_num h)))
    (Hshape : Forall proof_shaped (is_notes notes))
    (Hok : transaction_inputs_new a seed header chain notes = Ok ti) :
  Forall (fun n => let entries := created (origin_block_num (in_origin n)) in
    note_listed entries n \/ note_forged entries n) (is_notes notes).
Proof.
  apply transaction_inputs_new_ok in Hok as (_ & _ & _ & _ & Hin).
  rewrite Forall_forall in *. intros n Hn. destruct (Hin n Hn) as (h & Hh & Hver).
  destruct (Hshape n Hn) as (Hmd & Hidx & Hlen). cbv zeta.
  assert (Hnum : block_num h = origin_block_num (in_origin n) /\ block_created h (created (block_num h))).
  { unfold note_header in Hh. case_decide as Hcur; [injection Hh as <-; by split; [rewrite Hcur|apply Hcreated; left]|].
    destruct Hchain as [_ Hwf]. destruct (Hwf _ _ Hh) as [Heq _]. split; [done|]. apply Hcreated. right.
    by rewrite Heq. }
  destruct Hnum as [Hnum Hblock]. rewrite Hnum in Hblock. by eapply included_listed_or_forged.
Qed.

(** C21: notes a block created are accepted: on an existing account and a view of the
    chain that agrees with the reference block, notes of known blocks with the
    proofs their trees give make transaction inputs. *)
Theorem created_notes_accepted (a : Account) (header : BlockHeader) (chain : ChainMmr)
    (notes : InputNotes InputNote) (created : Z -> note_entries)
    (Hnew : is_new a = false)
    (Hlen : chain_length chain = block_num header)
    (Hroot : hash_peaks (chain_peaks chain) = chain_root header)
    (Hcreated : forall h, h = header \/ get_block chain (block_num h) = Some h ->
       block_created h (created (block_num h)))
    (Hchain : chain_wf chain)
    (Hknown : Forall (fun n => is_Some (note_header header chain n) /\
       note_proved (created (origin_block_num (in_origin n))) n) (is_notes notes)) :
  transaction_inputs_new a None header chain notes = Ok (mkTransactionInputs a None header chain notes).
Proof.
  apply transaction_inputs_new_ok. split; [done|]. split; [unfold seed_accepted; by rewrite Hnew|].
  split; [done|]. split; [done|]. rewrite Forall_forall in *. intros n Hn.
  destruct (Hknown n Hn) as [[h Hh] Hproved]. exists h. split; [done|].
  apply (proved_included h (created (origin_block_num (in_origin n)))); [|done].
  unfold note_header in Hh. case_decide as Hcur.
  - injection Hh as <-. rewrite Hcur. apply Hcreated. by left.
  - destruct Hchain as [_ Hwf]. destruct (Hwf _ _ Hh) as [Heq _]. rewrite <- Heq. apply Hcreated.
    right. by rewrite Heq.
Qed.
End properties.

Section notes_properties.
Context `{F : Field} {FL : FieldLaws F} {C : Crypto} {MK : Merkle} {ML : MerkleLaws MK} {AS : Assembly}
  {P : Programs} {PL : ProgramLaws P} {FE : Features} {D : Display} {B : Build} {IO : ByteIO} {IOL : ByteIOLaws IO}.

(** The commitment is to the nullifiers only. *)
Lemma nullifiers_commitment (notes : list InputNote) :
  build_input_notes_commitment (map nullifier notes) = build_input_notes_commitment notes.
Proof.
  unfold build_input_notes_commitment. destruct notes as [|n l]; [done|]. cbn [map]. do 2 f_equal.
  f_equal. by rewrite map_map.
Qed.

Lemma nullifiers_of_inputs_new (ns : InputNotes InputNote) :
  input_notes_wf ns -> input_notes_new (map nullifier (is_notes ns)) = Ok (nullifiers_of_inputs ns).
Proof.
  intros (Hlen & Hnd & _). pose proof (nullifiers_commitment (is_notes ns)) as Hcom.
  apply input_notes_new_ok. split; [done|]. unfold input_notes_wf. cbn.
  rewrite length_map. split; [done|]. split; [|done].
  change (map nullifier (is_notes ns)) with (nullifier <$> is_notes ns). by rewrite list_fmap_id.
Qed.

Lemma input_note_round_trip : round_trips input_note_codec input_note_ok.
Proof.
  apply reads_back_round_trips. intros [n ip] [Hn Hip]. cbn [write_into read_from input_note_codec in_note in_proof].
  eapply reads_back_cons; [apply note_round_trip|exact Hn|].
  by eapply reads_back_last; [apply inclusion_proof_round_trip| |].
Qed.

Lemma input_notes_round_trip {T} {TN : ToNullifier T} (ok : T -> Prop) :
  round_trips input_codec ok ->
  round_trips input_notes_codec (fun ns : InputNotes T => input_notes_wf ns /\ Forall ok (is_notes ns)).
Proof.
  intros Hcodec. apply round_trip_intro. intros ns [Hwf Hok]. assert (Hlen := Hwf). destruct Hlen as [Hlen _].
  unfold MAX_INPUT_NOTES_PER_TX in Hlen. set (n := Z.of_nat (length (is_notes ns))) in *.
  destruct (round_trip_elim _ _ (n mod 2 ^ 16) u16_round_trip) as (b1 & Hw1 & Hr1); [by apply Z.mod_pos_bound|].
  destruct (many_round_trip input_codec ok (is_notes ns) Hcodec Hok) as (b2 & Hw2 & Hr2).
  exists (b1 ++ b2). split.
  - cbn [write_into input_notes_codec]. fold n. rewrite bool_decide_true by lia. by apply wappend_ok.
  - intros rest. rewrite <- app_assoc. cbn [read_from input_notes_codec].
    erewrite mut_bind_ok by apply Hr1. rewrite Z.mod_small by lia. unfold n. rewrite Nat2Z.id.
    erewrite mut_bind_ok by apply Hr2. by apply lift_step, map_err_ok, input_notes_new_ok.
Qed.

Lemma nullifiers_round_trip : round_trips input_notes_codec (fun ns : InputNotes Nullifier => input_notes_wf ns).
Proof.
  intros ns Hwf. eapply (input_notes_round_trip (TN := Nullifier_nullifier) (fun _ => True));
    [exact nullifier_round_trip|]. split; [done|]. by apply Forall_true.
Qed.

(** A list of input notes, or of their nullifiers, is made exactly from at most
    1023 notes with distinct nullifiers, otherwise the error names the count or
    a duplicate. The commitment depends on the nullifiers only: the list of the
    nullifiers of accepted notes is accepted and has the commitment of the
    notes. Both kinds of list are written and read back. *)
Theorem input_notes_spec :
  (forall T (TN : ToNullifier T) (notes : list T),
     (forall ns, input_notes_new notes = Ok ns <-> is_notes ns = notes /\ input_notes_wf ns) /\
     (1023 < Z.of_nat (length notes) ->
        input_notes_new notes = Err (TooManyInputNotes 1023 (Z.of_nat (length notes)))) /\
     (Z.of_nat (length notes) <= 1023 -> ~ NoDup (nullifier <$> notes) ->
        exists n, n ∈ notes /\ input_notes_new notes = Err (DuplicateInputNote (nullifier_digest (nullifier n))))) /\
  (forall (notes : list InputNote) ns, input_notes_new notes = Ok ns ->
     input_notes_new (map nullifier notes) = Ok (nullifiers_of_inputs ns) /\
     is_commitment (nullifiers_of_inputs ns) = is_commitment ns) /\
  round_trips input_notes_codec (fun ns : InputNotes InputNote =>
    input_notes_wf ns /\ Forall input_note_ok (is_notes ns)) /\
  round_trips input_notes_codec (fun ns : InputNotes Nullifier => input_notes_wf ns).
Proof.
  split; [|split; [|split; [exact (input_notes_round_trip input_note_ok input_note_round_trip)|]]].
  - intros T TN notes. split_and!; [apply input_notes_new_ok|..].
    + intros Hlen. unfold input_notes_new, MAX_INPUT_NOTES_PER_TX. by rewrite decide_True by lia.
    + intros Hlen Hnd. unfold input_notes_new, MAX_INPUT_NOTES_PER_TX. rewrite decide_False by lia.
      destruct (check_nullifiers_spec notes) as [(_ & ?)|(n & Hn & -> & _)]; [done|by exists n].
  - intros notes ns [<- Hwf]%input_notes_new_ok. split; [by apply nullifiers_of_inputs_new|].
    destruct Hwf as (_ & _ & Hc). by rewrite Hc.
  - exact nullifiers_round_trip.
Qed.

(** Well-formed lists of input notes that compare equal are equal: the commitment, which
    is not compared, is that of the notes. *)
Theorem input_notes_eq_exact {T : Type} {TN : ToNullifier T} `{EqDecision T} (ns ns' : InputNotes T) (Hns : input_notes_wf ns)
    (Hns' : input_notes_wf ns') : input_notes_eq ns ns' = true <-> ns = ns'.
Proof.
  destruct ns as [l c], ns' as [l' c'], Hns as (_ & _ & Hc), Hns' as (_ & _ & Hc'). unfold input_notes_eq.
  rewrite bool_decide_eq_true. cbn [is_notes is_commitment] in *. split; [|by intros [= ->]]. intros ->. by rewrite Hc, Hc'.
Qed.
End notes_properties.

(** ** Witnesses *)

Import RefInstances.

(** A note created in block 1 of a chain of three blocks and consumed later. *)
Definition consumed_note : Note := sample_note [ONE].
Definition consumed_entries : note_entries := [((3, 1), (note_id_digest (note_id consumed_note), sample_metadata))].
Definition created_notes (num : Z) : note_entries := if decide (num = 1) then consumed_entries else [].
Definition input_of (path : list Digest) : InputNote :=
  mkInputNote consumed_note (mkInclusionProof (mkNoteOrigin 1 (NOTE_TREE_DEPTH, 12289)) EMPTY_WORD EMPTY_WORD path).
Definition header_of (num : Z) (chain_root note_root : Digest) : BlockHeader :=
  block_header_new EMPTY_WORD num chain_root EMPTY_WORD EMPTY_WORD note_root EMPTY_WORD EMPTY_WORD ONE ZERO.

Lemma consumed_entries_ok :
  Forall entry_in_range consumed_entries /\ NoDup (position <$> consumed_entries.*1) /\
  Forall (fun e => metadata_valid e.2.2) consumed_entries.
Proof.
  split; [|split; [apply NoDup_singleton|]].
  - constructor; [|constructor]. split; cbn; (split; [lia|by vm_compute]).
  - constructor; [|constructor]. exact sample_metadata_valid.
Qed.

(** The setting of the witnesses: the headers, the view of the chain and the proof. *)
Lemma consumed_setting :
  exists (header : BlockHeader) (chain : ChainMmr) (path : list Digest),
    chain_wf chain /\ chain_length chain = block_num header /\
    hash_peaks (chain_peaks chain) = chain_root header /\
    (forall h, h = header \/ get_block chain (block_num h) = Some h -> block_created h (created_notes (block_num h))) /\
    is_Some (note_header header chain (input_of path)) /\
    note_proved (created_notes 1) (input_of path) /\ proof_shaped (input_of path) /\ header_consistent header.
Proof.
  destruct consumed_entries_ok as (Hr & Hnd & Hmd).
  destruct (block_tree_ok consumed_entries Hr Hnd) as (t & Ht & _).
  destruct (block_tree_ok [] (Forall_nil_2 _) (NoDup_nil_2)) as (t0 & Ht0 & _).
  destruct (note_path_ok t 3 1) as (path & Hpath & Hlen & _); [split; [lia|by vm_compute]..|].
  set (h1 := header_of 1 EMPTY_WORD (SimpleSmt_root t)).
  exists (header_of 3 (hash_peaks (mmr_peaks sample_mmr)) (SimpleSmt_root t0)), (mkChainMmr sample_mmr [(1, h1)]), path.
  split; [|split; [done|split; [done|split; [|split; [by exists h1|split]]]]].
  - split; [apply NoDup_singleton|]. intros num h. unfold get_block. cbn. case_decide as Hn; [|done].
    intros [= <-]. split; [done|]. split; [done|]. by apply bool_decide_eq_true; left.
  - intros h [->|Hh].
    + split; [constructor|]. split; [constructor|]. split; [constructor|]. by exists t0.
    + unfold get_block in Hh. cbn [btree_get cm_blocks] in Hh. case_decide as Hnum; [|done]. injection Hh as <-.
      split; [done|]. split; [done|]. split; [done|]. by exists t.
  - exists t, 3, 1. split; [done|]. split; [by left|]. by split.
  - split; [|by apply block_header_new_consistent].
    split; [exact sample_metadata_valid|]. split; [split; [by vm_compute|by vm_compute]|done].
Qed.

(** The inputs of a transaction that consumes the note. *)
Lemma consumed_inputs :
  exists a header chain path ti (notes := mkInputNotes [input_of path] (build_input_notes_commitment [input_of path])),
    transaction_inputs_new a None header chain notes = Ok ti /\ header_consistent header /\
    proof_shaped (input_of path) /\ input_notes_wf notes /\ chain_wf chain /\
    (forall h, h = header \/ get_block chain (block_num h) = Some h -> block_created h (created_notes (block_num h))).
Proof.
  destruct (sample_account ONE) as (a & _ & _ & _ & Hn & _).
  destruct consumed_setting as (header & chain & path & Hwf & Hlen & Hroot & Hcreated & [h Hh] & Hproved & Hshape & Hcons).
  set (notes := mkInputNotes [input_of path] (build_input_notes_commitment [input_of path])).
  exists a, header, chain, path, (mkTransactionInputs a None header chain notes). cbv zeta.
  split; [|split; [done|split; [done|split; [by split; [by vm_compute|split; [apply NoDup_singleton|]]|by split]]]].
  apply transaction_inputs_new_ok. split; [done|].
  split; [unfold seed_accepted, is_new; by rewrite Hn|]. split; [done|]. split; [done|].
  constructor; [|constructor]. exists h. split; [exact Hh|].
  apply (proved_included h (created_notes 1)); [|done]. unfold note_header in Hh. case_decide as Hcur.
  - injection Hh as <-. cbn in Hcur. rewrite Hcur. apply Hcreated. by left.
  - destruct (proj2 Hwf _ _ Hh) as [Heq _]. cbn in Heq. rewrite <- Heq. apply Hcreated. right. by rewrite Heq.
Qed.

Lemma transaction_inputs_new_spec_witness :
  exists a header chain ti, transaction_inputs_new a None header chain (mkInputNotes [] EMPTY_WORD) = Ok ti /\
    ti_block_header ti = header.
Proof.
  destruct (sample_account ONE) as (a & _ & _ & _ & Hn & _).
  destruct consumed_setting as (header & chain & path & _ & Hlen & Hroot & _).
  exists a, header, chain, (mkTransactionInputs a None header chain (mkInputNotes [] EMPTY_WORD)).
  split; [|reflexivity].
  destruct (transaction_inputs_new_spec a None header chain (mkInputNotes [] EMPTY_WORD)) as [Hok _].
  apply Hok. split; [reflexivity|]. split; [|split; [exact Hlen|split; [exact Hroot|constructor]]].
  unfold seed_accepted, is_new. rewrite Hn. exact I.
Defined.

Lemma input_notes_authentic_witness :
  exists path, note_listed (created_notes 1) (input_of path) \/ note_forged (created_notes 1) (input_of path).
Proof.
  destruct consumed_inputs as (a & header & chain & path & ti & Hti & _ & Hshape & _ & Hwf & Hcreated). exists path.
  pose proof (input_notes_authentic a None header chain
    (mkInputNotes [input_of path] (build_input_notes_commitment [input_of path])) ti created_notes Hwf Hcreated
    (Forall_cons_2 _ _ _ Hshape (Forall_nil_2 _)) Hti) as Hall.
  apply Forall_cons_1 in Hall. exact (proj1 Hall).
Defined.

Lemma created_notes_accepted_witness :
  exists a header chain notes ti, transaction_inputs_new a None header chain notes = Ok ti /\
    is_notes notes <> [].
Proof.
  destruct (sample_account ONE) as (a & _ & _ & _ & Hn & _).
  destruct consumed_setting as (header & chain & path & Hwf & Hlen & Hroot & Hcreated & Hh & Hproved & _).
  eexists a, header, chain, (mkInputNotes [input_of path] EMPTY_WORD), _. split; [|discriminate].
  apply (created_notes_accepted a header chain _ created_notes); try assumption.
  - unfold is_new. rewrite Hn. apply bool_decide_eq_false. intros Heq. apply (f_equal as_int) in Heq. discriminate Heq.
  - constructor; [|constructor]. split; [exact Hh|exact Hproved].
Defined.

Lemma input_notes_spec_witness :
  exists ns, input_notes_new [mkNullifier EMPTY_WORD] = Ok ns /\
    exists bs, write_into input_notes_codec ns = Ok bs /\ read_from input_notes_codec bs = ([], Ok ns).
Proof.
  destruct input_notes_spec as (Hnew & _ & _ & Hrt).
  set (notes := [mkNullifier EMPTY_WORD]).
  set (ns := mkInputNotes notes (build_input_notes_commitment notes)).
  assert (Hwf : input_notes_wf ns).
  { split; [by vm_compute|]. split; [apply NoDup_singleton|reflexivity]. }
  exists ns. split; [by apply (Hnew _ _ notes)|]. destruct (Hrt ns Hwf) as (bs & Hw & Hr).
  exists bs. split; [exact Hw|]. destruct (Hr []) as (x & Hread & <-). rewrite app_nil_r in Hread. exact Hread.
Defined.

Lemma input_notes_eq_exact_witness :
  input_notes_eq (input_notes_default (T := Nullifier)) (input_notes_default (T := Nullifier)) = true.
Proof.
  apply (input_notes_eq_exact (input_notes_default (T := Nullifier)) input_notes_default); [split; [done|]|split; [done|]|reflexivity];
    (split; [constructor|reflexivity]).
Defined.
