(* ===== verification/Memory.v ===== *)
(** miden-lib/src/transaction/memory.rs: where the transaction kernel keeps the data
    of a transaction in the memory of the virtual machine. An address is that of a
    word; an offset is relative to the start of a section or of a note. *)
From S2P Require Import Prelude Interfaces NoteContents Outputs Inputs.
Local Open Scope Z_scope.

Definition FAUCET_STORAGE_DATA_SLOT : Z := 254.
Definition SLOT_TYPES_COMMITMENT_STORAGE_SLOT : Z := 255.
Definition TX_VAULT_ROOT_PTR : Z := 0.
Definition CURRENT_CONSUMED_NOTE_PTR : Z := 1.
Definition NUM_CREATED_NOTES_PTR : Z := 2.
Definition INPUT_VAULT_ROOT_PTR : Z := 3.
Definition OUTPUT_VAULT_ROOT_PTR : Z := 4.
Definition GLOBAL_INPUTS_SECTION_OFFSET : Z := 100.
Definition BLK_HASH_PTR : Z := 100.
Definition ACCT_ID_PTR : Z := 101.
Definition INIT_ACCT_HASH_PTR : Z := 102.
Definition NULLIFIER_COM_PTR : Z := 103.
Definition INIT_NONCE_PTR : Z := 104.
Definition TX_SCRIPT_ROOT_PTR : Z := 105.
Definition BLOCK_DATA_SECTION_OFFSET : Z := 200.
Definition PREV_BLOCK_HASH_PTR : Z := 200.
Definition CHAIN_ROOT_PTR : Z := 201.
Definition ACCT_DB_ROOT_PTR : Z := 202.
Definition NULLIFIER_DB_ROOT_PTR : Z := 203.
Definition BATCH_ROOT_PTR : Z := 204.
Definition PROOF_HASH_PTR : Z := 205.
Definition BLOCK_METADATA_PTR : Z := 206.
Definition BLOCK_NUMBER_IDX : Z := 0.
Definition PROTOCOL_VERSION_IDX : Z := 1.
Definition TIMESTAMP_IDX : Z := 2.
Definition NOTE_ROOT_PTR : Z := 207.
Definition CHAIN_MMR_PTR : Z := 300.
Definition CHAIN_MMR_NUM_LEAVES_PTR : Z := 300.
Definition CHAIN_MMR_PEAKS_PTR : Z := 301.
Definition ACCT_DATA_MEM_SIZE : Z := 4.
Definition ACCT_DATA_SECTION_OFFSET : Z := 400.
Definition ACCT_ID_AND_NONCE_OFFSET : Z := 0.
Definition ACCT_ID_IDX : Z := 0.
Definition ACCT_NONCE_IDX : Z := 3.
Definition ACCT_ID_AND_NONCE_PTR : Z := ACCT_DATA_SECTION_OFFSET + ACCT_ID_AND_NONCE_OFFSET.
Definition ACCT_VAULT_ROOT_OFFSET : Z := 1.
Definition ACCT_VAULT_ROOT_PTR : Z := ACCT_DATA_SECTION_OFFSET + ACCT_VAULT_ROOT_OFFSET.
Definition ACCT_STORAGE_ROOT_OFFSET : Z := 2.
Definition ACCT_STORAGE_ROOT_PTR : Z := ACCT_DATA_SECTION_OFFSET + ACCT_STORAGE_ROOT_OFFSET.
Definition ACCT_CODE_ROOT_OFFSET : Z := 3.
Definition ACCT_CODE_ROOT_PTR : Z := ACCT_DATA_SECTION_OFFSET + ACCT_CODE_ROOT_OFFSET.
Definition ACCT_NEW_CODE_ROOT_OFFSET : Z := 4.
Definition ACCT_NEW_CODE_ROOT_PTR : Z := ACCT_DATA_SECTION_OFFSET + ACCT_NEW_CODE_ROOT_OFFSET.
Definition ACCT_STORAGE_SLOT_TYPE_DATA_OFFSET : Z := 405.
Definition NOTE_MEM_SIZE : Z := 512.
Definition CONSUMED_NOTE_SECTION_OFFSET : Z := 1048576.
Definition CONSUMED_NOTE_DATA_SECTION_OFFSET : Z := 1064960.
Definition CONSUMED_NOTE_NUM_PTR : Z := CONSUMED_NOTE_SECTION_OFFSET.
Definition CONSUMED_NOTE_ID_OFFSET : Z := 0.
Definition CONSUMED_NOTE_SERIAL_NUM_OFFSET : Z := 1.
Definition CONSUMED_NOTE_SCRIPT_ROOT_OFFSET : Z := 2.
Definition CONSUMED_NOTE_INPUTS_HASH_OFFSET : Z := 3.
Definition CONSUMED_NOTE_ASSETS_HASH_OFFSET : Z := 4.
Definition CONSUMED_NOTE_METADATA_OFFSET : Z := 5.
Definition CONSUMED_NOTE_ARGS_OFFSET : Z := 6.
Definition CONSUMED_NOTE_NUM_INPUTS_OFFSET : Z := 7.
Definition CONSUMED_NOTE_NUM_ASSETS_OFFSET : Z := 8.
Definition CONSUMED_NOTE_ASSETS_OFFSET : Z := 9.
Definition CREATED_NOTE_SECTION_OFFSET : Z := 4194304.
Definition CREATED_NOTE_CORE_DATA_SIZE : Z := 4.
Definition CREATED_NOTE_ID_OFFSET : Z := 0.
Definition CREATED_NOTE_METADATA_OFFSET : Z := 1.
Definition CREATED_NOTE_RECIPIENT_OFFSET : Z := 2.
Definition CREATED_NOTE_ASSET_HASH_OFFSET : Z := 3.
Definition CREATED_NOTE_NUM_ASSETS_OFFSET : Z := 4.
Definition CREATED_NOTE_ASSETS_OFFSET : Z := 5.

(** ** The layout

    The words of a consumed note start at a multiple of the size of a note from the
    start of the data section, and those of a created note likewise. *)
Definition consumed_note_ptr (i : Z) : Z := CONSUMED_NOTE_DATA_SECTION_OFFSET + i * NOTE_MEM_SIZE.
Definition created_note_ptr (i : Z) : Z := CREATED_NOTE_SECTION_OFFSET + i * NOTE_MEM_SIZE.

(** A word of the memory, as the sections divide it. *)
Inductive mem_word :=
| MemFixed (ptr : Z)                    (* bookkeeping, global inputs, block and account data *)
| MemPeak (i : Z)                       (* a peak of the chain *)
| MemSlotTypes (i : Z)                  (* four of the types of the storage slots *)
| MemNullifier (note : Z)
| MemConsumed (note offset : Z)
| MemConsumedAsset (note asset : Z)
| MemCreated (note offset : Z)
| MemCreatedAsset (note asset : Z).

Definition fixed_ptrs : list Z :=
  [TX_VAULT_ROOT_PTR; CURRENT_CONSUMED_NOTE_PTR; NUM_CREATED_NOTES_PTR; INPUT_VAULT_ROOT_PTR; OUTPUT_VAULT_ROOT_PTR;
   BLK_HASH_PTR; ACCT_ID_PTR; INIT_ACCT_HASH_PTR; NULLIFIER_COM_PTR; INIT_NONCE_PTR; TX_SCRIPT_ROOT_PTR;
   PREV_BLOCK_HASH_PTR; CHAIN_ROOT_PTR; ACCT_DB_ROOT_PTR; NULLIFIER_DB_ROOT_PTR; BATCH_ROOT_PTR; PROOF_HASH_PTR;
   BLOCK_METADATA_PTR; NOTE_ROOT_PTR; CHAIN_MMR_NUM_LEAVES_PTR;
   ACCT_ID_AND_NONCE_PTR; ACCT_VAULT_ROOT_PTR; ACCT_STORAGE_ROOT_PTR; ACCT_CODE_ROOT_PTR; ACCT_NEW_CODE_ROOT_PTR;
   CONSUMED_NOTE_NUM_PTR].

(** The words a transaction within the limits of the protocol uses. *)
Definition mem_used (w : mem_word) : Prop :=
  match w with
  | MemFixed p => p ∈ fixed_ptrs
  | MemPeak i => 0 <= i < 64
  | MemSlotTypes i => 0 <= i < 64
  | MemNullifier n => 0 <= n < MAX_INPUT_NOTES_PER_TX
  | MemConsumed n o => 0 <= n < MAX_INPUT_NOTES_PER_TX /\ 0 <= o < CONSUMED_NOTE_ASSETS_OFFSET
  | MemConsumedAsset n a => 0 <= n < MAX_INPUT_NOTES_PER_TX /\ 0 <= a < MAX_ASSETS_PER_NOTE
  | MemCreated n o => 0 <= n < MAX_OUTPUT_NOTES_PER_TX /\ 0 <= o < CREATED_NOTE_ASSETS_OFFSET
  | MemCreatedAsset n a => 0 <= n < MAX_OUTPUT_NOTES_PER_TX /\ 0 <= a < MAX_ASSETS_PER_NOTE
  end.

Definition mem_addr (w : mem_word) : Z :=
  match w with
  | MemFixed p => p
  | MemPeak i => CHAIN_MMR_PEAKS_PTR + i
  | MemSlotTypes i => ACCT_STORAGE_SLOT_TYPE_DATA_OFFSET + i
  | MemNullifier n => CONSUMED_NOTE_SECTION_OFFSET + 1 + n
  | MemConsumed n o => consumed_note_ptr n + o
  | MemConsumedAsset n a => consumed_note_ptr n + CONSUMED_NOTE_ASSETS_OFFSET + a
  | MemCreated n o => created_note_ptr n + o
  | MemCreatedAsset n a => created_note_ptr n + CREATED_NOTE_ASSETS_OFFSET + a
  end.

(** ** Properties *)

(** C32: no two words a transaction uses have one address, whatever the number of notes
    and of their assets within the limits of the protocol, and every address is one
    of the virtual machine. *)
Theorem memory_layout_disjoint (w w' : mem_word) (Hw : mem_used w) (Hw' : mem_used w') :
  0 <= mem_addr w < 2 ^ 32 /\ (mem_addr w = mem_addr w' -> w = w').
Proof.
  assert (Hfixed : forall p, p ∈ fixed_ptrs ->
    0 <= p <= 300 \/ 400 <= p < 405 \/ p = CONSUMED_NOTE_SECTION_OFFSET).
  { intros p Hp. apply list_elem_of_In in Hp. vm_compute in Hp. unfold CONSUMED_NOTE_SECTION_OFFSET.
    repeat (destruct Hp as [<-|Hp]; [lia|]). done. }
  assert (Hu : forall p, mem_used (MemFixed p) -> 0 <= p <= 300 \/ 400 <= p < 405 \/ p = CONSUMED_NOTE_SECTION_OFFSET)
    by exact Hfixed.
  destruct w; try (apply Hu in Hw); destruct w'; try (apply Hu in Hw');
    cbn [mem_used mem_addr] in *; unfold consumed_note_ptr, created_note_ptr, CONSUMED_NOTE_DATA_SECTION_OFFSET,
      CREATED_NOTE_SECTION_OFFSET, NOTE_MEM_SIZE, CONSUMED_NOTE_ASSETS_OFFSET, CREATED_NOTE_ASSETS_OFFSET,
      CONSUMED_NOTE_SECTION_OFFSET, CHAIN_MMR_PEAKS_PTR, ACCT_STORAGE_SLOT_TYPE_DATA_OFFSET, MAX_INPUT_NOTES_PER_TX,
      MAX_OUTPUT_NOTES_PER_TX, MAX_ASSETS_PER_NOTE in *;
    (split; [lia|intros Heq; first [f_equal; lia | exfalso; lia]]).
Qed.

(** ** Witness *)

Lemma memory_layout_disjoint_witness :
  mem_addr (MemConsumedAsset 0 255) <> mem_addr (MemConsumed 1 0).
Proof.
  intros Heq. apply memory_layout_disjoint in Heq; [discriminate| |]; cbn; split; (lia || by vm_compute).
Defined.
