(* ===== verification/Tracker.v ===== *)
(** miden-tx/src/host/account_delta_tracker.rs: the account changes a transaction
    host accumulates from kernel events, and the delta it makes of them. *)
From S2P Require Import Prelude Interfaces Types Reference BTree AccountIds Assets Vault Storage.
From S2P Require Import Delta Code Account.
Local Open Scope Z_scope.

Section tracker.
Context `{F : Field} {C : Crypto} {AS : Assembly} {FE : Features} {D : Display} {B : Build}.

(** [update_asset_delta] at a signed integer type of [w] bits. *)
Definition update_asset_delta {K} `{EqDecision K} (cmp : K -> K -> comparison) (w : Z) (key : K)
    (amount : Z) : mut (list (K * Z)) Empty_set unit :=
  delta_map ← read_self;
  match btree_get delta_map key with
  | Some entry =>
      if decide (entry = - amount) then write_self (btree_remove delta_map key)
      else
        sum ← lift (sadd_w w entry amount);
        write_self (btree_insert cmp delta_map key sum)
  | None => write_self (btree_insert cmp delta_map key amount)
  end.

(** ** Vault *)

Record AccountVaultDeltaTracker := mkVaultTracker {
  fungible_assets : list (AccountId * Z);
  non_fungible_assets : list (Digest * Z) }.

Definition put_fungible (m : list (AccountId * Z)) (t : AccountVaultDeltaTracker) :=
  mkVaultTracker m (non_fungible_assets t).
Definition put_non_fungible (m : list (Digest * Z)) (t : AccountVaultDeltaTracker) :=
  mkVaultTracker (fungible_assets t) m.

Definition tracker_add_asset (asset : Asset) : mut AccountVaultDeltaTracker Empty_set unit :=
  match asset with
  | Fungible asset =>
      on_field fungible_assets put_fungible
        (update_asset_delta AccountId_cmp 128 (fa_faucet_id asset) (fa_amount asset))
  | NonFungible asset =>
      on_field non_fungible_assets put_non_fungible
        (update_asset_delta digest_cmp 8 (non_fungible_vault_key asset) 1)
  end.

Definition tracker_remove_asset (asset : Asset) : mut AccountVaultDeltaTracker Empty_set unit :=
  match asset with
  | Fungible asset =>
      on_field fungible_assets put_fungible
        (update_asset_delta AccountId_cmp 128 (fa_faucet_id asset) (- fa_amount asset))
  | NonFungible asset =>
      on_field non_fungible_assets put_non_fungible
        (update_asset_delta digest_cmp 8 (non_fungible_vault_key asset) (-1))
  end.

(** The two loops of [into_delta]; [unsigned_abs() as u64] wraps. *)
Fixpoint split_fungible {E} (entries : list (AccountId * Z)) (d : AccountVaultDelta)
    : res E AccountVaultDelta :=
  match entries with
  | [] => Ok d
  | (faucet_id, amount) :: entries' =>
      asset ← expect_ok (fungible_new (new_unchecked (felt_of_id faucet_id)) (Z.abs amount mod 2 ^ 64));
      split_fungible entries'
        (if decide (amount > 0)
         then mkAccountVaultDelta (added_assets d ++ [Fungible asset]) (removed_assets d)
         else mkAccountVaultDelta (added_assets d) (removed_assets d ++ [Fungible asset]))
  end.

Fixpoint split_non_fungible {E} (entries : list (Digest * Z)) (d : AccountVaultDelta)
    : res E AccountVaultDelta :=
  match entries with
  | [] => Ok d
  | (asset, amount) :: entries' =>
      let asset := NonFungible (mkNonFungibleAsset asset) in
      if decide (amount = 1) then
        split_non_fungible entries'
          (mkAccountVaultDelta (added_assets d ++ [asset]) (removed_assets d))
      else if decide (amount = -1) then
        split_non_fungible entries'
          (mkAccountVaultDelta (added_assets d) (removed_assets d ++ [asset]))
      else Panic
  end.

Definition vault_tracker_into_delta {E} (self : AccountVaultDeltaTracker) : res E AccountVaultDelta :=
  d ← split_fungible (fungible_assets self) (mkAccountVaultDelta [] []);
  split_non_fungible (non_fungible_assets self) d.

(** ** Storage *)

Record AccountStorageDeltaTracker := mkStorageTracker { slot_updates : list (Z * Word) }.

Definition slot_update (slot_index : Z) (new_slot_value : Word)
    : mut AccountStorageDeltaTracker Empty_set unit :=
  self ← read_self;
  write_self (mkStorageTracker (btree_insert Z.compare (slot_updates self) slot_index new_slot_value)).

Fixpoint split_slots (entries : list (Z * Word)) (d : AccountStorageDelta) : AccountStorageDelta :=
  match entries with
  | [] => d
  | (idx, value) :: entries' =>
      split_slots entries'
        (if decide (value = EMPTY_WORD)
         then mkAccountStorageDelta (cleared_items d ++ [idx]) (updated_items d)
         else mkAccountStorageDelta (cleared_items d) (updated_items d ++ [(idx, value)]))
  end.

Definition storage_tracker_into_delta (self : AccountStorageDeltaTracker) : AccountStorageDelta :=
  split_slots (slot_updates self) (mkAccountStorageDelta [] []).

(** ** Account *)

Record AccountDeltaTracker := mkDeltaTracker {
  dt_storage : AccountStorageDeltaTracker;
  dt_vault : AccountVaultDeltaTracker;
  dt_init_nonce : Felt;
  dt_nonce_delta : Felt }.

Definition tracker_new (account : AccountStub) : AccountDeltaTracker :=
  mkDeltaTracker (mkStorageTracker []) (mkVaultTracker [] []) (stub_nonce account) ZERO.

Definition increment_nonce (value : Felt) : mut AccountDeltaTracker Empty_set unit :=
  self ← read_self;
  write_self (mkDeltaTracker (dt_storage self) (dt_vault self) (dt_init_nonce self)
                (felt_add (dt_nonce_delta self) value)).

Definition tracker_into_delta {E} (self : AccountDeltaTracker) : res E AccountDelta :=
  let storage_delta := storage_tracker_into_delta (dt_storage self) in
  vault_delta ← vault_tracker_into_delta (dt_vault self);
  let nonce_delta :=
    if decide (dt_nonce_delta self = ZERO) then None
    else Some (felt_add (dt_init_nonce self) (dt_nonce_delta self)) in
  expect_ok (account_delta_new storage_delta vault_delta nonce_delta).
End tracker.
Arguments AccountVaultDeltaTracker {_}.
Arguments AccountStorageDeltaTracker {_}.
Arguments AccountDeltaTracker {_}.

(** ** Specification *)

Section spec.
Context `{F : Field}.

(** The amount of a fungible holding, and the holding of an amount. *)
Definition amount_of (o : option Asset) : Z :=
  match o with Some (Fungible y) => fa_amount y | _ => 0 end.
Definition balance_cell (f : AccountId) (n : Z) : option Asset :=
  if decide (n = 0) then None else Some (Fungible (mkFungibleAsset f n)).

(** Valid holdings without zero balances. *)
Definition holdings_ok (m : holdings) : Prop :=
  forall k a, m k = Some a -> asset_valid a /\ k = vault_key a /\
    match a with Fungible y => 0 < fa_amount y | NonFungible _ => True end.

Definition faucet_key (f : AccountId) : Word := fungible_vault_key (mkFungibleAsset f 0).

(** The tracker holds the difference between the holdings [m0] at the start and the
    holdings [m] now: per faucet the net amount, per non-fungible asset its sign,
    and nothing for what did not change. *)
Definition tracks (m0 m : holdings) (t : AccountVaultDeltaTracker) : Prop :=
  NoDup (fungible_assets t).*1 /\ NoDup (non_fungible_assets t).*1 /\
  (forall f x, (f, x) ∈ fungible_assets t ->
     x <> 0 /\ fungible_valid (mkFungibleAsset f 0) /\
     0 <= amount_of (m0 (faucet_key f)) + x <= MAX_AMOUNT /\
     m (faucet_key f) = balance_cell f (amount_of (m0 (faucet_key f)) + x)) /\
  (forall w x, (w, x) ∈ non_fungible_assets t ->
     let a := NonFungible (mkNonFungibleAsset w) in
     asset_valid a /\
     ((x = 1 /\ m0 w = None /\ m w = Some a) \/ (x = -1 /\ m0 w = Some a /\ m w = None))) /\
  (forall k, (forall f, f ∈ (fungible_assets t).*1 -> k <> faucet_key f) ->
     k ∉ (non_fungible_assets t).*1 -> m k = m0 k).
End spec.

(** ** Lemmas *)

(** The specification of the vault, seen at one key. *)
Section cells.
Context `{F : Field}.

Definition local_op (op : holdings -> Asset -> option (holdings * Asset))
    (cell : option Asset -> Asset -> option (option Asset)) : Prop :=
  forall m a, match cell (m (vault_key a)) a with
    | Some o => exists r, op m a = Some (update m (vault_key a) o, r)
    | None => op m a = None
    end.

Definition cell_add (o : option Asset) (a : Asset) : option (option Asset) :=
  match a, o with
  | _, None => Some (Some a)
  | Fungible x, Some (Fungible y) =>
      if decide (fa_amount y + fa_amount x <= MAX_AMOUNT)
      then Some (Some (Fungible (mkFungibleAsset (fa_faucet_id x) (fa_amount y + fa_amount x))))
      else None
  | _, Some _ => None
  end.

Definition cell_remove (o : option Asset) (a : Asset) : option (option Asset) :=
  match a, o with
  | Fungible x, Some (Fungible y) =>
      if decide (fa_amount x <= fa_amount y)
      then Some (balance_cell (fa_faucet_id x) (fa_amount y - fa_amount x)) else None
  | NonFungible x, Some _ => Some None
  | _, _ => None
  end.

Lemma spec_add_local : local_op spec_add cell_add.
Proof.
  intros m a. unfold spec_add, cell_add.
  destruct a as [x|x]; destruct (m _) as [[y|y]|]; try case_decide; eauto.
Qed.

Lemma spec_remove_local : local_op spec_remove cell_remove.
Proof.
  intros m a. unfold spec_remove, cell_remove, balance_cell.
  destruct a as [x|x]; destruct (m _) as [[y|y]|]; cbn [fa_amount];
    try destruct (decide (fa_amount x <= fa_amount y)); eauto.
Qed.

(** Over assets with distinct keys, each key gets its own result. *)
Lemma spec_each_cells op cell assets m (target : holdings) :
  local_op op cell -> NoDup (vault_key <$> assets) ->
  (forall a, a ∈ assets -> cell (m (vault_key a)) a = Some (target (vault_key a))) ->
  exists m', spec_each op assets m = Some m' /\
    forall k, m' k = if decide (k ∈ vault_key <$> assets) then target k else m k.
Proof.
  intros Hop. revert m. induction assets as [|a assets IH]; intros m; cbn [fmap list_fmap].
  { intros _ _. exists m. split; [done|]. intros k. by rewrite decide_False by set_solver. }
  intros [Hni Hnd]%NoDup_cons Hcell. specialize (Hop m a) as Ha.
  rewrite (Hcell a) in Ha by set_solver. destruct Ha as [r Ha].
  set (m1 := update m (vault_key a) (target (vault_key a))) in *.
  destruct (IH m1 Hnd) as (m' & Hm' & Heff).
  { intros b Hb. unfold m1, update. rewrite decide_False; [apply Hcell; set_solver|].
    intros Heq. apply Hni. rewrite Heq. by apply list_elem_of_fmap_2. }
  exists m'. split; [cbn; by rewrite Ha|]. intros k. rewrite Heff. unfold m1, update.
  destruct (decide (k ∈ vault_key <$> assets)) as [Hk|Hk].
  - by rewrite decide_True by set_solver.
  - destruct (decide (vault_key a = k)) as [<-|Hne]; [by rewrite decide_True by set_solver|].
    by rewrite decide_False by set_solver.
Qed.
End cells.

Section lemmas.
Context `{F : Field} {FL : FieldLaws F} {C : Crypto} {B : Build}.
Implicit Types (t : AccountVaultDeltaTracker) (m : holdings) (f : AccountId).

Lemma amount_of_cell f n : amount_of (balance_cell f n) = n.
Proof. unfold balance_cell. by case_decide. Qed.

Lemma faucet_key_inj f f' : faucet_key f = faucet_key f' -> f = f'.
Proof. intros Heq. injection Heq as Heq. destruct f, f'. cbn in Heq. by subst. Qed.

(** The keys of fungible and non-fungible assets differ. *)
Lemma faucet_key_non_fungible f w :
  fungible_valid (mkFungibleAsset f 0) -> asset_valid (NonFungible (mkNonFungibleAsset w)) ->
  faucet_key f <> w.
Proof.
  intros Hf Hw Heq.
  by apply (vault_key_is_same (Fungible (mkFungibleAsset f 0)) (NonFungible (mkNonFungibleAsset w))) in Heq.
Qed.

Lemma holdings_balance m f :
  holdings_ok m -> fungible_valid (mkFungibleAsset f 0) ->
  m (faucet_key f) = balance_cell f (amount_of (m (faucet_key f))) /\
  0 <= amount_of (m (faucet_key f)) <= MAX_AMOUNT.
Proof.
  intros Hm Hf. destruct (m (faucet_key f)) as [a|] eqn:Ha; [|by vm_compute].
  destruct (Hm _ _ Ha) as (Hv & Hk & Hpos).
  apply (vault_key_is_same (Fungible (mkFungibleAsset f 0)) a) in Hk; [|done..].
  destruct a as [[f' n]|]; [|done]. apply bool_decide_eq_true in Hk. cbn in *. subst f'.
  destruct Hv as (_ & _ & Hv). cbn in Hv. unfold balance_cell. rewrite decide_False by lia. done.
Qed.

Lemma update_asset_delta_eq {K} `{EqDecision K} (cmp : K -> K -> comparison) w key amount es :
  - 2 ^ (w - 1) <= default 0 (btree_get es key) + amount < 2 ^ (w - 1) ->
  update_asset_delta cmp w key amount es =
  (match btree_get es key with
   | Some e => if decide (e = - amount) then btree_remove es key
               else btree_insert cmp es key (e + amount)
   | None => btree_insert cmp es key amount
   end, Ok tt).
Proof.
  intros Hr. unfold update_asset_delta. run_mut. destruct (btree_get es key) as [e|]; [|done].
  cbn in Hr. case_decide; [done|]. unfold sadd_w. rewrite decide_True by done. done.
Qed.

(** A fresh tracker has seen no change. *)
Lemma tracks_start m : tracks m m (mkVaultTracker [] []).
Proof. split_and!; cbn; try constructor; try done; intros; set_solver. Qed.

(** What an update leaves of the entries. *)
Lemma update_asset_delta_get {K} `{EqDecision K} (cmp : K -> K -> comparison) w key amount es :
  let d := default 0 (btree_get es key) in
  - 2 ^ (w - 1) <= d + amount < 2 ^ (w - 1) -> amount <> 0 -> NoDup es.*1 ->
  exists es', update_asset_delta cmp w key amount es = (es', Ok tt) /\ NoDup es'.*1 /\
    forall key', btree_get es' key' =
      if decide (key = key') then (if decide (d + amount = 0) then None else Some (d + amount)) else btree_get es key'.
Proof.
  intros d Hr Hx Hnd. rewrite update_asset_delta_eq by done. eexists. split; [reflexivity|]. unfold d. split.
  - destruct (btree_get es key) as [e|]; [destruct (decide (e = - amount))|];
      by (apply btree_insert_nodup || apply btree_remove_nodup).
  - intros k. destruct (btree_get es key) as [e|] eqn:Hg; cbn; [destruct (decide (e = - amount)) as [He|He]|].
    + rewrite btree_get_remove. destruct (decide (key = k)); [|done]. by rewrite decide_True by lia.
    + rewrite btree_get_insert by done. destruct (decide (key = k)); [|done]. by rewrite decide_False by lia.
    + rewrite btree_get_insert by done. destruct (decide (key = k)); [|done]. by rewrite decide_False by lia.
Qed.

(** The change of a balance since the start is that recorded. *)
Lemma tracks_balance m0 m t f : tracks m0 m t -> fungible_valid (mkFungibleAsset f 0) ->
  amount_of (m (faucet_key f)) = amount_of (m0 (faucet_key f)) + default 0 (btree_get (fungible_assets t) f).
Proof.
  intros (Hndf & Hndn & HF & HN & HO) Hf. destruct (btree_get (fungible_assets t) f) as [e|] eqn:Hg; cbn.
  - apply btree_get_Some in Hg; [|done]. destruct (HF f e Hg) as (_ & _ & _ & ->). apply amount_of_cell.
  - apply btree_get_None in Hg. rewrite HO; [lia| |].
    + intros f' Hf' Heq%faucet_key_inj. by subst.
    + intros Hin. apply list_elem_of_fmap in Hin as ([w y] & Heq & Hin). cbn in Heq.
      destruct (HN w y Hin) as [Hw _]. by apply (faucet_key_non_fungible f w).
Qed.

(** The entries of fungible assets after a net change of a balance. *)
Lemma tracks_put_fungible m0 m m' t f x es (d := default 0 (btree_get (fungible_assets t) f)) :
  tracks m0 m t -> holdings_ok m0 -> fungible_valid (mkFungibleAsset f 0) ->
  0 <= amount_of (m (faucet_key f)) + x <= MAX_AMOUNT ->
  (forall k, m' k = if decide (faucet_key f = k) then balance_cell f (amount_of (m (faucet_key f)) + x) else m k) ->
  NoDup es.*1 ->
  (forall f', btree_get es f' = if decide (f = f') then (if decide (d + x = 0) then None else Some (d + x))
                                else btree_get (fungible_assets t) f') ->
  tracks m0 m' (put_fungible es t).
Proof.
  intros Ht Hm0 Hf Hr Hm' Hnd Hget. pose proof (tracks_balance m0 m t f Ht Hf) as Hnet. fold d in Hnet.
  destruct Ht as (Hndf & Hndn & HF & HN & HO). destruct (holdings_balance m0 f Hm0 Hf) as [Hcell Hamt].
  assert (Hin : forall f' y, (f', y) ∈ es <-> btree_get es f' = Some y) by (intros; symmetry; by apply btree_get_Some).
  split_and!; [done|done| | |].
  - intros f' y Hy. apply Hin in Hy. rewrite Hget in Hy. destruct (decide (f = f')) as [<-|Hne].
    + case_decide; [done|]. simplify_eq. split; [done|]. split; [done|].
      rewrite Hm', decide_True by done. split; [lia|]. f_equal. lia.
    + apply btree_get_Some in Hy; [|done]. destruct (HF f' y Hy) as (? & ? & ? & ?).
      split_and!; try done; try lia. rewrite Hm', decide_False; [done|]. intros Heq%faucet_key_inj. done.
  - intros w y Hy. destruct (HN w y Hy) as [Hw Hcase]. rewrite Hm', decide_False; [done|].
    by apply faucet_key_non_fungible.
  - cbn [fungible_assets non_fungible_assets put_fungible]. intros k Hk Hkn. rewrite Hm'.
    destruct (decide (faucet_key f = k)) as [<-|Hne].
    + assert (Hfe : f ∉ es.*1) by (intros Hfe; by apply (Hk f Hfe)).
      apply btree_get_None in Hfe. rewrite Hget, decide_True in Hfe by done. destruct (decide (d + x = 0)); [|done].
      transitivity (balance_cell f (amount_of (m0 (faucet_key f)))); [f_equal; lia|done].
    + apply HO; [|done]. intros f' Hf' ->. apply (Hk f'); [|done].
      apply list_elem_of_fmap in Hf' as ([f1 y] & -> & Hy). cbn. apply btree_get_Some in Hy; [|done].
      destruct (decide (f1 ∈ es.*1)) as [|Hni]; [done|]. exfalso. apply btree_get_None in Hni.
      rewrite Hget, decide_False in Hni by (intros ->; by apply Hne). congruence.
Qed.

(** A net change of a balance is recorded. *)
Lemma tracks_fungible m0 m m' t f x :
  tracks m0 m t -> holdings_ok m0 -> fungible_valid (mkFungibleAsset f 0) -> x <> 0 ->
  0 <= amount_of (m (faucet_key f)) + x <= MAX_AMOUNT ->
  (forall k, m' k = if decide (faucet_key f = k)
                    then balance_cell f (amount_of (m (faucet_key f)) + x) else m k) ->
  exists t', on_field fungible_assets put_fungible (update_asset_delta AccountId_cmp 128 f x) t =
    (t', Ok tt) /\ tracks m0 m' t'.
Proof.
  intros Ht Hm0 Hf Hx Hr Hm'. pose proof (tracks_balance m0 m t f Ht Hf) as Hnet.
  destruct (holdings_balance m0 f Hm0 Hf) as [_ Hamt]. assert (Hmax : MAX_AMOUNT < 2 ^ 64) by reflexivity.
  destruct (update_asset_delta_get AccountId_cmp 128 f x (fungible_assets t)) as (es & Hrun & Hnd & Hget);
    [change (2 ^ (128 - 1)) with (2 ^ 127); lia|done|apply Ht|].
  exists (put_fungible es t). split; [unfold on_field; by rewrite Hrun|]. by eapply tracks_put_fungible.
Qed.

(** The arrival or departure of a non-fungible asset is recorded. *)
Lemma tracks_non_fungible m0 m m' t w x :
  let a := NonFungible (mkNonFungibleAsset w) in
  tracks m0 m t -> asset_valid a ->
  (x = 1 /\ m w = None /\ m' w = Some a) \/ (x = -1 /\ m w = Some a /\ m' w = None) ->
  (forall k, k <> w -> m' k = m k) ->
  exists t', on_field non_fungible_assets put_non_fungible (update_asset_delta digest_cmp 8 w x) t =
    (t', Ok tt) /\ tracks m0 m' t'.
Proof.
  intros a (Hndf & Hndn & HF & HN & HO) Ha Hx Hm'. subst a. cbn zeta in HN.
  assert (Hne : forall f y, (f, y) ∈ fungible_assets t -> faucet_key f <> w).
  { intros f y Hin. destruct (HF f y Hin) as (_ & Hf & _). by apply faucet_key_non_fungible. }
  assert (Hold : m w = m0 w /\ btree_get (non_fungible_assets t) w = None \/
    btree_get (non_fungible_assets t) w = Some (- x) /\ m' w = m0 w).
  { destruct (btree_get (non_fungible_assets t) w) as [e|] eqn:Hg.
    - right. apply btree_get_Some in Hg; [|done]. destruct (HN w e Hg) as [_ He].
      destruct Hx as [(-> & ? & ?)|(-> & ? & ?)], He as [(-> & ? & ?)|(-> & ? & ?)];
        try congruence; (split; [done|congruence]).
    - left. split; [|done]. apply HO; [|by apply btree_get_None].
      intros f (e & -> & Hin)%list_elem_of_fmap. destruct e. symmetry. by eapply Hne. }
  destruct (update_asset_delta_get digest_cmp 8 w x (non_fungible_assets t)) as (es & Hrun & Hnd & Hget).
  { destruct Hold as [[_ ->]|[-> _]], Hx as [(-> & _)|(-> & _)]; cbn; lia. } { destruct Hx as [(-> & _)|(-> & _)]; done. } { done. }
  exists (put_non_fungible es t). split; [unfold on_field; by rewrite Hrun|].
  assert (Hother : forall w', w' <> w -> btree_get es w' = btree_get (non_fungible_assets t) w')
    by (intros w' Hw'; by rewrite Hget, decide_False).
  assert (Hw : btree_get es w = None /\ m' w = m0 w \/ btree_get es w = Some x /\ m w = m0 w).
  { rewrite Hget, decide_True by done. destruct Hold as [[Hmw ->]|[-> Hmw]]; cbn [default].
    - right. split; [|done]. rewrite decide_False by (destruct Hx as [(-> & _)|(-> & _)]; done). done.
    - left. split; [|done]. by rewrite decide_True by (cbn; lia). }
  split_and!; [done|done| | |].
  - intros f y Hin. destruct (HF f y Hin) as (? & ? & ? & ?). rewrite Hm' by (by eapply Hne). done.
  - intros w' y Hy. cbn in Hy. apply btree_get_Some in Hy; [|done]. destruct (decide (w' = w)) as [->|Hww].
    + split; [done|]. destruct Hw as [[? _]|[? Hmw]]; [congruence|]. assert (y = x) as -> by congruence.
      rewrite <- Hmw. exact Hx.
    + rewrite Hother in Hy by done. apply btree_get_Some in Hy; [|done].
      destruct (HN w' y Hy) as [? ?]. by rewrite Hm'.
  - cbn [fungible_assets non_fungible_assets put_non_fungible]. intros k Hk Hkn.
    apply btree_get_None in Hkn. destruct (decide (k = w)) as [->|Hkw]; [naive_solver|].
    rewrite Hm' by done. apply HO; [done|]. apply btree_get_None. by rewrite <- Hother.
Qed.

(** ** The delta made of a tracker *)

Definition gains (t : AccountVaultDeltaTracker) : list Asset :=
  ((fun e => Fungible (mkFungibleAsset e.1 e.2)) <$> filter (fun e => e.2 > 0) (fungible_assets t)) ++
  ((fun e => NonFungible (mkNonFungibleAsset e.1)) <$> filter (fun e => e.2 = 1) (non_fungible_assets t)).
Definition losses (t : AccountVaultDeltaTracker) : list Asset :=
  ((fun e => Fungible (mkFungibleAsset e.1 (- e.2))) <$> filter (fun e => ~ e.2 > 0) (fungible_assets t)) ++
  ((fun e => NonFungible (mkNonFungibleAsset e.1)) <$> filter (fun e => e.2 <> 1) (non_fungible_assets t)).

Lemma split_fungible_eq {E} (es : list (AccountId * Z)) (d : AccountVaultDelta) :
  Forall (fun e => type_of_id e.1 = FungibleFaucet /\ Z.abs e.2 <= MAX_AMOUNT) es ->
  split_fungible (E := E) es d = Ok (mkAccountVaultDelta
    (added_assets d ++ ((fun e => Fungible (mkFungibleAsset e.1 e.2)) <$> filter (fun e => e.2 > 0) es))
    (removed_assets d ++ ((fun e => Fungible (mkFungibleAsset e.1 (- e.2))) <$> filter (fun e => ~ e.2 > 0) es))).
Proof.
  intros Hall. revert d. induction Hall as [|[f x] es [Ht Hx] _ IH]; intros d; cbn [split_fungible].
  { cbn. rewrite !app_nil_r. by destruct d. }
  assert (Hmax : MAX_AMOUNT < 2 ^ 64) by reflexivity. cbn [fst snd] in *.
  assert (Hnew : fungible_new (new_unchecked (felt_of_id f)) (Z.abs x mod 2 ^ 64) =
    Ok (mkFungibleAsset f (Z.abs x))).
  { apply fungible_new_ok. rewrite Z.mod_small by lia. by destruct f. }
  rewrite Hnew. cbn [expect_ok mbind res_bind]. rewrite IH, !filter_cons. cbn [snd].
  destruct (decide (x > 0)) as [Hpos|Hneg].
  - rewrite (decide_False (P := ~ x > 0)) by naive_solver. cbn [added_assets removed_assets].
    rewrite Z.abs_eq, <- app_assoc by lia. done.
  - rewrite (decide_True (P := ~ x > 0)) by done. cbn [added_assets removed_assets].
    rewrite Z.abs_neq, <- app_assoc by lia. done.
Qed.

Lemma split_non_fungible_eq {E} (es : list (Digest * Z)) (d : AccountVaultDelta) :
  Forall (fun e => e.2 = 1 \/ e.2 = -1) es ->
  split_non_fungible (E := E) es d = Ok (mkAccountVaultDelta
    (added_assets d ++ ((fun e => NonFungible (mkNonFungibleAsset e.1)) <$> filter (fun e => e.2 = 1) es))
    (removed_assets d ++ ((fun e => NonFungible (mkNonFungibleAsset e.1)) <$> filter (fun e => e.2 <> 1) es))).
Proof.
  intros Hall. revert d. induction Hall as [|[w x] es Hx _ IH]; intros d; cbn [split_non_fungible].
  { cbn. rewrite !app_nil_r. by destruct d. }
  rewrite !filter_cons. cbn [snd] in *. destruct Hx as [-> | ->].
  - rewrite decide_True by done. rewrite (decide_False (P := 1 <> 1)) by naive_solver. rewrite IH.
    cbn [added_assets removed_assets fst]. by rewrite <- app_assoc.
  - rewrite decide_False by done. rewrite decide_True by done. rewrite (decide_True (P := -1 <> 1)) by done.
    rewrite IH. cbn [added_assets removed_assets fst]. by rewrite <- app_assoc.
Qed.

Lemma vault_tracker_into_delta_eq {E} m0 m t :
  holdings_ok m0 -> tracks m0 m t ->
  vault_tracker_into_delta (E := E) t = Ok (mkAccountVaultDelta (gains t) (losses t)).
Proof.
  intros Hm0 (_ & _ & HF & HN & _). unfold vault_tracker_into_delta. rewrite split_fungible_eq.
  - cbn [mbind res_bind]. rewrite split_non_fungible_eq; [done|].
    apply Forall_forall. intros [w x] Hin. destruct (HN w x Hin) as [_ Hx]. naive_solver.
  - apply Forall_forall. intros [f x] Hin. destruct (HF f x Hin) as (_ & Hf & Hr & _).
    destruct (holdings_balance m0 f Hm0 Hf) as [_ Ha]. split; [apply Hf|]. cbn. lia.
Qed.

Lemma elem_of_gains t a :
  a ∈ gains t <->
  (exists f x, a = Fungible (mkFungibleAsset f x) /\ (f, x) ∈ fungible_assets t /\ x > 0) \/
  (exists w, a = NonFungible (mkNonFungibleAsset w) /\ (w, 1) ∈ non_fungible_assets t).
Proof.
  unfold gains. rewrite elem_of_app, !list_elem_of_fmap.
  setoid_rewrite list_elem_of_filter. split.
  - intros [([f x] & -> & Hx & Hin)|([w x] & -> & Hx & Hin)]; cbn in *; [left; eauto|right; subst; eauto].
  - intros [(f & x & -> & Hin & Hx)|(w & -> & Hin)]; [left; by exists (f, x)|right; by exists (w, 1)].
Qed.

Lemma elem_of_losses t a :
  a ∈ losses t <->
  (exists f x, a = Fungible (mkFungibleAsset f (- x)) /\ (f, x) ∈ fungible_assets t /\ ~ x > 0) \/
  (exists w x, a = NonFungible (mkNonFungibleAsset w) /\ (w, x) ∈ non_fungible_assets t /\ x <> 1).
Proof.
  unfold losses. rewrite elem_of_app, !list_elem_of_fmap.
  setoid_rewrite list_elem_of_filter. split.
  - intros [([f x] & -> & Hx & Hin)|([w x] & -> & Hx & Hin)]; cbn in *; [left; eauto|right; eauto].
  - intros [(f & x & -> & Hin & Hx)|(w & x & -> & Hin & Hx)]; [left; by exists (f, x)|right; by exists (w, x)].
Qed.

(** Assets in a tracker's delta: valid, and each with its own key. *)
Lemma delta_assets_valid m0 m t :
  holdings_ok m0 -> tracks m0 m t -> Forall asset_valid (gains t ++ losses t).
Proof.
  intros Hm0 (_ & _ & HF & HN & _). apply Forall_app. split; apply Forall_forall; intros a Ha.
  - apply elem_of_gains in Ha as [(f & x & -> & Hin & Hx)|(w & -> & Hin)]; [|by apply (HN w 1)].
    destruct (HF f x Hin) as (_ & Hf & Hr & _), (holdings_balance m0 f) as [_ Ha]; [done|apply (HF f x Hin)|].
    destruct Hf as (? & ? & _). split_and!; cbn; (done || lia).
  - apply elem_of_losses in Ha as [(f & x & -> & Hin & Hx)|(w & x & -> & Hin & _)]; [|by apply (HN w x)].
    destruct (HF f x Hin) as (_ & Hf & Hr & _), (holdings_balance m0 f) as [_ Ha]; [done|apply (HF f x Hin)|].
    destruct Hf as (? & ? & _). split_and!; cbn; (done || lia).
Qed.

Lemma delta_keys_perm t :
  vault_key <$> (gains t ++ losses t) ≡ₚ
  (faucet_key <$> (fungible_assets t).*1) ++ (non_fungible_assets t).*1.
Proof.
  unfold gains, losses.
  assert (Hsplit : forall {A} (P : A -> Prop) `{forall x, Decision (P x)} (l : list A),
    filter P l ++ filter (fun x => ~ P x) l ≡ₚ l).
  { intros A P HP l. induction l as [|x l IH]; [done|]. rewrite !filter_cons.
    destruct (decide (P x)) as [Hx|Hx].
    - rewrite (decide_False (P := ~ P x)) by naive_solver. cbn. by rewrite IH.
    - rewrite (decide_True (P := ~ P x)) by done. by rewrite <- Permutation_middle, IH. }
  rewrite <- (Hsplit _ (fun e : AccountId * Z => e.2 > 0) _ (fungible_assets t)) at 3.
  rewrite <- (Hsplit _ (fun e : Digest * Z => e.2 = 1) _ (non_fungible_assets t)) at 3.
  rewrite !fmap_app, <- !list_fmap_compose.
  set (p1 := _ <$> filter (fun e => e.2 > 0) _). set (p2 := _ <$> filter (fun e => e.2 = 1) _).
  set (p3 := _ <$> filter (fun e => ~ e.2 > 0) _). set (p4 := _ <$> filter (fun e => ~ e.2 = 1) _).
  rewrite <- !app_assoc. apply Permutation_app_head.
  rewrite !app_assoc. apply Permutation_app_tail, Permutation_app_comm.
Qed.

Lemma delta_keys_nodup m0 m t : tracks m0 m t -> NoDup (vault_key <$> (gains t ++ losses t)).
Proof.
  intros (Hndf & Hndn & HF & HN & _). rewrite delta_keys_perm. apply NoDup_app. split_and!; [| |done].
  - apply NoDup_fmap_2_strong; [|done]. intros f f' _ _. apply faucet_key_inj.
  - intros k (f & -> & Hf)%list_elem_of_fmap (e & Heq & He)%list_elem_of_fmap.
    apply list_elem_of_fmap in Hf as ([f' x] & -> & Hin). destruct e as [w y]. cbn in Heq.
    destruct (HF f' x Hin) as (_ & Hv & _), (HN w y He) as [Hw _].
    by apply (faucet_key_non_fungible f' w).
Qed.

(** Applying the tracker's delta to the holdings at the start gives the holdings now. *)
Lemma tracker_replay m0 m t :
  holdings_ok m0 -> tracks m0 m t ->
  exists m', spec_each spec_add (gains t) m0 ≫= spec_each spec_remove (losses t) = Some m' /\
    forall k, m' k = m k.
Proof.
  intros Hm0 Ht. pose proof (delta_keys_nodup m0 m t Ht) as Hnd. rewrite fmap_app in Hnd.
  apply NoDup_app in Hnd as (Hndg & Hdis & Hndl). pose proof Ht as (_ & _ & HF & HN & HO).
  assert (Hcells : forall f x, (f, x) ∈ fungible_assets t ->
    m0 (faucet_key f) = balance_cell f (amount_of (m0 (faucet_key f))) /\
    0 <= amount_of (m0 (faucet_key f)) <= MAX_AMOUNT).
  { intros f x Hin. apply holdings_balance; [done|]. apply (HF f x Hin). }
  destruct (spec_each_cells spec_add cell_add (gains t) m0 m spec_add_local Hndg) as (m1 & Hm1 & Heff1).
  { intros a Ha. apply elem_of_gains in Ha as [(f & x & -> & Hin & Hx)|(w & -> & Hin)].
    - change (vault_key (Fungible (mkFungibleAsset f x))) with (faucet_key f).
      destruct (HF f x Hin) as (_ & _ & Hr & ->). destruct (Hcells f x Hin) as [Hc Ha].
      rewrite Hc. set (a0 := amount_of (m0 (faucet_key f))) in *. clearbody a0.
      rewrite amount_of_cell. unfold balance_cell. rewrite (decide_False (P := a0 + x = 0)) by lia.
      destruct (decide (a0 = 0)) as [->|]; [done|]. cbn [cell_add fa_amount fa_faucet_id].
      by rewrite decide_True by lia.
    - cbn [vault_key non_fungible_vault_key nfa_word].
      destruct (HN w 1 Hin) as [_ [(_ & -> & ->)|(? & _)]]; done. }
  destruct (spec_each_cells spec_remove cell_remove (losses t) m1 m spec_remove_local Hndl)
    as (m2 & Hm2 & Heff2).
  { intros a Ha. rewrite Heff1, decide_False.
    2: { intros Hk. apply (Hdis _ Hk). by apply list_elem_of_fmap_2. }
    apply elem_of_losses in Ha as [(f & x & -> & Hin & Hx)|(w & x & -> & Hin & Hx)].
    - change (vault_key (Fungible (mkFungibleAsset f (- x)))) with (faucet_key f).
      destruct (HF f x Hin) as (Hnz & _ & Hr & ->). destruct (Hcells f x Hin) as [Hc Ha].
      rewrite Hc. set (a0 := amount_of (m0 (faucet_key f))) in *. clearbody a0. rewrite amount_of_cell.
      unfold balance_cell at 1. rewrite decide_False by lia. cbn [cell_remove fa_amount fa_faucet_id].
      rewrite decide_True by lia. do 2 f_equal. lia.
    - cbn [vault_key non_fungible_vault_key nfa_word].
      destruct (HN w x Hin) as [_ [(? & _)|(_ & -> & ->)]]; done. }
  exists m2. rewrite Hm1. split; [exact Hm2|]. intros k. rewrite Heff2, Heff1.
  destruct (decide (k ∈ vault_key <$> losses t)) as [|Hkl]; [done|].
  destruct (decide (k ∈ vault_key <$> gains t)) as [|Hkg]; [done|]. symmetry.
  assert (Hk : k ∉ (faucet_key <$> (fungible_assets t).*1) ++ (non_fungible_assets t).*1).
  { rewrite <- delta_keys_perm, fmap_app, elem_of_app. tauto. }
  apply not_elem_of_app in Hk as [Hkf Hkn]. apply HO; [|done].
  intros f Hf ->. apply Hkf. by apply list_elem_of_fmap_2.
Qed.
End lemmas.

(** ** Runs of vault operations *)

Section runs.
Context `{F : Field} {FL : FieldLaws F} {C : Crypto} {SL : SmtLaws C} {AS : Assembly} {FE : Features}
  {D : Display} {B : Build}.

Inductive vault_op := VaultAdd (a : Asset) | VaultRemove (a : Asset).

Definition op_asset (o : vault_op) : Asset := match o with VaultAdd a | VaultRemove a => a end.

(** An operation on the vault itself, and its record in the tracker. *)
Definition run_op (o : vault_op) : mut AssetVault AssetVaultError unit :=
  match o with
  | VaultAdd a => _ ← add_asset a; mret tt
  | VaultRemove a => _ ← remove_asset a; mret tt
  end.
Definition track_op (o : vault_op) : mut AccountVaultDeltaTracker Empty_set unit :=
  match o with VaultAdd a => tracker_add_asset a | VaultRemove a => tracker_remove_asset a end.

(** Operations on valid assets, fungible ones of a positive amount. *)
Definition op_ok (o : vault_op) : Prop :=
  asset_valid (op_asset o) /\
  match op_asset o with Fungible x => 0 < fa_amount x | NonFungible _ => True end.

Lemma balance_cell_pos f n : n <> 0 -> balance_cell f n = Some (Fungible (mkFungibleAsset f n)).
Proof. intros Hn. unfold balance_cell. by rewrite decide_False. Qed.

Lemma fungible_valid_zero (x : FungibleAsset) :
  fungible_valid x -> fungible_valid (mkFungibleAsset (fa_faucet_id x) 0).
Proof. intros (? & ? & ?). split_and!; cbn; (done || lia). Qed.

(** A successful operation changes one key, as the specification of its cell says. *)
Lemma run_cell (op : Asset -> mut AssetVault AssetVaultError Asset) spec cell a v v' :
  refines v a (op a v) (spec (view v) a) -> local_op spec cell ->
  (_ ← op a; mret tt) v = (v', Ok tt) -> vault_wf v' /\
  exists o, cell (view v (vault_key a)) a = Some o /\
    forall k, view v' k = update (view v) (vault_key a) o k.
Proof.
  intros Href Hloc Hop. rewrite mut_ignore in Hop. unfold refines in Href.
  destruct (op a v) as [v1 r1]. cbn in Hop, Href. simplify_eq. specialize (Hloc (view v) a).
  destruct (cell (view v (vault_key a)) a) as [o'|].
  - destruct Hloc as [r' Hs]. rewrite Hs in Href. destruct Href as (_ & _ & ? & ?). eauto.
  - rewrite Hloc in Href. destruct Href as ([e ->] & _). done.
Qed.

(** When an operation succeeds on the vault, it is recorded. *)
Lemma track_add_step m0 v v' t a :
  vault_wf v -> op_ok (VaultAdd a) -> holdings_ok m0 -> tracks m0 (view v) t ->
  run_op (VaultAdd a) v = (v', Ok tt) ->
  vault_wf v' /\ exists t', tracker_add_asset a t = (t', Ok tt) /\ tracks m0 (view v') t'.
Proof.
  intros Hwf [Hv Hpos] Hm0 Ht Hrun. cbn [op_asset run_op] in *.
  destruct (run_cell add_asset spec_add cell_add a v v') as (Hwf' & o' & Ho' & Hview);
    [by apply add_asset_refines|apply spec_add_local|exact Hrun|]. split; [done|].
  destruct a as [x|[w]]; cbn [vault_key] in *.
  - pose proof (fungible_valid_zero x Hv) as Hz. pose proof Hv as (_ & _ & Hva).
    apply (tracks_fungible m0 (view v) (view v') t (fa_faucet_id x) (fa_amount x)); try done; [lia| |].
    + change (faucet_key (fa_faucet_id x)) with (fungible_vault_key x).
      unfold cell_add in Ho'. destruct (view v (fungible_vault_key x)) as [b|] eqn:Hvw; [|cbn; lia].
      destruct (view_fungible v x b Hwf Hv Hvw) as (y & -> & Hy & _).
      case_decide; [|done]. destruct Hy as (_ & _ & Hy). cbn. lia.
    + intros k. rewrite Hview. unfold update.
      change (faucet_key (fa_faucet_id x)) with (fungible_vault_key x).
      destruct (decide (fungible_vault_key x = k)) as [_|]; [|done]. unfold cell_add in Ho'.
      destruct (view v (fungible_vault_key x)) as [b|] eqn:Hvw.
      * destruct (view_fungible v x b Hwf Hv Hvw) as (y & -> & Hy & _).
         case_decide; [|done]. simplify_eq. destruct Hy as (_ & _ & Hy). cbn [amount_of].
         by rewrite balance_cell_pos by lia.
      * simplify_eq. cbn [amount_of]. rewrite Z.add_0_l, balance_cell_pos by lia. by destruct x.
  - change (non_fungible_vault_key (mkNonFungibleAsset w)) with w in *.
    apply (tracks_non_fungible m0 (view v) (view v') t w 1); [done|done| |].
    + left. unfold cell_add in Ho'. destruct (view v w) eqn:Hvw; [done|]. simplify_eq.
      split_and!; [done|done|]. rewrite Hview. unfold update. by rewrite decide_True.
    + intros k Hk. rewrite Hview. unfold update. by rewrite decide_False.
Qed.

Lemma track_remove_step m0 v v' t a :
  vault_wf v -> op_ok (VaultRemove a) -> holdings_ok m0 -> tracks m0 (view v) t ->
  run_op (VaultRemove a) v = (v', Ok tt) ->
  vault_wf v' /\ exists t', tracker_remove_asset a t = (t', Ok tt) /\ tracks m0 (view v') t'.
Proof.
  intros Hwf [Hv Hpos] Hm0 Ht Hrun. cbn [op_asset run_op] in *.
  destruct (run_cell remove_asset spec_remove cell_remove a v v') as (Hwf' & o' & Ho' & Hview);
    [by apply remove_asset_refines|apply spec_remove_local|exact Hrun|]. split; [done|].
  destruct a as [x|[w]]; cbn [vault_key] in *.
  - pose proof (fungible_valid_zero x Hv) as Hz. pose proof Hv as (_ & _ & Hva).
    unfold cell_remove in Ho'. destruct (view v (fungible_vault_key x)) as [b|] eqn:Hvw; [|done].
    destruct (view_fungible v x b Hwf Hv Hvw) as (y & -> & (_ & _ & Hy) & _).
    case_decide; [|done]. simplify_eq.
    apply (tracks_fungible m0 (view v) (view v') t (fa_faucet_id x) (- fa_amount x)); try done; [lia| |].
    + change (faucet_key (fa_faucet_id x)) with (fungible_vault_key x). rewrite Hvw. cbn. lia.
    + intros k. rewrite Hview. unfold update.
      change (faucet_key (fa_faucet_id x)) with (fungible_vault_key x). by rewrite Hvw.
  - change (non_fungible_vault_key (mkNonFungibleAsset w)) with w in *.
    apply (tracks_non_fungible m0 (view v) (view v') t w (-1)); [done|done| |].
    + right. unfold cell_remove in Ho'. destruct (view v w) as [b|] eqn:Hvw; [|done]. simplify_eq.
      split_and!; [done| |].
      * f_equal. by apply (view_non_fungible v (mkNonFungibleAsset w) b Hwf Hv).
      * rewrite Hview. unfold update. by rewrite decide_True.
    + intros k Hk. rewrite Hview. unfold update. by rewrite decide_False.
Qed.

Lemma track_op_step m0 v v' t o :
  vault_wf v -> op_ok o -> holdings_ok m0 -> tracks m0 (view v) t -> run_op o v = (v', Ok tt) ->
  vault_wf v' /\ exists t', track_op o t = (t', Ok tt) /\ tracks m0 (view v') t'.
Proof. destruct o; [apply track_add_step|apply track_remove_step]. Qed.

Lemma track_ops m0 ops v v' t :
  vault_wf v -> Forall op_ok ops -> holdings_ok m0 -> tracks m0 (view v) t ->
  for_each run_op ops v = (v', Ok tt) ->
  vault_wf v' /\ exists t', for_each track_op ops t = (t', Ok tt) /\ tracks m0 (view v') t'.
Proof.
  intros Hwf Hops Hm0. revert v t Hwf. induction Hops as [|o ops Ho _ IH]; intros v t Hwf Ht Hrun.
  { cbn in Hrun. injection Hrun as <-. eauto. }
  rewrite for_each_cons in Hrun. destruct (run_op o v) as [v1 [[]| |]] eqn:H1; [|done..].
  destruct (track_op_step m0 v v1 t o Hwf Ho Hm0 Ht H1) as (Hwf1 & t1 & Ht1 & Htr1).
  destruct (IH v1 t1 Hwf1 Htr1 Hrun) as (Hwf' & t' & Ht' & Htr'). split; [done|]. exists t'.
  split; [|done]. by rewrite for_each_cons, Ht1.
Qed.
End runs.

(** ** Storage *)

Section storage_tracking.
Context `{F : Field} {C : Crypto}.

Lemma split_slots_eq (es : list (Z * Word)) (d : AccountStorageDelta) :
  split_slots es d = mkAccountStorageDelta
    (cleared_items d ++ (filter (fun e => e.2 = EMPTY_WORD) es).*1)
    (updated_items d ++ filter (fun e => e.2 <> EMPTY_WORD) es).
Proof.
  revert d. induction es as [|[i v] es IH]; intros d; cbn [split_slots].
  { cbn. rewrite !app_nil_r. by destruct d. }
  rewrite IH, !filter_cons. cbn [snd]. destruct (decide (v = EMPTY_WORD)) as [He|Hne].
  - rewrite (decide_False (P := v <> EMPTY_WORD)) by naive_solver. cbn. by rewrite <- app_assoc.
  - rewrite (decide_True (P := v <> EMPTY_WORD)) by done. cbn. by rewrite <- app_assoc.
Qed.

(** The delta of a map of slots: valid, and its effect is the map. *)
Lemma storage_tracker_delta (es : list (Z * Word)) :
  NoDup es.*1 -> Forall (fun e => 0 <= e.1 <= MAX_MUTABLE_STORAGE_SLOT_IDX) es ->
  let d := storage_tracker_into_delta (mkStorageTracker es) in
  storage_delta_u8 d /\ storage_delta_valid d /\
  forall s i, slot_after s d i = default (SimpleSmt_get (slots s) i) (btree_get es i).
Proof.
  intros Hnd Hr. unfold storage_tracker_into_delta. rewrite split_slots_eq. cbn [slot_updates app].
  cbn [cleared_items updated_items app].
  set (es0 := filter (fun e => e.2 = EMPTY_WORD) es). set (es1 := filter (fun e => e.2 <> EMPTY_WORD) es).
  assert (Hperm : es0.*1 ++ es1.*1 ≡ₚ es.*1).
  { rewrite <- fmap_app. apply fmap_Permutation. unfold es0, es1. clear. induction es as [|e es IH]; [done|].
    rewrite !filter_cons. destruct (decide (e.2 = EMPTY_WORD)) as [He|He].
    - rewrite (decide_False (P := e.2 <> EMPTY_WORD)) by naive_solver. cbn. by rewrite IH.
    - rewrite (decide_True (P := e.2 <> EMPTY_WORD)) by done. by rewrite <- Permutation_middle, IH. }
  assert (Hlen : (length es0 + length es1 <= 255)%nat).
  { rewrite <- (length_fmap fst es0), <- (length_fmap fst es1), <- length_app.
    apply NoDup_range_length; [by rewrite Hperm|]. rewrite Hperm. apply Forall_fmap.
    eapply Forall_impl; [exact Hr|]. intros e He. unfold MAX_MUTABLE_STORAGE_SLOT_IDX in He. cbn. lia. }
  cbn zeta. split_and!.
  - unfold storage_delta_u8. cbn [cleared_items updated_items]. rewrite Hperm. apply Forall_fmap.
    eapply Forall_impl; [exact Hr|]. intros e He. unfold MAX_MUTABLE_STORAGE_SLOT_IDX in He. cbn. lia.
  - split_and!; cbn [cleared_items updated_items]; [rewrite length_fmap; lia|lia| |].
    + rewrite Hperm. apply Forall_fmap. eapply Forall_impl; [exact Hr|]. cbn. lia.
    + by rewrite Hperm.
  - intros s i. unfold slot_after. cbn [cleared_items updated_items].
    assert (Hnd1 : NoDup es1.*1) by (eapply sublist_NoDup; [exact Hnd|apply fmap_sublist, sublist_filter]).
    destruct (btree_get es i) as [v|] eqn:Hg; cbn.
    + apply btree_get_Some in Hg; [|done]. destruct (decide (v = EMPTY_WORD)) as [->|Hne].
      * rewrite entry_or_notin; [rewrite decide_True; [done|]|].
        -- apply list_elem_of_fmap. exists (i, EMPTY_WORD). split; [done|]. by apply list_elem_of_filter.
        -- intros ([j w] & -> & [Hw Hin]%list_elem_of_filter)%list_elem_of_fmap. cbn in Hw, Hg.
           apply btree_get_Some in Hg; [|done]. apply btree_get_Some in Hin; [|done]. congruence.
      * apply entry_or_in; [done|]. by apply list_elem_of_filter.
    + apply btree_get_None in Hg. rewrite <- Hperm in Hg. apply not_elem_of_app in Hg as [H0 H1].
      rewrite entry_or_notin by done. by rewrite decide_False.
Qed.

(** A run of updates keeps the last value of each slot. *)
Lemma slot_updates_run (us : list (Z * Word)) (es : list (Z * Word)) :
  NoDup es.*1 ->
  exists es', for_each (fun u => slot_update u.1 u.2) us (mkStorageTracker es) = (mkStorageTracker es', Ok tt) /\
    NoDup es'.*1 /\
    forall i, btree_get es' i = match btree_get (reverse us) i with Some v => Some v | None => btree_get es i end.
Proof.
  revert es. induction us as [|[i v] us IH]; intros es Hnd; [by exists es|].
  rewrite for_each_cons. unfold slot_update. run_mut. cbn [slot_updates fst snd].
  destruct (IH (btree_insert Z.compare es i v)) as (es' & Hrun & Hnd' & Hget).
  { by apply btree_insert_nodup. }
  exists es'. split; [exact Hrun|]. split; [done|]. intros j. rewrite Hget, reverse_cons.
  assert (Happ : forall l : list (Z * Word), btree_get (l ++ [(i, v)]) j =
    match btree_get l j with Some x => Some x | None => if decide (i = j) then Some v else None end).
  { induction l as [|[k x] l IHl]; cbn; [done|]. destruct (decide (k = j)); [done|apply IHl]. }
  rewrite Happ. destruct (btree_get (reverse us) j); [done|].
  rewrite btree_get_insert by done. by case_decide.
Qed.
End storage_tracking.

(** ** Properties *)

Section properties.
Context `{F : Field} {FL : FieldLaws F} {C : Crypto} {SL : SmtLaws C} {AS : Assembly} {FE : Features}
  {D : Display} {B : Build}.

(** When a sequence of additions and removals of valid assets of positive amounts
    succeeds on a vault without zero balances, tracking the same sequence never
    overflows or panics, and the delta made of the tracker, applied to the vault
    at the start, succeeds and leads to the same vault and commitment as the
    sequence itself. *)
Theorem tracker_vault_delta_replays (ops : list vault_op) v0 v (Hwf : vault_wf v0)
    (Hm0 : holdings_ok (view v0)) (Hops : Forall op_ok ops)
    (Hrun : for_each run_op ops v0 = (v, Ok tt)) :
  exists t d, for_each track_op ops (mkVaultTracker [] []) = (t, Ok tt) /\
    vault_tracker_into_delta (E := Empty_set) t = Ok d /\
    vault_delta_assets_valid d /\ NoDup (vault_key <$> (added_assets d ++ removed_assets d)) /\
    exists v1 v', vault_add_all (added_assets d) v0 = (v1, Ok tt) /\
      vault_remove_all (removed_assets d) v1 = (v', Ok tt) /\
      v' ≡ v /\ commitment v' = commitment v.
Proof.
  destruct (track_ops (view v0) ops v0 v (mkVaultTracker [] []) Hwf Hops Hm0) as (Hwf' & t & Ht & Htr); [|done|].
  { apply tracks_start. }
  exists t, (mkAccountVaultDelta (gains t) (losses t)). split; [done|].
  split; [by eapply vault_tracker_into_delta_eq|].
  pose proof (delta_assets_valid _ _ _ Hm0 Htr) as Hval.
  split; [done|]. split; [by eapply delta_keys_nodup|]. cbn [added_assets removed_assets].
  apply Forall_app in Hval as [Hg Hl].
  destruct (tracker_replay (view v0) (view v) t Hm0 Htr) as (m' & Hspec & Hm').
  pose proof (vault_add_all_refines (gains t) v0 Hwf Hg) as H1.
  destruct (vault_add_all (gains t) v0) as [v1 r1]. destruct H1 as [Hwf1 H1].
  destruct (spec_each spec_add (gains t) (view v0)) as [m1|]; [|done]. destruct H1 as [-> H1].
  cbn [mbind option_bind] in Hspec.
  pose proof (vault_remove_all_refines (losses t) v1 Hwf1 Hl) as H2.
  pose proof (spec_each_ext spec_remove (losses t) (view v1) m1 spec_remove_respects H1) as Hext.
  rewrite Hspec in Hext.
  destruct (vault_remove_all (losses t) v1) as [v2 r2] eqn:Hr2. destruct H2 as [Hwf2 H2].
  destruct (spec_each spec_remove (losses t) (view v1)) as [m2|]; [|done]. destruct H2 as [-> H2].
  assert (Heq : v2 ≡ v) by (apply view_equiv; [done..|]; intros k; by rewrite H2, Hext).
  exists v1, v2. split_and!; [done|done|done|]. by rewrite Heq.
Qed.

(** A tracked zero amount stays in the tracker: tracking the addition of nothing
    gives a delta that removes a zero amount, which fails on a vault that holds
    nothing of that faucet. *)
Theorem tracker_zero_amount (f : AccountId) v (Hf : fungible_valid (mkFungibleAsset f 0))
    (Hwf : vault_wf v) (Hnone : view v (faucet_key f) = None) :
  let a := Fungible (mkFungibleAsset f 0) in
  exists t, tracker_add_asset a (mkVaultTracker [] []) = (t, Ok tt) /\
    vault_tracker_into_delta (E := Empty_set) t = Ok (mkAccountVaultDelta [] [a]) /\
    exists e, vault_remove_all [a] v = (v, Err e).
Proof.
  intros a. exists (mkVaultTracker [(f, 0)] []). split; [done|]. split.
  - unfold vault_tracker_into_delta. rewrite split_fungible_eq; [done|].
    constructor; [|constructor]. split; [apply Hf|]. by vm_compute.
  - unfold vault_remove_all. rewrite for_each_cons, mut_ignore, mut_map_err_run. unfold a.
    rewrite remove_fungible_eq by done. unfold faucet_key in Hnone. rewrite Hnone. cbn. by eexists.
Qed.

(** The storage delta made of tracked slot updates is valid and, applied to any
    storage, leaves in each slot the last value written to it, and the old value
    where nothing was written. *)
Theorem tracker_storage_delta_replays (us : list (Z * Word))
    (Hus : Forall (fun u => 0 <= u.1 <= MAX_MUTABLE_STORAGE_SLOT_IDX) us) :
  exists t, for_each (fun u => slot_update u.1 u.2) us (mkStorageTracker []) = (t, Ok tt) /\
    let d := storage_tracker_into_delta t in
    storage_delta_u8 d /\ storage_delta_valid d /\
    forall s i, slot_after s d i = default (SimpleSmt_get (slots s) i) (btree_get (reverse us) i).
Proof.
  destruct (slot_updates_run us []) as (es & Hrun & Hnd & Hget); [constructor|].
  exists (mkStorageTracker es). split; [done|].
  assert (Hr : Forall (fun e => 0 <= e.1 <= MAX_MUTABLE_STORAGE_SLOT_IDX) es).
  { apply Forall_forall. intros [i v] Hin. apply btree_get_Some in Hin; [|done]. rewrite Hget in Hin.
    destruct (btree_get (reverse us) i) as [w|] eqn:Hu; [|done].
    assert (Hi : i ∈ us.*1).
    { destruct (decide (i ∈ (reverse us).*1)) as [Hi|Hni%btree_get_None]; [|congruence].
      apply list_elem_of_fmap in Hi as (e & -> & He). apply list_elem_of_fmap. exists e.
      split; [done|]. by apply elem_of_reverse. }
    apply list_elem_of_fmap in Hi as (e & -> & He). rewrite Forall_forall in Hus. apply (Hus e He). }
  destruct (storage_tracker_delta es Hnd Hr) as (Hu8 & Hval & Heff).
  split; [done|]. split; [done|]. intros s i. rewrite Heff, Hget. by destruct (btree_get (reverse us) i).
Qed.

(** The account delta of a tracker with valid parts is made exactly when the
    nonce was incremented if and only if something changed; otherwise the
    conversion panics. *)
Theorem tracker_into_delta_nonce (t : AccountDeltaTracker) vd
    (Hv : vault_tracker_into_delta (E := Empty_set) (dt_vault t) = Ok vd)
    (Hvv : vault_delta_assets_valid vd /\ vault_delta_valid vd)
    (Hs : storage_delta_valid (storage_tracker_into_delta (dt_storage t))) :
  let sd := storage_tracker_into_delta (dt_storage t) in
  let n := if decide (dt_nonce_delta t = ZERO) then None
           else Some (felt_add (dt_init_nonce t) (dt_nonce_delta t)) in
  (nonce_rule n sd vd -> tracker_into_delta (E := Empty_set) t = Ok (mkAccountDelta sd vd n)) /\
  (~ nonce_rule n sd vd -> tracker_into_delta (E := Empty_set) t = Panic).
Proof.
  intros sd n. unfold tracker_into_delta. rewrite Hv. cbn [mbind res_bind]. fold sd n.
  pose proof (fun d => account_delta_new_spec sd vd n d (proj1 Hvv)) as Hspec. split; intros Hn.
  - rewrite (proj2 (Hspec (mkAccountDelta sd vd n))); [done|]. split; [done|].
    split; [exact Hs|]. split; [apply Hvv|exact Hn].
  - destruct (account_delta_new sd vd n) as [d|e|]; [|done..]. exfalso.
    destruct (proj1 (Hspec d) eq_refl) as (-> & _ & _ & Hr). done.
Qed.
End properties.

(** ** Witnesses *)

Import RefInstances.

Lemma holdings_ok_default : holdings_ok (view vault_default).
Proof.
  intros k a Ha. exfalso. assert (Hn : view vault_default k = None)
    by (apply view_None; [apply vault_default_wf|apply Smt_get_new]). congruence.
Qed.

(** Receive 5, receive a non-fungible asset, spend 3. *)
Definition sample_ops : list vault_op :=
  [VaultAdd (Fungible (sample_fungible 5)); VaultAdd (NonFungible sample_non_fungible);
   VaultRemove (Fungible (sample_fungible 3))].

Lemma sample_ops_ok : Forall op_ok sample_ops.
Proof.
  constructor; [split; [by apply sample_fungible_valid|done]|].
  constructor; [split; [apply sample_non_fungible_valid|done]|].
  constructor; [split; [by apply sample_fungible_valid|done]|constructor].
Qed.

Lemma tracker_vault_delta_replays_witness :
  exists t d, for_each track_op sample_ops (mkVaultTracker [] []) = (t, Ok tt) /\
    vault_tracker_into_delta (E := Empty_set) t = Ok d.
Proof.
  destruct (tracker_vault_delta_replays sample_ops vault_default
    (fst (for_each run_op sample_ops vault_default)) vault_default_wf holdings_ok_default sample_ops_ok)
    as (t & d & Ht & Hd & _).
  - reflexivity.
  - exists t, d. split; [exact Ht|exact Hd].
Defined.

Lemma tracker_zero_amount_witness :
  exists t, tracker_add_asset (Fungible (sample_fungible 0)) (mkVaultTracker [] []) = (t, Ok tt).
Proof.
  destruct (tracker_zero_amount sample_id vault_default) as (t & Ht & _).
  - by apply (sample_fungible_valid 0).
  - apply vault_default_wf.
  - apply view_None; [apply vault_default_wf|apply Smt_get_new].
  - exists t. exact Ht.
Defined.

Lemma tracker_storage_delta_replays_witness :
  exists t, for_each (fun u => slot_update u.1 u.2) [(3, EMPTY_WORD); (4, EMPTY_WORD)] (mkStorageTracker []) =
    (t, Ok tt).
Proof.
  destruct (tracker_storage_delta_replays [(3, EMPTY_WORD); (4, EMPTY_WORD)]) as (t & Ht & _).
  - repeat constructor; unfold MAX_MUTABLE_STORAGE_SLOT_IDX; cbn; lia.
  - exists t. exact Ht.
Defined.

(** A tracker that saw no change and no nonce increment. *)
Definition idle_tracker : AccountDeltaTracker :=
  mkDeltaTracker (mkStorageTracker []) (mkVaultTracker [] []) ONE ZERO.

Lemma tracker_into_delta_nonce_witness :
  tracker_into_delta (E := Empty_set) idle_tracker =
  Ok (mkAccountDelta (mkAccountStorageDelta [] []) (mkAccountVaultDelta [] []) None).
Proof.
  destruct (tracker_into_delta_nonce idle_tracker (mkAccountVaultDelta [] [])) as [Hok _].
  - reflexivity.
  - split; [constructor|]. split_and!; cbn; [lia|lia|constructor].
  - split_and!; cbn; [lia|lia|constructor|constructor].
  - cbn in Hok. apply Hok. done.
Defined.
