(* ===== verification/Host.v ===== *)
(** miden-tx/src/host: the host of a transaction, which listens to the events of
    the kernel, accumulates the account delta and collects the output notes; with
    the events and errors of miden-lib/src/transaction. *)
From stdpp Require Import strings pretty.
From S2P Require Import Prelude Interfaces Types Reference BTree AccountIds Assets Vault Storage.
From S2P Require Import Delta Code Account Tracker NoteMeta NoteContents Notes Outputs Memory.
Local Open Scope Z_scope.

(** ** Events (miden-lib/src/transaction/events.rs) *)

Inductive TransactionEvent :=
| AccountVaultAddAsset
| AccountVaultRemoveAsset
| AccountStorageSetItem
| AccountIncrementNonce
| AccountPushProcedureIndex
| NoteCreated.

Definition TransactionEvent_repr (e : TransactionEvent) : Z :=
  match e with
  | AccountVaultAddAsset => 0x20000
  | AccountVaultRemoveAsset => 0x20001
  | AccountStorageSetItem => 0x20002
  | AccountIncrementNonce => 0x20003
  | AccountPushProcedureIndex => 0x20004
  | NoteCreated => 0x20005
  end.

Definition EVENT_ID_PREFIX : Z := 2.

Inductive TransactionEventParsingError :=
| InvalidTransactionEvent (event_id : Z)
| NotTransactionEvent (event_id : Z).

Definition event_try_from (value : Z) : res TransactionEventParsingError TransactionEvent :=
  if decide (Z.shiftr value 16 <> EVENT_ID_PREFIX) then Err (NotTransactionEvent value)
  else if decide (value = 0x20000) then Ok AccountVaultAddAsset
  else if decide (value = 0x20001) then Ok AccountVaultRemoveAsset
  else if decide (value = 0x20002) then Ok AccountStorageSetItem
  else if decide (value = 0x20003) then Ok AccountIncrementNonce
  else if decide (value = 0x20004) then Ok AccountPushProcedureIndex
  else if decide (value = 0x20005) then Ok NoteCreated
  else Err (InvalidTransactionEvent value).

(** [Display]: the text of an event, and of an error of parsing one (errors.rs). *)
Definition display_event (e : TransactionEvent) : string :=
  match e with
  | AccountVaultAddAsset => "AccountVaultAddAsset"
  | AccountVaultRemoveAsset => "AccountVaultRemoveAsset"
  | AccountStorageSetItem => "AccountStorageSetItem"
  | AccountIncrementNonce => "AccountIncrementNonce"
  | AccountPushProcedureIndex => "AccountPushProcedureIndex"
  | NoteCreated => "NoteCreated"
  end.
Definition display_event_error (e : TransactionEventParsingError) : string :=
  match e with
  | InvalidTransactionEvent event_id => "event " +:+ pretty event_id +:+ " is not a valid transaction kernel event"
  | NotTransactionEvent event_id => "event " +:+ pretty event_id +:+ " is not a transaction kernel event"
  end.

(** The end of the message for an event out of the root context. *)
Definition not_root_context : string := " event can only be emitted from the root context".

Section host.
Context `{F : Field} {C : Crypto} {AS : Assembly} {P : Programs} {FE : Features} {D : Display} {B : Build}
  {MK : Merkle} {V : Vm} {VA : VmAdvice}.

(** miden-lib/src/transaction/errors.rs *)
Inductive TransactionKernelError :=
| InvalidStorageSlotIndex (index : Z)
| MalformedAccountId (e : AccountError)
| MalformedAsset (e : AssetError)
| MalformedAssetOnAccountVaultUpdate (e : AssetError)
| MalformedNoteInputs (e : NoteError)
| MalformedNoteMetadata (e : NoteError)
| MalformedNoteScript (data : list Felt)
| MalformedNoteType (e : NoteError)
| MalformedRecipientData (data : list Felt)
| MalformedTag (tag : Felt)
| MissingNoteDetails (metadata : NoteMetadata) (vault : NoteAssets) (recipient : Digest)
| MissingStorageSlotValue (index : Z) (msg : string)
| UnknownAccountProcedure (proc_root : Digest).

(** [Display]; the text of a value that is written as [{:?}] is what the derived
    [Debug] makes of it. *)
Definition display_kernel_error (self : TransactionKernelError) : string :=
  match self with
  | InvalidStorageSlotIndex index =>
      "storage slot index " +:+ pretty index +:+ " is invalid, must be smaller than " +:+ pretty (Z.of_nat NUM_STORAGE_SLOTS)
  | MalformedAccountId err =>
      "Account id data extracted from the stack by the event handler is not well formed " +:+ to_string err
  | MalformedAsset err => "Asset data extracted from the stack by the event handler is not well formed " +:+ to_string err
  | MalformedAssetOnAccountVaultUpdate err => "malformed asset during account vault update: " +:+ to_string err
  | MalformedNoteInputs err =>
      "Note inputs data extracted from the advice map by the event handler is not well formed " +:+ to_string err
  | MalformedNoteMetadata err => "Note metadata created by the event handler is not well formed " +:+ to_string err
  | MalformedNoteScript data =>
      "Note script data extracted from the advice map by the event handler is not well formed " +:+ to_string data
  | MalformedNoteType err =>
      "Note type data extracted from the stack by the event handler is not well formed " +:+ to_string err
  | MalformedRecipientData data => "Recipient data in the advice provider is not well formed " +:+ to_string data
  | MalformedTag tag => "Tag data extracted from the stack by the event handler is not well formed " +:+ to_string tag
  | MissingNoteDetails metadata vault recipient =>
      "Public note missing the details in the advice provider. metadata: " +:+ to_string metadata +:+
      " vault: " +:+ to_string vault +:+ " recipient: " +:+ to_string recipient
  | MissingStorageSlotValue index err =>
      "value for storage slot " +:+ pretty index +:+ " could not be found: " +:+ err
  | UnknownAccountProcedure proc_root =>
      "account procedure with root " +:+ to_string proc_root +:+ " is not in the advice provider"
  end.

(** ** Procedure indexes (account_procs.rs) *)

(** The loop over the indexes; an empty digest ends it. *)
Fixpoint index_procedures {E} (proc_store : MerkleStore) (account_code_root : Digest)
    (indexes : list Z) (result : list (Digest * Z)) : res E (list (Digest * Z)) :=
  match indexes with
  | [] => Ok result
  | i :: indexes' =>
      index ← expect_ok (NodeIndex_new PROCEDURE_TREE_DEPTH i);
      match get_node proc_store account_code_root index with
      | Ok proc_root =>
          if decide (proc_root = EMPTY_WORD) then Ok result
          else index_procedures proc_store account_code_root indexes'
                 (btree_insert digest_cmp result proc_root (i mod 2 ^ 8))
      | Err _ => index_procedures proc_store account_code_root indexes' result
      | Panic => Panic
      end
  end.

Definition procedure_map_new {E} (account_code_root : Digest) (adv_provider : AdviceProvider)
    : res E (list (Digest * Z)) :=
  let proc_store := get_store_subset adv_provider [account_code_root] in
  index_procedures proc_store account_code_root (seqZ 0 MAX_NUM_PROCEDURES) [].

Definition get_proc_index (self : list (Digest * Z)) (process : ProcessState)
    : res TransactionKernelError Z :=
  let proc_root := get_stack_word process 0 in
  ok_or (btree_get self proc_root) (UnknownAccountProcedure proc_root).

(** ** The host (host/mod.rs) *)

Record TransactionHost := mkHost {
  adv_provider : AdviceProvider;
  account_delta : AccountDeltaTracker;
  acct_procedure_index_map : list (Digest * Z);
  output_notes : list OutputNote }.

Definition host_new {E} (account : AccountStub) (adv_provider : AdviceProvider) : res E TransactionHost :=
  proc_index_map ← procedure_map_new (stub_code_root account) adv_provider;
  Ok (mkHost adv_provider (tracker_new account) proc_index_map []).

Definition into_parts {E} (self : TransactionHost)
    : res E (AdviceProvider * AccountDelta * list OutputNote) :=
  delta ← tracker_into_delta (account_delta self);
  Ok (adv_provider self, delta, output_notes self).

Definition put_delta (t : AccountDeltaTracker) (h : TransactionHost) : TransactionHost :=
  mkHost (adv_provider h) t (acct_procedure_index_map h) (output_notes h).
Definition put_dt_vault (v : AccountVaultDeltaTracker) (t : AccountDeltaTracker) : AccountDeltaTracker :=
  mkDeltaTracker (dt_storage t) v (dt_init_nonce t) (dt_nonce_delta t).
Definition put_dt_storage (s : AccountStorageDeltaTracker) (t : AccountDeltaTracker) : AccountDeltaTracker :=
  mkDeltaTracker s (dt_vault t) (dt_init_nonce t) (dt_nonce_delta t).

(** A call of a tracker, which has no errors. *)
Definition infallible {S E A} (m : mut S Empty_set A) : mut S E A :=
  mut_map_err (fun e : Empty_set => match e with end) m.

(** The note of the event: its details are looked up for public notes. *)
Definition public_note (adv : AdviceProvider) (metadata : NoteMetadata) (vault : NoteAssets)
    (recipient : Digest) : res TransactionKernelError OutputNote :=
  data ← ok_or (get_mapped_values adv recipient) (MissingNoteDetails metadata vault recipient);
  match data with
  | [d0; d1; d2; d3; d4; d5; d6; d7; d8; d9; d10; d11] =>
      let inputs_hash := mkWord d0 d1 d2 d3 in
      let inputs_key := commitment_to_key inputs_hash in
      let script_hash := mkWord d4 d5 d6 d7 in
      let serial_num := mkWord d8 d9 d10 d11 in
      let input_els := get_mapped_values adv inputs_key in
      let script_data := default [] (get_mapped_values adv script_hash) in
      inputs ← map_err MalformedNoteInputs (note_inputs_new (default [] input_els));
      script ← map_err (fun _ => MalformedNoteScript script_data) (note_script_try_from script_data);
      let recipient := recipient_new serial_num script inputs in
      Ok (PublicNote (note_new vault metadata recipient))
  | _ => Err (MalformedRecipientData data)
  end.

Definition on_note_created (process : ProcessState) : mut TransactionHost TransactionKernelError unit :=
  let stack i := expect (get_stack_state process !! i) in
  self ← read_self;
  aux ← lift (stack 0%nat);
  s1 ← lift (stack 1%nat);
  note_type ← lift (map_err MalformedNoteType (note_type_try_from_felt s1));
  s2 ← lift (stack 2%nat);
  sender ← lift (map_err MalformedAccountId (try_from_felt s2));
  s3 ← lift (stack 3%nat);
  tag ← lift (map_err (fun _ => MalformedTag s3) (tag_try_from_felt s3));
  s8 ← lift (stack 8%nat); s7 ← lift (stack 7%nat); s6 ← lift (stack 6%nat); s5 ← lift (stack 5%nat);
  asset ← lift (map_err MalformedAsset (asset_try_from (mkWord s8 s7 s6 s5)));
  s12 ← lift (stack 12%nat); s11 ← lift (stack 11%nat); s10 ← lift (stack 10%nat); s9 ← lift (stack 9%nat);
  let recipient := mkWord s12 s11 s10 s9 in
  vault ← lift (map_err MalformedNoteType (note_assets_new [asset]));
  metadata ← lift (map_err MalformedNoteMetadata (metadata_new sender note_type tag aux));
  note ← lift
    (if decide (md_note_type metadata = NotePublic)
     then public_note (adv_provider self) metadata vault recipient
     else
       let note_id := note_id_new recipient (na_hash vault) in
       envelope ← expect_ok (note_envelope_new note_id metadata);
       Ok (PrivateNote envelope));
  write_self (mkHost (adv_provider self) (account_delta self) (acct_procedure_index_map self)
    (output_notes self ++ [note])).

Definition on_account_push_procedure_index (process : ProcessState)
    : mut TransactionHost TransactionKernelError unit :=
  self ← read_self;
  proc_idx ← lift (get_proc_index (acct_procedure_index_map self) process);
  let '(adv, r) := push_stack (adv_provider self) (Felt_new proc_idx) in
  _ ← write_self (mkHost adv (account_delta self) (acct_procedure_index_map self) (output_notes self));
  lift (expect_ok r).

Definition on_account_increment_nonce (process : ProcessState)
    : mut TransactionHost TransactionKernelError unit :=
  let value := get_stack_item process 0 in
  on_field account_delta put_delta (infallible (increment_nonce value)).

Definition on_account_storage_set_item (process : ProcessState)
    : mut TransactionHost TransactionKernelError unit :=
  self ← read_self;
  storage_root ← lift (expect (get_mem_value process ContextId_root ACCT_STORAGE_ROOT_PTR));
  let slot_index := get_stack_item process 0 in
  if decide (as_int slot_index >= Z.of_nat NUM_STORAGE_SLOTS)
  then lift (Err (InvalidStorageSlotIndex (as_int slot_index)))
  else
    let new_slot_value := mkWord (get_stack_item process 4) (get_stack_item process 3)
                                 (get_stack_item process 2) (get_stack_item process 1) in
    current_slot_value ← lift (map_err (fun err => MissingStorageSlotValue (as_int slot_index mod 2 ^ 8) (to_string err))
      (get_tree_node (adv_provider self) storage_root (Felt_new STORAGE_TREE_DEPTH) slot_index));
    if decide (current_slot_value <> new_slot_value) then
      let slot_index := as_int slot_index mod 2 ^ 8 in
      on_field account_delta put_delta (on_field dt_storage put_dt_storage
        (infallible (slot_update slot_index new_slot_value)))
    else mret tt.

Definition on_account_vault_add_asset (process : ProcessState)
    : mut TransactionHost TransactionKernelError unit :=
  asset ← lift (map_err MalformedAssetOnAccountVaultUpdate (asset_try_from (get_stack_word process 0)));
  on_field account_delta put_delta (on_field dt_vault put_dt_vault (infallible (tracker_add_asset asset))).

Definition on_account_vault_remove_asset (process : ProcessState)
    : mut TransactionHost TransactionKernelError unit :=
  asset ← lift (map_err MalformedAssetOnAccountVaultUpdate (asset_try_from (get_stack_word process 0)));
  on_field account_delta put_delta (on_field dt_vault put_dt_vault (infallible (tracker_remove_asset asset))).

(** *** The methods of [Host] *)

(** A call of the advice provider by a method of the host. *)
Definition ask_provider (call : AdviceProvider -> AdviceProvider * res ExecutionError HostResponse)
    : mut TransactionHost ExecutionError HostResponse :=
  on_field adv_provider
    (fun adv h => mkHost adv (account_delta h) (acct_procedure_index_map h) (output_notes h)) call.

Definition get_advice (process : ProcessState) (extractor : AdviceExtractor)
    : mut TransactionHost ExecutionError HostResponse :=
  ask_provider (fun adv => provider_get_advice adv process extractor).

Definition set_advice (process : ProcessState) (injector : AdviceInjector)
    : mut TransactionHost ExecutionError HostResponse :=
  ask_provider (fun adv => provider_set_advice adv process injector).

Definition handle_event (event : TransactionEvent) (process : ProcessState)
    : mut TransactionHost TransactionKernelError unit :=
  match event with
  | AccountVaultAddAsset => on_account_vault_add_asset process
  | AccountVaultRemoveAsset => on_account_vault_remove_asset process
  | AccountStorageSetItem => on_account_storage_set_item process
  | AccountIncrementNonce => on_account_increment_nonce process
  | AccountPushProcedureIndex => on_account_push_procedure_index process
  | NoteCreated => on_note_created process
  end.

Definition on_event (process : ProcessState) (event_id : Z)
    : mut TransactionHost ExecutionError HostResponse :=
  event ← lift (map_err (fun err => EventError (display_event_error err)) (event_try_from event_id));
  if decide (proc_ctx process <> ContextId_root) then lift (Err (EventError (display_event event ++ not_root_context)))
  else
    _ ← mut_map_err (fun err => EventError (display_kernel_error err)) (handle_event event process);
    mret HostResponse_None.

Definition host_call (call : ProcessState * HostCall) : mut TransactionHost ExecutionError HostResponse :=
  match call.2 with
  | GetAdvice extractor => get_advice call.1 extractor
  | SetAdvice injector => set_advice call.1 injector
  | Event event_id => on_event call.1 event_id
  end.

(** The calls in order, until one is refused. *)
Definition run_calls (calls : list (ProcessState * HostCall)) : mut TransactionHost ExecutionError unit :=
  drive host_call calls.
End host.
Arguments TransactionKernelError : clear implicits.
Arguments TransactionKernelError {_ _ _}.
Arguments TransactionHost : clear implicits.
Arguments TransactionHost {_ _ _ _ _ _}.

(** ** Specification

    What the kernel does between the start of a transaction and a call of the
    host: the vault, the values of the storage slots and the nonce of the account,
    the notes created, and the advice provider as the host keeps it. *)

Section kernel.
Context `{F : Field} {FL : FieldLaws F} {C : Crypto} {AS : Assembly} {P : Programs} {FE : Features}
  {D : Display} {B : Build} {MK : Merkle} {V : Vm} {VA : VmAdvice}.

Record KernelState := mkKernel {
  k_vault : AssetVault; k_slots : Z -> Word; k_nonce : Felt;
  k_notes : list OutputNote; k_adv : AdviceProvider }.

Definition kernel_start (a : Account) (adv : AdviceProvider) : KernelState :=
  mkKernel (acc_vault a) (SimpleSmt_get (slots (acc_storage a))) (acc_nonce a) [] adv.

Definition vault_event (o : vault_op) : TransactionEvent :=
  match o with VaultAdd _ => AccountVaultAddAsset | VaultRemove _ => AccountVaultRemoveAsset end.

(** The stack at the creation of a note with one asset:
    [aux, note_type, sender, tag, note_ptr, ASSET, RECIPIENT], top first, the last
    element of a word on top. *)
Definition note_on_stack (p : ProcessState) (md : NoteMetadata) (asset : Asset) (recipient : Digest) : Prop :=
  exists note_ptr rest, get_stack_state p =
    [md_aux md; felt_of_note_type (md_note_type md); id_felt (md_sender md); felt_of_tag (md_tag md); note_ptr] ++
    rev (word_elements (asset_word asset)) ++ rev (word_elements recipient) ++ rest.

(** The advice provider has the data of a recipient: the three parts of it under
    its digest, its inputs (unless there are none) and its script. *)
Definition advice_has_recipient (adv : AdviceProvider) (r : NoteRecipient) : Prop :=
  get_mapped_values adv (nr_digest r) = Some (recipient_to_elements r) /\
  default [] (get_mapped_values adv (commitment_to_key (ni_hash (nr_inputs r)))) = ni_values (nr_inputs r) /\
  get_mapped_values adv (ns_hash (nr_script r)) = Some (felts_of_note_script (nr_script r)).

(** The program that comes back from the elements a script is encoded as, and the
    recipient with another program: the hash of the script is not recomputed. *)
Definition program_read_back (script : NoteScript) : res DeserializationError ProgramAst :=
  program_from_bytes (decoded_bytes (program_to_bytes (ns_code script))).
Definition with_program (code : ProgramAst) (r : NoteRecipient) : NoteRecipient :=
  mkNoteRecipient (nr_serial_num r) (note_script_from_parts code (ns_hash (nr_script r))) (nr_inputs r) (nr_digest r).

(** The note made from what is on the stack. *)
Definition created_assets (asset : Asset) : NoteAssets :=
  mkNoteAssets [asset] (hash_elements (asset_elements [asset])).

(** What becomes of a public note whose recipient is provided: it is recorded with the
    program that comes back, or refused when the bytes are of no program. *)
Definition public_note_outcome (h : TransactionHost) (md : NoteMetadata) (asset : Asset) (r : NoteRecipient)
    : TransactionHost * res TransactionKernelError unit :=
  match program_read_back (nr_script r) with
  | Ok code => (mkHost (adv_provider h) (account_delta h) (acct_procedure_index_map h)
                  (output_notes h ++ [PublicNote (note_new (created_assets asset) md (with_program code r))]), Ok tt)
  | Err _ => (h, Err (MalformedNoteScript (felts_of_note_script (nr_script r))))
  | Panic => (h, Panic)
  end.

Inductive note_created (adv : AdviceProvider) (p : ProcessState) : OutputNote -> Prop :=
| created_off_chain md asset recipient :
    metadata_valid md -> asset_valid asset -> note_on_stack p md asset recipient ->
    md_note_type md = NoteOffChain ->
    note_created adv p
      (PrivateNote (mkNoteEnvelope (note_id_new recipient (na_hash (created_assets asset))) md))
| created_public md asset r :
    metadata_valid md -> asset_valid asset -> note_on_stack p md asset (nr_digest r) ->
    md_note_type md = NotePublic -> recipient_wf r -> note_script_ok (nr_script r) ->
    (length (program_to_bytes (ns_code (nr_script r))) mod 4 <> 1)%nat ->
    advice_has_recipient adv r ->
    note_created adv p (PublicNote (note_new (created_assets asset) md r)).

(** A step of the kernel that calls the host: for the vault the asset is the top
    word of the stack; for a storage slot the index and the new value are on the
    stack and the advice provider knows the current value under the root in
    memory; a procedure is one the host knows of; and requests for advice. *)
Inductive kernel_step (m : list (Digest * Z)) (l : list StorageSlotType)
    : KernelState -> ProcessState * HostCall -> KernelState -> Prop :=
| step_vault o k p v' :
    op_ok o -> run_op o (k_vault k) = (v', Ok tt) -> proc_ctx p = ContextId_root ->
    get_stack_word p 0 = asset_word (op_asset o) ->
    kernel_step m l k (p, Event (TransactionEvent_repr (vault_event o)))
      (mkKernel v' (k_slots k) (k_nonce k) (k_notes k) (k_adv k))
| step_set_item k p i w root :
    0 <= i < SLOT_LAYOUT_COMMITMENT_INDEX -> l !! Z.to_nat i = Some (SlotValue 0) ->
    proc_ctx p = ContextId_root -> get_mem_value p ContextId_root ACCT_STORAGE_ROOT_PTR = Some root ->
    get_stack_item p 0 = Felt_new i ->
    mkWord (get_stack_item p 4) (get_stack_item p 3) (get_stack_item p 2) (get_stack_item p 1) = w ->
    get_tree_node (k_adv k) root (Felt_new STORAGE_TREE_DEPTH) (Felt_new i) = Ok (k_slots k i) ->
    kernel_step m l k (p, Event (TransactionEvent_repr AccountStorageSetItem))
      (mkKernel (k_vault k) (fun j => if decide (i = j) then w else k_slots k j) (k_nonce k) (k_notes k) (k_adv k))
| step_nonce k p :
    proc_ctx p = ContextId_root ->
    kernel_step m l k (p, Event (TransactionEvent_repr AccountIncrementNonce))
      (mkKernel (k_vault k) (k_slots k) (felt_add (k_nonce k) (get_stack_item p 0)) (k_notes k) (k_adv k))
| step_note k p note :
    proc_ctx p = ContextId_root -> note_created (k_adv k) p note ->
    kernel_step m l k (p, Event (TransactionEvent_repr NoteCreated))
      (mkKernel (k_vault k) (k_slots k) (k_nonce k) (k_notes k ++ [note]) (k_adv k))
| step_procedure k p i :
    proc_ctx p = ContextId_root -> btree_get m (get_stack_word p 0) = Some i ->
    kernel_step m l k (p, Event (TransactionEvent_repr AccountPushProcedureIndex))
      (mkKernel (k_vault k) (k_slots k) (k_nonce k) (k_notes k) (fst (push_stack (k_adv k) (Felt_new i))))
| step_get_advice k p x adv r :
    provider_get_advice (k_adv k) p x = (adv, Ok r) ->
    kernel_step m l k (p, GetAdvice x) (mkKernel (k_vault k) (k_slots k) (k_nonce k) (k_notes k) adv)
| step_set_advice k p x adv r :
    provider_set_advice (k_adv k) p x = (adv, Ok r) ->
    kernel_step m l k (p, SetAdvice x) (mkKernel (k_vault k) (k_slots k) (k_nonce k) (k_notes k) adv).

Inductive kernel_trace (m : list (Digest * Z)) (l : list StorageSlotType)
    : KernelState -> list (ProcessState * HostCall) -> KernelState -> Prop :=
| trace_nil k : kernel_trace m l k [] k
| trace_cons k1 k2 k3 c cs :
    kernel_step m l k1 c k2 -> kernel_trace m l k2 cs k3 -> kernel_trace m l k1 (c :: cs) k3.

(** The number of updates of the vault among the calls. *)
Definition is_vault_call (c : HostCall) : bool :=
  match c with
  | Event id => bool_decide (id = TransactionEvent_repr AccountVaultAddAsset) ||
                bool_decide (id = TransactionEvent_repr AccountVaultRemoveAsset)
  | _ => false
  end.
Fixpoint vault_calls (calls : list (ProcessState * HostCall)) : nat :=
  match calls with
  | [] => 0
  | c :: cs => (if is_vault_call c.2 then 1 else 0) + vault_calls cs
  end.

(** ** Lemmas *)

Lemma event_try_from_repr e : event_try_from (TransactionEvent_repr e) = Ok e.
Proof. by destruct e. Qed.

Lemma event_try_from_ok v e : event_try_from v = Ok e <-> v = TransactionEvent_repr e.
Proof.
  split; [|intros ->; apply event_try_from_repr]. unfold event_try_from.
  repeat case_decide; intros [= <-]; done.
Qed.

Lemma on_event_root p e h :
  proc_ctx p = ContextId_root ->
  on_event p (TransactionEvent_repr e) h =
  (_ ← mut_map_err (fun err => EventError (display_kernel_error err)) (handle_event e p); mret HostResponse_None) h.
Proof.
  intros Hctx. unfold on_event. rewrite event_try_from_repr. cbn [map_err].
  erewrite mut_bind_ok by (by apply lift_step). rewrite decide_False by (intros Hn; by apply Hn).
  done.
Qed.

Lemma on_event_handled p e h h' :
  proc_ctx p = ContextId_root -> handle_event e p h = (h', Ok tt) ->
  on_event p (TransactionEvent_repr e) h = (h', Ok HostResponse_None).
Proof.
  intros Hctx Hh. rewrite on_event_root by done.
  erewrite mut_bind_ok by (rewrite mut_map_err_run, Hh; reflexivity). done.
Qed.

Lemma handle_vault_event o p h t' :
  asset_valid (op_asset o) -> get_stack_word p 0 = asset_word (op_asset o) ->
  track_op o (dt_vault (account_delta h)) = (t', Ok tt) ->
  handle_event (vault_event o) p h = (put_delta (put_dt_vault t' (account_delta h)) h, Ok tt).
Proof.
  intros Hv Hw Ht.
  assert (Hasset : asset_try_from (get_stack_word p 0) = Ok (op_asset o))
    by (rewrite Hw; by apply asset_try_from_ok).
  destruct o as [a|a]; cbn [vault_event handle_event op_asset track_op] in *;
    unfold on_account_vault_add_asset, on_account_vault_remove_asset; rewrite Hasset; cbn [map_err];
    erewrite mut_bind_ok by (by apply lift_step); unfold on_field, infallible;
    rewrite mut_map_err_run, Ht; done.
Qed.

(** *** Refusals *)

(** An operation that leaves the state as it was when it reports an error. *)
Definition errors_keep {S E A} (m : mut S E A) : Prop := forall s s' e, m s = (s', Err e) -> s' = s.

Lemma keep_lift {S E A} (r : res E A) : errors_keep (lift (S := S) r).
Proof. intros s s' e H. exact (f_equal fst (eq_sym H)). Qed.

Lemma keep_lift_bind {S E A A'} (r : res E A) (f : A -> mut S E A') :
  (forall a, errors_keep (f a)) -> errors_keep (lift r ≫= f).
Proof.
  intros Hf s s' e H. unfold mbind, mut_bind, lift in H. destruct r as [a|e'|].
  - exact (Hf a s s' e H).
  - exact (f_equal fst (eq_sym H)).
  - done.
Qed.

Lemma keep_read_bind {S E A} (f : S -> mut S E A) :
  (forall s, errors_keep (f s)) -> errors_keep (read_self ≫= f).
Proof. intros Hf s s' e H. exact (Hf s s s' e H). Qed.

Lemma keep_write {S E} (s0 : S) : errors_keep (E := E) (write_self s0).
Proof. by intros s s' e H. Qed.

(** The trackers report no errors. *)
Lemma keep_infallible {S T E} (get : S -> T) put (m : mut T Empty_set unit) :
  errors_keep (E := E) (on_field get put (infallible m)).
Proof.
  intros s s' e H. unfold on_field, infallible in H. rewrite mut_map_err_run in H.
  destruct (m (get s)) as [t [[]|[]|]]; done.
Qed.

Lemma keep_infallible_nested {S T U E} (get : S -> T) put (get' : T -> U) put' (m : mut U Empty_set unit) :
  errors_keep (E := E) (on_field get put (on_field get' put' (infallible m))).
Proof.
  intros s s' e H. unfold on_field, infallible in H. rewrite mut_map_err_run in H.
  destruct (m (get' (get s))) as [t [[]|[]|]]; done.
Qed.

Ltac keep := repeat
  match goal with
  | |- errors_keep (read_self ≫= _) => apply keep_read_bind; intros ?
  | |- errors_keep (lift _ ≫= _) => apply keep_lift_bind; intros ?
  | |- errors_keep (if _ then _ else _) => case_decide
  | |- errors_keep (lift _) => apply keep_lift
  | |- errors_keep (write_self _) => apply keep_write
  | |- errors_keep (on_field _ _ (on_field _ _ _)) => apply keep_infallible_nested
  | |- errors_keep (on_field _ _ _) => apply keep_infallible
  | |- errors_keep (mret _) => apply (keep_lift (Ok tt))
  end.

Lemma on_note_created_keeps p : errors_keep (on_note_created p).
Proof. unfold on_note_created. keep. Qed.

Lemma handle_event_errors_keep e p : errors_keep (handle_event e p).
Proof.
  destruct e; cbn [handle_event]; [..|apply on_note_created_keeps];
    unfold on_account_vault_add_asset, on_account_vault_remove_asset, on_account_storage_set_item,
      on_account_increment_nonce, on_account_push_procedure_index; cbv zeta; keep.
  intros s0 s' err H. destruct (push_stack (adv_provider s) (Felt_new a)) as [adv [[]|e|]]; done.
Qed.

(** *** The procedure map *)

(** The node of a procedure in the Merkle store. *)
Definition procedure_at (store : MerkleStore) (root : Digest) (i : Z) (r : Digest) : Prop :=
  exists n, NodeIndex_new PROCEDURE_TREE_DEPTH i = Ok n /\ get_node store root n = Ok r.

(** The loop from index [a] on: the map stays a map, its new entries are nodes of
    the store that are not empty, no entry is lost, and every node before the
    first empty one has an entry, of the greatest index when it occurs twice. *)
Lemma index_procedures_spec {E} {ML : MerkleLaws MK} {VL : VmLaws V} store root (n : nat) : forall a result,
  0 <= a -> a + Z.of_nat n <= MAX_NUM_PROCEDURES -> NoDup result.*1 ->
  exists m, index_procedures (E := E) store root (seqZ a (Z.of_nat n)) result = Ok m /\ NoDup m.*1 /\
    (forall r i, btree_get m r = Some i -> btree_get result r = Some i \/
       (a <= i < a + Z.of_nat n /\ procedure_at store root i r /\ r <> EMPTY_WORD)) /\
    (forall r i, btree_get result r = Some i -> exists i', btree_get m r = Some i' /\ (i' = i \/ a <= i')) /\
    (forall r i, a <= i < a + Z.of_nat n -> procedure_at store root i r -> r <> EMPTY_WORD ->
       (forall j, a <= j < i -> ~ procedure_at store root j EMPTY_WORD) ->
       exists i', btree_get m r = Some i' /\ i <= i').
Proof.
  induction n as [|n IH]; intros a result Ha Hmax Hnd.
  { exists result. cbn. split; [done|]. split; [done|]. split; [by left|]. split; [|lia].
    intros r i Hi. exists i. split; [done|by left]. }
  rewrite seqZ_cons by lia. replace (Z.pred (Z.of_nat (S n))) with (Z.of_nat n) by lia.
  cbn [index_procedures]. unfold MAX_NUM_PROCEDURES in *.
  destruct (NodeIndex_new_ok PROCEDURE_TREE_DEPTH a) as (node & Hnode & _); [by vm_compute|lia|].
  rewrite Hnode. cbn [expect_ok mbind res_bind].
  assert (Hat : forall r, procedure_at store root a r <-> get_node store root node = Ok r).
  { intros r. split; [intros (n' & Hn' & Hg); congruence|by exists node]. }
  destruct (get_node store root node) as [r0|e|] eqn:Hget; [| |by destruct (get_node_total store root node)].
  - destruct (decide (r0 = EMPTY_WORD)) as [->|Hne].
    + exists result. split; [done|]. split; [done|]. split; [by left|]. split.
      { intros r i Hi. exists i. split; [done|by left]. }
      intros r i Hi Hr Hne Hbefore. destruct (decide (i = a)) as [->|].
      * apply Hat in Hr. congruence.
      * exfalso. apply (Hbefore a); [lia|]. by apply Hat.
    + rewrite Z.mod_small by (change PROCEDURE_TREE_DEPTH with 8 in *; lia).
      destruct (IH (Z.succ a) (btree_insert digest_cmp result r0 a)) as (m & Hm & Hndm & Hsound & Hkeep & Hall);
        [lia|lia|by apply btree_insert_nodup|].
      exists m. split; [exact Hm|]. split; [done|]. split; [|split].
      * intros r i Hi. destruct (Hsound r i Hi) as [Hres|(Hrange & Hat' & Hr)]; [|right; split; [lia|done]].
        rewrite btree_get_insert in Hres by done. case_decide as Heq; [|by left].
        right. injection Hres as <-. subst r0. split; [lia|]. split; [by apply Hat|done].
      * intros r i Hi. destruct (decide (r0 = r)) as [->|Hne'].
        -- destruct (Hkeep r a) as (i' & Hi' & Hc); [by rewrite btree_get_insert, decide_True|].
           exists i'. split; [done|]. lia.
        -- destruct (Hkeep r i) as (i' & Hi' & Hc); [by rewrite btree_get_insert, decide_False|].
           exists i'. split; [done|]. lia.
      * intros r i Hi Hr Hner Hbefore. destruct (decide (i = a)) as [->|].
        -- apply Hat in Hr. injection Hr as ->.
           destruct (Hkeep r a) as (i' & Hi' & Hc); [by rewrite btree_get_insert, decide_True|].
           exists i'. split; [done|]. lia.
        -- apply Hall; [lia|done|done|]. intros j Hj. apply Hbefore. lia.
  - destruct (IH (Z.succ a) result) as (m & Hm & Hndm & Hsound & Hkeep & Hall); [lia|lia|done|].
    exists m. split; [exact Hm|]. split; [done|]. split; [|split].
    + intros r i Hi. destruct (Hsound r i Hi) as [|(Hrange & ?)]; [by left|right; split; [lia|done]].
    + intros r i Hi. destruct (Hkeep r i Hi) as (i' & Hi' & Hc). exists i'. split; [done|]. lia.
    + intros r i Hi Hr Hner Hbefore. destruct (decide (i = a)) as [->|]; [apply Hat in Hr; congruence|].
      apply Hall; [lia|done|done|]. intros j Hj. apply Hbefore. lia.
Qed.

(** The number of entries of a vault tracker grows by at most one. *)
Definition tracker_size (t : AccountVaultDeltaTracker) : nat :=
  (length (fungible_assets t) + length (non_fungible_assets t))%nat.

Lemma update_asset_delta_size {K} `{EqDecision K} (cmp : K -> K -> comparison) w key amount es es' r :
  update_asset_delta cmp w key amount es = (es', r) -> (length es' <= S (length es))%nat.
Proof.
  assert (Hins : forall v, (length (btree_insert cmp es key v) <= S (length es))%nat).
  { intros v. unfold btree_insert. destruct (btree_get es key).
    - rewrite length_fmap. lia.
    - by rewrite (Permutation_length (btree_place_perm cmp es key v)). }
  unfold update_asset_delta. run_mut. destruct (btree_get es key) as [e|].
  - case_decide.
    + intros [= <- _]. pose proof (length_filter (fun e => fst e <> key) es). unfold btree_remove. lia.
    + destruct (sadd_w w e amount); intros [= <- _]; try lia. apply Hins.
  - intros [= <- _]. apply Hins.
Qed.

Lemma track_op_size o t t' r : track_op o t = (t', r) -> (tracker_size t' <= S (tracker_size t))%nat.
Proof.
  unfold track_op, tracker_add_asset, tracker_remove_asset, on_field, tracker_size.
  destruct o as [[a|a]|[a|a]]; destruct (update_asset_delta _ _ _ _ _) as [m s] eqn:Hu;
    intros [= <- _]; apply update_asset_delta_size in Hu; cbn; lia.
Qed.
End kernel.

Section replay.
Context `{F : Field} {FL : FieldLaws F} {C : Crypto} {SL : SmtLaws C} {SSL : SimpleSmtLaws C} {AS : Assembly}
  {P : Programs} {PL : ProgramLaws P} {FE : Features} {D : Display} {B : Build} {MK : Merkle} {V : Vm} {ML : MerkleLaws MK} {VL : VmLaws V}
  {VA : VmAdvice}.

(** What the host knows after [n] updates of the vault of account [a]. *)
Definition host_inv (a : Account) (m : list (Digest * Z)) (n : nat) (k : KernelState) (h : TransactionHost)
    : Prop :=
  let t := account_delta h in
  let es := slot_updates (dt_storage t) in
  adv_provider h = k_adv k /\ output_notes h = k_notes k /\ acct_procedure_index_map h = m /\
  vault_wf (k_vault k) /\ tracks (view (acc_vault a)) (view (k_vault k)) (dt_vault t) /\
  (tracker_size (dt_vault t) <= n)%nat /\
  NoDup es.*1 /\
  Forall (fun e => 0 <= e.1 <= MAX_MUTABLE_STORAGE_SLOT_IDX /\
            layout (acc_storage a) !! Z.to_nat e.1 = Some (SlotValue 0)) es /\
  (forall i, k_slots k i = default (SimpleSmt_get (slots (acc_storage a)) i) (btree_get es i)) /\
  dt_init_nonce t = acc_nonce a /\ k_nonce k = felt_add (acc_nonce a) (dt_nonce_delta t).

Lemma felt_add_ZERO (x : Felt) : felt_add x ZERO = x.
Proof.
  apply as_int_inj. rewrite as_int_add, as_int_ZERO, Z.add_0_r. apply Z.mod_small, as_int_range.
Qed.

Lemma felt_add_assoc (x y z : Felt) : felt_add x (felt_add y z) = felt_add (felt_add x y) z.
Proof.
  apply as_int_inj. rewrite !as_int_add. rewrite Z.add_mod_idemp_l, Z.add_mod_idemp_r by done.
  f_equal. lia.
Qed.

Lemma host_new_ok {E} (account : AccountStub) adv (h : TransactionHost) :
  host_new (E := E) account adv = Ok h -> exists m, h = mkHost adv (tracker_new account) m [].
Proof. unfold host_new. intros Hnew. apply bind_ok in Hnew as (m & _ & Hnew). exists m. congruence. Qed.

Lemma host_inv_start (a : Account) adv m :
  vault_wf (acc_vault a) ->
  host_inv a m 0 (kernel_start a adv) (mkHost adv (tracker_new (stub_of_account a)) m []).
Proof.
  intros Hwf. unfold host_inv, tracker_size.
  cbn [account_delta tracker_new dt_storage dt_vault dt_init_nonce dt_nonce_delta slot_updates adv_provider
    output_notes acct_procedure_index_map kernel_start k_vault k_slots k_nonce k_notes k_adv stub_of_account stub_nonce fungible_assets
    non_fungible_assets length].
  do 3 (split; [reflexivity|]). split; [exact Hwf|]. split; [apply tracks_start|].
  split; [apply le_n|]. split; [apply NoDup_nil_2|]. split; [apply Forall_nil_2|].
  split; [reflexivity|]. split; [reflexivity|]. symmetry. apply felt_add_ZERO.
Qed.

(** The handler of a storage update, when the advice has the current value. *)
Lemma on_set_item_run p h i w root current :
  0 <= i < SLOT_LAYOUT_COMMITMENT_INDEX ->
  get_mem_value p ContextId_root ACCT_STORAGE_ROOT_PTR = Some root -> get_stack_item p 0 = Felt_new i ->
  mkWord (get_stack_item p 4) (get_stack_item p 3) (get_stack_item p 2) (get_stack_item p 1) = w ->
  get_tree_node (adv_provider h) root (Felt_new STORAGE_TREE_DEPTH) (Felt_new i) = Ok current ->
  on_account_storage_set_item p h =
  (if decide (current <> w) then
     let t := account_delta h in
     put_delta (put_dt_storage
       (mkStorageTracker (btree_insert Z.compare (slot_updates (dt_storage t)) i w)) t) h
   else h, Ok tt).
Proof.
  intros Hi Hmem Hidx Hval Htree. unfold SLOT_LAYOUT_COMMITMENT_INDEX in Hi.
  assert (Hint : as_int (Felt_new i) = i) by (apply as_int_new_small; unfold MODULUS; lia).
  unfold on_account_storage_set_item. erewrite mut_bind_ok by reflexivity. rewrite Hmem.
  erewrite mut_bind_ok by (by apply lift_step). rewrite Hidx, Hval, Hint.
  rewrite decide_False by (unfold NUM_STORAGE_SLOTS; lia). rewrite Htree.
  erewrite mut_bind_ok by (by apply lift_step). rewrite Z.mod_small by lia. by case_decide.
Qed.

(** The assets of a created note. *)
Lemma created_assets_wf (asset : Asset) : asset_valid asset -> note_assets_wf (created_assets asset).
Proof.
  intros Hv. split; [by constructor|]. split; [by vm_compute|]. split; [apply NoDup_singleton|done].
Qed.

(** The handler of a new note up to the look-up of its details. *)
Lemma on_note_created_run p md asset recipient h :
  metadata_valid md -> asset_valid asset -> note_on_stack p md asset recipient ->
  on_note_created p h =
  (note ← lift
     (if decide (md_note_type md = NotePublic)
      then public_note (adv_provider h) md (created_assets asset) recipient
      else
        envelope ← expect_ok (note_envelope_new (note_id_new recipient (na_hash (created_assets asset))) md);
        Ok (PrivateNote envelope));
   write_self (mkHost (adv_provider h) (account_delta h) (acct_procedure_index_map h)
     (output_notes h ++ [note]))) h.
Proof.
  intros (Hid & Htag & Hcons) Hv (ptr & rest & Hstack). destruct md as [sender type tag aux]. cbn in Hid, Htag, Hcons.
  unfold on_note_created. erewrite mut_bind_ok by reflexivity. rewrite Hstack.
  destruct (asset_word asset) as [a0 a1 a2 a3] eqn:Hw, recipient as [r0 r1 r2 r3].
  cbn [word_elements rev app md_aux md_note_type md_sender md_tag].
  do 2 (erewrite mut_bind_ok by reflexivity).
  erewrite mut_bind_ok; [|apply lift_step; rewrite (proj2 (note_type_try_from_felt_ok _ type)); [reflexivity|]].
  2: { unfold felt_of_note_type. apply as_int_new_small. destruct type; by vm_compute. }
  do 1 (erewrite mut_bind_ok by reflexivity).
  erewrite mut_bind_ok; [|apply lift_step; rewrite try_from_felt_valid by done; reflexivity].
  do 1 (erewrite mut_bind_ok by reflexivity).
  erewrite mut_bind_ok.
  2: { apply lift_step. unfold tag_try_from_felt, tag_try_from_u64, felt_of_tag. unfold tag_u32 in Htag.
       rewrite as_int_new_small by (unfold MODULUS; lia). rewrite decide_True by lia. reflexivity. }
  do 4 (erewrite mut_bind_ok by reflexivity).
  erewrite mut_bind_ok; [|apply lift_step; rewrite (proj2 (asset_try_from_ok _ asset) (conj Hv Hw)); reflexivity].
  do 4 (erewrite mut_bind_ok by reflexivity).
  change [asset] with (na_assets (created_assets asset)).
  erewrite mut_bind_ok; [|apply lift_step; rewrite note_assets_wf_new by (by apply created_assets_wf); reflexivity].
  destruct tag as [tag]. cbn [tag_value].
  erewrite mut_bind_ok; [|apply lift_step; rewrite (proj2 (metadata_new_ok sender type _ aux _ Htag) (conj eq_refl Hcons));
    reflexivity].
  done.
Qed.

(** The details of a public note, when the advice provider has them: everything comes
    back but, in the cases below, the program of the script. *)
Lemma public_note_read adv md vault r : recipient_wf r -> advice_has_recipient adv r ->
  public_note adv md vault (nr_digest r) =
  (code ← map_err (fun _ => MalformedNoteScript (felts_of_note_script (nr_script r))) (program_read_back (nr_script r));
   Ok (PublicNote (note_new vault md (with_program code r)))).
Proof.
  intros [Hi Hd] (Hrec & Hin & Hsc). destruct r as [serial script inputs digest].
  unfold recipient_to_elements in Hrec. cbn [nr_digest nr_serial_num nr_script nr_inputs] in *.
  destruct serial as [s0 s1 s2 s3], (ns_hash script) as [c0 c1 c2 c3] eqn:Hc, (ni_hash inputs) as [i0 i1 i2 i3] eqn:Hih.
  unfold word_elements in Hrec. cbn [app w0 w1 w2 w3] in Hrec. unfold public_note. rewrite Hrec. cbn [ok_or mbind res_bind]. cbv zeta.
  rewrite Hin, Hsc. cbn [default id].
  rewrite (proj2 (note_inputs_new_ok (ni_values inputs) inputs)) by done. cbn [map_err mbind res_bind].
  rewrite note_script_felts_decode. fold (program_read_back script). unfold with_program, recipient_new.
  cbn [nr_serial_num nr_script nr_inputs nr_digest]. rewrite Hd. unfold compute_recipient_digest. rewrite Hc.
  by destruct (program_read_back script) as [code| |].
Qed.

Lemma program_read_back_same s : note_script_ok s ->
  (length (program_to_bytes (ns_code s)) mod 4 <> 1)%nat -> program_read_back s = Ok (ns_code s).
Proof.
  intros Hs Hlen. unfold program_read_back, decoded_bytes. rewrite decide_False by done.
  by rewrite program_bytes_round_trip.
Qed.

Lemma with_same_program r : with_program (ns_code (nr_script r)) r = r.
Proof. by destruct r as [? [] ? ?]. Qed.

Lemma public_note_run adv md vault r :
  recipient_wf r -> note_script_ok (nr_script r) ->
  (length (program_to_bytes (ns_code (nr_script r))) mod 4 <> 1)%nat ->
  advice_has_recipient adv r ->
  public_note adv md vault (nr_digest r) = Ok (PublicNote (note_new vault md r)).
Proof.
  intros Hr Hs Hlen Hadv. rewrite public_note_read, program_read_back_same by done. cbn [map_err mbind res_bind].
  by rewrite with_same_program.
Qed.

(** What the host does with a public note whose recipient is provided. *)
Lemma handle_public_note p h md asset r :
  metadata_valid md -> asset_valid asset -> note_on_stack p md asset (nr_digest r) -> md_note_type md = NotePublic ->
  recipient_wf r -> advice_has_recipient (adv_provider h) r ->
  handle_event NoteCreated p h = public_note_outcome h md asset r.
Proof.
  intros Hmd Hv Hst Ht Hr Hadv. cbn [handle_event]. rewrite (on_note_created_run _ _ _ _ _ Hmd Hv Hst).
  rewrite decide_True by done. unfold public_note_outcome. rewrite public_note_read by done.
  by destruct (program_read_back (nr_script r)).
Qed.

Lemma handle_note_created p h note :
  note_created (adv_provider h) p note ->
  handle_event NoteCreated p h =
  (mkHost (adv_provider h) (account_delta h) (acct_procedure_index_map h) (output_notes h ++ [note]), Ok tt).
Proof.
  cbn [handle_event]. intros [md asset recipient Hmd Hv Hst Ht|md asset r Hmd Hv Hst Ht Hr Hs Hlen Hadv];
    rewrite (on_note_created_run _ _ _ _ _ Hmd Hv Hst).
  - rewrite decide_False by congruence. unfold note_envelope_new. rewrite decide_False by (intros Hn; by apply Hn).
    by erewrite mut_bind_ok by (by apply lift_step).
  - rewrite decide_True by done. rewrite public_note_run by done. by erewrite mut_bind_ok by (by apply lift_step).
Qed.

Lemma handle_procedure_index p h i :
  btree_get (acct_procedure_index_map h) (get_stack_word p 0) = Some i ->
  handle_event AccountPushProcedureIndex p h =
  (mkHost (fst (push_stack (adv_provider h) (Felt_new i))) (account_delta h) (acct_procedure_index_map h)
     (output_notes h), Ok tt).
Proof.
  intros Hi. cbn [handle_event]. unfold on_account_push_procedure_index, get_proc_index.
  erewrite mut_bind_ok by reflexivity. rewrite Hi. erewrite mut_bind_ok by (by apply lift_step).
  pose proof (push_stack_ok (adv_provider h) (Felt_new i)) as Hok.
  destruct (push_stack (adv_provider h) (Felt_new i)) as [adv r]. cbn in Hok. subst r. done.
Qed.

(** The events on the account are accepted and recorded. *)
Lemma host_inv_vault (a : Account) m n k h o p v' :
  holdings_ok (view (acc_vault a)) -> host_inv a m n k h ->
  op_ok o -> run_op o (k_vault k) = (v', Ok tt) -> get_stack_word p 0 = asset_word (op_asset o) ->
  exists h', handle_event (vault_event o) p h = (h', Ok tt) /\
    host_inv a m (S n) (mkKernel v' (k_slots k) (k_nonce k) (k_notes k) (k_adv k)) h'.
Proof.
  intros Hm0 (Hadv & Hout & Hm & Hwf & Htr & Hsize & Hrest) Hok Hrun Hw.
  destruct (track_op_step _ (k_vault k) v' (dt_vault (account_delta h)) o Hwf Hok Hm0 Htr Hrun)
    as (Hwf' & t' & Ht' & Htr').
  eexists. split; [eapply handle_vault_event; [apply Hok|exact Hw|exact Ht']|].
  apply track_op_size in Ht' as Hsz. split_and!; try done; try apply Hrest. cbn. lia.
Qed.

Lemma host_inv_set_item (a : Account) m n k h p i w root :
  host_inv a m n k h ->
  0 <= i < SLOT_LAYOUT_COMMITMENT_INDEX -> layout (acc_storage a) !! Z.to_nat i = Some (SlotValue 0) ->
  get_mem_value p ContextId_root ACCT_STORAGE_ROOT_PTR = Some root -> get_stack_item p 0 = Felt_new i ->
  mkWord (get_stack_item p 4) (get_stack_item p 3) (get_stack_item p 2) (get_stack_item p 1) = w ->
  get_tree_node (k_adv k) root (Felt_new STORAGE_TREE_DEPTH) (Felt_new i) = Ok (k_slots k i) ->
  exists h', handle_event AccountStorageSetItem p h = (h', Ok tt) /\
    host_inv a m n (mkKernel (k_vault k) (fun j => if decide (i = j) then w else k_slots k j)
      (k_nonce k) (k_notes k) (k_adv k)) h'.
Proof.
  intros (Hadv & Hout & Hm & Hwf & Htr & Hsize & Hnd & Hes & Hslots & Hnonce) Hi Hl Hmem Hidx Hval Htree.
  cbn [handle_event]. rewrite <- Hadv in Htree. rewrite (on_set_item_run p h i w root (k_slots k i)) by done.
  unfold SLOT_LAYOUT_COMMITMENT_INDEX in Hi. destruct (decide (k_slots k i <> w)) as [Hne|Heq].
  - eexists. split; [reflexivity|]. split_and!; try done; try apply Hnonce; cbn.
    + by apply btree_insert_nodup.
    + apply Forall_forall. intros [j x] Hin. apply btree_get_Some in Hin; [|by apply btree_insert_nodup].
      rewrite btree_get_insert in Hin by done. case_decide as Hij.
      * subst j. cbn. unfold MAX_MUTABLE_STORAGE_SLOT_IDX. split; [lia|done].
      * apply btree_get_Some in Hin; [|done]. rewrite Forall_forall in Hes. exact (Hes _ Hin).
    + intros j. rewrite btree_get_insert by done. case_decide; [done|apply Hslots].
  - apply dec_stable in Heq. eexists. split; [reflexivity|]. split_and!; try done; try apply Hnonce; cbn.
    intros j. case_decide as Hij; [|apply Hslots]. subst j. rewrite <- Heq. apply Hslots.
Qed.

(** Each call of the kernel is accepted. *)
Lemma host_inv_step (a : Account) m n k c k' h :
  holdings_ok (view (acc_vault a)) -> host_inv a m n k h ->
  kernel_step m (layout (acc_storage a)) k c k' ->
  exists h' r, host_call c h = (h', Ok r) /\
    host_inv a m ((if is_vault_call c.2 then 1 else 0) + n) k' h'.
Proof.
  intros Hm0 Hinv Hstep. pose proof Hinv as (Hadv & Hout & Hm & Hrest).
  destruct Hstep as [o k p v' Hok Hrun Hctx Hw|k p i w root Hi Hl Hctx Hmem Hidx Hval Htree|k p Hctx
    |k p note Hctx Hnote|k p i Hctx Hget|k p x adv r Hcall|k p x adv r Hcall]; unfold host_call; cbn [fst snd].
  - destruct (host_inv_vault a m n k h o p v' Hm0 Hinv Hok Hrun Hw) as (h' & Hh & Hinv').
    exists h'. eexists. split; [by apply on_event_handled|]. by destruct o.
  - destruct (host_inv_set_item a m n k h p i w root Hinv Hi Hl Hmem Hidx Hval Htree) as (h' & Hh & Hinv').
    exists h'. eexists. split; [by apply on_event_handled|]. exact Hinv'.
  - do 2 eexists. split; [apply on_event_handled; [done|reflexivity]|].
    destruct Hrest as (? & ? & ? & ? & ? & ? & Hinit & Hnonce). split_and!; try done.
    cbn. by rewrite Hnonce, felt_add_assoc.
  - rewrite <- Hadv in Hnote. do 2 eexists.
    split; [apply on_event_handled; [done|by apply handle_note_created]|].
    split; [done|]. split; [by cbn; rewrite Hout|]. split; [done|]. exact Hrest.
  - rewrite <- Hm in Hget. do 2 eexists.
    split; [apply on_event_handled; [done|by apply handle_procedure_index]|].
    split; [by cbn; rewrite Hadv|]. split; [done|]. split; [done|]. exact Hrest.
  - unfold get_advice, ask_provider, on_field. rewrite Hadv, Hcall. do 2 eexists. split; [reflexivity|].
    split; [done|]. split; [done|]. split; [done|]. exact Hrest.
  - unfold set_advice, ask_provider, on_field. rewrite Hadv, Hcall. do 2 eexists. split; [reflexivity|].
    split; [done|]. split; [done|]. split; [done|]. exact Hrest.
Qed.

Lemma host_inv_trace (a : Account) m k calls k' :
  holdings_ok (view (acc_vault a)) -> kernel_trace m (layout (acc_storage a)) k calls k' ->
  forall n h, host_inv a m n k h ->
  exists h', run_calls calls h = (h', Ok tt) /\ host_inv a m (vault_calls calls + n) k' h'.
Proof.
  intros Hm0. induction 1 as [k|k1 k2 k3 c cs Hstep _ IH]; intros n h Hinv; [by exists h|].
  destruct (host_inv_step a m n k1 c k2 h Hm0 Hinv Hstep) as (h1 & r & Hcall & Hinv1).
  destruct (IH _ h1 Hinv1) as (h' & Hrun & Hinv'). exists h'.
  unfold run_calls, drive in *. rewrite for_each_cons. cbn [vault_calls]. split.
  - erewrite (mut_bind_ok (host_call c)) by exact Hcall. exact Hrun.
  - by replace ((if is_vault_call c.2 then 1 else 0) + vault_calls cs + n)%nat
      with (vault_calls cs + ((if is_vault_call c.2 then 1 else 0) + n))%nat by lia.
Qed.

(** The storage delta of the host touches plain values only. *)
Lemma host_storage_writable s es :
  NoDup es.*1 -> Forall (fun e : Z * Word => layout s !! Z.to_nat e.1 = Some (SlotValue 0)) es ->
  storage_writable s (storage_tracker_into_delta (mkStorageTracker es)).
Proof.
  intros Hnd Hes. unfold storage_tracker_into_delta, storage_writable. rewrite split_slots_eq.
  cbn [slot_updates cleared_items updated_items app]. rewrite Forall_forall in Hes. apply Forall_forall.
  intros i [Hin|Hin]%elem_of_app; apply list_elem_of_fmap in Hin as (e & -> & [_ Hin]%list_elem_of_filter);
    by apply Hes.
Qed.

(** A tracker with no entries leaves the holdings and slots as they were. *)
Lemma host_inv_unchanged (a : Account) m n k h :
  host_inv a m n k h ->
  gains (dt_vault (account_delta h)) = [] -> losses (dt_vault (account_delta h)) = [] ->
  storage_tracker_into_delta (dt_storage (account_delta h)) = mkAccountStorageDelta [] [] ->
  (forall key, view (k_vault k) key = view (acc_vault a) key) /\
  (forall i, k_slots k i = SimpleSmt_get (slots (acc_storage a)) i).
Proof.
  intros (_ & _ & _ & _ & Htr & _ & Hnd & Hes & Hslots & _) Hg Hlo Hs. split.
  - intros key. pose proof (delta_keys_perm (dt_vault (account_delta h))) as Hp. rewrite Hg, Hlo in Hp.
    cbn in Hp. apply Permutation_nil_l in Hp. symmetry in Hp. apply app_eq_nil in Hp as [Hf Hn].
    destruct Htr as (_ & _ & _ & _ & HO). apply HO; [|rewrite Hn; set_solver].
    intros f Hin. apply fmap_nil_inv in Hf. rewrite Hf in Hin. set_solver.
  - intros i. destruct (dt_storage (account_delta h)) as [es]. cbn [slot_updates] in *.
    destruct (storage_tracker_delta es Hnd) as (_ & _ & Heff).
    { eapply Forall_impl; [exact Hes|]. intros e He. apply He. }
    rewrite Hslots, <- Heff, Hs. unfold slot_after. cbn. done.
Qed.

(** Either nothing is in the two parts of a delta, or one of them has an entry. *)
Lemma delta_parts_case (s : AccountStorageDelta) (v : AccountVaultDelta) :
  (s = mkAccountStorageDelta [] [] /\ v = mkAccountVaultDelta [] []) \/
  (s <> mkAccountStorageDelta [] [] \/ v <> mkAccountVaultDelta [] []).
Proof. destruct s as [[|c cs] [|u us]], v as [[|x l] [|r rs]]; naive_solver. Qed.

(** The delta of the host, when the nonce has grown and something changed. *)
Lemma host_into_parts (a : Account) m n k h :
  holdings_ok (view (acc_vault a)) -> host_inv a m n k h -> Z.of_nat n <= 65535 ->
  as_int (acc_nonce a) < as_int (k_nonce k) ->
  (exists key, view (k_vault k) key <> view (acc_vault a) key) \/
  (exists i, k_slots k i <> SimpleSmt_get (slots (acc_storage a)) i) ->
  let t := account_delta h in
  let d := mkAccountDelta (storage_tracker_into_delta (dt_storage t))
             (mkAccountVaultDelta (gains (dt_vault t)) (losses (dt_vault t))) (Some (k_nonce k)) in
  into_parts (E := Empty_set) h = Ok (k_adv k, d, k_notes k) /\ account_delta_typed d /\ account_delta_valid d.
Proof.
  intros Hm0 Hinv Hn Hnonce Hchanged t d. pose proof Hinv as (Hadv & Hout & _ & _ & Htr & Hsize & Hnd & Hes & _ & Hinit & Hk).
  fold t in Htr, Hsize, Hnd, Hes, Hinit, Hk.
  destruct (storage_tracker_delta (slot_updates (dt_storage t)) Hnd) as (Hu8 & Hsv & _).
  { eapply Forall_impl; [exact Hes|]. intros e He. apply He. }
  assert (Hst : mkStorageTracker (slot_updates (dt_storage t)) = dt_storage t) by (by destruct (dt_storage t)).
  rewrite Hst in Hu8, Hsv.
  assert (Hvd : vault_delta_valid (delta_vault d) /\ vault_delta_assets_valid (delta_vault d)).
  { split; [|exact (delta_assets_valid _ _ _ Hm0 Htr)]. split_and!; [| |exact (delta_keys_nodup _ _ _ Htr)];
      pose proof (Permutation_length (delta_keys_perm (dt_vault t))) as Hl;
      rewrite !length_fmap, !length_app, !length_fmap in Hl; unfold tracker_size in Hsize; cbn; lia. }
  assert (Hrule : nonce_rule (delta_nonce d) (delta_storage d) (delta_vault d)).
  { split.
    - intros Hz. rewrite Hz, as_int_ZERO in Hnonce. pose proof (as_int_range (acc_nonce a)). lia.
    - destruct (delta_parts_case (delta_storage d) (delta_vault d)) as [[Hs Hv]|Hne]; [|exact Hne].
      exfalso. injection Hv as Hg Hlo.
      destruct (host_inv_unchanged a m n k h Hinv Hg Hlo Hs) as [Hv0 Hs0].
      destruct Hchanged as [[key Hkey]|[i Hi]]; [by apply Hkey|by apply Hi]. }
  split; [|split; [split; [exact Hu8|apply Hvd]|split; [exact Hsv|split; [apply Hvd|exact Hrule]]]].
  unfold into_parts, tracker_into_delta. fold t.
  rewrite (vault_tracker_into_delta_eq _ _ _ Hm0 Htr). cbn [mbind res_bind].
  assert (Hdn : dt_nonce_delta t <> ZERO).
  { intros Hz. rewrite Hk, Hz, felt_add_ZERO in Hnonce. lia. }
  rewrite decide_False, Hinit, <- Hk by done.
  rewrite (proj2 (account_delta_new_spec _ _ _ d (proj2 Hvd))); [|split; [done|split; [exact Hsv|split; [apply Hvd|exact Hrule]]]].
  cbn [expect_ok mbind res_bind]. by rewrite Hadv, Hout.
Qed.

(** Applying that delta leads to what the kernel left. *)
Lemma host_delta_applies (a : Account) m n k h :
  account_wf a -> holdings_ok (view (acc_vault a)) -> host_inv a m n k h ->
  let t := account_delta h in
  let d := mkAccountDelta (storage_tracker_into_delta (dt_storage t))
             (mkAccountVaultDelta (gains (dt_vault t)) (losses (dt_vault t))) (Some (k_nonce k)) in
  account_delta_typed d -> account_delta_valid d -> as_int (acc_nonce a) < as_int (k_nonce k) ->
  exists a', apply_delta d a = (a', Ok tt) /\ account_wf a' /\ acc_vault a' ≡ k_vault k /\
    (forall i, SimpleSmt_get (slots (acc_storage a')) i = k_slots k i) /\
    layout (acc_storage a') = layout (acc_storage a) /\ acc_nonce a' = k_nonce k.
Proof.
  intros Hwf Hm0 (_ & _ & _ & Hvwf & Htr & _ & Hnd & Hes & Hslots & _) t d Ht Hv Hnonce. fold t in Htr, Hnd, Hes, Hslots.
  pose proof (apply_delta_stages a d Hwf Ht Hv) as Hst. destruct (apply_delta d a) as [a' r].
  destruct Hst as (Hwf' & _ & _ & Hst). exists a'.
  assert (Hse : mkStorageTracker (slot_updates (dt_storage t)) = dt_storage t) by (by destruct (dt_storage t)).
  destruct (tracker_replay _ _ _ Hm0 Htr) as (hs & Hhs & Hmk).
  assert (Hafter : vault_after a d = Some hs) by exact Hhs. rewrite Hafter in Hst.
  destruct Hst as [Hview [(_ & Hnw & _)|(_ & Hl & Hs & [(_ & -> & Hn)|(Hacc & _)])]].
  - destruct Hnw. unfold d. cbn [delta_storage]. rewrite <- Hse. apply host_storage_writable; [done|].
    eapply Forall_impl; [exact Hes|]. intros e He. apply He.
  - split_and!; try done.
    + apply view_equiv; [apply Hwf'|done|]. intros key. by rewrite Hview, Hmk.
    + intros i. rewrite Hs, Hslots. unfold d. cbn [delta_storage]. rewrite <- Hse.
      apply storage_tracker_delta; [done|]. eapply Forall_impl; [exact Hes|]. intros e He. apply He.
  - destruct Hacc. exact Hnonce.
Qed.
End replay.

(** ** Properties *)

Section properties.
Context `{F : Field} {FL : FieldLaws F} {C : Crypto} {SL : SmtLaws C} {SSL : SimpleSmtLaws C} {AS : Assembly}
  {P : Programs} {PL : ProgramLaws P} {FE : Features} {D : Display} {B : Build} {MK : Merkle} {V : Vm} {ML : MerkleLaws MK} {VL : VmLaws V}
  {VA : VmAdvice}.

(** C20: a host is always created, with the advice provider it is given and no notes;
    the index it answers for the procedure on the stack is that of a node of the
    procedure tree in the advice provider which has the root of the procedure; it
    has an answer for every procedure before the first empty node, its last index
    there; it reports any other as unknown. *)
Theorem host_procedure_map (account : AccountStub) adv :
  let at_ := procedure_at (get_store_subset adv [stub_code_root account]) (stub_code_root account) in
  exists h, host_new (E := Empty_set) account adv = Ok h /\ adv_provider h = adv /\ output_notes h = [] /\
    forall p, let r := get_stack_word p 0 in
      let answer := get_proc_index (acct_procedure_index_map h) p in
      (forall i, answer = Ok i -> 0 <= i < MAX_NUM_PROCEDURES /\ at_ i r /\ r <> EMPTY_WORD) /\
      (forall i, 0 <= i < MAX_NUM_PROCEDURES -> at_ i r -> r <> EMPTY_WORD ->
         (forall j, 0 <= j < i -> ~ at_ j EMPTY_WORD) -> exists i', answer = Ok i' /\ i <= i') /\
      ((forall i, answer <> Ok i) -> answer = Err (UnknownAccountProcedure r)).
Proof.
  intros at_. destruct (index_procedures_spec (E := Empty_set) (get_store_subset adv [stub_code_root account])
    (stub_code_root account) 256 0 []) as (m & Hm & _ & Hsound & _ & Hall); [lia|by vm_compute|constructor|].
  unfold host_new, procedure_map_new. change (seqZ 0 MAX_NUM_PROCEDURES) with (seqZ 0 (Z.of_nat 256)).
  rewrite Hm. eexists. split; [reflexivity|]. split; [done|]. split; [done|]. intros p. cbv zeta.
  unfold get_proc_index. set (r := get_stack_word p 0). cbn [acct_procedure_index_map]. split_and!.
  - intros i Hi. destruct (btree_get m r) as [i'|] eqn:Hg; [|done]. injection Hi as ->.
    destruct (Hsound r i Hg) as [|?]; done.
  - intros i Hi Hat Hne Hb. destruct (Hall r i Hi Hat Hne Hb) as (i' & -> & Hle). by exists i'.
  - intros Hno. destruct (btree_get m r) as [i'|]; [by destruct (Hno i')|done].
Qed.

(** C19: what the host refuses: an identifier that is not an event's, as an invalid
    event when its prefix is that of the kernel's events and as another's if not;
    an event out of the root context; an update of the vault with a word that is
    not an asset's; and an update of a slot past the last. Whenever an event is
    refused with an error the host stays as it was. *)
Theorem host_refuses p h :
  (forall id, (forall e, id <> TransactionEvent_repr e) ->
     let err := if decide (Z.shiftr id 16 = EVENT_ID_PREFIX) then InvalidTransactionEvent id
                else NotTransactionEvent id in
     on_event p id h = (h, Err (EventError (display_event_error err)))) /\
  (forall e, proc_ctx p <> ContextId_root ->
     on_event p (TransactionEvent_repr e) h = (h, Err (EventError (display_event e ++ not_root_context)))) /\
  ((forall a, asset_valid a -> get_stack_word p 0 <> asset_word a) -> exists err,
     handle_event AccountVaultAddAsset p h = (h, Err (MalformedAssetOnAccountVaultUpdate err)) /\
     handle_event AccountVaultRemoveAsset p h = (h, Err (MalformedAssetOnAccountVaultUpdate err))) /\
  (get_mem_value p ContextId_root ACCT_STORAGE_ROOT_PTR <> None -> 256 <= as_int (get_stack_item p 0) ->
     handle_event AccountStorageSetItem p h = (h, Err (InvalidStorageSlotIndex (as_int (get_stack_item p 0))))) /\
  (forall id h' err, on_event p id h = (h', Err err) -> h' = h).
Proof.
  split_and!.
  - intros id Hid err. assert (Htry : event_try_from id = Err err).
    { unfold event_try_from, err. pose proof (Hid AccountVaultAddAsset). pose proof (Hid AccountVaultRemoveAsset).
      pose proof (Hid AccountStorageSetItem). pose proof (Hid AccountIncrementNonce).
      pose proof (Hid AccountPushProcedureIndex). pose proof (Hid NoteCreated). cbn in *.
      repeat case_decide; done. }
    unfold on_event. rewrite Htry. done.
  - intros e Hctx. unfold on_event. rewrite event_try_from_repr. cbn [map_err].
    erewrite mut_bind_ok by (by apply lift_step). by rewrite decide_True.
  - intros Hno. cbn [handle_event]. unfold on_account_vault_add_asset, on_account_vault_remove_asset.
    destruct (asset_try_from (get_stack_word p 0)) as [a|err|] eqn:Ha.
    + apply asset_try_from_ok in Ha as [Hv Ha]. by destruct (Hno a Hv).
    + exists err. done.
    + by destruct (asset_try_from_no_panic (get_stack_word p 0)).
  - intros Hmem Hidx. cbn [handle_event]. unfold on_account_storage_set_item.
    erewrite mut_bind_ok by reflexivity.
    destruct (get_mem_value p ContextId_root ACCT_STORAGE_ROOT_PTR) as [root|]; [|done].
    erewrite mut_bind_ok by (by apply lift_step).
    by rewrite decide_True by (unfold NUM_STORAGE_SLOTS; lia).
  - intros id h' err. unfold on_event. revert h h' err.
    change (errors_keep (event ← lift (map_err (fun err => EventError (display_event_error err)) (event_try_from id));
      if decide (proc_ctx p <> ContextId_root) then lift (Err (EventError (display_event event ++ not_root_context)))
      else _ ← mut_map_err (fun err => EventError (display_kernel_error err)) (handle_event event p);
           mret HostResponse_None)).
    apply keep_lift_bind. intros e. case_decide; [apply keep_lift|]. intros s s' err Hrun.
    unfold mbind, mut_bind in Hrun. rewrite mut_map_err_run in Hrun.
    pose proof (handle_event_errors_keep e p s) as Hk.
    destruct (handle_event e p s) as [s1 [[]|err'|]]; cbn in Hrun; try done.
    injection Hrun as <- _. by apply (Hk s1 err').
Qed.

(** C18: the creation of a note with valid metadata and a valid asset on the stack. An
    off-chain note is recorded as the envelope of its identifier. A public note whose
    well-formed recipient is provided by the advice is recorded with the serial number,
    the inputs and the script hash of that recipient and with the program its encoding
    decodes to, and the recorded note is well-formed; it is refused when the encoding
    decodes to no program. The program is that of the recipient if it has no debug
    information, unless it takes 4k + 1 bytes: then its last byte is lost, and what is
    decoded is the program without it. A public note is refused when the advice has
    nothing under the recipient, or not twelve elements. On an encrypted note, which
    the metadata allow, the host panics. *)
Theorem host_note_created p h md asset recipient
    (Hmd : metadata_valid md) (Hv : asset_valid asset) (Hstack : note_on_stack p md asset recipient) :
  let run := handle_event NoteCreated p h in
  let record note := mkHost (adv_provider h) (account_delta h) (acct_procedure_index_map h)
                       (output_notes h ++ [note]) in
  (md_note_type md = NoteOffChain -> run =
     (record (PrivateNote (mkNoteEnvelope (note_id_new recipient (na_hash (created_assets asset))) md)), Ok tt)) /\
  (md_note_type md = NotePublic ->
     (forall r, nr_digest r = recipient -> recipient_wf r -> advice_has_recipient (adv_provider h) r ->
        let bytes := program_to_bytes (ns_code (nr_script r)) in
        run = public_note_outcome h md asset r /\
        (forall code, note_wf (note_new (created_assets asset) md (with_program code r))) /\
        (note_script_ok (nr_script r) -> (length bytes mod 4 <> 1)%nat ->
           run = (record (PublicNote (note_new (created_assets asset) md r)), Ok tt)) /\
        ((length bytes mod 4 = 1)%nat ->
           program_read_back (nr_script r) = program_from_bytes (take (length bytes - 1) bytes))) /\
     (get_mapped_values (adv_provider h) recipient = None ->
        run = (h, Err (MissingNoteDetails md (created_assets asset) recipient))) /\
     (forall data, get_mapped_values (adv_provider h) recipient = Some data -> length data <> 12%nat ->
        run = (h, Err (MalformedRecipientData data)))) /\
  (md_note_type md = NoteEncrypted -> run = (h, Panic)).
Proof.
  intros run record. pose proof (on_note_created_run p md asset recipient h Hmd Hv Hstack) as Hrun. split_and!.
  - intros Ht. apply handle_note_created. by apply created_off_chain.
  - intros Ht. rewrite decide_True in Hrun by done. split; [|split].
    + intros r <- Hr Hadv bytes. split; [by apply handle_public_note|].
      split; [intros code; split; [by apply created_assets_wf|by split_and!]|]. split.
      * intros Hs Hlen. apply handle_note_created. by apply created_public.
      * intros Hlen. unfold program_read_back, decoded_bytes. fold bytes. by rewrite decide_True.
    + intros Hnone. unfold run. cbn [handle_event]. rewrite Hrun. unfold public_note. by rewrite Hnone.
    + intros data Hdata Hlen. unfold run. cbn [handle_event]. rewrite Hrun. unfold public_note. rewrite Hdata.
      cbn [ok_or mbind res_bind]. by do 13 (destruct data as [|? data]; try done).
  - intros Ht. unfold run. cbn [handle_event]. rewrite Hrun.
    rewrite decide_False by congruence. unfold note_envelope_new. by rewrite decide_True by congruence.
Qed.

(** C3: the host reproduces a transaction: on the calls of a kernel that changes the
    vault, the storage slots and the nonce of a well-formed account, creates notes,
    asks for procedure indexes and for advice, in any order, every call is
    accepted; the host ends with the notes the kernel created and with a valid
    delta, and applying the delta to the account at the start gives the vault, the
    slots and the nonce the kernel ended with. *)
Theorem host_delta_replays (a : Account) adv h0 calls k
    (Hwf : account_wf a) (Hm0 : holdings_ok (view (acc_vault a)))
    (Hh0 : host_new (E := Empty_set) (stub_of_account a) adv = Ok h0)
    (Htrace : kernel_trace (acct_procedure_index_map h0) (layout (acc_storage a)) (kernel_start a adv) calls k)
    (Hcalls : Z.of_nat (vault_calls calls) <= 65535)
    (Hnonce : as_int (acc_nonce a) < as_int (k_nonce k))
    (Hchanged : (exists key, view (k_vault k) key <> view (acc_vault a) key) \/
                (exists i, k_slots k i <> SimpleSmt_get (slots (acc_storage a)) i)) :
  exists h d a', run_calls calls h0 = (h, Ok tt) /\
    into_parts (E := Empty_set) h = Ok (k_adv k, d, k_notes k) /\ account_delta_valid d /\
    apply_delta d a = (a', Ok tt) /\ account_wf a' /\ acc_vault a' ≡ k_vault k /\
    (forall i, SimpleSmt_get (slots (acc_storage a')) i = k_slots k i) /\ acc_nonce a' = k_nonce k.
Proof.
  destruct (host_new_ok _ _ _ Hh0) as (m & ->).
  destruct (host_inv_trace a m _ calls k Hm0 Htrace 0%nat _ (host_inv_start a adv m (proj1 (proj2 Hwf))))
    as (h & Hrun & Hinv). rewrite Nat.add_0_r in Hinv.
  destruct (host_into_parts a m _ k h Hm0 Hinv Hcalls Hnonce Hchanged) as (Hparts & Ht & Hv).
  destruct (host_delta_applies a m _ k h Hwf Hm0 Hinv Ht Hv Hnonce) as (a' & Happly & Hwf' & Hvault & Hslots & _ & Hn).
  exists h. eexists. exists a'. split_and!; [exact Hrun|exact Hparts|exact Hv|exact Happly|done..].
Qed.
End properties.

(** ** Witnesses *)

Import RefInstances.

(** A process in the root context with a given stack and no memory. *)
Definition sample_process (stack : list Felt) : ProcessState :=
  let item i := default ZERO (stack !! Z.to_nat i) in
  mkProcess _ _ _ _ 0 stack item
    (fun w => mkWord (item (4 * w + 3)) (item (4 * w + 2)) (item (4 * w + 1)) (item (4 * w)))
    (fun _ _ => None).

(** An off-chain note with one asset, on the stack. *)
Definition sample_note_stack : list Felt :=
  [ONE; felt_of_note_type NoteOffChain; id_felt sample_id; felt_of_tag (mkNoteTag 5); ZERO] ++
  rev (word_elements (asset_word (sample_nft 1))) ++ rev (word_elements EMPTY_WORD).

Lemma sample_note_on_stack :
  note_on_stack (sample_process sample_note_stack) sample_metadata (sample_nft 1) EMPTY_WORD.
Proof. exists ZERO, []. reflexivity. Qed.

Lemma sample_nft_valid i : 0 <= i -> asset_valid (sample_nft i).
Proof. intros Hi. vm_compute. split_and!; [discriminate|by left|reflexivity|reflexivity]. Qed.

(** Two procedures are at the first positions of the tree; the others are not known. *)
Definition sample_nodes (r : Word) (d i : Z) : option Word :=
  if decide (i = 0) then Some (mkWord ONE ZERO ZERO ZERO)
  else if decide (i = 1) then Some (mkWord ZERO ONE ZERO ZERO) else None.

Definition sample_advice : AdviceProvider := mkRefAdvice [] sample_nodes [].
Definition sample_advice_after : AdviceProvider := mkRefAdvice [] sample_nodes [ONE].

Lemma sample_node_at r i w :
  0 <= i < 256 -> sample_nodes r 8 i = Some w -> procedure_at (get_store_subset sample_advice [r]) r i w.
Proof.
  intros Hi Hw. exists (8, i). split; [|].
  - cbn [NodeIndex_new RefMerkle]. rewrite decide_True by (change PROCEDURE_TREE_DEPTH with 8; lia). done.
  - cbn [get_node get_store_subset RefVm ref_nodes sample_advice fst snd]. by rewrite Hw.
Qed.

Definition sample_stub : AccountStub := mkAccountStub sample_id ONE EMPTY_WORD EMPTY_WORD EMPTY_WORD.
Definition sample_host : TransactionHost := mkHost sample_advice (tracker_new sample_stub) [] [].

(** The second procedure has index 1. *)
Lemma host_procedure_map_witness :
  exists h i, host_new (E := Empty_set) sample_stub sample_advice = Ok h /\
    get_proc_index (acct_procedure_index_map h) (sample_process [ZERO; ZERO; ONE; ZERO]) = Ok i /\ 1 <= i < 256.
Proof.
  destruct (host_procedure_map sample_stub sample_advice)
    as (h & Hnew & _ & _ & Hmap).
  destruct (Hmap (sample_process [ZERO; ZERO; ONE; ZERO])) as (Hsound & Hall & _).
  destruct (Hall 1) as (i & Hi & Hle).
  - vm_compute. split; [discriminate|reflexivity].
  - apply sample_node_at; [lia|reflexivity].
  - intros Heq%(f_equal (fun w => as_int (w1 w))). discriminate.
  - intros j Hj (n & Hn & Hg). replace j with 0 in Hn by lia. injection Hn as <-.
    apply (f_equal (fun r => match r with Ok w => as_int (w0 w) | _ => 0 end)) in Hg. discriminate.
  - exists h, i. split; [exact Hnew|]. split; [exact Hi|]. apply Hsound in Hi.
    change MAX_NUM_PROCEDURES with 256 in Hi. lia.
Defined.

Lemma host_refuses_witness :
  on_event (sample_process []) 7 sample_host = (sample_host, Err (EventError "event 7 is not a transaction kernel event")).
Proof.
  destruct (host_refuses (sample_process []) sample_host) as (Hno & _). apply (Hno 7). intros e. destruct e; discriminate.
Defined.

(** A public note with a given program, on the stack, and the advice on its recipient. *)
Definition public_metadata : NoteMetadata := mkNoteMetadata sample_id NotePublic (mkNoteTag 5) ONE.
Definition public_recipient (program : list Z) : NoteRecipient :=
  recipient_new EMPTY_WORD (mkNoteScript (P := RefPrograms) (mkWord ONE ZERO ZERO ZERO) program) (sample_inputs [ONE]).
Definition public_note_stack (r : NoteRecipient) : list Felt :=
  [ONE; felt_of_note_type NotePublic; id_felt sample_id; felt_of_tag (mkNoteTag 5); ZERO] ++
  rev (word_elements (asset_word (sample_nft 1))) ++ rev (word_elements (nr_digest r)).
Definition recipient_entries (r : NoteRecipient) : list (Word * list Felt) :=
  [(nr_digest r, recipient_to_elements r); (commitment_to_key (ni_hash (nr_inputs r)), ni_values (nr_inputs r));
   (ns_hash (nr_script r), felts_of_note_script (nr_script r))].
Definition public_host (r : NoteRecipient) : TransactionHost :=
  mkHost (mkRefAdvice (recipient_entries r) sample_nodes []) (tracker_new sample_stub) [] [].

Lemma public_metadata_valid : metadata_valid public_metadata.
Proof. split; [apply sample_id_valid|]. split; [done|]. by vm_compute. Qed.

Lemma public_recipient_wf program : recipient_wf (public_recipient program).
Proof. split; [|done]. split; [by vm_compute|done]. Qed.

Lemma public_note_on_stack r :
  note_on_stack (sample_process (public_note_stack r)) public_metadata (sample_nft 1) (nr_digest r).
Proof. exists ZERO, []. done. Qed.

(** A public note is recorded whole when its program takes eight bytes and refused when
    it takes five; an off-chain note is recorded. *)
Lemma host_note_created_witness :
  (exists note, handle_event NoteCreated (sample_process sample_note_stack) sample_host =
    (mkHost sample_advice (tracker_new sample_stub) [] [note], Ok tt)) /\
  (let r := public_recipient [7; 8; 9; 10] in
   handle_event NoteCreated (sample_process (public_note_stack r)) (public_host r) =
     (mkHost (adv_provider (public_host r)) (tracker_new sample_stub) []
        [PublicNote (note_new (created_assets (sample_nft 1)) public_metadata r)], Ok tt)) /\
  (let r := public_recipient [7] in
   handle_event NoteCreated (sample_process (public_note_stack r)) (public_host r) =
     (public_host r, Err (MalformedNoteScript (felts_of_note_script (nr_script r))))).
Proof.
  split; [|split].
  - destruct (host_note_created (sample_process sample_note_stack) sample_host sample_metadata (sample_nft 1) EMPTY_WORD
      sample_metadata_valid (sample_nft_valid 1 ltac:(lia)) sample_note_on_stack) as (Hoff & _).
    eexists. exact (Hoff eq_refl).
  - intros r. destruct (host_note_created (sample_process (public_note_stack r)) (public_host r) public_metadata (sample_nft 1)
      (nr_digest r) public_metadata_valid (sample_nft_valid 1 ltac:(lia)) (public_note_on_stack r)) as (_ & Hpub & _).
    destruct (proj1 (Hpub eq_refl) r eq_refl (public_recipient_wf _)) as (_ & _ & Hwhole & _);
      [split_and!; by vm_compute|].
    apply Hwhole; [split; [by repeat constructor|by vm_compute]|by vm_compute].
  - intros r. destruct (host_note_created (sample_process (public_note_stack r)) (public_host r) public_metadata (sample_nft 1)
      (nr_digest r) public_metadata_valid (sample_nft_valid 1 ltac:(lia)) (public_note_on_stack r)) as (_ & Hpub & _).
    destruct (proj1 (Hpub eq_refl) r eq_refl (public_recipient_wf _)) as (Hrun & _);
      [split_and!; by vm_compute|].
    assert (exists e, program_read_back (nr_script r) = Err e) as [e He] by (eexists; vm_compute; reflexivity).
    rewrite Hrun. unfold public_note_outcome. by rewrite He.
Defined.

(** A note is created, an asset is received and the nonce grows. *)
Definition sample_asset : Asset := Fungible (sample_fungible 5).
Definition sample_calls : list (ProcessState * HostCall) :=
  [(sample_process [], SetAdvice ONE);
   (sample_process sample_note_stack, Event (TransactionEvent_repr NoteCreated));
   (sample_process (rev (word_elements (asset_word sample_asset))), Event (TransactionEvent_repr (vault_event (VaultAdd sample_asset))));
   (sample_process [ONE], Event (TransactionEvent_repr AccountIncrementNonce))].

Definition sample_output : OutputNote :=
  PrivateNote (mkNoteEnvelope (note_id_new EMPTY_WORD (na_hash (created_assets (sample_nft 1)))) sample_metadata).

Lemma sample_add :
  exists v', run_op (VaultAdd sample_asset) vault_default = (v', Ok tt) /\
    view v' (vault_key sample_asset) <> view vault_default (vault_key sample_asset).
Proof.
  pose proof (add_asset_refines vault_default sample_asset vault_default_wf (sample_fungible_valid 5 ltac:(done))) as Hadd.
  assert (Hnone : view vault_default (vault_key sample_asset) = None)
    by (apply view_None; [apply vault_default_wf|apply Smt_get_new]).
  cbn [run_op]. rewrite mut_ignore. unfold refines, spec_add in Hadd. rewrite Hnone in *.
  destruct (add_asset sample_asset vault_default) as [v' r]. cbn [fst snd] in Hadd.
  destruct Hadd as (-> & _ & _ & Hview). exists v'. split; [done|]. rewrite Hview. cbn [vault_key sample_asset].
  unfold update. by rewrite decide_True.
Qed.

Lemma sample_host_new (account : AccountStub) adv : exists h0, host_new (E := Empty_set) account adv = Ok h0.
Proof.
  destruct (index_procedures_spec (E := Empty_set) (get_store_subset adv [stub_code_root account])
    (stub_code_root account) 256 0 []) as (m & Hm & _); [lia|by vm_compute|constructor|].
  unfold host_new, procedure_map_new. change (seqZ 0 MAX_NUM_PROCEDURES) with (seqZ 0 (Z.of_nat 256)).
  rewrite Hm. by eexists.
Qed.

Lemma sample_trace m l slots adv v' :
  run_op (VaultAdd sample_asset) vault_default = (v', Ok tt) ->
  kernel_trace m l (mkKernel vault_default slots ZERO [] adv) sample_calls
    (mkKernel v' slots (felt_add ZERO ONE) [sample_output] (fst (provider_set_advice adv (sample_process []) ONE))).
Proof.
  intros Hrun. unfold sample_calls. eapply trace_cons; [by eapply step_set_advice|].
  eapply trace_cons; [apply step_note; [reflexivity|]|].
  { apply created_off_chain; [exact sample_metadata_valid|by apply (sample_nft_valid 1)|exact sample_note_on_stack|reflexivity]. }
  eapply trace_cons; [apply step_vault; [|exact Hrun|reflexivity|reflexivity]|].
  { split; [by apply sample_fungible_valid|reflexivity]. }
  eapply trace_cons; [by apply step_nonce|]. apply trace_nil.
Qed.

Lemma host_delta_replays_witness :
  exists a h0 h d, account_wf a /\ host_new (E := Empty_set) (stub_of_account a) sample_advice = Ok h0 /\
    run_calls sample_calls h0 = (h, Ok tt) /\
    into_parts (E := Empty_set) h = Ok (sample_advice_after, d, [sample_output]).
Proof.
  destruct (sample_account ZERO) as (a & Hwf & _ & Hv & Hn & _).
  destruct (sample_host_new (stub_of_account a) sample_advice) as (h0 & Hh0).
  destruct sample_add as (v' & Hrun & Hview).
  edestruct (host_delta_replays a sample_advice h0 sample_calls
    (mkKernel v' (SimpleSmt_get (slots (acc_storage a))) (felt_add ZERO ONE) [sample_output] sample_advice_after))
    as (h & d & a' & Hcalls & Hparts & _).
  - exact Hwf.
  - rewrite Hv. exact holdings_ok_default.
  - exact Hh0.
  - unfold kernel_start. rewrite Hv, Hn. exact (sample_trace _ _ _ sample_advice v' Hrun).
  - vm_compute. discriminate.
  - rewrite Hn. reflexivity.
  - left. exists (vault_key sample_asset). by rewrite Hv.
  - exists a, h0, h, d. split; [exact Hwf|]. split; [exact Hh0|]. split; [exact Hcalls|]. exact Hparts.
Defined.
