(* ===== verification/Machine.v ===== *)
(** The interfaces of the virtual machine as the transaction crates use it: the
    operand stack at the start and the end of a program, advice inputs, the
    linking of programs, and their execution, proof and verification; with the
    instances the witnesses compute on. *)
From stdpp Require Import gmap.
From S2P Require Import Prelude Interfaces Reference.
Local Open Scope Z_scope.

(** ** The operand stack before and after a program

    Both are seen from the top; [new] of the inputs takes the deepest value first,
    [new] of the outputs the top first, and pads. *)
Class Stacks `{F : Field} := {
  InputError : Type;
  StackInputs : Type;
  StackInputs_new : list Felt -> res InputError StackInputs;
  input_stack : StackInputs -> list Felt;
  OutputError : Type;
  StackOutputs : Type;
  StackOutputs_new : list Felt -> list Z -> res OutputError StackOutputs;
  output_stack : StackOutputs -> list Felt;
  get_output_word : StackOutputs -> nat -> option Word;
  group_slice_elements {E} : list Felt -> res E (list Word)   (* by four; panics on another length *)
}.

Class StacksLaws `(S : Stacks) : Prop := {
  StackInputs_new_ok (vs : list Felt) : (length vs <= 16)%nat ->
    exists si, StackInputs_new vs = Ok si /\ input_stack si = rev vs;
  StackOutputs_new_ok (vs : list Felt) : (length vs <= 16)%nat ->
    exists so, StackOutputs_new vs [] = Ok so /\ output_stack so = resize 16 ZERO vs;
  output_stack_length (so : StackOutputs) : (16 <= length (output_stack so))%nat;
  get_output_word_ok (so : StackOutputs) (i : nat) (a b c d : Felt) :
    take 4 (drop i (output_stack so)) = [d; c; b; a] -> get_output_word so i = Some (mkWord a b c d);
  group_words {E} (ws : list Word) : group_slice_elements (E := E) (concat (map word_elements ws)) = Ok ws;
  group_panics {E} (xs : list Felt) : (length xs mod 4 <> 0)%nat -> group_slice_elements (E := E) xs = Panic
}.

(** ** Advice: [AdviceMap], [AdviceInputs], and the providers made of them *)
Class Advice `{V : Vm} := {
  AdviceMap : Type;
  AdviceMap_default : AdviceMap;
  AdviceMap_get : AdviceMap -> Digest -> option (list Felt);
  AdviceMap_insert : AdviceMap -> Digest -> list Felt -> AdviceMap;
  AdviceMap_entries : AdviceMap -> list (Digest * list Felt);      (* into_iter *)

  AdviceInputs : Type;
  AdviceInputs_default : AdviceInputs;
  extend_stack : AdviceInputs -> list Felt -> AdviceInputs;
  extend_map : AdviceInputs -> list (Digest * list Felt) -> AdviceInputs;
  extend_merkle_store : AdviceInputs -> list InnerNodeInfo -> AdviceInputs;
  advice_stack : AdviceInputs -> list Felt;
  advice_values : AdviceInputs -> Digest -> option (list Felt);
  advice_nodes : AdviceInputs -> InnerNodeInfo -> Prop;

  provider_of : AdviceInputs -> AdviceProvider;                     (* From<AdviceInputs> *)
  provider_map : AdviceProvider -> AdviceMap;                       (* into_parts, finalize *)
  recorded : AdviceProvider -> AdviceInputs                         (* finalize of the recorder *)
}.

(** The value a list of entries leaves under a key, the last one winning. *)
Definition last_entry {K V} `{EqDecision K} (es : list (K * V)) (k : K) : option V :=
  snd <$> find (fun e => bool_decide (fst e = k)) (rev es).

Class AdviceLaws `(A : Advice) : Prop := {
  AdviceMap_get_default (k : Digest) : AdviceMap_get AdviceMap_default k = None;
  AdviceMap_get_insert (m : AdviceMap) (k : Digest) (v : list Felt) (k' : Digest) :
    AdviceMap_get (AdviceMap_insert m k v) k' = if decide (k = k') then Some v else AdviceMap_get m k';
  AdviceMap_entries_spec (m : AdviceMap) (k : Digest) : last_entry (AdviceMap_entries m) k = AdviceMap_get m k;

  default_stack : advice_stack AdviceInputs_default = [];
  default_values (k : Digest) : advice_values AdviceInputs_default k = None;
  stack_extend_stack (a : AdviceInputs) (xs : list Felt) :
    advice_stack (extend_stack a xs) = advice_stack a ++ xs;
  values_extend_stack (a : AdviceInputs) (xs : list Felt) (k : Digest) :
    advice_values (extend_stack a xs) k = advice_values a k;
  nodes_extend_stack (a : AdviceInputs) (xs : list Felt) (n : InnerNodeInfo) :
    advice_nodes (extend_stack a xs) n <-> advice_nodes a n;
  stack_extend_map (a : AdviceInputs) (es : list (Digest * list Felt)) :
    advice_stack (extend_map a es) = advice_stack a;
  values_extend_map (a : AdviceInputs) (es : list (Digest * list Felt)) (k : Digest) :
    advice_values (extend_map a es) k = match last_entry es k with Some v => Some v | None => advice_values a k end;
  nodes_extend_map (a : AdviceInputs) (es : list (Digest * list Felt)) (n : InnerNodeInfo) :
    advice_nodes (extend_map a es) n <-> advice_nodes a n;
  stack_extend_store (a : AdviceInputs) (ns : list InnerNodeInfo) :
    advice_stack (extend_merkle_store a ns) = advice_stack a;
  values_extend_store (a : AdviceInputs) (ns : list InnerNodeInfo) (k : Digest) :
    advice_values (extend_merkle_store a ns) k = advice_values a k;
  nodes_extend_store (a : AdviceInputs) (ns : list InnerNodeInfo) (n : InnerNodeInfo) :
    advice_nodes (extend_merkle_store a ns) n <-> advice_nodes a n \/ n ∈ ns;

  provider_values (a : AdviceInputs) (k : Digest) : get_mapped_values (provider_of a) k = advice_values a k;
  provider_map_values (p : AdviceProvider) (k : Digest) : AdviceMap_get (provider_map p) k = get_mapped_values p k
}.

(** [AdviceMap::extend]. *)
Definition AdviceMap_extend `{A : Advice} (m : AdviceMap) (es : list (Digest * list Felt)) : AdviceMap :=
  foldl (fun m e => AdviceMap_insert m e.1 e.2) m es.

(** ** Linking

    What the source matches on of a [CodeBlock]; the hash of a call, and whether it is
    one of the kernel, are data of the block. *)
Inductive BlockTree `{Field} :=
| Join (first second : BlockTree)
| Split (on_true on_false : BlockTree)
| Loop (body : BlockTree)
| Call (fn_hash : Digest) (is_syscall : bool)
| Span
| Proxy
| Dyn.

Class Linker `{P : Programs} := {
  block_tree : CodeBlock -> BlockTree;
  AssemblyContext : Type;
  AssemblyContext_new : AssemblyContext;             (* for_program(None) *)
  compile_with : Assembler -> ProgramAst -> mut AssemblyContext AssemblyError CodeBlock;
  CodeBlockTable : Type;
  build_cb_table : Assembler -> AssemblyContext -> res AssemblyError CodeBlockTable;
  cb_insert : CodeBlockTable -> CodeBlock -> CodeBlockTable;
  cb_get : CodeBlockTable -> Digest -> option CodeBlock;
  Program : Type;
  program_with_kernel : CodeBlock -> Assembler -> CodeBlockTable -> Program;   (* the kernel of the assembler *)
  program_main : Program -> CodeBlock;
  program_table : Program -> CodeBlockTable;
  ProgramInfo : Type;
  ProgramInfo_new : Digest -> Assembler -> ProgramInfo;

  (* miden-lib, from its Miden assembly: the assembler with the kernel, and the main program *)
  kernel_assembler : Assembler;
  kernel_main : res DeserializationError ProgramAst
}.

Class LinkerLaws `(L : Linker) : Prop := {
  cb_get_insert (t : CodeBlockTable) (b : CodeBlock) (h : Digest) :
    cb_get (cb_insert t b) h = if decide (code_block_hash b = h) then Some b else cb_get t h;
  program_main_with (m : CodeBlock) (a : Assembler) (t : CodeBlockTable) : program_main (program_with_kernel m a t) = m;
  program_table_with (m : CodeBlock) (a : Assembler) (t : CodeBlockTable) : program_table (program_with_kernel m a t) = t;
  compile_with_total (a : Assembler) (p : ProgramAst) (ctx : AssemblyContext) : snd (compile_with a p ctx) <> Panic;
  build_cb_table_total (a : Assembler) (ctx : AssemblyContext) : build_cb_table a ctx <> Panic;
  kernel_main_ok : exists ast b, kernel_main = Ok ast /\ compile_in_context kernel_assembler ast = Ok b
}.

(** What the build of miden-lib makes of its assembly code, the parser of modules,
    the keys of the signature scheme and the random generator of the serial numbers
    of notes. *)
Class MidenLib `{L : Linker} := {
  P2ID_masb : list Z;
  P2IDR_masb : list Z;
  SWAP_masb : list Z;
  get_module_ast : string -> option ModuleAst;
  ParsingError : Type;
  ModuleAst_parse : string -> res ParsingError ModuleAst;
  AssemblyError_from : ParsingError -> AssemblyError;
  PublicKey : Type;
  word_of_public_key : PublicKey -> Word;
  FeltRng : Type;
  draw_word : FeltRng -> FeltRng * Word
}.

(** ** Execution

    A program changes its host through the calls it makes, up to one the host
    refuses. A proof of a program is of its inputs and outputs. *)
Class Processor `{VA : VmAdvice} `{S : @Stacks F} `{L : @Linker F AS P} := {
  execute {H} : (ProcessState * HostCall -> mut H ExecutionError HostResponse) ->
    Program -> StackInputs -> mut H ExecutionError StackOutputs;
  ExecutionProof : Type;
  proof_codec : Codec ExecutionProof;
  prove {H} : (ProcessState * HostCall -> mut H ExecutionError HostResponse) ->
    Program -> StackInputs -> mut H ExecutionError (StackOutputs * ExecutionProof);
  VerificationError : Type;
  verify : ProgramInfo -> StackInputs -> StackOutputs -> ExecutionProof -> res VerificationError Z
}.

Class ProcessorLaws `(PR : Processor) : Prop := {
  execute_drives {H} (host : ProcessState * HostCall -> mut H ExecutionError HostResponse) p si h h' r :
    execute host p si h = (h', r) -> exists calls, fst (drive host calls h) = h' /\
      (is_ok r = true -> drive host calls h = (h', Ok tt));
  prove_executes {H} (host : ProcessState * HostCall -> mut H ExecutionError HostResponse) p si h :
    fst (prove host p si h) = fst (execute host p si h) /\
    res_map fst (snd (prove host p si h)) = snd (execute host p si h);
  proof_round_trip : round_trips proof_codec (fun _ => True);
  verify_total info si so pf : verify info si so pf <> Panic
}.

(** ** Instances *)

Import RefInstances.

Fixpoint ref_group {E} (xs : list Felt) : res E (list Word) :=
  match xs with
  | [] => Ok []
  | a :: b :: c :: d :: xs' => ws ← ref_group xs'; Ok (mkWord a b c d :: ws)
  | _ => Panic
  end.

#[local] Instance RefStacks : Stacks := {
  InputError := unit;
  StackInputs := list Felt;
  StackInputs_new vs := if decide (length vs <= 16)%nat then Ok (rev vs) else Err tt;
  input_stack si := si;
  OutputError := unit;
  StackOutputs := list Felt;
  StackOutputs_new vs _ := Ok vs;
  output_stack so := resize (length so `max` 16) ZERO so;
  get_output_word so i :=
    match take 4 (drop i (resize (length so `max` 16) ZERO so)) with
    | [d; c; b; a] => Some (mkWord a b c d)
    | _ => None
    end;
  group_slice_elements := @ref_group
}.

Lemma ref_group_panics {E} (n : nat) (xs : list Felt) : (length xs < n)%nat -> (length xs mod 4 <> 0)%nat ->
  ref_group (E := E) xs = Panic.
Proof.
  revert xs. induction n as [|n IH]; intros xs Hn; [lia|]. intros Hm.
  destruct xs as [|a [|b [|c [|d xs]]]]; [by destruct Hm|reflexivity..|]. cbn [length] in *. cbn [ref_group]. rewrite IH; [done|lia|].
  intros H0. apply Hm. replace (S (S (S (S (length xs))))) with (length xs + 1 * 4)%nat by lia.
  by rewrite Nat.Div0.mod_add.
Qed.

#[local] Instance RefStacksLaws : StacksLaws RefStacks.
Proof.
  split.
  - intros vs Hl. exists (rev vs). cbn. by rewrite decide_True.
  - intros vs Hl. exists vs. split; [done|]. cbn [output_stack RefStacks]. by rewrite Nat.max_r.
  - intros so. cbn [output_stack RefStacks]. rewrite length_resize. lia.
  - intros so i a b c d H. cbn [output_stack get_output_word RefStacks] in *. by rewrite H.
  - intros E ws. cbn [group_slice_elements RefStacks]. induction ws as [|[a b c d] ws IH]; [done|].
    cbn [map concat word_elements app ref_group w0 w1 w2 w3]. by rewrite IH.
  - intros E xs H. apply (ref_group_panics (S (length xs))); [lia|done].
Qed.

(** A map of advice is the list of its entries, the oldest last; a provider made of
    inputs knows the nodes of no tree. *)
Record RefInputs := mkRefInputs {
  ri_stack : list Felt; ri_map : list (Word * list Felt); ri_nodes : list (Word * Word * Word) }.

Definition ref_lookup (es : list (Word * list Felt)) (k : Word) : option (list Felt) :=
  snd <$> find (fun e => bool_decide (fst e = k)) es.

#[local] Instance RefAdviceInputs : Advice := {
  AdviceMap := list (Word * list Felt);
  AdviceMap_default := [];
  AdviceMap_get := ref_lookup;
  AdviceMap_insert m k v := (k, v) :: m;
  AdviceMap_entries m := rev m;
  AdviceInputs := RefInputs;
  AdviceInputs_default := mkRefInputs [] [] [];
  extend_stack a xs := mkRefInputs (ri_stack a ++ xs) (ri_map a) (ri_nodes a);
  extend_map a es := mkRefInputs (ri_stack a) (rev es ++ ri_map a) (ri_nodes a);
  extend_merkle_store a ns := mkRefInputs (ri_stack a) (ri_map a) (ns ++ ri_nodes a);
  advice_stack := ri_stack;
  advice_values a := ref_lookup (ri_map a);
  advice_nodes a n := n ∈ ri_nodes a;
  provider_of a := mkRefAdvice (ri_map a) (fun _ _ _ => None) (ri_stack a);
  provider_map p := ref_map p;
  recorded p := mkRefInputs (ref_stack p) (ref_map p) []
}.

Lemma ref_lookup_app es es' k :
  ref_lookup (es ++ es') k = match ref_lookup es k with Some v => Some v | None => ref_lookup es' k end.
Proof.
  unfold ref_lookup. induction es as [|e es IH]; cbn [app find]; [done|]. by case_bool_decide.
Qed.

#[local] Instance RefAdviceLaws : AdviceLaws RefAdviceInputs.
Proof.
  split; try done; cbn.
  - intros m k v k'. unfold ref_lookup. cbn. case_decide as Hk.
    + by rewrite bool_decide_true.
    + by rewrite bool_decide_false.
  - intros m k. unfold last_entry. by rewrite rev_involutive.
  - intros a es k. apply ref_lookup_app.
  - intros a ns n. set_solver.
Qed.

(** What a program calls is given; by default its own hash. *)
Definition RefLinkerOf (tree : Word -> BlockTree) : Linker := {|
  block_tree := tree;
  AssemblyContext := unit;
  AssemblyContext_new := tt;
  compile_with a p ctx := (ctx, compile_in_context a p);
  CodeBlockTable := list Word;
  build_cb_table _ _ := Ok [];
  cb_insert t b := b :: t;
  cb_get t h := find (fun b => bool_decide (b = h)) t;
  Program := Word * list Word;
  program_with_kernel m _ t := (m, t);
  program_main := fst;
  program_table := snd;
  ProgramInfo := Word;
  ProgramInfo_new h _ := h;
  kernel_assembler := tt;
  kernel_main := Ok []
|}.

#[local] Instance RefLinker : Linker := RefLinkerOf (fun b => Call b false).

Lemma RefLinkerOfLaws tree : LinkerLaws (RefLinkerOf tree).
Proof.
  split; try done.
  - intros t b h. cbn. case_decide as Hb; [subst; by rewrite bool_decide_true|by rewrite bool_decide_false].
  - by exists [], (ref_hash []).
Qed.
#[local] Instance RefLinkerLaws : LinkerLaws RefLinker := RefLinkerOfLaws _.

(** Modules have one procedure; the note scripts are different programs, and the
    words drawn count up. *)
Definition ref_script (code : Z) : list Z := to_le_bytes 4 1 ++ [code].
#[local] Instance RefMidenLib : MidenLib := {
  P2ID_masb := ref_script 1;
  P2IDR_masb := ref_script 2;
  SWAP_masb := ref_script 3;
  get_module_ast _ := Some [mkWord ONE ONE ONE ONE];
  ParsingError := unit;
  ModuleAst_parse _ := Ok [mkWord ONE ONE ONE ONE];
  AssemblyError_from e := e;
  PublicKey := Word;
  word_of_public_key k := k;
  FeltRng := Z;
  draw_word n := (n + 1, mkWord (Felt_new n) ZERO ZERO ZERO)
}.

(** The processor that makes the given calls and leaves the given stack. A proof is
    the list of the inputs and outputs. *)
Definition ref_execute (calls : list (ProcessState * HostCall)) (outputs : list Felt) {H}
    (host : ProcessState * HostCall -> mut H ExecutionError HostResponse) : mut H ExecutionError StackOutputs :=
  _ ← drive host calls; mret outputs.


Definition RefProcessor (calls : list (ProcessState * HostCall)) (outputs : list Felt) : Processor := {|
  execute H host p si := ref_execute calls outputs host;
  ExecutionProof := Z;
  proof_codec := {| write_into v := Ok [v];
    read_from src := match src with v :: src' => (src', Ok v) | [] => (src, Err UnexpectedEOF) end |};
  prove H host p si := (so ← ref_execute calls outputs host; mret (so, 96));
  VerificationError := unit;
  verify info si so pf := if decide (so = outputs) then Ok pf else Err tt
|}.

Lemma RefProcessorLaws calls outputs : ProcessorLaws (RefProcessor calls outputs).
Proof.
  split.
  - intros H host p si h h' r Hrun. exists calls. cbn [execute RefProcessor] in Hrun. unfold ref_execute in Hrun.
    unfold mbind, mut_bind in Hrun. destruct (drive host calls h) as [h1 [[]| |]]; injection Hrun as <- <-; done.
  - intros H host p si h. cbn [execute prove RefProcessor]. unfold ref_execute, mbind, mut_bind.
    by destruct (drive host calls h) as [h1 [[]| |]].
  - apply round_trip_intro. intros v _. by exists [v].
  - intros info si so pf. cbn [verify RefProcessor]. by case_decide.
Qed.

(** [Import RefMachine] makes the instances above the ones resolution finds. *)
Module RefMachine.
#[export] Existing Instance RefStacks.
#[export] Existing Instance RefStacksLaws.
#[export] Existing Instance RefAdviceInputs.
#[export] Existing Instance RefAdviceLaws.
#[export] Existing Instance RefLinker.
#[export] Existing Instance RefLinkerLaws.
#[export] Existing Instance RefMidenLib.
End RefMachine.
