(* ===== verification/Transactions.v ===== *)
(** transaction/transaction_id.rs, tx_args.rs, prepared_tx.rs, tx_witness.rs,
    executed_tx.rs and proven_tx.rs: the arguments of a transaction, its identifier,
    and what it is before and after execution and proof. *)
From S2P Require Import Prelude Interfaces Types Reference BTree AccountIds Assets NoteMeta NoteContents Notes Blocks Chain.
From S2P Require Import Vault Storage Delta Code Account Outputs Inputs Machine.
Local Open Scope Z_scope.

(** ** Identifiers (transaction_id.rs) *)

Section id.
Context `{F : Field} {C : Crypto} {IO : ByteIO}.

Record TransactionId := mkTransactionId { tx_id_digest : Digest }.

(** The array of sixteen elements is filled by the four digests. *)
Definition transaction_id_new (init_account_hash final_account_hash input_notes_hash output_notes_hash : Digest)
    : TransactionId :=
  mkTransactionId (hash_elements (word_elements init_account_hash ++ word_elements final_account_hash ++
                                  word_elements input_notes_hash ++ word_elements output_notes_hash)).

(** The digest is serialized first and its bytes are then written. *)
Definition transaction_id_codec : Codec TransactionId := {|
  write_into self := bytes ← write_into digest_codec (tx_id_digest self); write_bytes bytes;
  read_from := id ← read_from digest_codec; mret (mkTransactionId id)
|}.
End id.
Arguments TransactionId : clear implicits.
Arguments TransactionId {_}.

(** ** Arguments (tx_args.rs) *)

Section args.
Context `{F : Field} {C : Crypto} {AS : Assembly} {P : Programs} {MK : Merkle} {V : Vm} {A : Advice}.

(** errors.rs *)
Inductive TransactionScriptError := ScriptCompilationError (e : AssemblyError).

Record TransactionScript := mkTransactionScript {
  ts_code : ProgramAst; ts_hash : Digest; ts_inputs : list (Digest * list Felt) }.

(** Collecting the inputs into a [BTreeMap]. *)
Definition collect_inputs (inputs : list (Word * list Felt)) : list (Digest * list Felt) :=
  foldl (fun m e => btree_insert digest_cmp m e.1 e.2) [] inputs.

Definition tx_script_new (code : ProgramAst) (inputs : list (Word * list Felt)) (assembler : Assembler)
    : res TransactionScriptError (TransactionScript * CodeBlock) :=
  code_block ← map_err ScriptCompilationError (compile_in_context assembler code);
  Ok (mkTransactionScript code (code_block_hash code_block) (collect_inputs inputs), code_block).

Definition tx_script_from_parts (code : ProgramAst) (hash : Digest) (inputs : list (Word * list Felt))
    : res TransactionScriptError TransactionScript :=
  Ok (mkTransactionScript code hash (collect_inputs inputs)).

Record TransactionArgs := mkTransactionArgs {
  ta_tx_script : option TransactionScript; ta_note_args : list (NoteId * Word); ta_advice_map : AdviceMap }.

Definition tx_args_new (tx_script : option TransactionScript) (note_args : option (list (NoteId * Word)))
    (advice_map : AdviceMap) : TransactionArgs :=
  let advice_map := match tx_script with
    | Some tx_script => AdviceMap_extend advice_map (ts_inputs tx_script)
    | None => advice_map
    end in
  mkTransactionArgs tx_script (default [] note_args) advice_map.

Definition with_tx_script (tx_script : TransactionScript) : TransactionArgs :=
  tx_args_new (Some tx_script) (Some []) AdviceMap_default.
Definition with_note_args (note_args : list (NoteId * Word)) : TransactionArgs :=
  tx_args_new None (Some note_args) AdviceMap_default.
Definition tx_args_default : TransactionArgs := mkTransactionArgs None [] AdviceMap_default.

Definition add_expected_output_note (note : Note) (self : TransactionArgs) : TransactionArgs :=
  let recipient := note_recipient note in
  let inputs := nr_inputs recipient in
  let script := nr_script recipient in
  let script_encoded := felts_of_note_script script in
  let inputs_key := commitment_to_key (ni_hash inputs) in
  let m := AdviceMap_insert (ta_advice_map self) (nr_digest recipient) (recipient_to_elements recipient) in
  let m := AdviceMap_insert m inputs_key (ni_values inputs) in
  let m := AdviceMap_insert m (ns_hash script) script_encoded in
  mkTransactionArgs (ta_tx_script self) (ta_note_args self) m.

Definition extend_expected_output_notes (notes : list Note) (self : TransactionArgs) : TransactionArgs :=
  foldl (fun self note => add_expected_output_note note self) self notes.

Definition get_note_args (self : TransactionArgs) (note_id : NoteId) : option Word :=
  btree_get (ta_note_args self) note_id.
End args.
Arguments TransactionScriptError : clear implicits.
Arguments TransactionScriptError {_ _}.
Arguments TransactionScript : clear implicits.
Arguments TransactionScript {_ _ _}.
Arguments TransactionArgs : clear implicits.
Arguments TransactionArgs {_ _ _ _ _ _ _}.

(** ** Before and after execution *)

Section executed.
Context `{F : Field} {C : Crypto} {AS : Assembly} {P : Programs} {MK : Merkle} {V : Vm} {A : Advice} {L : Linker}.

(** transaction/outputs.rs *)
Record TransactionOutputs := mkTransactionOutputs { to_account : AccountStub; to_output_notes : OutputNotes }.

(** prepared_tx.rs *)
Record PreparedTransaction := mkPrepared {
  pr_program : Program; pr_inputs : TransactionInputs; pr_args : TransactionArgs }.

(** tx_witness.rs *)
Record TransactionWitness := mkTxWitness {
  wi_program : Program; wi_inputs : TransactionInputs; wi_args : TransactionArgs; wi_advice : AdviceInputs }.

(** executed_tx.rs; the identifier is computed when it is first asked for. *)
Record ExecutedTransaction := mkExecuted {
  ex_id : option TransactionId; ex_program : Program; ex_inputs : TransactionInputs;
  ex_outputs : TransactionOutputs; ex_delta : AccountDelta; ex_args : TransactionArgs; ex_advice : AdviceInputs }.

Definition executed_new {E} (program : Program) (tx_inputs : TransactionInputs) (tx_outputs : TransactionOutputs)
    (account_delta : AccountDelta) (tx_args : TransactionArgs) (advice_witness : AdviceInputs)
    : res E ExecutedTransaction :=
  _ ← assert_ (bool_decide (acc_id (ti_account tx_inputs) = stub_id (to_account tx_outputs)));
  Ok (mkExecuted None program tx_inputs tx_outputs account_delta tx_args advice_witness).

(** [From<&ExecutedTransaction>] of [TransactionId]. *)
Definition id_of_executed (tx : ExecutedTransaction) : TransactionId :=
  let input_notes_hash := is_commitment (ti_input_notes (ex_inputs tx)) in
  let output_notes_hash := on_commitment (to_output_notes (ex_outputs tx)) in
  transaction_id_new (proof_init_hash (ti_account (ex_inputs tx))) (stub_hash (to_account (ex_outputs tx)))
    input_notes_hash output_notes_hash.

Definition executed_id {E} : mut ExecutedTransaction E TransactionId :=
  self ← read_self;
  match ex_id self with
  | Some id => mret id
  | None =>
      let id := id_of_executed self in
      _ ← write_self (mkExecuted (Some id) (ex_program self) (ex_inputs self) (ex_outputs self) (ex_delta self)
                        (ex_args self) (ex_advice self));
      mret id
  end.

Definition executed_into_parts (self : ExecutedTransaction)
    : AccountDelta * TransactionOutputs * TransactionWitness :=
  (ex_delta self, ex_outputs self, mkTxWitness (ex_program self) (ex_inputs self) (ex_args self) (ex_advice self)).

(** [From<ExecutedTransaction>] of [TransactionWitness]. *)
Definition witness_of_executed (tx : ExecutedTransaction) : TransactionWitness :=
  let '(_, _, tx_witness) := executed_into_parts tx in tx_witness.
End executed.
Arguments TransactionOutputs : clear implicits.
Arguments TransactionOutputs {_ _ _}.
Arguments PreparedTransaction : clear implicits.
Arguments PreparedTransaction {_ _ _ _ _ _ _ _}.
Arguments TransactionWitness : clear implicits.
Arguments TransactionWitness {_ _ _ _ _ _ _ _}.
Arguments ExecutedTransaction : clear implicits.
Arguments ExecutedTransaction {_ _ _ _ _ _ _ _}.

(** ** Proven transactions (proven_tx.rs) *)

Section proven.
Context `{F : Field} {C : Crypto} {MK : Merkle} {AS : Assembly} {P : Programs} {V : Vm} {VA : VmAdvice}
  {S : Stacks} {L : Linker} {PR : Processor} {FE : Features} {D : Display} {B : Build} {IO : ByteIO}.

Inductive AccountDetails :=
| Full (account : Account)
| Delta (delta : AccountDelta).

(** errors.rs *)
Inductive ProvenTransactionError :=
| AccountFinalHashMismatch (tx_final_hash details_hash : Digest)
| AccountIdMismatch (tx_id details_id : AccountId)
| InputNotesError (e : TransactionInputError)
| NoteDetailsForUnknownNotes (ids : list NoteId)
| OffChainAccountWithDetails (id : AccountId)
| OnChainAccountMissingDetails (id : AccountId)
| NewOnChainAccountRequiresFullDetails (id : AccountId)
| ExistingOnChainAccountRequiresDeltaDetails (id : AccountId)
| OutputNotesError (e : TransactionOutputError).

(** [Display]; of an identifier ({:016x} of its integer) its hexadecimal text. *)
Definition display_account_id (self : AccountId) : string := to_hex self.
Definition display_proven_error (self : ProvenTransactionError) : string :=
  match self with
  | AccountFinalHashMismatch account_final_hash details_hash =>
      "Proven transaction account_final_hash " +:+ to_string account_final_hash +:+
      " and account_details.hash must match " +:+ to_string details_hash +:+ "."
  | AccountIdMismatch tx_id details_id =>
      "Proven transaction account_id " +:+ display_account_id tx_id +:+
      " and account_details.id must match " +:+ display_account_id details_id +:+ "."
  | InputNotesError inner => "Invalid input notes: " +:+ to_string inner
  | NoteDetailsForUnknownNotes note_ids => "Note details for unknown note ids: " +:+ to_string note_ids
  | OffChainAccountWithDetails account_id =>
      "Off-chain account " +:+ display_account_id account_id +:+ " should not have account details"
  | OnChainAccountMissingDetails account_id =>
      "On-chain account " +:+ display_account_id account_id +:+ " missing account details"
  | OutputNotesError inner => "Invalid output notes: " +:+ to_string inner
  | NewOnChainAccountRequiresFullDetails account_id =>
      "New on-chain account " +:+ display_account_id account_id +:+ " missing full details"
  | ExistingOnChainAccountRequiresDeltaDetails account_id =>
      "Existing on-chain account " +:+ display_account_id account_id +:+ " should only provide deltas"
  end.

Record ProvenTransaction := mkProven {
  pt_id : TransactionId; pt_account_id : AccountId; pt_initial_account_hash : Digest;
  pt_final_account_hash : Digest; pt_account_details : option AccountDetails;
  pt_input_notes : InputNotes Nullifier; pt_output_notes : OutputNotes; pt_tx_script_root : option Digest;
  pt_block_ref : Digest; pt_proof : ExecutionProof }.

Definition validate (self : ProvenTransaction) : res ProvenTransactionError ProvenTransaction :=
  on_chain ← is_on_chain (pt_account_id self);
  if decide (on_chain = false /\ is_Some (pt_account_details self))
  then Err (OffChainAccountWithDetails (pt_account_id self))
  else if on_chain : bool then
    match pt_account_details self with
    | None => Err (OnChainAccountMissingDetails (pt_account_id self))
    | Some details =>
        let is_new_account := bool_decide (pt_initial_account_hash self = EMPTY_WORD) in
        match is_new_account, details with
        | true, Delta _ => Err (NewOnChainAccountRequiresFullDetails (pt_account_id self))
        | true, Full account =>
            if decide (acc_id account <> pt_account_id self)
            then Err (AccountIdMismatch (pt_account_id self) (acc_id account))
            else if decide (account_hash account <> pt_final_account_hash self)
            then Err (AccountFinalHashMismatch (pt_final_account_hash self) (account_hash account))
            else Ok self
        | false, Full _ => Err (ExistingOnChainAccountRequiresDeltaDetails (pt_account_id self))
        | false, Delta _ => Ok self
        end
    end
  else Ok self.

(** [From<&ProvenTransaction>] of [TransactionId]. *)
Definition id_of_proven (tx : ProvenTransaction) : TransactionId :=
  transaction_id_new (pt_initial_account_hash tx) (pt_final_account_hash tx)
    (is_commitment (pt_input_notes tx)) (on_commitment (pt_output_notes tx)).

(** *** The builder *)

Record ProvenTransactionBuilder := mkBuilder {
  pb_account_id : AccountId; pb_initial_account_hash : Digest; pb_final_account_hash : Digest;
  pb_account_details : option AccountDetails; pb_input_notes : list Nullifier; pb_output_notes : list OutputNote;
  pb_tx_script_root : option Digest; pb_block_ref : Digest; pb_proof : ExecutionProof }.

Definition builder_new (account_id : AccountId) (initial_account_hash final_account_hash block_ref : Digest)
    (proof : ExecutionProof) : ProvenTransactionBuilder :=
  mkBuilder account_id initial_account_hash final_account_hash None [] [] None block_ref proof.

Definition builder_account_details (account_details : AccountDetails) (b : ProvenTransactionBuilder) :=
  mkBuilder (pb_account_id b) (pb_initial_account_hash b) (pb_final_account_hash b) (Some account_details)
    (pb_input_notes b) (pb_output_notes b) (pb_tx_script_root b) (pb_block_ref b) (pb_proof b).

Definition add_input_notes (notes : list Nullifier) (b : ProvenTransactionBuilder) :=
  mkBuilder (pb_account_id b) (pb_initial_account_hash b) (pb_final_account_hash b) (pb_account_details b)
    (pb_input_notes b ++ notes) (pb_output_notes b) (pb_tx_script_root b) (pb_block_ref b) (pb_proof b).

Definition add_output_notes (notes : list OutputNote) (b : ProvenTransactionBuilder) :=
  mkBuilder (pb_account_id b) (pb_initial_account_hash b) (pb_final_account_hash b) (pb_account_details b)
    (pb_input_notes b) (pb_output_notes b ++ notes) (pb_tx_script_root b) (pb_block_ref b) (pb_proof b).

Definition builder_tx_script_root (tx_script_root : Digest) (b : ProvenTransactionBuilder) :=
  mkBuilder (pb_account_id b) (pb_initial_account_hash b) (pb_final_account_hash b) (pb_account_details b)
    (pb_input_notes b) (pb_output_notes b) (Some tx_script_root) (pb_block_ref b) (pb_proof b).

Definition build (self : ProvenTransactionBuilder) : res ProvenTransactionError ProvenTransaction :=
  let account_details := pb_account_details self in
  input_notes ← map_err InputNotesError (input_notes_new (pb_input_notes self));
  output_notes ← map_err OutputNotesError (output_notes_new (pb_output_notes self));
  let tx_script_root := pb_tx_script_root self in
  let id := transaction_id_new (pb_initial_account_hash self) (pb_final_account_hash self)
              (is_commitment input_notes) (on_commitment output_notes) in
  let proven_transaction :=
    mkProven id (pb_account_id self) (pb_initial_account_hash self) (pb_final_account_hash self) account_details
      input_notes output_notes tx_script_root (pb_block_ref self) (pb_proof self) in
  validate proven_transaction.

(** *** Serialization *)

Definition account_details_codec : Codec AccountDetails := {|
  write_into self :=
    match self with
    | Full account => write_into u8_codec 0 +w+ write_into account_codec account
    | Delta delta => write_into u8_codec 1 +w+ write_into account_delta_codec delta
    end;
  read_from :=
    v ← read_from u8_codec;
    if decide (v = 0) then account ← read_from account_codec; mret (Full account)
    else if decide (v = 1) then delta ← read_from account_delta_codec; mret (Delta delta)
    else lift (Err (InvalidValue (to_string v)))
|}.

Definition proven_codec : Codec ProvenTransaction := {|
  write_into self :=
    write_into account_id_codec (pt_account_id self) +w+
    write_into digest_codec (pt_initial_account_hash self) +w+
    write_into digest_codec (pt_final_account_hash self) +w+
    write_into (option_codec account_details_codec) (pt_account_details self) +w+
    write_into input_notes_codec (pt_input_notes self) +w+
    write_into output_notes_codec (pt_output_notes self) +w+
    write_into (option_codec digest_codec) (pt_tx_script_root self) +w+
    write_into digest_codec (pt_block_ref self) +w+
    write_into proof_codec (pt_proof self);
  read_from :=
    account_id ← read_from account_id_codec;
    initial_account_hash ← read_from digest_codec;
    final_account_hash ← read_from digest_codec;
    account_details ← read_from (option_codec account_details_codec);
    input_notes ← read_from input_notes_codec;
    output_notes ← read_from output_notes_codec;
    tx_script_root ← read_from (option_codec digest_codec);
    block_ref ← read_from digest_codec;
    proof ← read_from proof_codec;
    let id := transaction_id_new initial_account_hash final_account_hash
                (is_commitment input_notes) (on_commitment output_notes) in
    let proven_transaction :=
      mkProven id account_id initial_account_hash final_account_hash account_details
        input_notes output_notes tx_script_root block_ref proof in
    lift (map_err (fun err => InvalidValue (display_proven_error err)) (validate proven_transaction))
|}.
End proven.

(** ** Specification *)

Section spec.
Context `{F : Field} {C : Crypto} {MK : Merkle} {AS : Assembly} {P : Programs} {V : Vm} {VA : VmAdvice}
  {S : Stacks} {L : Linker} {PR : Processor} {FE : Features} {D : Display} {B : Build} {IO : ByteIO}.

Definition on_chain_id (id : AccountId) : Prop := storage_bits (as_int (id_felt id)) = ON_CHAIN.
#[export] Instance on_chain_id_dec id : Decision (on_chain_id id).
Proof. unfold on_chain_id. apply _. Defined.

(** The details a transaction on an account must carry: the whole account if it is
    new and on chain, a delta if it is on chain and not new, none off chain. *)
Definition details_fit (id : AccountId) (initial final : Digest) (details : option AccountDetails) : Prop :=
  if decide (storage_bits (as_int (id_felt id)) = ON_CHAIN) then
    match details with
    | Some (Full a) => initial = EMPTY_WORD /\ acc_id a = id /\ account_hash a = final
    | Some (Delta _) => initial <> EMPTY_WORD
    | None => False
    end
  else details = None.

(** Why the details of a transaction are refused. *)
Definition details_fault (id : AccountId) (initial final : Digest) (details : option AccountDetails)
    (e : ProvenTransactionError) : Prop :=
  match e with
  | OffChainAccountWithDetails i => i = id /\ ~ on_chain_id id /\ is_Some details
  | OnChainAccountMissingDetails i => i = id /\ on_chain_id id /\ details = None
  | NewOnChainAccountRequiresFullDetails i =>
      i = id /\ on_chain_id id /\ initial = EMPTY_WORD /\ exists d, details = Some (Delta d)
  | ExistingOnChainAccountRequiresDeltaDetails i =>
      i = id /\ on_chain_id id /\ initial <> EMPTY_WORD /\ exists a, details = Some (Full a)
  | AccountIdMismatch i j =>
      i = id /\ on_chain_id id /\ exists a, details = Some (Full a) /\ j = acc_id a /\ j <> i
  | AccountFinalHashMismatch h g =>
      h = final /\ on_chain_id id /\ exists a, details = Some (Full a) /\ acc_id a = id /\ g = account_hash a /\ g <> h
  | _ => False
  end.

Definition build_fault (b : ProvenTransactionBuilder) (e : ProvenTransactionError) : Prop :=
  match e with
  | InputNotesError e => input_notes_new (pb_input_notes b) = Err e
  | OutputNotesError e => output_notes_new (pb_output_notes b) = Err e
  | _ => details_fault (pb_account_id b) (pb_initial_account_hash b) (pb_final_account_hash b)
           (pb_account_details b) e
  end.

(** A transaction the builder and the reader make. *)
Definition proven_wf (tx : ProvenTransaction) : Prop :=
  pt_id tx = id_of_proven tx /\
  details_fit (pt_account_id tx) (pt_initial_account_hash tx) (pt_final_account_hash tx) (pt_account_details tx) /\
  input_notes_wf (pt_input_notes tx) /\ output_notes_wf (pt_output_notes tx).

(** Details that serialization preserves. *)
Definition details_ok (d : AccountDetails) : Prop :=
  match d with
  | Full a => account_encodable a
  | Delta d => account_delta_typed d /\ account_delta_sized d /\ account_delta_valid d
  end.

Definition proven_encodable (tx : ProvenTransaction) : Prop :=
  AccountId_valid (pt_account_id tx) /\ proven_wf tx /\ (forall d, pt_account_details tx = Some d -> details_ok d) /\
  Forall output_note_ok (on_notes (pt_output_notes tx)).

(** A transaction that is written, and the details that come back: an account comes back
    but for the types of its empty slots. *)
Definition details_writable (d : AccountDetails) : Prop :=
  match d with
  | Full a => account_writable a
  | Delta d => account_delta_typed d /\ account_delta_sized d /\ account_delta_valid d
  end.
Definition proven_writable (tx : ProvenTransaction) : Prop :=
  AccountId_valid (pt_account_id tx) /\ proven_wf tx /\
  (forall d, pt_account_details tx = Some d -> details_writable d) /\
  Forall output_note_writable (on_notes (pt_output_notes tx)).
Definition details_read_as (d d' : AccountDetails) : Prop :=
  match d, d' with
  | Full a, Full a' => account_read_as a a'
  | Delta d, Delta d' => d = d'
  | _, _ => False
  end.
Definition with_details (details : option AccountDetails) (tx : ProvenTransaction) : ProvenTransaction :=
  mkProven (pt_id tx) (pt_account_id tx) (pt_initial_account_hash tx) (pt_final_account_hash tx) details
    (pt_input_notes tx) (pt_output_notes tx) (pt_tx_script_root tx) (pt_block_ref tx) (pt_proof tx).

(** The same transaction, up to the representation of the account. *)
Definition details_equiv (d d' : AccountDetails) : Prop :=
  match d, d' with
  | Full a, Full a' => a ≡ a'
  | Delta d, Delta d' => d = d'
  | _, _ => False
  end.
Definition proven_equiv (tx tx' : ProvenTransaction) : Prop :=
  pt_id tx = pt_id tx' /\ pt_account_id tx = pt_account_id tx' /\
  pt_initial_account_hash tx = pt_initial_account_hash tx' /\ pt_final_account_hash tx = pt_final_account_hash tx' /\
  option_Forall2 details_equiv (pt_account_details tx) (pt_account_details tx') /\
  pt_input_notes tx = pt_input_notes tx' /\ pt_output_notes tx = pt_output_notes tx' /\
  pt_tx_script_root tx = pt_tx_script_root tx' /\ pt_block_ref tx = pt_block_ref tx' /\ pt_proof tx = pt_proof tx'.

(** *** What an identifier commits to *)

Definition input_elements (ns : list Nullifier) : list Felt :=
  concat (map (fun n => word_elements (nullifier_digest n) ++ word_elements EMPTY_WORD) ns).
Definition output_words (o : OutputNote) : Word * Word :=
  (note_id_digest (out_id o), word_of_metadata (out_metadata o)).
Definition output_elements (os : list OutputNote) : list Felt :=
  concat (map (fun o => word_elements (output_words o).1 ++ word_elements (output_words o).2) os).
Definition id_elements (tx : ProvenTransaction) : list Felt :=
  word_elements (pt_initial_account_hash tx) ++ word_elements (pt_final_account_hash tx) ++
  word_elements (is_commitment (pt_input_notes tx)) ++ word_elements (on_commitment (pt_output_notes tx)).

(** A hash that coincides with another: two inputs with one hash, or an input with
    the commitment of the empty list. *)
Definition commitments_collide (xs ys : list Felt) : Prop :=
  hash_collision xs ys \/ (xs <> [] /\ hash_elements xs = EMPTY_WORD) \/ (ys <> [] /\ hash_elements ys = EMPTY_WORD).
End spec.

(** ** Lemmas *)

Section lemmas.
Context `{F : Field} {FL : FieldLaws F} {C : Crypto} {SL : SmtLaws C} {SSL : SimpleSmtLaws C} {MK : Merkle}
  {AS : Assembly} {P : Programs} {V : Vm} {VA : VmAdvice} {S : Stacks} {L : Linker} {PR : Processor}
  {FE : Features} {D : Display} {B : Build} {IO : ByteIO}.

Lemma validate_spec tx (Hid : AccountId_valid (pt_account_id tx)) :
  let fit := details_fit (pt_account_id tx) (pt_initial_account_hash tx) (pt_final_account_hash tx)
               (pt_account_details tx) in
  match validate tx with
  | Ok tx' => tx' = tx /\ fit
  | Err e => ~ fit /\ details_fault (pt_account_id tx) (pt_initial_account_hash tx) (pt_final_account_hash tx)
               (pt_account_details tx) e
  | Panic => False
  end.
Proof.
  cbv zeta. unfold validate. rewrite is_on_chain_valid by done. cbn [mbind res_bind]. unfold details_fit, details_fault, on_chain_id.
  destruct (decide (storage_bits (as_int (id_felt (pt_account_id tx))) = ON_CHAIN)) as [Hon|Hoff].
  - rewrite bool_decide_true by done. rewrite decide_False by (intros [? _]; done).
    destruct (pt_account_details tx) as [[a|d]|]; [| |by split; [intros []|]].
    + case_bool_decide as Hnew; [|by split; [tauto|]; eauto].
      destruct (decide (acc_id a = pt_account_id tx)) as [Hida|Hida].
      2:{ rewrite decide_True by done. split; [tauto|]. split; [done|]. split; [done|]. by exists a. }
      rewrite decide_False by tauto.
      destruct (decide (account_hash a = pt_final_account_hash tx)) as [Hh|Hh].
      2:{ rewrite decide_True by done. split; [tauto|]. split; [done|]. split; [done|]. by exists a. }
      by rewrite decide_False by tauto.
    + case_bool_decide as Hnew; [|done]. split; [tauto|]. split_and!; try done. by exists d.
  - rewrite bool_decide_false by done. destruct (pt_account_details tx) as [d|].
    + rewrite decide_True by (split; [done|by eexists]). split; [done|]. split_and!; try done.
    + rewrite decide_False by (intros [_ [? ?]]; done). done.
Qed.

Lemma validate_ok tx (Hid : AccountId_valid (pt_account_id tx)) :
  details_fit (pt_account_id tx) (pt_initial_account_hash tx) (pt_final_account_hash tx) (pt_account_details tx) ->
  validate tx = Ok tx.
Proof.
  intros Hfit. pose proof (validate_spec tx Hid) as Hs. cbv zeta in Hs.
  destruct (validate tx) as [tx'|e|]; [by destruct Hs as [-> _]|by destruct Hs|done].
Qed.

(** What a built transaction is made of. *)
Lemma build_ok b tx (Hid : AccountId_valid (pb_account_id b)) :
  build b = Ok tx ->
  is_notes (pt_input_notes tx) = pb_input_notes b /\ on_notes (pt_output_notes tx) = pb_output_notes b /\
  proven_wf tx /\
  tx = mkProven (pt_id tx) (pb_account_id b) (pb_initial_account_hash b) (pb_final_account_hash b)
         (pb_account_details b) (pt_input_notes tx) (pt_output_notes tx) (pb_tx_script_root b)
         (pb_block_ref b) (pb_proof b).
Proof.
  intros H. unfold build in H. inv_res.
  match goal with H : input_notes_new _ = Ok _ |- _ => apply input_notes_new_ok in H as [Hins Hiwf] end.
  match goal with H : output_notes_new _ = Ok _ |- _ => apply output_notes_new_ok in H as [Houts Howf] end.
  match goal with H : validate ?t = Ok _ |- _ => pose proof (validate_spec t Hid) as Hv; rewrite H in Hv end.
  destruct Hv as [-> Hfit]. split; [exact Hins|]. split; [exact Houts|]. by split_and!.
Qed.

Lemma words_concat_inj {T U} (f g : T -> Word) (f' g' : U -> Word) (xs : list T) (ys : list U) :
  concat (map (fun x => word_elements (f x) ++ word_elements (g x)) xs) =
  concat (map (fun y => word_elements (f' y) ++ word_elements (g' y)) ys) ->
  map (fun x => (f x, g x)) xs = map (fun y => (f' y, g' y)) ys.
Proof.
  revert ys. induction xs as [|x xs IH]; intros [|y ys]; [done|discriminate..|].
  cbn [map concat]. rewrite <- !app_assoc. intros Heq.
  apply word_elements_app_inj in Heq as [-> Heq]. apply word_elements_app_inj in Heq as [-> Heq].
  f_equal. by apply IH.
Qed.

Lemma commitment_binds {T} (f g : T -> Word) (xs ys : list T) :
  let elements l := concat (map (fun x => word_elements (f x) ++ word_elements (g x)) l) in
  let commitment l := match l with [] => EMPTY_WORD | _ => hash_elements (elements l) end in
  commitment xs = commitment ys ->
  map (fun x => (f x, g x)) xs = map (fun x => (f x, g x)) ys \/ commitments_collide (elements xs) (elements ys).
Proof.
  intros elements commitment Heq. destruct xs as [|x xs], ys as [|y ys]; [by left| | |].
  - right. right. right. by split.
  - right. right. left. by split.
  - destruct (hash_equal _ _ Heq) as [He|Hc]; [left|by right; left]. by apply words_concat_inj in He.
Qed.

Lemma input_commitment_binds (ns ns' : list Nullifier) :
  build_input_notes_commitment ns = build_input_notes_commitment ns' ->
  ns = ns' \/ commitments_collide (input_elements ns) (input_elements ns').
Proof.
  intros Heq. destruct (commitment_binds nullifier_digest (fun _ => EMPTY_WORD) ns ns') as [He|Hc].
  - by destruct ns, ns'.
  - left. clear Heq. revert ns' He. induction ns as [|[n] ns IH]; intros [|[n'] ns']; [done..|].
    cbn. intros [= -> He]. f_equal. by apply IH.
  - by right.
Qed.

Lemma output_commitment_binds (os os' : list OutputNote) :
  build_output_notes_commitment os = build_output_notes_commitment os' ->
  map output_words os = map output_words os' \/ commitments_collide (output_elements os) (output_elements os').
Proof.
  intros Heq. apply (commitment_binds (fun o => (output_words o).1) (fun o => (output_words o).2)).
  by destruct os, os'.
Qed.

Lemma output_commitment_words (os : list OutputNote) :
  build_output_notes_commitment os =
  match map output_words os with
  | [] => EMPTY_WORD
  | ws => hash_elements (concat (map (fun w : Word * Word => word_elements w.1 ++ word_elements w.2) ws))
  end.
Proof.
  destruct os as [|o os]; [done|]. cbn [map build_output_notes_commitment]. do 3 f_equal. by rewrite map_map.
Qed.

Lemma option_Forall2_None_l {T U} (R : T -> U -> Prop) o : option_Forall2 R None o -> o = None.
Proof. by inversion 1. Qed.

Lemma details_fit_equiv id initial final o o' :
  option_Forall2 details_equiv o o' -> details_fit id initial final o -> details_fit id initial final o'.
Proof.
  unfold details_fit. intros Heq. case_decide; [|intros ->; by apply option_Forall2_None_l in Heq].
  destruct Heq as [x y Hxy|]; [|done]. destruct x as [a|d], y as [a'|d']; cbn in Hxy; try done.
  intros (? & Hid & Hh). split; [done|]. split; [destruct Hxy as [Hida _]; congruence|].
  rewrite <- Hh. change (stub_hash (stub_of_account a') = stub_hash (stub_of_account a)). by rewrite Hxy.
Qed.

Context {IOL : ByteIOLaws IO} {PL : ProgramLaws P} {AL : AssemblyLaws AS} {PRL : ProcessorLaws PR}.

Lemma account_details_reads : round_trips_upto account_details_codec details_writable details_read_as.
Proof.
  intros [a|d] Hok; cbn in Hok.
  - destruct (account_codec_reads a Hok) as (bs & Hw & Hr).
    destruct (round_trip_elim _ _ 0 u8_round_trip) as (b1 & Hw1 & Hr1); [done|].
    exists (b1 ++ bs). split; [by apply wappend_ok|]. intros rest. destruct (Hr rest) as (a' & Hra & Heq).
    exists (Full a'). split; [|done]. rewrite <- app_assoc. cbn [read_from account_details_codec].
    erewrite mut_bind_ok by apply Hr1. rewrite decide_True by done. by erewrite mut_bind_ok by exact Hra.
  - destruct Hok as (Ht & Hsz & Hv). destruct (account_delta_codec_effect d Ht Hsz) as (bs & Hw & Hr).
    destruct (round_trip_elim _ _ 1 u8_round_trip) as (b1 & Hw1 & Hr1); [done|].
    exists (b1 ++ bs). split; [by apply wappend_ok|]. intros rest. exists (Delta d). split; [|done].
    rewrite <- app_assoc. cbn [read_from account_details_codec].
    erewrite mut_bind_ok by apply Hr1. rewrite decide_False, decide_True by done.
    by erewrite mut_bind_ok by (by apply Hr).
Qed.

Lemma account_details_round_trip : round_trips_upto account_details_codec details_ok details_equiv.
Proof.
  eapply round_trips_weaken; [apply account_details_reads|by intros [a|d]; [intros [? _]|]|].
  intros [a|d] [a'|d']; try done. cbn. intros [Hw Hfill] Has. by apply account_read_as_same.
Qed.
End lemmas.

(** ** Properties *)

Section properties.
Context `{F : Field} {FL : FieldLaws F} {C : Crypto} {SL : SmtLaws C} {SSL : SimpleSmtLaws C} {MK : Merkle}
  {AS : Assembly} {P : Programs} {V : Vm} {VA : VmAdvice} {S : Stacks} {L : Linker} {PR : Processor}
  {FE : Features} {D : Display} {B : Build} {IO : ByteIO}.

(** A proven transaction is built exactly from at most 1023 distinct nullifiers, at
    most 4096 distinct output notes, and the account details its account calls for:
    none off chain; on chain a delta if the account existed, and if it is new the
    whole account, with the identifier and the final hash of the transaction. The
    error names what is wrong; nothing panics; and the identifier is that of the
    account hashes and the commitments to the notes. *)
Theorem proven_build_spec (b : ProvenTransactionBuilder) (Hid : AccountId_valid (pb_account_id b)) :
  (forall tx, build b = Ok tx <->
     is_notes (pt_input_notes tx) = pb_input_notes b /\ on_notes (pt_output_notes tx) = pb_output_notes b /\
     proven_wf tx /\
     tx = mkProven (pt_id tx) (pb_account_id b) (pb_initial_account_hash b) (pb_final_account_hash b)
            (pb_account_details b) (pt_input_notes tx) (pt_output_notes tx) (pb_tx_script_root b)
            (pb_block_ref b) (pb_proof b)) /\
  (forall e, build b = Err e -> build_fault b e) /\
  build b <> Panic.
Proof.
  unfold build.
  pose proof (input_notes_new_ok (pb_input_notes b)) as Hin.
  pose proof (output_notes_new_ok (pb_output_notes b)) as Hout.
  pose proof (input_notes_new_no_panic (pb_input_notes b)) as Hip.
  pose proof (output_notes_new_no_panic (pb_output_notes b)) as Hop.
  destruct (input_notes_new (pb_input_notes b)) as [ins|e|] eqn:Hi; [| |done]; cbn [map_err mbind res_bind].
  2:{ split_and!; [|by intros e' [= <-]|done]. intros tx. split; [done|]. intros (Hn & _ & (_ & _ & Hwf & _) & _).
      destruct (Hin (pt_input_notes tx)) as [_ H]. by discriminate H. }
  destruct (output_notes_new (pb_output_notes b)) as [outs|e|] eqn:Ho; [| |done]; cbn [map_err mbind res_bind].
  2:{ split_and!; [|by intros e' [= <-]|done]. intros tx. split; [done|]. intros (_ & Hn & (_ & _ & _ & Hwf) & _).
      destruct (Hout (pt_output_notes tx)) as [_ H]. by discriminate H. }
  destruct (proj1 (Hin ins) eq_refl) as [Hins Hiwf]. destruct (proj1 (Hout outs) eq_refl) as [Houts Howf].
  cbv zeta. set (t := mkProven _ _ _ _ _ _ _ _ _ _).
  pose proof (validate_spec t Hid) as Hv. cbv zeta in Hv. cbn [pt_account_id pt_initial_account_hash
    pt_final_account_hash pt_account_details t] in Hv.
  assert (Huniq : forall tx, is_notes (pt_input_notes tx) = pb_input_notes b ->
    on_notes (pt_output_notes tx) = pb_output_notes b -> proven_wf tx ->
    tx = mkProven (pt_id tx) (pb_account_id b) (pb_initial_account_hash b) (pb_final_account_hash b)
            (pb_account_details b) (pt_input_notes tx) (pt_output_notes tx) (pb_tx_script_root b)
            (pb_block_ref b) (pb_proof b) -> tx = t).
  { intros tx H1 H2 (Hidt & _ & Hw1 & Hw2) Htx.
    pose proof (proj2 (Hin (pt_input_notes tx)) (conj H1 Hw1)) as Hi'. injection Hi' as Hi'.
    pose proof (proj2 (Hout (pt_output_notes tx)) (conj H2 Hw2)) as Ho'. injection Ho' as Ho'. rewrite Hidt in Htx. rewrite Htx. unfold t. rewrite Hi', Ho'.
    f_equal. unfold id_of_proven. by rewrite Htx. }
  destruct (validate t) as [tx'|e|]; [|split_and!|done].
  - destruct Hv as [-> Hfit]. split_and!; [|done|done]. intros tx. split.
    + intros [= <-]. split; [done|]. split; [done|]. by split.
    + intros (H1 & H2 & Hwf & Htx). by rewrite (Huniq tx H1 H2 Hwf Htx).
  - intros tx. split; [done|]. intros (H1 & H2 & Hwf & Htx). destruct Hv as [Hbad _]. destruct Hbad.
    destruct Hwf as (_ & Hfit & _). rewrite Htx in Hfit. exact Hfit.
  - intros e' [= <-]. destruct Hv as [_ Hf]. by destruct e.
  - done.
Qed.

(** C34: the identifier of a proven transaction commits to the account hashes, to the
    consumed nullifiers in order, and to the identifiers and metadata of the notes
    created in order: two well-formed transactions with one identifier agree on all
    of them, or a collision of the hash function is exhibited. It commits to nothing
    else: transactions that agree on these have one identifier, whatever their
    account identifiers, reference blocks, scripts and proofs. *)
Theorem transaction_id_binds (tx tx' : ProvenTransaction) (Hwf : proven_wf tx) (Hwf' : proven_wf tx') :
  (pt_id tx = pt_id tx' ->
     (pt_initial_account_hash tx = pt_initial_account_hash tx' /\
      pt_final_account_hash tx = pt_final_account_hash tx' /\
      is_notes (pt_input_notes tx) = is_notes (pt_input_notes tx') /\
      map output_words (on_notes (pt_output_notes tx)) = map output_words (on_notes (pt_output_notes tx'))) \/
     hash_collision (id_elements tx) (id_elements tx') \/
     commitments_collide (input_elements (is_notes (pt_input_notes tx))) (input_elements (is_notes (pt_input_notes tx'))) \/
     commitments_collide (output_elements (on_notes (pt_output_notes tx)))
       (output_elements (on_notes (pt_output_notes tx')))) /\
  (pt_initial_account_hash tx = pt_initial_account_hash tx' ->
   pt_final_account_hash tx = pt_final_account_hash tx' ->
   is_notes (pt_input_notes tx) = is_notes (pt_input_notes tx') ->
   map output_words (on_notes (pt_output_notes tx)) = map output_words (on_notes (pt_output_notes tx')) ->
   pt_id tx = pt_id tx').
Proof.
  destruct Hwf as (Hid & _ & (_ & _ & Hic) & (_ & _ & Hoc)), Hwf' as (Hid' & _ & (_ & _ & Hic') & (_ & _ & Hoc')).
  split.
  - intros Heq. rewrite Hid, Hid' in Heq. injection Heq as Heq.
    destruct (hash_equal (id_elements tx) (id_elements tx') Heq) as [He|Hc]; [|by right; left].
    unfold id_elements in He. apply word_elements_app_inj in He as [Hinit He].
    apply word_elements_app_inj in He as [Hfin He]. apply word_elements_app_inj in He as [Hin He].
    rewrite <- (app_nil_r (word_elements (on_commitment (pt_output_notes tx)))),
      <- (app_nil_r (word_elements (on_commitment (pt_output_notes tx')))) in He.
    apply word_elements_app_inj in He as [Hout _]. rewrite Hic, Hic' in Hin. rewrite Hoc, Hoc' in Hout.
    destruct (input_commitment_binds _ _ Hin) as [Hi|Hc]; [|by right; right; left].
    destruct (output_commitment_binds _ _ Hout) as [Ho|Hc]; [|by right; right; right]. by left.
  - intros Hinit Hfin Hin Hout. rewrite Hid, Hid'. unfold id_of_proven. rewrite Hinit, Hfin, Hic, Hic', Hoc, Hoc', Hin.
    by rewrite !output_commitment_words, Hout.
Qed.
End properties.

Section serialization.
Context `{F : Field} {FL : FieldLaws F} {C : Crypto} {SL : SmtLaws C} {SSL : SimpleSmtLaws C} {MK : Merkle}
  {AS : Assembly} {AL : AssemblyLaws AS} {P : Programs} {PL : ProgramLaws P} {V : Vm} {VA : VmAdvice}
  {S : Stacks} {L : Linker} {PR : Processor} {PRL : ProcessorLaws PR} {FE : Features} {D : Display} {B : Build}
  {IO : ByteIO} {IOL : ByteIOLaws IO}.

(** What reading gives when the details come back as they are, and when they do not. *)
Lemma proven_reads tx : proven_writable tx -> Forall output_note_ok (on_notes (pt_output_notes tx)) ->
  reads_out (write_into proven_codec tx) (read_from proven_codec) (fun o => exists details',
    option_Forall2 details_read_as (pt_account_details tx) details' /\
    o = map_err (fun err => InvalidValue (display_proven_error err)) (validate (with_details details' tx))).
Proof.
  intros (Hid & (Htx & Hfit & Hin & Hout) & Hdet & _) Hons. cbn [write_into read_from proven_codec].
  eapply reads_out_cons; [apply account_id_codec_round_trips|done|].
  eapply reads_out_cons; [apply digest_round_trip|done|].
  eapply reads_out_cons; [apply digest_round_trip|done|].
  eapply reads_out_upto; [apply option_round_trip_upto, account_details_reads|exact Hdet|]. intros details' Has.
  eapply reads_out_cons; [apply (nullifiers_round_trip (IOL := IOL))|exact Hin|].
  eapply reads_out_cons; [apply output_notes_round_trip|by split|].
  eapply reads_out_cons; [apply (option_round_trip digest_codec (fun _ => True)), digest_round_trip|done|].
  eapply reads_out_cons; [apply digest_round_trip|done|].
  eapply reads_out_last; [apply proof_round_trip|done|]. intros rest. exists details'. split; [exact Has|].
  unfold with_details. by rewrite Htx.
Qed.

Lemma proven_unreadable tx : proven_writable tx -> Exists full_note (on_notes (pt_output_notes tx)) ->
  unreadable (write_into proven_codec tx) (read_from proven_codec) count_fault.
Proof.
  intros (Hid & (_ & _ & Hin & Hout) & Hdet & Hons) Hfull. cbn [write_into read_from proven_codec].
  eapply reads_out_cons; [apply account_id_codec_round_trips|done|].
  eapply reads_out_cons; [apply digest_round_trip|done|].
  eapply reads_out_cons; [apply digest_round_trip|done|].
  eapply reads_out_upto; [apply option_round_trip_upto, account_details_reads|exact Hdet|]. intros details' _.
  eapply reads_out_cons; [apply (nullifiers_round_trip (IOL := IOL))|exact Hin|].
  apply unreadable_first; [by apply output_notes_unreadable|]. repeat apply writes_app.
  - eapply round_trip_writes; [apply (option_round_trip digest_codec (fun _ => True)), digest_round_trip|done].
  - eapply round_trip_writes; [apply digest_round_trip|done].
  - eapply round_trip_writes; [apply proof_round_trip|done].
Qed.

(** The details of a new account that do not come back are refused by their hash. *)
Lemma validate_read_as tx a a' : AccountId_valid (pt_account_id tx) -> proven_wf tx ->
  pt_account_details tx = Some (Full a) -> account_read_as a a' ->
  validate (with_details (Some (Full a')) tx) =
  if decide (account_hash a' = account_hash a) then Ok (with_details (Some (Full a')) tx)
  else Err (AccountFinalHashMismatch (pt_final_account_hash tx) (account_hash a')).
Proof.
  intros Hid (_ & Hfit & _) Hdet (Haid & _). unfold details_fit in Hfit. rewrite Hdet in Hfit.
  unfold validate, with_details. cbn [pt_account_id pt_account_details pt_initial_account_hash pt_final_account_hash].
  rewrite is_on_chain_valid by done. cbn [mbind res_bind].
  case_decide as Hon; [|done]. destruct Hfit as (Hini & Hida & Hh). rewrite bool_decide_true by done.
  rewrite decide_False by (intros [? _]; done). rewrite bool_decide_true by done.
  rewrite decide_False by (rewrite Haid, Hida; tauto). rewrite Hh.
  destruct (decide (account_hash a' = pt_final_account_hash tx)); [by rewrite decide_False by tauto|by rewrite decide_True].
Qed.

(** C29: a well-formed proven transaction, with code and scripts without debug
    information, slot types in the documented range, and vaults and deltas that the
    counts of their encodings can carry, is always written. If no public note has 256 assets and no slot of a new
    account has another type than the default and is empty, it is read back, with the
    same identifier, recomputed, and an equivalent account in its details. If a public
    note has 256 assets it is not read: the reader panics in a build with overflow checks
    and otherwise finds an empty list of assets. If no note has, but the account in the
    details has a typed empty slot, the account comes back without that type, and the
    transaction is read if that account has the same hash and refused for its final hash
    otherwise. And reading only ever gives transactions whose account identifier is
    valid, whose notes are distinct, whose details fit and whose identifier is that of
    their contents. *)
Theorem proven_serialization :
  round_trips_upto proven_codec proven_encodable proven_equiv /\
  (forall tx, proven_writable tx -> Exists full_note (on_notes (pt_output_notes tx)) ->
     exists bs, write_into proven_codec tx = Ok bs /\ forall rest, snd (read_from proven_codec (bs ++ rest)) =
       match profile with
       | Debug => Panic
       | Release => Err (InvalidValue (to_string (EmptyAssetList : NoteError)))
       end) /\
  (forall tx a, proven_writable tx -> Forall (fun o => ~ full_note o) (on_notes (pt_output_notes tx)) ->
     pt_account_details tx = Some (Full a) ->
     exists bs, write_into proven_codec tx = Ok bs /\ forall rest, exists a', account_read_as a a' /\
       (a ≡ a' <-> storage_typed_filled (acc_storage a)) /\
       snd (read_from proven_codec (bs ++ rest)) =
         if decide (account_hash a' = account_hash a) then Ok (with_details (Some (Full a')) tx)
         else Err (InvalidValue (display_proven_error
                (AccountFinalHashMismatch (pt_final_account_hash tx) (account_hash a'))))) /\
  (forall src rest tx, read_from proven_codec src = (rest, Ok tx) ->
     AccountId_valid (pt_account_id tx) /\ proven_wf tx).
Proof.
  split; [|split; [|split]].
  - intros tx (Hid & Hwf & Hdet & Hons). assert (Hwf' := Hwf). destruct Hwf' as (Htx & Hfit & Hin & Hout).
    assert (Hinto : reads_into (write_into proven_codec tx) (read_from proven_codec) (proven_equiv tx)).
    { cbn [write_into read_from proven_codec].
      eapply reads_into_cons; [apply account_id_codec_round_trips|done|].
      eapply reads_into_cons; [apply digest_round_trip|done|].
      eapply reads_into_cons; [apply digest_round_trip|done|].
      eapply reads_into_upto; [apply option_round_trip_upto, account_details_round_trip|exact Hdet|].
      intros details' Hde.
      eapply reads_into_cons; [apply (nullifiers_round_trip (IOL := IOL))|exact Hin|].
      eapply reads_into_cons; [apply output_notes_round_trip|by split|].
      eapply reads_into_cons; [apply (option_round_trip digest_codec (fun _ => True)), digest_round_trip|done|].
      eapply reads_into_cons; [apply digest_round_trip|done|].
      eapply (reads_into_last _ _ _ _ (mkProven (pt_id tx) (pt_account_id tx) (pt_initial_account_hash tx)
        (pt_final_account_hash tx) details' (pt_input_notes tx) (pt_output_notes tx) (pt_tx_script_root tx)
        (pt_block_ref tx) (pt_proof tx))); [apply proof_round_trip|done| |by split_and!].
      intros rest. apply lift_step, map_err_ok. rewrite Htx. apply validate_ok; [done|].
      by eapply details_fit_equiv. }
    destruct Hinto as (bs & Hw & Hr). exists bs. split; [done|]. intros rest. destruct (Hr rest) as (tx' & ? & ?).
    by exists tx'.
  - intros tx Hw Hfull. destruct (proven_unreadable tx Hw Hfull) as (bs & Hwr & Hr). exists bs. split; [done|].
    intros rest. rewrite Hr. unfold count_fault. by destruct profile.
  - intros tx a Hw Hnot Hdet. pose proof Hw as (Hid & Hwf & Hall & Hons).
    destruct (proven_reads tx Hw) as (bs & Hwr & Hr).
    { apply Forall_forall. intros o Ho. apply output_note_cases; [exact (proj1 (Forall_forall _ _) Hons o Ho)|].
      exact (proj1 (Forall_forall _ _) Hnot o Ho). }
    exists bs. split; [done|]. intros rest. destruct (Hr rest) as (details' & Has & ->). rewrite Hdet in Has.
    inversion Has as [x [a'|d'] Heq| ]; subst; [|done]. exists a'. split; [exact Heq|].
    split; [by apply account_read_as_same; [exact (Hall _ Hdet)|]|].
    rewrite (validate_read_as tx a a') by done. by case_decide.
  - intros src rest tx Hread. cbn [read_from proven_codec] in Hread.
    apply mut_bind_inv in Hread as (s1 & id & Hid & Hread). apply account_id_codec_valid in Hid.
    apply mut_bind_inv in Hread as (s2 & ini & _ & Hread). apply mut_bind_inv in Hread as (s3 & fin & _ & Hread).
    apply mut_bind_inv in Hread as (s4 & det & _ & Hread). apply mut_bind_inv in Hread as (s5 & ins & Hins & Hread).
    apply mut_bind_inv in Hread as (s6 & outs & Houts & Hread). apply mut_bind_inv in Hread as (s7 & root & _ & Hread).
    apply mut_bind_inv in Hread as (s8 & ref & _ & Hread). apply mut_bind_inv in Hread as (s9 & pf & _ & Hread).
    apply lift_inv, map_err_ok in Hread. match type of Hread with validate ?x = _ => set (t := x) in Hread end.
    pose proof (validate_spec t Hid) as Hv. cbv zeta in Hv. rewrite Hread in Hv. destruct Hv as [-> Hfit].
    split; [done|]. split; [done|]. split; [done|].
    by split; [eapply input_notes_read_wf|eapply output_notes_read_wf].
Qed.
End serialization.

(** ** Witnesses *)

Import RefInstances RefMachine.

#[local] Instance IdleProcessor : Processor := RefProcessor [] [].
#[local] Instance IdleProcessorLaws : ProcessorLaws IdleProcessor := RefProcessorLaws [] [].

(** A transaction on an account off chain that consumes one note. *)
Definition off_chain_id : AccountId := mkAccountId (Felt_new ACCOUNT_ID_NON_FUNGIBLE_FAUCET_OFF_CHAIN).

Lemma off_chain_id_valid : AccountId_valid off_chain_id.
Proof. vm_compute. split; [discriminate|by right]. Qed.

Definition sample_builder : ProvenTransactionBuilder :=
  add_input_notes [mkNullifier EMPTY_WORD] (builder_new off_chain_id EMPTY_WORD EMPTY_WORD EMPTY_WORD 96).
Definition sample_input_nullifiers : InputNotes Nullifier :=
  mkInputNotes [mkNullifier EMPTY_WORD] (build_input_notes_commitment [mkNullifier EMPTY_WORD]).
Definition sample_proven : ProvenTransaction :=
  mkProven (transaction_id_new EMPTY_WORD EMPTY_WORD (is_commitment sample_input_nullifiers) EMPTY_WORD)
    off_chain_id EMPTY_WORD EMPTY_WORD None sample_input_nullifiers (mkOutputNotes [] EMPTY_WORD) None EMPTY_WORD 96.

Lemma off_chain_details_fit initial final : details_fit off_chain_id initial final None.
Proof. unfold details_fit. rewrite decide_False; [reflexivity|]. vm_compute. discriminate. Qed.

Lemma sample_input_nullifiers_wf : input_notes_wf sample_input_nullifiers.
Proof. split; [by vm_compute|]. split; [apply NoDup_singleton|reflexivity]. Qed.

Lemma sample_proven_wf : proven_wf sample_proven.
Proof.
  split; [reflexivity|]. split; [|split].
  - apply off_chain_details_fit.
  - exact sample_input_nullifiers_wf.
  - split; [by vm_compute|]. split; [constructor|reflexivity].
Qed.

Lemma proven_build_spec_witness : build sample_builder = Ok sample_proven.
Proof.
  apply (proven_build_spec sample_builder off_chain_id_valid).
  split; [reflexivity|]. split; [reflexivity|]. split; [exact sample_proven_wf|reflexivity].
Defined.

(** Another proof and another reference block: one identifier. *)
Definition sample_reproven : ProvenTransaction :=
  mkProven (pt_id sample_proven) off_chain_id EMPTY_WORD EMPTY_WORD None sample_input_nullifiers
    (mkOutputNotes [] EMPTY_WORD) None (mkWord ONE ONE ONE ONE) 7.

Lemma transaction_id_binds_witness : pt_id sample_proven = pt_id sample_reproven.
Proof.
  apply (transaction_id_binds sample_proven sample_reproven); try reflexivity; exact sample_proven_wf.
Defined.

(** The same with a public note of 256 assets. *)
Definition full_output_note : Note :=
  note_new full_note_assets sample_metadata (recipient_new EMPTY_WORD (sample_script []) (sample_inputs [])).
Definition full_outputs : OutputNotes :=
  mkOutputNotes [PublicNote full_output_note] (build_output_notes_commitment [PublicNote full_output_note]).
Definition full_proven : ProvenTransaction :=
  mkProven (transaction_id_new EMPTY_WORD EMPTY_WORD (is_commitment sample_input_nullifiers) (on_commitment full_outputs))
    off_chain_id EMPTY_WORD EMPTY_WORD None sample_input_nullifiers full_outputs None EMPTY_WORD 96.

Lemma full_proven_writable : proven_writable full_proven.
Proof.
  assert (Hnote : note_wf full_output_note).
  { apply note_new_made; [exact full_note_assets_wf|exact sample_metadata_valid|].
    split; [|done]. split; [by vm_compute|done]. }
  split; [exact off_chain_id_valid|]. split; [|split; [discriminate|]].
  - split; [reflexivity|]. split; [apply off_chain_details_fit|]. split; [exact sample_input_nullifiers_wf|].
    split; [change (1 <= 4096); lia|]. split; [apply NoDup_singleton|reflexivity].
  - constructor; [|constructor]. split; [exact Hnote|]. split; [constructor|by vm_compute].
Qed.

Lemma proven_serialization_witness :
  (exists bs, write_into proven_codec sample_proven = Ok bs /\
     exists tx, read_from proven_codec bs = ([], Ok tx) /\ pt_id tx = pt_id sample_proven) /\
  (exists bs, write_into proven_codec full_proven = Ok bs /\ snd (read_from proven_codec (bs ++ [])) = Panic).
Proof.
  destruct proven_serialization as (Hround & Hfull & _). split.
  - destruct (Hround sample_proven) as (bs & Hw & Hr).
    { split; [exact off_chain_id_valid|]. split; [exact sample_proven_wf|]. split; [discriminate|constructor]. }
    exists bs. split; [exact Hw|]. destruct (Hr []) as (tx & Hread & Heq). rewrite app_nil_r in Hread.
    exists tx. split; [exact Hread|]. symmetry. apply Heq.
  - destruct (Hfull full_proven full_proven_writable) as (bs & Hw & Hr).
    { apply Exists_cons_hd. exact full_assets_count. }
    exists bs. split; [exact Hw|]. exact (Hr []).
Defined.
