(* ===== verification/Identifiers.v ===== *)
(** The conversions of note identifiers, nullifiers and transaction identifiers from
    and to words, digests, bytes and hexadecimal text (notes/note_id.rs,
    notes/nullifier.rs, transaction/transaction_id.rs). *)
From Stdlib Require Import String.
From S2P Require Import Prelude Interfaces Types Reference NoteMeta Notes Transactions.
Local Open Scope Z_scope.

(** ** The text of a digest

    [RpoDigest::to_hex] and the conversions of a digest from bytes and from text. *)
Class DigestText `{C : Crypto} := {
  digest_to_hex : Digest -> string;
  digest_try_from_bytes : list Z -> res string Digest;         (* TryFrom<[u8; 32]>, the error rendered *)
  digest_try_from_text : string -> res string Digest           (* TryFrom<&str> *)
}.

(** A digest is 32 bytes, from which it is read back, and its text is [0x] and two
    digits for each of them. *)
Class DigestTextLaws `(DT : DigestText) : Prop := {
  digest_bytes_are_bytes (d : Digest) : length (digest_bytes d) = 32%nat /\ Forall is_byte (digest_bytes d);
  digest_try_from_bytes_ok (d : Digest) : digest_try_from_bytes (digest_bytes d) = Ok d;
  digest_to_hex_text (d : Digest) : digest_to_hex d = ("0x" +:+ hex_of_bytes (digest_bytes d))%string;
  digest_try_from_text_ok (d : Digest) : digest_try_from_text (digest_to_hex d) = Ok d
}.

Section identifiers.
Context `{F : Field} {C : Crypto} {DT : DigestText}.

(** ** Note identifiers (note_id.rs) *)

Definition note_id_to_hex (self : NoteId) : string := digest_to_hex (note_id_digest self).
Definition note_id_inner (self : NoteId) : Digest := note_id_digest self.
Definition note_id_from_word (value : Word) : NoteId := mkNoteId value.
Definition note_id_from_digest (value : Digest) : NoteId := mkNoteId value.
Definition note_id_try_from_hex (hex_value : string) : res string NoteId :=
  res_map note_id_from_digest (digest_try_from_text hex_value).
Definition digest_from_note_id (id : NoteId) : Digest := note_id_inner id.
Definition word_from_note_id (id : NoteId) : Word := note_id_digest id.
Definition bytes_from_note_id (id : NoteId) : list Z := digest_bytes (note_id_digest id).

(** ** Nullifiers (nullifier.rs) *)

Definition nullifier_inner (self : Nullifier) : Digest := nullifier_digest self.
Definition nullifier_from_word (value : Word) : Nullifier := mkNullifier value.
Definition nullifier_from_digest (value : Digest) : Nullifier := mkNullifier value.
Definition nullifier_from_hex (hex_value : string) : res string Nullifier :=
  bytes ← hex_to_bytes 32 hex_value;
  digest ← digest_try_from_bytes bytes;
  Ok (nullifier_from_digest digest).
Definition nullifier_to_hex (self : Nullifier) : string := digest_to_hex (nullifier_digest self).
Definition word_from_nullifier (nullifier : Nullifier) : Word := nullifier_digest nullifier.
Definition bytes_from_nullifier (nullifier : Nullifier) : list Z := digest_bytes (nullifier_digest nullifier).

(** ** Transaction identifiers (transaction_id.rs) *)

Definition tx_id_as_elements (self : TransactionId) : list Felt := word_elements (tx_id_digest self).
Definition tx_id_as_bytes (self : TransactionId) : list Z := digest_bytes (tx_id_digest self).
Definition tx_id_to_hex (self : TransactionId) : string := digest_to_hex (tx_id_digest self).
Definition tx_id_inner (self : TransactionId) : Digest := tx_id_digest self.
Definition tx_id_from_word (value : Word) : TransactionId := mkTransactionId value.
Definition tx_id_from_digest (value : Digest) : TransactionId := mkTransactionId value.
Definition word_from_tx_id (id : TransactionId) : Word := tx_id_digest id.
Definition bytes_from_tx_id (id : TransactionId) : list Z := digest_bytes (tx_id_digest id).
End identifiers.

(** ** Round trips *)

Section properties.
Context `{F : Field} {C : Crypto} {DT : DigestText} {DTL : DigestTextLaws DT} {HL : HexLaws C}.

(** Two ways to read a digest from its text are the same: through the bytes, as the
    nullifiers do, and directly, as the note identifiers do. *)
Lemma digest_from_hex_bytes (d : Digest) :
  (bytes ← hex_to_bytes 32 (digest_to_hex d); digest_try_from_bytes bytes) = Ok d.
Proof.
  destruct (digest_bytes_are_bytes d) as [Hlen Hb]. rewrite digest_to_hex_text, <- Hlen, hex_to_bytes_ok by done.
  apply digest_try_from_bytes_ok.
Qed.

(** Equal texts, and equal bytes, are those of equal digests. *)
Lemma digest_to_hex_inj (d d' : Digest) : digest_to_hex d = digest_to_hex d' -> d = d'.
Proof. intros Heq%(f_equal digest_try_from_text). rewrite !digest_try_from_text_ok in Heq. by injection Heq. Qed.
Lemma digest_bytes_inj' (d d' : Digest) : digest_bytes d = digest_bytes d' -> d = d'.
Proof. intros Heq%(f_equal digest_try_from_bytes). rewrite !digest_try_from_bytes_ok in Heq. by injection Heq. Qed.

(** An identifier or a nullifier is read back from its text, the identifiers of the
    three kinds are what their texts and their bytes are, and the conversions to
    words and digests are undone by those from them. *)
Theorem identifier_conversions (id id' : NoteId) (n n' : Nullifier) (t t' : TransactionId) :
  note_id_try_from_hex (note_id_to_hex id) = Ok id /\
  nullifier_from_hex (nullifier_to_hex n) = Ok n /\
  (note_id_to_hex id = note_id_to_hex id' <-> id = id') /\ (bytes_from_note_id id = bytes_from_note_id id' <-> id = id') /\
  (nullifier_to_hex n = nullifier_to_hex n' <-> n = n') /\ (bytes_from_nullifier n = bytes_from_nullifier n' <-> n = n') /\
  (tx_id_to_hex t = tx_id_to_hex t' <-> t = t') /\ (bytes_from_tx_id t = bytes_from_tx_id t' <-> t = t') /\
  note_id_from_word (word_from_note_id id) = id /\ note_id_from_digest (digest_from_note_id id) = id /\
  nullifier_from_word (word_from_nullifier n) = n /\ nullifier_from_digest (nullifier_inner n) = n /\
  tx_id_from_word (word_from_tx_id t) = t /\ tx_id_from_digest (tx_id_inner t) = t.
Proof.
  destruct id as [d], id' as [d'], n as [e], n' as [e'], t as [x], t' as [x'].
  split_and!; try done;
    try (split; [|congruence]; intros Heq; f_equal; solve [by apply digest_to_hex_inj|by apply digest_bytes_inj']).
  - unfold note_id_try_from_hex, note_id_to_hex. cbn [note_id_digest]. by rewrite digest_try_from_text_ok.
  - unfold nullifier_from_hex, nullifier_to_hex. cbn [nullifier_digest]. pose proof (digest_from_hex_bytes e) as He.
    apply bind_ok in He as (bs & -> & He). cbn [mbind res_bind]. by rewrite He.
Qed.
End properties.

(** ** An instance of the text of digests *)

Import RefInstances.

Definition ref_digest_of_bytes (bs : list Z) : res string Digest :=
  let element i := Felt_new (from_le_bytes (take 8 (drop (8 * i) bs))) in
  if decide (length bs = 32%nat) then Ok (mkWord (element 0%nat) (element 1%nat) (element 2%nat) (element 3%nat))
  else Err "invalid length"%string.

#[export] Instance RefDigestText : DigestText := {
  digest_to_hex d := ("0x" +:+ hex_of_bytes (digest_bytes d))%string;
  digest_try_from_bytes := ref_digest_of_bytes;
  digest_try_from_text s := bytes ← hex_to_bytes 32 s; ref_digest_of_bytes bytes
}.

Lemma ref_digest_bytes_ok (d : Digest) :
  (length (digest_bytes d) = 32%nat /\ Forall is_byte (digest_bytes d)) /\ ref_digest_of_bytes (digest_bytes d) = Ok d.
Proof.
  destruct d as [a b c e]. change (digest_bytes (mkWord a b c e)) with
    (to_le_bytes 8 (as_int a) ++ to_le_bytes 8 (as_int b) ++ to_le_bytes 8 (as_int c) ++ to_le_bytes 8 (as_int e) ++ []).
  split; [split; [reflexivity|repeat (apply Forall_app; split; [apply to_le_bytes_range|]); constructor]|].
  unfold ref_digest_of_bytes. rewrite decide_True by reflexivity.
  assert (Hx : forall x : Felt, Felt_new (from_le_bytes (to_le_bytes 8 (as_int x))) = x).
  { intros x. rewrite from_to_le_bytes; [apply Felt_new_as_int|]. pose proof (as_int_u64 x).
    change (256 ^ Z.of_nat 8) with (2 ^ 64). lia. }
  transitivity (Ok (E := string) (mkWord (Felt_new (from_le_bytes (to_le_bytes 8 (as_int a)))) (Felt_new (from_le_bytes (to_le_bytes 8 (as_int b))))
    (Felt_new (from_le_bytes (to_le_bytes 8 (as_int c)))) (Felt_new (from_le_bytes (to_le_bytes 8 (as_int e)))))); [reflexivity|].
  by rewrite !Hx.
Qed.

#[export] Instance RefDigestTextLaws : DigestTextLaws RefDigestText.
Proof.
  split; [apply ref_digest_bytes_ok|apply ref_digest_bytes_ok|done|]. intros d.
  destruct (ref_digest_bytes_ok d) as [[Hlen Hb] Hok]. cbn [digest_to_hex digest_try_from_text RefDigestText].
  rewrite <- Hlen, hex_to_bytes_ok by done. exact Hok.
Qed.
