(* ===== verification/Kernel.v ===== *)
(** The Rust side of the transaction kernel (miden-lib/src/transaction/mod.rs,
    outputs.rs and inputs.rs): the operand stacks, the advice the kernel reads, and
    the outputs read back from its results. *)
From S2P Require Import Prelude Interfaces Types Reference BTree AccountIds Assets NoteMeta NoteContents Notes Blocks Chain.
From S2P Require Import Vault Storage Delta Code Account Outputs Inputs Memory Machine Transactions.
Local Open Scope Z_scope.

(** outputs.rs: words of the output stack. *)
Definition TX_SCRIPT_ROOT_WORD_IDX : Z := 0.
Definition OUTPUT_NOTES_COMMITMENT_WORD_IDX : Z := 1.
Definition FINAL_ACCOUNT_HASH_WORD_IDX : Z := 2.

(** ** Stacks and outputs *)

Section stacks.
Context `{F : Field} {S : Stacks}.

Definition build_input_stack {E} (acct_id : AccountId) (init_acct_hash input_notes_hash block_hash : Digest)
    : res E StackInputs :=
  let inputs := word_elements input_notes_hash ++ word_elements init_acct_hash ++ [felt_of_id acct_id] ++
                word_elements block_hash in
  expect_ok (StackInputs_new inputs).

Definition build_output_stack {E} (final_acct_hash output_notes_hash : Digest) (tx_script_root : option Digest)
    : res E StackOutputs :=
  let outputs := word_elements final_acct_hash ++ word_elements output_notes_hash ++
                 word_elements (default EMPTY_WORD tx_script_root) in
  expect_ok (StackOutputs_new (rev outputs) []).

(** Final account hash, output notes commitment, transaction script root. *)
Definition parse_output_stack {E} (stack : StackOutputs) : res E (Digest * Digest * Digest) :=
  tx_script_root ← expect (get_output_word stack 0);
  output_notes_hash ← expect (get_output_word stack 4);
  final_account_hash ← expect (get_output_word stack 8);
  Ok (final_account_hash, output_notes_hash, tx_script_root).
End stacks.

Section outputs.
Context `{F : Field} {C : Crypto} {MK : Merkle} {AS : Assembly} {P : Programs} {V : Vm} {A : Advice} {S : Stacks}
  {FE : Features} {D : Display} {B : Build}.

(** An element of a list of words, and of a word: an index out of range panics. *)
Definition word_at {E} (elements : list Word) (i : Z) : res E Word := expect (elements !! Z.to_nat i).
Definition element_at {E} (w : Word) (i : Z) : res E Felt := expect (word_elements w !! Z.to_nat i).

Definition parse_final_account_stub (elements : list Word) : res AccountError AccountStub :=
  if decide (Z.of_nat (length elements) <> ACCT_DATA_MEM_SIZE)
  then Err (StubDataIncorrectLength (Z.of_nat (length elements)) ACCT_DATA_MEM_SIZE)
  else
    id_and_nonce ← word_at elements ACCT_ID_AND_NONCE_OFFSET;
    id ← (x ← element_at id_and_nonce ACCT_ID_IDX; try_from_felt x);
    nonce ← element_at id_and_nonce ACCT_NONCE_IDX;
    vault_root ← word_at elements ACCT_VAULT_ROOT_OFFSET;
    storage_root ← word_at elements ACCT_STORAGE_ROOT_OFFSET;
    code_root ← word_at elements ACCT_CODE_ROOT_OFFSET;
    Ok (mkAccountStub id nonce vault_root storage_root code_root).

Definition from_transaction_parts (stack : StackOutputs) (adv_map : AdviceMap) (output_notes : list OutputNote)
    : res TransactionOutputError TransactionOutputs :=
  '(final_acct_hash, output_notes_hash, _) ← parse_output_stack stack;
  elements ← ok_or (AdviceMap_get adv_map final_acct_hash) FinalAccountDataNotFound;
  final_account_data ← group_slice_elements elements;
  account ← map_err FinalAccountStubDataInvalid (parse_final_account_stub final_account_data);
  output_notes ← output_notes_new output_notes;
  if decide (output_notes_hash <> on_commitment output_notes)
  then Err (OutputNotesCommitmentInconsistent output_notes_hash (on_commitment output_notes))
  else Ok (mkTransactionOutputs account output_notes).
End outputs.

(** ** Inputs *)

Section inputs.
Context `{F : Field} {C : Crypto} {MK : Merkle} {AS : Assembly} {P : Programs} {V : Vm} {A : Advice} {S : Stacks}
  {L : Linker} {FE : Features} {D : Display} {B : Build} {IO : ByteIO}.

Definition build_advice_stack (tx_inputs : TransactionInputs) (tx_script : option TransactionScript)
    (inputs : AdviceInputs) : AdviceInputs :=
  let header := ti_block_header tx_inputs in
  let inputs := extend_stack inputs (word_elements (prev_hash header)) in
  let inputs := extend_stack inputs (word_elements (chain_root header)) in
  let inputs := extend_stack inputs (word_elements (account_root header)) in
  let inputs := extend_stack inputs (word_elements (nullifier_root header)) in
  let inputs := extend_stack inputs (word_elements (batch_root header)) in
  let inputs := extend_stack inputs (word_elements (proof_hash header)) in
  let inputs := extend_stack inputs [Felt_new (block_num header); version header; timestamp header; ZERO] in
  let inputs := extend_stack inputs [ZERO; ZERO; ZERO; ZERO] in
  let inputs := extend_stack inputs (word_elements (note_root header)) in
  let account := ti_account tx_inputs in
  let inputs := extend_stack inputs [felt_of_id (acc_id account); ZERO; ZERO; acc_nonce account] in
  let inputs := extend_stack inputs (word_elements (commitment (acc_vault account))) in
  let inputs := extend_stack inputs (word_elements (storage_root (acc_storage account))) in
  let inputs := extend_stack inputs (word_elements (code_root (acc_code account))) in
  let num_notes := Z.of_nat (length (is_notes (ti_input_notes tx_inputs))) mod 2 ^ 32 in
  let inputs := extend_stack inputs [Felt_new num_notes] in
  match tx_script with
  | Some tx_script => extend_stack inputs (word_elements (ts_hash tx_script))
  | None => extend_stack inputs (word_elements EMPTY_WORD)
  end.

Definition add_chain_mmr_to_advice_inputs (mmr : ChainMmr) (inputs : AdviceInputs) : AdviceInputs :=
  let inputs := extend_merkle_store inputs (chain_inner_nodes mmr) in
  let peaks := chain_peaks mmr in
  let elements := [Felt_new (peaks_num_leaves peaks); ZERO; ZERO; ZERO] ++ flatten_and_pad_peaks peaks in
  extend_map inputs [(hash_peaks peaks, elements)].

Definition add_account_to_advice_inputs (account : Account) (account_seed : option Word) (inputs : AdviceInputs)
    : AdviceInputs :=
  let storage := acc_storage account in
  let inputs := extend_merkle_store inputs (SimpleSmt_inner_nodes (slots storage)) in
  let inputs := extend_map inputs [(layout_commitment storage, felt_of_slot_type <$> layout storage)] in
  let vault := acc_vault account in
  let inputs := extend_merkle_store inputs (Smt_inner_nodes (asset_tree vault)) in
  let inputs := extend_map inputs (Smt_leaf_data (asset_tree vault)) in
  let inputs := extend_merkle_store inputs (SimpleSmt_inner_nodes (procedure_tree (acc_code account))) in
  match account_seed with
  | Some account_seed =>
      extend_map inputs [(mkWord (felt_of_id (acc_id account)) ZERO ZERO ZERO, word_elements account_seed)]
  | None => inputs
  end.

(** One round of the loop over the notes: the advice and the combined note data. *)
Definition add_input_note {E} (tx_args : TransactionArgs) (input_note : InputNote)
    : mut (AdviceInputs * list Felt) E unit :=
  '(inputs, note_data) ← read_self;
  let note := in_note input_note in
  let assets := note_assets note in
  let proof := in_proof input_note in
  let recipient := note_recipient note in
  let note_arg := default EMPTY_WORD (get_note_args tx_args (note_id note)) in
  let inputs := extend_map inputs [(ni_hash (nr_inputs recipient), to_padded_values (nr_inputs recipient))] in
  padded_assets ← lift (to_padded_assets assets);
  let inputs := extend_map inputs [(na_hash assets, padded_assets)] in
  let node_index := NodeIndex_value (origin_node_index (ip_origin proof)) in
  nodes ← lift (expect_ok (path_inner_nodes (ip_note_path proof) node_index (authentication_hash note)));
  let inputs := extend_merkle_store inputs nodes in
  let note_data := note_data ++ word_elements (nr_serial_num recipient) ++
    word_elements (ns_hash (nr_script recipient)) ++ word_elements (ni_hash (nr_inputs recipient)) ++
    word_elements (na_hash assets) in
  let note_data := note_data ++ word_elements (word_of_metadata (note_metadata note)) ++ word_elements note_arg in
  num_inputs ← lift (num_values (nr_inputs recipient));
  let note_data := note_data ++ [Felt_new num_inputs] in
  let note_data := note_data ++ [Felt_new (Z.of_nat (length (na_assets assets)) mod 2 ^ 32)] ++ padded_assets in
  let note_data := note_data ++ [Felt_new (origin_block_num (ip_origin proof))] ++
    word_elements (ip_sub_hash proof) ++ word_elements (ip_note_root proof) in
  node_index ← lift (expect_ok (Felt_try_from_u64 node_index));
  write_self (inputs, note_data ++ [node_index]).

Definition add_input_notes_to_advice_inputs {E} (notes : InputNotes InputNote) (tx_args : TransactionArgs)
    : mut AdviceInputs E unit :=
  if decide (is_notes notes = []) then mret tt
  else
    inputs ← read_self;
    let '(st, r) := for_each (add_input_note tx_args) (is_notes notes) (inputs, []) in
    _ ← write_self st.1;
    _ ← lift r;
    write_self (extend_map st.1 [(is_commitment notes, st.2)]).

Definition extend_advice_inputs {E} (tx_inputs : TransactionInputs) (tx_args : TransactionArgs)
    : mut AdviceInputs E unit :=
  advice_inputs ← read_self;
  _ ← write_self (build_advice_stack tx_inputs (ta_tx_script tx_args) advice_inputs);
  advice_inputs ← read_self;
  _ ← write_self (add_chain_mmr_to_advice_inputs (ti_block_chain tx_inputs) advice_inputs);
  advice_inputs ← read_self;
  _ ← write_self (add_account_to_advice_inputs (ti_account tx_inputs) (ti_account_seed tx_inputs) advice_inputs);
  _ ← add_input_notes_to_advice_inputs (ti_input_notes tx_inputs) tx_args;
  advice_inputs ← read_self;
  write_self (extend_map advice_inputs (AdviceMap_entries (ta_advice_map tx_args))).

(** [get_kernel_inputs]: the stack, and [advice_inputs] extended. *)
Definition kernel_inputs {E} (tx_inputs : TransactionInputs) (tx_args : TransactionArgs)
    (advice_inputs : AdviceInputs) : res E (StackInputs * AdviceInputs) :=
  let account := ti_account tx_inputs in
  stack_inputs ← build_input_stack (acc_id account) (proof_init_hash account)
                   (is_commitment (ti_input_notes tx_inputs)) (block_hash (ti_block_header tx_inputs));
  let '(advice_inputs, r) := extend_advice_inputs tx_inputs tx_args advice_inputs in
  _ ← r;
  Ok (stack_inputs, advice_inputs).

(** The trait [ToTransactionKernelInputs] of the three kinds of transaction. *)
Class ToTransactionKernelInputs (T : Type) := get_kernel_inputs : forall E, T -> res E (StackInputs * AdviceInputs).
#[export] Instance prepared_kernel_inputs : ToTransactionKernelInputs PreparedTransaction :=
  fun E self => kernel_inputs (pr_inputs self) (pr_args self) AdviceInputs_default.
#[export] Instance executed_kernel_inputs : ToTransactionKernelInputs ExecutedTransaction :=
  fun E self => kernel_inputs (ex_inputs self) (ex_args self) (ex_advice self).
#[export] Instance witness_kernel_inputs : ToTransactionKernelInputs TransactionWitness :=
  fun E self => kernel_inputs (wi_inputs self) (wi_args self) (wi_advice self).
End inputs.

(** ** Specification *)

Section spec.
Context `{F : Field} {C : Crypto} {MK : Merkle} {AS : Assembly} {P : Programs} {V : Vm} {A : Advice} {S : Stacks}
  {FE : Features} {D : Display} {B : Build}.

(** The public inputs of a transaction, the deepest first, and its public outputs. *)
Definition input_layout (acct_id : AccountId) (init_acct_hash input_notes_hash block_hash : Digest) : list Felt :=
  word_elements input_notes_hash ++ word_elements init_acct_hash ++ [felt_of_id acct_id] ++ word_elements block_hash.
Definition output_layout (final_acct_hash output_notes_hash tx_script_root : Digest) : list Felt :=
  word_elements final_acct_hash ++ word_elements output_notes_hash ++ word_elements tx_script_root.

(** The four words that describe an account to the kernel; two elements are not read back. *)
Definition stub_data (x y : Felt) (s : AccountStub) : list Felt :=
  [felt_of_id (stub_id s); x; y; stub_nonce s] ++ word_elements (stub_vault_root s) ++
  word_elements (stub_storage_root s) ++ word_elements (stub_code_root s).

(** What [from_transaction_parts] accepts. *)
Definition outputs_accepted (final_acct_hash output_notes_hash : Digest) (adv_map : AdviceMap)
    (notes : list OutputNote) (out : TransactionOutputs) : Prop :=
  (exists x y, AdviceMap_get adv_map final_acct_hash = Some (stub_data x y (to_account out))) /\
  AccountId_valid (stub_id (to_account out)) /\
  on_notes (to_output_notes out) = notes /\ output_notes_wf (to_output_notes out) /\
  on_commitment (to_output_notes out) = output_notes_hash.

(** Why the outputs of a transaction are refused. *)
Definition outputs_fault (final_acct_hash output_notes_hash : Digest) (adv_map : AdviceMap)
    (notes : list OutputNote) (e : TransactionOutputError) : Prop :=
  match e with
  | FinalAccountDataNotFound => AdviceMap_get adv_map final_acct_hash = None
  | FinalAccountStubDataInvalid (StubDataIncorrectLength n m) =>
      m = 4 /\ n <> 4 /\ exists ws, AdviceMap_get adv_map final_acct_hash = Some (concat (map word_elements ws)) /\
        n = Z.of_nat (length ws)
  | FinalAccountStubDataInvalid err =>
      exists x rest, AdviceMap_get adv_map final_acct_hash = Some (x :: rest) /\ length rest = 15%nat /\
        try_from_felt x = Err err
  | OutputNotesCommitmentInconsistent expected actual =>
      expected = output_notes_hash /\ actual = build_output_notes_commitment notes /\ expected <> actual
  | e => output_notes_new notes = Err e
  end.
End spec.

(** ** Lemmas *)

Section stack_lemmas.
Context `{F : Field} {S : Stacks} {SL : StacksLaws S}.

Lemma word_elements_inj (v w : Word) : word_elements v = word_elements w -> v = w.
Proof. destruct v, w. cbn. by intros [= -> -> -> ->]. Qed.

Lemma build_input_stack_ok {E} id init notes block :
  exists si, build_input_stack (E := E) id init notes block = Ok si /\
    input_stack si = rev (input_layout id init notes block).
Proof.
  destruct (StackInputs_new_ok (input_layout id init notes block)) as (si & Hnew & Hs); [cbn; lia|].
  exists si. split; [|done]. unfold build_input_stack. cbv zeta. fold (input_layout id init notes block).
  by rewrite Hnew.
Qed.

Lemma build_output_stack_ok {E} final notes script :
  exists so, build_output_stack (E := E) final notes script = Ok so /\
    output_stack so = rev (output_layout final notes (default EMPTY_WORD script)) ++ replicate 4 ZERO.
Proof.
  set (o := output_layout final notes (default EMPTY_WORD script)).
  assert (Hl : length (rev o) = 12%nat) by done.
  destruct (StackOutputs_new_ok (rev o)) as (so & Hnew & Hs); [lia|].
  exists so. unfold build_output_stack. cbv zeta. fold (output_layout final notes (default EMPTY_WORD script)).
  fold o. rewrite Hnew. split; [done|]. rewrite Hs, resize_ge by lia. by rewrite Hl.
Qed.

(** Three words are read off the twelve elements at the top. *)
Lemma parse_output_stack_ok {E} so final notes script :
  take 12 (output_stack so) = rev (output_layout final notes script) ->
  parse_output_stack (E := E) so = Ok (final, notes, script).
Proof.
  destruct final as [f0 f1 f2 f3], notes as [n0 n1 n2 n3], script as [t0 t1 t2 t3].
  intros H. unfold parse_output_stack. pose proof (take_drop 12 (output_stack so)) as Hso.
  remember (drop 12 (output_stack so)) as r eqn:Hr. rewrite H in Hso. symmetry in Hso. clear H Hr.
  rewrite (get_output_word_ok so 0 t0 t1 t2 t3) by by rewrite Hso.
  rewrite (get_output_word_ok so 4 n0 n1 n2 n3) by by rewrite Hso.
  by rewrite (get_output_word_ok so 8 f0 f1 f2 f3) by by rewrite Hso.
Qed.

(** Every stack of outputs has the three words. *)
Lemma output_words (so : StackOutputs) :
  exists final notes script, take 12 (output_stack so) = rev (output_layout final notes script).
Proof.
  pose proof (output_stack_length so) as Hl.
  destruct (output_stack so) as [|t3 [|t2 [|t1 [|t0 [|n3 [|n2 [|n1 [|n0 [|f3 [|f2 [|f1 [|f0 l]]]]]]]]]]]];
    cbn in Hl; try lia.
  by exists (mkWord f0 f1 f2 f3), (mkWord n0 n1 n2 n3), (mkWord t0 t1 t2 t3).
Qed.

Lemma input_layout_inj id init notes block id' init' notes' block' :
  input_layout id init notes block = input_layout id' init' notes' block' ->
  id = id' /\ init = init' /\ notes = notes' /\ block = block'.
Proof.
  intros H. unfold input_layout in H. apply word_elements_app_inj in H as [-> H].
  apply word_elements_app_inj in H as [-> H]. injection H as Hid Hb. destruct id, id'. cbn in Hid. subst.
  split_and!; try done. apply word_elements_inj. by destruct block, block'; cbn in *; simplify_eq.
Qed.

(** A list of a multiple of four elements is a list of words. *)
Lemma words_of_elements (xs : list Felt) :
  (length xs mod 4 = 0)%nat -> exists ws, xs = concat (map word_elements ws) /\ length xs = (4 * length ws)%nat.
Proof.
  remember (length xs) as n eqn:Hn. revert xs Hn. induction (lt_wf n) as [n _ IH]. intros xs -> Hm.
  destruct xs as [|a [|b [|c [|d xs]]]]; [by exists []|done..|]. cbn [length] in *.
  destruct (IH (length xs)) with (xs := xs) as (ws & -> & Hl); [lia|done| |].
  - replace (Datatypes.S (Datatypes.S (Datatypes.S (Datatypes.S (length xs))))) with (length xs + 1 * 4)%nat in Hm
      by lia. by rewrite Nat.Div0.mod_add in Hm.
  - exists (mkWord a b c d :: ws). cbn [map concat word_elements app w0 w1 w2 w3 length]. split; [done|lia].
Qed.
End stack_lemmas.

Section output_lemmas.
Context `{F : Field} {FL : FieldLaws F} {C : Crypto} {MK : Merkle} {AS : Assembly} {P : Programs} {V : Vm} {A : Advice}
  {S : Stacks} {SL : StacksLaws S} {FE : Features} {D : Display} {B : Build}.

(** Four words are parsed as a stub, any other number of words is refused. *)
Lemma parse_stub_words (w v s c : Word) :
  parse_final_account_stub [w; v; s; c] =
  (id ← try_from_felt (w0 w); Ok (mkAccountStub id (w3 w) v s c)).
Proof. done. Qed.

Lemma parse_stub_length (ws : list Word) : (length ws <> 4)%nat ->
  parse_final_account_stub ws = Err (StubDataIncorrectLength (Z.of_nat (length ws)) 4).
Proof. intros Hl. unfold parse_final_account_stub, ACCT_DATA_MEM_SIZE. by rewrite decide_True by lia. Qed.

Lemma stub_data_words x y s :
  stub_data x y s = concat (map word_elements
    [mkWord (felt_of_id (stub_id s)) x y (stub_nonce s); stub_vault_root s; stub_storage_root s; stub_code_root s]).
Proof. unfold stub_data. cbn [map concat]. by rewrite app_nil_r. Qed.

Lemma output_notes_new_commitment notes ns : output_notes_new notes = Ok ns ->
  on_commitment ns = build_output_notes_commitment notes.
Proof. intros [<- (_ & _ & Hc)]%output_notes_new_ok. done. Qed.

Lemma try_from_felt_not_length x n m : try_from_felt x <> Err (StubDataIncorrectLength n m).
Proof.
  unfold try_from_felt. case_decide; [done|]. by case_decide.
Qed.

(** The outcome on data of the account that is not of whole words, and on the others. *)
Lemma outputs_from_words so m notes final ncom script ws :
  take 12 (output_stack so) = rev (output_layout final ncom script) ->
  AdviceMap_get m final = Some (concat (map word_elements ws)) ->
  from_transaction_parts so m notes =
  (account ← map_err FinalAccountStubDataInvalid (parse_final_account_stub ws);
   ns ← output_notes_new notes;
   if decide (ncom <> on_commitment ns) then Err (OutputNotesCommitmentInconsistent ncom (on_commitment ns))
   else Ok (mkTransactionOutputs account ns)).
Proof.
  intros Hso Hget. unfold from_transaction_parts. rewrite (parse_output_stack_ok so final ncom script Hso).
  cbn [mbind res_bind]. rewrite Hget. cbn [ok_or mbind res_bind]. by rewrite group_words.
Qed.

Lemma outputs_outcome so m notes final ncom script :
  take 12 (output_stack so) = rev (output_layout final ncom script) ->
  match from_transaction_parts so m notes with
  | Ok out => outputs_accepted final ncom m notes out
  | Err e => outputs_fault final ncom m notes e
  | Panic => exists xs, AdviceMap_get m final = Some xs /\ (length xs mod 4 <> 0)%nat
  end.
Proof.
  intros Hso. destruct (AdviceMap_get m final) as [xs|] eqn:Hget.
  2:{ unfold from_transaction_parts. rewrite (parse_output_stack_ok so final ncom script Hso).
      cbn [mbind res_bind]. by rewrite Hget. }
  destruct (decide (length xs mod 4 = 0)%nat) as [Hm|Hm].
  2:{ unfold from_transaction_parts. rewrite (parse_output_stack_ok so final ncom script Hso).
      cbn [mbind res_bind]. rewrite Hget. cbn [ok_or mbind res_bind]. rewrite group_panics by done.
      cbn [mbind res_bind]. by exists xs. }
  destruct (words_of_elements xs Hm) as (ws & -> & _). rewrite (outputs_from_words so m notes _ _ _ ws Hso Hget).
  destruct (decide (length ws = 4)%nat) as [H4|H4].
  2:{ rewrite parse_stub_length by done. cbn. split; [done|]. split; [lia|]. by exists ws. }
  destruct ws as [|w [|v [|s [|c [|? ws]]]]]; try done. clear H4 Hm. rewrite parse_stub_words.
  destruct (try_from_felt (w0 w)) as [id|e|] eqn:Hid; cbn [mbind res_bind map_err].
  - apply try_from_felt_ok_iff in Hid as [-> Hv].
    destruct (output_notes_new notes) as [ns|e|] eqn:Hns; cbn [mbind res_bind].
    + pose proof (output_notes_new_commitment _ _ Hns) as Hc. case_decide as Hcom.
      * cbn. split_and!; congruence.
      * apply output_notes_new_ok in Hns as [Hon Hwf]. unfold outputs_accepted. cbn [to_account to_output_notes stub_id].
        split_and!; try done. exists (w1 w), (w2 w). rewrite Hget, stub_data_words.
        cbn [felt_of_id stub_id stub_nonce stub_vault_root stub_storage_root stub_code_root id_felt].
        by destruct w.
    + destruct e; try done;
        unfold output_notes_new, check_output_ids in Hns; case_decide; try done;
        destruct (check_unseen_spec out_id DuplicateOutputNote notes) as [(Hu & _)|(n & _ & Hu & _)];
        rewrite Hu in Hns; done.
    + by destruct (output_notes_new_no_panic notes).
  - pose proof (try_from_felt_not_length (w0 w)) as Hne. rewrite Hid in Hne.
    assert (Hshape : exists x rest, AdviceMap_get m final = Some (x :: rest) /\ length rest = 15%nat /\ try_from_felt x = Err e).
    { exists (w0 w). eexists. split; [rewrite Hget; reflexivity|]. split; [reflexivity|done]. }
    destruct e; try exact Hshape. by destruct (Hne actual expected).
  - by destruct (try_from_felt_no_panic (w0 w)).
Qed.

Lemma outputs_accepted_ok so m notes final ncom script out :
  take 12 (output_stack so) = rev (output_layout final ncom script) ->
  outputs_accepted final ncom m notes out -> from_transaction_parts so m notes = Ok out.
Proof.
  intros Hso ((x & y & Hget) & Hv & Hon & Hwf & Hcom). rewrite stub_data_words in Hget.
  rewrite (outputs_from_words so m notes _ _ _ _ Hso Hget), parse_stub_words. cbn [w0 w3 felt_of_id].
  rewrite (try_from_felt_valid (stub_id (to_account out)) Hv). cbn [mbind res_bind map_err].
  rewrite (proj2 (output_notes_new_ok notes (to_output_notes out))) by done. cbn [mbind res_bind].
  rewrite decide_False by (intros H; by apply H). by destruct out as [[] ?].
Qed.
End output_lemmas.

(** ** What the kernel is given *)

Section advice_spec.
Context `{F : Field} {C : Crypto} {MK : Merkle} {AS : Assembly} {P : Programs} {V : Vm} {A : Advice}
  {FE : Features} {D : Display} {B : Build}.

(** The advice stack: the block header, the account, the number of notes, the script. *)
Definition account_elements (a : Account) : list Felt := stub_data ZERO ZERO (stub_of_account a).
Definition script_root (script : option TransactionScript) : Word :=
  match script with Some s => ts_hash s | None => EMPTY_WORD end.
Definition stack_layout (ti : TransactionInputs) (script : option TransactionScript) : list Felt :=
  sub_preimage (ti_block_header ti) ++ word_elements (note_root (ti_block_header ti)) ++
  account_elements (ti_account ti) ++ [Felt_new (Z.of_nat (length (is_notes (ti_input_notes ti))) mod 2 ^ 32)] ++
  word_elements (script_root script).

(** What is added for a note: two map entries, the nodes of its path, and its data. *)
Definition note_map_entries (n : InputNote) : list (Digest * list Felt) :=
  let note := in_note n in
  [(ni_hash (nr_inputs (note_recipient note)), pad_inputs (ni_values (nr_inputs (note_recipient note))));
   (na_hash (note_assets note), asset_elements (na_assets (note_assets note)))].
Definition note_nodes (n : InputNote) : list InnerNodeInfo :=
  map (fun pr => inner_node (merge pr.1 pr.2) pr.1 pr.2)
    (path_pairs (ip_note_path (in_proof n)) (in_index n) (authentication_hash (in_note n))).
Definition args_of (args : TransactionArgs) (n : InputNote) : Word :=
  default EMPTY_WORD (get_note_args args (in_id n)).
Definition core_data (args : TransactionArgs) (n : InputNote) : list Word :=
  let r := note_recipient (in_note n) in
  [nr_serial_num r; ns_hash (nr_script r); ni_hash (nr_inputs r); na_hash (note_assets (in_note n));
   word_of_metadata (note_metadata (in_note n)); args_of args n].
Definition note_data (args : TransactionArgs) (n : InputNote) : list Felt :=
  concat (map word_elements (core_data args n)) ++
  [Felt_new (Z.of_nat (length (ni_values (nr_inputs (note_recipient (in_note n))))));
   Felt_new (Z.of_nat (length (na_assets (note_assets (in_note n)))))] ++
  asset_elements (na_assets (note_assets (in_note n))) ++
  [Felt_new (origin_block_num (in_origin n))] ++ word_elements (ip_sub_hash (in_proof n)) ++
  word_elements (ip_note_root (in_proof n)) ++ [Felt_new (in_index n)].

(** Everything added to the advice map, in order. *)
Definition chain_entry (c : ChainMmr) : Digest * list Felt :=
  (hash_peaks (chain_peaks c),
   [Felt_new (peaks_num_leaves (chain_peaks c)); ZERO; ZERO; ZERO] ++ flatten_and_pad_peaks (chain_peaks c)).
Definition account_entries (a : Account) (seed : option Word) : list (Digest * list Felt) :=
  [(layout_commitment (acc_storage a), felt_of_slot_type <$> layout (acc_storage a))] ++
  Smt_leaf_data (asset_tree (acc_vault a)) ++
  match seed with
  | Some s => [(mkWord (felt_of_id (acc_id a)) ZERO ZERO ZERO, word_elements s)]
  | None => []
  end.
Definition notes_entries (args : TransactionArgs) (ns : InputNotes InputNote) : list (Digest * list Felt) :=
  match is_notes ns with
  | [] => []
  | notes => concat (map note_map_entries notes) ++
             [(is_commitment ns, concat (map (note_data args) notes))]
  end.
Definition map_layout (ti : TransactionInputs) (args : TransactionArgs) : list (Digest * list Felt) :=
  [chain_entry (ti_block_chain ti)] ++ account_entries (ti_account ti) (ti_account_seed ti) ++
  notes_entries args (ti_input_notes ti) ++ AdviceMap_entries (ta_advice_map args).

(** The trees added to the Merkle store. *)
Definition store_layout (ti : TransactionInputs) : list InnerNodeInfo :=
  chain_inner_nodes (ti_block_chain ti) ++ SimpleSmt_inner_nodes (slots (acc_storage (ti_account ti))) ++
  Smt_inner_nodes (asset_tree (acc_vault (ti_account ti))) ++
  SimpleSmt_inner_nodes (procedure_tree (acc_code (ti_account ti))) ++
  concat (map note_nodes (is_notes (ti_input_notes ti))).

(** [a'] is [a] with a stack, entries and nodes added. *)
Definition advice_extended (a a' : AdviceInputs) (st : list Felt) (es : list (Digest * list Felt))
    (ns : list InnerNodeInfo) : Prop :=
  advice_stack a' = advice_stack a ++ st /\
  (forall k, advice_values a' k = match last_entry es k with Some v => Some v | None => advice_values a k end) /\
  (forall n, advice_nodes a' n <-> advice_nodes a n \/ n ∈ ns).

(** An input note the data can be made of: its index is one of the tree its path is
    of, which is less than 64 deep; its assets are valid and few enough to count,
    and so are its inputs, which a debug build takes only 127 of. *)
Definition note_ready (n : InputNote) : Prop :=
  (length (ip_note_path (in_proof n)) < 64)%nat /\
  0 <= in_index n < 2 ^ Z.of_nat (length (ip_note_path (in_proof n))) /\
  Forall asset_valid (na_assets (note_assets (in_note n))) /\
  Z.of_nat (length (na_assets (note_assets (in_note n)))) < 2 ^ 32 /\
  Z.of_nat (length (ni_values (nr_inputs (note_recipient (in_note n))))) <
    match profile with Debug => 128 | Release => 256 end.
End advice_spec.

Section advice_lemmas.
Context `{F : Field} {FL : FieldLaws F} {C : Crypto} {MK : Merkle} {ML : MerkleLaws MK} {AS : Assembly} {P : Programs}
  {V : Vm} {A : Advice} {AL : AdviceLaws A} {S : Stacks} {SL : StacksLaws S} {FE : Features} {D : Display} {B : Build}.

(** Extensions compose. *)
Lemma last_entry_app {K W} `{EqDecision K} (es es' : list (K * W)) (k : K) :
  last_entry (es ++ es') k = match last_entry es' k with Some v => Some v | None => last_entry es k end.
Proof.
  unfold last_entry. rewrite rev_app_distr. generalize (rev es') as l. induction l as [|e l IH]; [done|].
  cbn [app find]. by case_bool_decide.
Qed.

Lemma last_entry_in {K W} `{EqDecision K} (es : list (K * W)) (k : K) (v : W) : last_entry es k = Some v -> (k, v) ∈ es.
Proof.
  unfold last_entry. intros Hf. destruct (find _ (rev es)) as [[k' v']|] eqn:Hfind; [|done]. injection Hf as ->.
  apply find_some in Hfind as [Hin Hk]. apply bool_decide_eq_true in Hk. cbn in Hk. subst.
  by apply list_elem_of_In, in_rev.
Qed.

Lemma last_entry_some {K W} `{EqDecision K} (es : list (K * W)) (k : K) (v : W) :
  (k, v) ∈ es -> exists v', last_entry es k = Some v' /\ (k, v') ∈ es.
Proof.
  intros Hin. destruct (last_entry es k) as [v'|] eqn:He; [exists v'; split; [done|by apply last_entry_in]|].
  unfold last_entry in He. destruct (find _ (rev es)) eqn:Hfind; [done|].
  apply find_none with (x := (k, v)) in Hfind; [|by rewrite <- in_rev; apply list_elem_of_In].
  by apply bool_decide_eq_false in Hfind.
Qed.

Lemma advice_extended_refl a : advice_extended a a [] [] [].
Proof. split; [by rewrite app_nil_r|]. split; [done|]. intros n. split; [by left|by intros [?|[]%not_elem_of_nil]]. Qed.

Lemma advice_extended_trans a b c s1 s2 es1 es2 ns1 ns2 :
  advice_extended a b s1 es1 ns1 -> advice_extended b c s2 es2 ns2 ->
  advice_extended a c (s1 ++ s2) (es1 ++ es2) (ns1 ++ ns2).
Proof.
  intros (Hs & Hv & Hn) (Hs' & Hv' & Hn'). split; [by rewrite Hs', Hs, app_assoc|]. split.
  - intros k. rewrite Hv', Hv, last_entry_app. by destruct (last_entry es2 k).
  - intros n. rewrite Hn', Hn, elem_of_app. tauto.
Qed.

Lemma extended_stack a xs : advice_extended a (extend_stack a xs) xs [] [].
Proof.
  split; [apply stack_extend_stack|]. split; [apply values_extend_stack|]. intros n.
  rewrite nodes_extend_stack. set_solver.
Qed.

Lemma extended_map a es : advice_extended a (extend_map a es) [] es [].
Proof.
  split; [by rewrite stack_extend_map, app_nil_r|]. split; [apply values_extend_map|]. intros n.
  rewrite nodes_extend_map. set_solver.
Qed.

Lemma extended_store a ns : advice_extended a (extend_merkle_store a ns) [] [] ns.
Proof.
  split; [by rewrite stack_extend_store, app_nil_r|]. split; [apply values_extend_store|]. apply nodes_extend_store.
Qed.

Lemma advice_extended_eq a a' s es ns s' es' ns' :
  advice_extended a a' s es ns -> s = s' -> es = es' -> ns = ns' -> advice_extended a a' s' es' ns'.
Proof. by intros H <- <- <-. Qed.
End advice_lemmas.

(** Composes the extensions a definition makes, from the last one back. *)
Ltac extensions :=
  lazymatch goal with
  | |- advice_extended _ (extend_stack _ _) _ _ _ =>
      eapply advice_extended_trans; [|apply extended_stack]; extensions
  | |- advice_extended _ (extend_map _ _) _ _ _ => eapply advice_extended_trans; [|apply extended_map]; extensions
  | |- advice_extended _ (extend_merkle_store _ _) _ _ _ =>
      eapply advice_extended_trans; [|apply extended_store]; extensions
  | |- _ => apply advice_extended_refl
  end.

Section kernel_lemmas.
Context `{F : Field} {FL : FieldLaws F} {C : Crypto} {MK : Merkle} {ML : MerkleLaws MK} {AS : Assembly} {P : Programs}
  {V : Vm} {A : Advice} {AL : AdviceLaws A} {S : Stacks} {SL : StacksLaws S} {FE : Features} {D : Display} {B : Build}.

Lemma build_advice_stack_extends ti script a :
  advice_extended a (build_advice_stack ti script a) (stack_layout ti script) [] [].
Proof.
  unfold build_advice_stack, stack_layout, sub_preimage, account_elements, stub_data. cbv zeta.
  destruct script; (eapply advice_extended_eq; [extensions| |done|done]); by rewrite <- !app_assoc.
Qed.

Lemma add_chain_extends c a :
  advice_extended a (add_chain_mmr_to_advice_inputs c a) [] [chain_entry c] (chain_inner_nodes c).
Proof.
  eapply advice_extended_eq; [unfold add_chain_mmr_to_advice_inputs; cbv zeta; extensions|done|done|].
  by rewrite app_nil_r.
Qed.

Lemma add_account_extends acc seed a :
  advice_extended a (add_account_to_advice_inputs acc seed a) [] (account_entries acc seed)
    (SimpleSmt_inner_nodes (slots (acc_storage acc)) ++ Smt_inner_nodes (asset_tree (acc_vault acc)) ++
     SimpleSmt_inner_nodes (procedure_tree (acc_code acc))).
Proof.
  unfold add_account_to_advice_inputs, account_entries. cbv zeta.
  destruct seed; (eapply advice_extended_eq; [extensions|done|..]);
    rewrite ?app_nil_r, ?app_nil_l, <- ?app_assoc; done.
Qed.

(** A note is added completely; its index is a field element. *)
Lemma add_input_note_extends {E} args n a d :
  note_ready n ->
  exists a', add_input_note (E := E) args n (a, d) = ((a', d ++ note_data args n), Ok tt) /\
    advice_extended a a' [] (note_map_entries n) (note_nodes n).
Proof.
  intros (Hlen & Hidx & Hvalid & Hna & Hni). unfold add_input_note. run_mut. cbv zeta.
  destruct (to_padded_assets_valid (E := E) _ Hvalid) as [-> _].
  change (NodeIndex_value (origin_node_index (ip_origin (in_proof n)))) with (in_index n).
  rewrite path_inner_nodes_ok by done. cbn [expect_ok].
  assert (Hnum : num_values (E := E) (nr_inputs (note_recipient (in_note n))) =
    Ok (Z.of_nat (length (ni_values (nr_inputs (note_recipient (in_note n))))))).
  { unfold num_values, debug_assert. unfold Build in *. destruct profile.
    - rewrite bool_decide_true by done. cbn [assert_ mbind res_bind]. rewrite Z.mod_small by lia. done.
    - cbn [mbind res_bind]. rewrite Z.mod_small by lia. done. }
  rewrite Hnum. rewrite Felt_try_from_u64_ok.
  2:{ pose proof (Z.pow_le_mono_r 2 (Z.of_nat (length (ip_note_path (in_proof n)))) 63). unfold MODULUS. lia. }
  cbn [expect_ok]. eexists. split.
  - f_equal. f_equal. unfold note_data, core_data, args_of. cbn [map concat]. rewrite Z.mod_small by lia.
    rewrite app_nil_r, <- !app_assoc. done.
  - eapply advice_extended_eq; [extensions|..]; done.
Qed.

Lemma add_input_notes_loop {E} args notes a d :
  Forall note_ready notes ->
  exists a', for_each (add_input_note (E := E) args) notes (a, d) =
      ((a', d ++ concat (map (note_data args) notes)), Ok tt) /\
    advice_extended a a' [] (concat (map note_map_entries notes)) (concat (map note_nodes notes)).
Proof.
  intros Hall. revert a d. induction Hall as [|n notes Hn _ IH]; intros a d.
  - exists a. split; [cbn; by rewrite app_nil_r|apply advice_extended_refl].
  - destruct (add_input_note_extends (E := E) args n a d Hn) as (a1 & H1 & He1).
    destruct (IH a1 (d ++ note_data args n)) as (a2 & H2 & He2).
    exists a2. rewrite for_each_cons, H1, H2. split; [cbn [map concat]; by rewrite app_assoc|].
    by eapply (advice_extended_trans _ _ _ [] []).
Qed.

Lemma add_input_notes_extends {E} ns args a :
  Forall note_ready (is_notes ns) ->
  exists a', add_input_notes_to_advice_inputs (E := E) ns args a = (a', Ok tt) /\
    advice_extended a a' [] (notes_entries args ns) (concat (map note_nodes (is_notes ns))).
Proof.
  intros Hall. unfold add_input_notes_to_advice_inputs, notes_entries. case_decide as Hnil.
  - rewrite Hnil. exists a. split; [done|apply advice_extended_refl].
  - destruct (add_input_notes_loop (E := E) args (is_notes ns) a [] Hall) as (a' & Hloop & Hext).
    run_mut. rewrite Hloop. cbn [fst snd]. eexists. split; [done|].
    destruct (is_notes ns) eqn:Hns; [done|]. rewrite <- Hns in *.
    eapply advice_extended_eq; [eapply advice_extended_trans; [exact Hext|apply extended_map]|done|done|].
    by rewrite app_nil_r.
Qed.

Lemma extend_advice_inputs_extends {E} ti args a :
  Forall note_ready (is_notes (ti_input_notes ti)) ->
  exists a', extend_advice_inputs (E := E) ti args a = (a', Ok tt) /\
    advice_extended a a' (stack_layout ti (ta_tx_script args)) (map_layout ti args) (store_layout ti).
Proof.
  intros Hall. unfold extend_advice_inputs.
  pose proof (build_advice_stack_extends ti (ta_tx_script args) a) as H1.
  pose proof (add_chain_extends (ti_block_chain ti) (build_advice_stack ti (ta_tx_script args) a)) as H2.
  pose proof (add_account_extends (ti_account ti) (ti_account_seed ti)
    (add_chain_mmr_to_advice_inputs (ti_block_chain ti) (build_advice_stack ti (ta_tx_script args) a))) as H3.
  destruct (add_input_notes_extends (E := E) (ti_input_notes ti) args
    (add_account_to_advice_inputs (ti_account ti) (ti_account_seed ti)
      (add_chain_mmr_to_advice_inputs (ti_block_chain ti) (build_advice_stack ti (ta_tx_script args) a))) Hall)
    as (a' & Hrun & H4).
  run_mut. rewrite Hrun. eexists. split; [done|].
  eapply advice_extended_eq.
  - eapply advice_extended_trans; [exact H1|]. eapply advice_extended_trans; [exact H2|].
    eapply advice_extended_trans; [exact H3|]. eapply advice_extended_trans; [exact H4|]. apply extended_map.
  - by rewrite !app_nil_r.
  - done.
  - unfold store_layout. by rewrite app_nil_r, app_nil_l, <- !app_assoc.
Qed.

Lemma kernel_inputs_ok {E} ti args a :
  Forall note_ready (is_notes (ti_input_notes ti)) ->
  exists si a', kernel_inputs (E := E) ti args a = Ok (si, a') /\
    input_stack si = rev (input_layout (acc_id (ti_account ti)) (proof_init_hash (ti_account ti))
      (is_commitment (ti_input_notes ti)) (block_hash (ti_block_header ti))) /\
    advice_extended a a' (stack_layout ti (ta_tx_script args)) (map_layout ti args) (store_layout ti).
Proof.
  intros Hall. unfold kernel_inputs.
  destruct (build_input_stack_ok (E := E) (acc_id (ti_account ti)) (proof_init_hash (ti_account ti))
    (is_commitment (ti_input_notes ti)) (block_hash (ti_block_header ti))) as (si & -> & Hsi).
  destruct (extend_advice_inputs_extends (E := E) ti args a Hall) as (a' & Hrun & Hext).
  exists si, a'. cbn [mbind res_bind]. rewrite Hrun. by split_and!.
Qed.

(** An entry is found under its key, or another with that key is in the map. *)
Lemma entry_found (a a' : AdviceInputs) st es ns k v :
  advice_extended a a' st es ns -> (k, v) ∈ es ->
  advice_values a' k = Some v \/ exists v', v' <> v /\ (k, v') ∈ es.
Proof.
  intros (_ & Hv & _) Hin. destruct (last_entry_some es k v Hin) as (v' & Hl & Hin').
  rewrite Hv, Hl. destruct (decide (v' = v)) as [->|Hne]; [by left|right; by exists v'].
Qed.

(** A datum the advice has under a key, or another one given with that key. *)
Definition provided (a' : AdviceInputs) (es : list (Digest * list Felt)) (k : Digest) (v : list Felt) : Prop :=
  get_mapped_values (provider_of a') k = Some v \/ exists v', v' <> v /\ (k, v') ∈ es.

Lemma entry_provided (a a' : AdviceInputs) st es ns k v :
  advice_extended a a' st es ns -> (k, v) ∈ es -> provided a' es k v.
Proof. intros Hext Hin. unfold provided. rewrite provider_values. by apply (entry_found a a' st es ns). Qed.

Lemma stack_layout_length ti script : length (stack_layout ti script) = 57%nat.
Proof. done. Qed.

(** The entries of the notes among those of the map. *)
Lemma notes_entry ti args : is_notes (ti_input_notes ti) <> [] ->
  (is_commitment (ti_input_notes ti), concat (map (note_data args) (is_notes (ti_input_notes ti)))) ∈ map_layout ti args.
Proof.
  intros Hne. unfold map_layout, notes_entries. destruct (is_notes (ti_input_notes ti)) as [|n l]; [done|].
  rewrite !elem_of_app, !list_elem_of_singleton. tauto.
Qed.

Lemma note_entry ti args n e : n ∈ is_notes (ti_input_notes ti) -> e ∈ note_map_entries n -> e ∈ map_layout ti args.
Proof.
  intros Hn He. unfold map_layout, notes_entries.
  assert (Hin : e ∈ concat (map note_map_entries (is_notes (ti_input_notes ti)))).
  { apply list_elem_of_In, in_concat. exists (note_map_entries n). split; [by apply in_map, list_elem_of_In|].
    by apply list_elem_of_In. }
  destruct (is_notes (ti_input_notes ti)) as [|n0 l]; [by apply not_elem_of_nil in Hn|].
  rewrite !elem_of_app. tauto.
Qed.

(** What is provided for the two hashes in the data of a note. *)
Lemma note_entries_provided ti args n a' :
  (forall k v, (k, v) ∈ map_layout ti args -> provided a' (map_layout ti args) k v) ->
  n ∈ is_notes (ti_input_notes ti) -> Forall (fun e => hash_elements e.2 = e.1) (note_map_entries n) ->
  exists inputs assets,
    take 4 (drop 8 (note_data args n)) = word_elements (hash_elements inputs) /\
    provided a' (map_layout ti args) (hash_elements inputs) inputs /\
    take 4 (drop 12 (note_data args n)) = word_elements (hash_elements assets) /\
    provided a' (map_layout ti args) (hash_elements assets) assets /\
    take (length assets) (drop 26 (note_data args n)) = assets.
Proof.
  intros Hprov Hn [Hi [Ha _]%Forall_cons_1]%Forall_cons_1. cbn [fst snd] in Hi, Ha.
  exists (pad_inputs (ni_values (nr_inputs (note_recipient (in_note n))))), (asset_elements (na_assets (note_assets (in_note n)))).
  rewrite Hi, Ha. split; [done|]. split; [apply Hprov, (note_entry ti args n); [done|by left]|].
  split; [done|]. split; [apply Hprov, (note_entry ti args n); [done|by right; left]|].
  change (drop 26 (note_data args n)) with (asset_elements (na_assets (note_assets (in_note n))) ++
    [Felt_new (origin_block_num (in_origin n))] ++ word_elements (ip_sub_hash (in_proof n)) ++
    word_elements (ip_note_root (in_proof n)) ++ [Felt_new (in_index n)]).
  apply take_app_length.
Qed.
End kernel_lemmas.

(** ** Reading the combined note data

    The layout the documentation of [add_input_notes_to_advice_inputs] gives, as a
    parser. *)

Section decoding.
Context `{F : Field}.

Record NoteData := mkNoteData {
  nd_core : list Word;               (* serial number, script, inputs, assets, metadata, arguments *)
  nd_num_inputs : Felt; nd_num_assets : Felt;
  nd_assets : list Felt;             (* with the padding *)
  nd_block_num : Felt; nd_sub_hash : Word; nd_note_root : Word; nd_node_index : Felt }.

Definition take_word (xs : list Felt) : option (Word * list Felt) :=
  match xs with
  | a :: b :: c :: d :: xs' => Some (mkWord a b c d, xs')
  | _ => None
  end.

Fixpoint take_words (n : nat) (xs : list Felt) : option (list Word * list Felt) :=
  match n with
  | O => Some ([], xs)
  | S n' => '(w, xs) ← take_word xs; '(ws, xs) ← take_words n' xs; Some (w :: ws, xs)
  end.

(** The assets take four elements each, and four more if their number is odd. *)
Definition assets_length (num_assets : Felt) : nat :=
  let n := Z.to_nat (as_int num_assets) in (n * 4 + if decide (n mod 2 = 1)%nat then 4 else 0)%nat.

Definition decode_note (xs : list Felt) : option (NoteData * list Felt) :=
  '(core, xs) ← take_words 6 xs;
  match xs with
  | num_inputs :: num_assets :: xs =>
      let assets := take (assets_length num_assets) xs in
      match drop (assets_length num_assets) xs with
      | block_num :: xs =>
          '(sub_hash, xs) ← take_word xs;
          '(note_root, xs) ← take_word xs;
          match xs with
          | node_index :: xs =>
              Some (mkNoteData core num_inputs num_assets assets block_num sub_hash note_root node_index, xs)
          | [] => None
          end
      | [] => None
      end
  | _ => None
  end.

Fixpoint decode_notes (n : nat) (xs : list Felt) : option (list NoteData) :=
  match n with
  | O => match xs with [] => Some [] | _ => None end
  | S n' => '(d, xs) ← decode_note xs; ds ← decode_notes n' xs; Some (d :: ds)
  end.
End decoding.

Section decoding_lemmas.
Context `{F : Field} {FL : FieldLaws F} {C : Crypto} {MK : Merkle} {AS : Assembly} {P : Programs} {V : Vm} {A : Advice}.

Lemma take_word_elements (w : Word) xs : take_word (word_elements w ++ xs) = Some (w, xs).
Proof. by destruct w. Qed.

Lemma take_words_elements (ws : list Word) xs :
  take_words (length ws) (concat (map word_elements ws) ++ xs) = Some (ws, xs).
Proof.
  induction ws as [|w ws IH]; [done|]. cbn [length map concat take_words]. rewrite <- app_assoc, take_word_elements.
  cbn. by rewrite IH.
Qed.

Lemma length_asset_elements (assets : list Asset) :
  length (asset_elements assets) = (length assets * 4 + if decide (length assets mod 2 = 1)%nat then 4 else 0)%nat.
Proof.
  unfold asset_elements. rewrite length_app, <- map_map, length_words, length_map. case_decide; cbn; lia.
Qed.

Definition data_of (args : TransactionArgs) (n : InputNote) : NoteData :=
  mkNoteData (core_data args n)
    (Felt_new (Z.of_nat (length (ni_values (nr_inputs (note_recipient (in_note n)))))))
    (Felt_new (Z.of_nat (length (na_assets (note_assets (in_note n))))))
    (asset_elements (na_assets (note_assets (in_note n))))
    (Felt_new (origin_block_num (in_origin n))) (ip_sub_hash (in_proof n)) (ip_note_root (in_proof n))
    (Felt_new (in_index n)).

Lemma decode_note_data args n xs :
  Z.of_nat (length (na_assets (note_assets (in_note n)))) < 2 ^ 32 ->
  decode_note (note_data args n ++ xs) = Some (data_of args n, xs).
Proof.
  intros Hlen. unfold decode_note, note_data. rewrite <- !app_assoc.
  change 6%nat with (length (core_data args n)). rewrite take_words_elements. cbn [mbind option_bind app].
  assert (Hal : assets_length (Felt_new (Z.of_nat (length (na_assets (note_assets (in_note n)))))) =
    length (asset_elements (na_assets (note_assets (in_note n))))).
  { unfold assets_length. rewrite as_int_new_small by (unfold MODULUS; lia). by rewrite Nat2Z.id, length_asset_elements. }
  rewrite Hal, drop_app_length, take_app_length. cbn [mbind option_bind].
  rewrite take_word_elements. cbn [mbind option_bind]. by rewrite take_word_elements.
Qed.
End decoding_lemmas.

(** ** Properties *)

Section kernel_properties.
Context `{F : Field} {FL : FieldLaws F} {C : Crypto} {SSL : SimpleSmtLaws C} {MK : Merkle} {ML : MerkleLaws MK} {AS : Assembly} {P : Programs}
  {V : Vm} {A : Advice} {AL : AdviceLaws A} {S : Stacks} {SL : StacksLaws S} {L : Linker} {FE : Features} {D : Display}
  {B : Build} {IO : ByteIO}.

(** C27: the inputs of the kernel can be made for notes that are ready, of a prepared
    transaction, of an executed one and of a witness. The stack has the public inputs.
    The advice stack gets the block header, the account, the number of input notes and
    the root of the transaction script, where the documentation of the function that
    builds it has the account seed; the advice map gets the entries, and the Merkle
    store the nodes, of the chain, the account, the notes and the arguments, in that
    order and no others: the seed, when there is one, is in the map, and there is no
    entry for a procedure of the account, which is documented too. Every entry is found
    under its key unless another datum has the same key. *)
Theorem kernel_inputs_spec (ti : TransactionInputs) (args : TransactionArgs) (a : AdviceInputs) (p : Program)
    (out : TransactionOutputs) (delta : AccountDelta) (Hready : Forall note_ready (is_notes (ti_input_notes ti))) :
  exists si a', get_kernel_inputs unit (mkTxWitness p ti args a) = Ok (si, a') /\
    (forall id, get_kernel_inputs unit (mkExecuted id p ti out delta args a) = Ok (si, a')) /\
    (a = AdviceInputs_default -> get_kernel_inputs unit (mkPrepared p ti args) = Ok (si, a')) /\
    input_stack si = rev (input_layout (acc_id (ti_account ti)) (proof_init_hash (ti_account ti))
      (is_commitment (ti_input_notes ti)) (block_hash (ti_block_header ti))) /\
    advice_extended a a' (stack_layout ti (ta_tx_script args)) (map_layout ti args) (store_layout ti) /\
    (forall k v, (k, v) ∈ map_layout ti args ->
       get_mapped_values (provider_of a') k = Some v \/ exists v', v' <> v /\ (k, v') ∈ map_layout ti args).
Proof.
  destruct (kernel_inputs_ok (E := unit) ti args a Hready) as (si & a' & Hok & Hsi & Hext).
  exists si, a'. split; [exact Hok|]. split; [intros id; exact Hok|].
  split; [intros ->; exact Hok|]. split; [done|]. split; [done|]. intros k v Hin. rewrite provider_values.
  by apply (entry_found a a' (stack_layout ti (ta_tx_script args)) _ (store_layout ti)).
Qed.

Lemma layout_authenticated (acc : Account) (seed : option Word) (header : BlockHeader) (chain : ChainMmr)
    (notes : InputNotes InputNote) (ti : TransactionInputs) (args : TransactionArgs)
    (Hti : transaction_inputs_new acc seed header chain notes = Ok ti)
    (Hheader : header_consistent header) (Hnotes : Forall (fun n => note_wf (in_note n)) (is_notes notes))
    (Hcom : input_notes_wf notes) :
  let st := stack_layout ti (ta_tx_script args) in
  (exists root, take 4 (drop 32 st) = word_elements root /\ merge (hash_elements (take 32 st)) root = block_hash header) /\
  take 4 (drop 4 st) = word_elements (chain_entry chain).1 /\
  (if is_new acc then exists s, (mkWord (felt_of_id (acc_id acc)) ZERO ZERO ZERO, word_elements s) ∈ map_layout ti args /\
       AccountId_new s (code_root (acc_code acc)) (storage_root (acc_storage acc)) = Ok (acc_id acc)
   else hash_elements (take 16 (drop 36 st)) = proof_init_hash acc) /\
  drop 52 st = Felt_new (Z.of_nat (length (is_notes notes))) :: word_elements (script_root (ta_tx_script args)) /\
  (is_notes notes <> [] -> is_commitment notes =
     hash_elements (concat (map (fun d => word_elements (hash_elements (take 16 d)) ++ word_elements EMPTY_WORD)
       (map (note_data args) (is_notes notes))))) /\
  Forall (fun n => take 16 (note_data args n) = nullifier_preimage (in_note n) /\
    Forall (fun e => hash_elements e.2 = e.1) (note_map_entries n)) (is_notes notes).
Proof.
  cbv zeta. apply transaction_inputs_new_ok in Hti as (-> & Hseed & _ & Hroot & _).
  destruct Hheader as (Hnum & Hsub & Hhash), Hcom as (Hlen & _ & Hcom).
  assert (Hnull : Forall (fun n => hash_elements (take 16 (note_data args n)) = nullifier_digest (nullifier n))
    (is_notes notes)).
  { apply (Forall_impl _ _ _ Hnotes). intros n (_ & _ & _ & _ & Hn). cbn [nullifier InputNote_nullifier].
    by rewrite Hn. }
  split; [|split; [|split; [|split; [|split]]]].
  - exists (note_root header). split; [done|]. by rewrite Hhash, Hsub.
  - cbn. by rewrite Hroot.
  - unfold seed_accepted, proof_init_hash in *. destruct (is_new acc) eqn:Hnew; [|done].
    destruct seed as [s|]; [|done]. exists s. split; [|done]. unfold map_layout, account_entries.
    cbn [ti_account ti_account_seed]. set_solver.
  - unfold stack_layout. cbn [ti_block_header ti_account ti_input_notes].
    rewrite Z.mod_small by (unfold MAX_INPUT_NOTES_PER_TX in Hlen; lia). done.
  - intros Hne. rewrite Hcom. unfold build_input_notes_commitment. destruct (is_notes notes) as [|n l]; [done|].
    do 2 f_equal. rewrite map_map. clear -Hnull. induction Hnull as [|x l' Hx _ IH]; [done|].
    cbn [map]. by rewrite Hx, IH.
  - apply (Forall_impl _ _ _ Hnotes). intros n ((_ & _ & _ & Ha) & _ & ((_ & Hi) & _) & _). split; [done|].
    repeat constructor; done.
Qed.

(** C9: what the kernel is given without proof hashes to its public inputs. Of the 57
    elements that are put on the advice stack, the header's hash to the block hash; the
    chain root among them is the hash of the peaks that are provided for it; the account
    data hash to the initial account hash, or, for a new account, the seed that is
    provided gives the identifier with the code and storage roots on the stack. The data
    provided for the input notes commitment are one list for each note, which opens with
    the data of its nullifier; the commitment is the hash of these nullifiers; and what
    is provided for the hashes of the inputs and of the assets in the list hashes to
    them, the assets being in the list as well. A datum is provided for a key if the
    advice map has it there, or has there another one among those it was given. *)
Theorem kernel_inputs_authenticated (acc : Account) (seed : option Word) (header : BlockHeader) (chain : ChainMmr)
    (notes : InputNotes InputNote) (ti : TransactionInputs) (args : TransactionArgs) (a : AdviceInputs)
    (Hti : transaction_inputs_new acc seed header chain notes = Ok ti)
    (Hheader : header_consistent header) (Hnotes : Forall (fun n => note_wf (in_note n)) (is_notes notes))
    (Hcom : input_notes_wf notes) (Hready : Forall note_ready (is_notes notes)) :
  exists si a' st init_hash notes_hash root chain_root storage code,
    kernel_inputs (E := unit) ti args a = Ok (si, a') /\
    input_stack si = rev (input_layout (acc_id acc) init_hash notes_hash (merge (hash_elements (take 32 st)) root)) /\
    advice_stack a' = advice_stack a ++ st /\ length st = 57%nat /\
    take 4 (drop 32 st) = word_elements root /\
    take 4 (drop 4 st) = word_elements chain_root /\
    (exists peaks, hash_peaks peaks = chain_root /\ provided a' (map_layout ti args) chain_root
       ([Felt_new (peaks_num_leaves peaks); ZERO; ZERO; ZERO] ++ flatten_and_pad_peaks peaks)) /\
    take 4 (drop 44 st) = word_elements storage /\ take 4 (drop 48 st) = word_elements code /\
    (if is_new acc
     then init_hash = EMPTY_WORD /\ exists s, AccountId_new s code storage = Ok (acc_id acc) /\
       provided a' (map_layout ti args) (mkWord (felt_of_id (acc_id acc)) ZERO ZERO ZERO) (word_elements s)
     else init_hash = hash_elements (take 16 (drop 36 st))) /\
    drop 52 st = Felt_new (Z.of_nat (length (is_notes notes))) :: word_elements (script_root (ta_tx_script args)) /\
    (is_notes notes <> [] -> exists ds, provided a' (map_layout ti args) notes_hash (concat ds) /\
       notes_hash = hash_elements (concat (map
         (fun d => word_elements (hash_elements (take 16 d)) ++ word_elements EMPTY_WORD) ds)) /\
       Forall2 (fun n d => take 16 d = nullifier_preimage (in_note n) /\ exists inputs assets,
         take 4 (drop 8 d) = word_elements (hash_elements inputs) /\
         provided a' (map_layout ti args) (hash_elements inputs) inputs /\
         take 4 (drop 12 d) = word_elements (hash_elements assets) /\
         provided a' (map_layout ti args) (hash_elements assets) assets /\
         take (length assets) (drop 26 d) = assets) (is_notes notes) ds).
Proof.
  destruct (layout_authenticated acc seed header chain notes ti args Hti Hheader Hnotes Hcom)
    as ((root & Hroot & Hbh) & Hchain & Hacc & Hscript & Hnh & Hdata).
  pose proof Hti as Hti'. apply transaction_inputs_new_ok in Hti' as [Heq _].
  destruct (kernel_inputs_ok (E := unit) ti args a) as (si & a' & Hok & Hsi & Hext); [by rewrite Heq|].
  assert (Hprov : forall k v, (k, v) ∈ map_layout ti args -> provided a' (map_layout ti args) k v)
    by (intros k v; by apply (entry_provided a a' (stack_layout ti (ta_tx_script args)) _ (store_layout ti))).
  exists si, a', (stack_layout ti (ta_tx_script args)), (proof_init_hash acc), (is_commitment notes), root,
    (chain_entry chain).1, (storage_root (acc_storage acc)), (code_root (acc_code acc)).
  split; [exact Hok|]. split; [by rewrite Hbh, Hsi, Heq|]. split; [apply Hext|]. split; [apply stack_layout_length|].
  split; [exact Hroot|]. split; [exact Hchain|]. split.
  { exists (chain_peaks chain). split; [done|]. apply Hprov. rewrite Heq. unfold map_layout. by left. }
  split; [by rewrite Heq|]. split; [by rewrite Heq|]. split; [|split; [exact Hscript|]].
  - destruct (is_new acc) eqn:Hnew; [|done]. split; [unfold proof_init_hash; by rewrite Hnew|].
    destruct Hacc as (s & Hin & Hid). exists s. split; [exact Hid|by apply Hprov].
  - intros Hne. exists (map (note_data args) (is_notes notes)). split.
    { apply Hprov. rewrite Heq. exact (notes_entry (mkTransactionInputs acc seed header chain notes) args Hne). }
    split; [by apply Hnh|]. apply Forall2_fmap_r, Forall_Forall2_diag, Forall_forall. intros n Hn.
    destruct (proj1 (Forall_forall _ _) Hdata n Hn) as [Hnull Hents]. split; [exact Hnull|].
    destruct (note_entries_provided ti args n a' Hprov) as (inputs & assets & H); [by rewrite Heq|done|].
    by exists inputs, assets.
Qed.

(** The combined note data can be read back by the layout in the documentation:
    the number of assets tells where the data of a note ends, and so the data of
    several notes, one after the other, are those of each. *)
Theorem note_data_decodes (args : TransactionArgs) (notes : list InputNote) (Hready : Forall note_ready notes) :
  decode_notes (length notes) (concat (map (note_data args) notes)) = Some (map (data_of args) notes).
Proof.
  induction Hready as [|n notes (_ & _ & _ & Hlen & _) _ IH]; [done|]. cbn [length map concat decode_notes].
  rewrite decode_note_data by done. cbn [mbind option_bind]. by rewrite IH.
Qed.

(** The input stack holds, from the top, the reversed elements of the block hash,
    the account identifier, the initial account hash and the input notes
    commitment, and no others have that stack; what is put on the output stack is
    parsed back, with the empty word for no script; and a stack of outputs is parsed
    to the three words it has at the top, so that the stack built from these agrees
    with it there. *)
Theorem kernel_stacks_round_trip :
  (forall id init notes block, exists si, build_input_stack (E := unit) id init notes block = Ok si /\
     input_stack si = rev (word_elements notes ++ word_elements init ++ [felt_of_id id] ++ word_elements block) /\
     forall id' init' notes' block' si', build_input_stack (E := unit) id' init' notes' block' = Ok si' ->
       input_stack si' = input_stack si -> id' = id /\ init' = init /\ notes' = notes /\ block' = block) /\
  (forall final notes script, exists so, build_output_stack (E := unit) final notes script = Ok so /\
     parse_output_stack (E := unit) so = Ok (final, notes, default EMPTY_WORD script)) /\
  (forall so, exists final notes script so', parse_output_stack (E := unit) so = Ok (final, notes, script) /\
     build_output_stack (E := unit) final notes (Some script) = Ok so' /\
     take 12 (output_stack so') = take 12 (output_stack so)).
Proof.
  split; [|split].
  - intros id init notes block. destruct (build_input_stack_ok (E := unit) id init notes block) as (si & Hsi & Hs).
    exists si. split; [done|]. split; [done|]. intros id' init' notes' block' si' Hsi' Heq.
    destruct (build_input_stack_ok (E := unit) id' init' notes' block') as (si2 & Hsi2 & Hs2).
    rewrite Hsi' in Hsi2. injection Hsi2 as <-. rewrite Hs, Hs2 in Heq. apply (f_equal (@rev Felt)) in Heq.
    rewrite !rev_involutive in Heq. by apply input_layout_inj.
  - intros final notes script. destruct (build_output_stack_ok (E := unit) final notes script) as (so & Hso & Hs).
    exists so. split; [done|]. apply parse_output_stack_ok. by rewrite Hs.
  - intros so. destruct (output_words so) as (final & notes & script & Hw).
    destruct (build_output_stack_ok (E := unit) final notes (Some script)) as (so' & Hso' & Hs').
    exists final, notes, script, so'. split; [by apply parse_output_stack_ok|]. split; [done|].
    by rewrite Hs', Hw.
Qed.

(** C28: the outputs of a transaction are read from the words of the output stack and
    from the advice map: they are accepted exactly when the map has under the
    final account hash four words that describe an account with a valid
    identifier, and the notes have no two with one identifier, at most 4096, and
    the commitment on the stack; every other outcome is reported with its cause;
    and data that is not of whole words makes it panic. The stub has the final
    account hash when the data in the map are what that hash is of. *)
Theorem from_transaction_parts_spec (so : StackOutputs) (m : AdviceMap) (notes : list OutputNote) :
  exists final ncom script, parse_output_stack (E := unit) so = Ok (final, ncom, script) /\
    (forall out, from_transaction_parts so m notes = Ok out <-> outputs_accepted final ncom m notes out) /\
    (forall e, from_transaction_parts so m notes = Err e -> outputs_fault final ncom m notes e) /\
    (from_transaction_parts so m notes = Panic <->
       exists xs, AdviceMap_get m final = Some xs /\ (length xs mod 4 <> 0)%nat) /\
    (forall out, from_transaction_parts so m notes = Ok out ->
       AdviceMap_get m final = Some (stub_data ZERO ZERO (to_account out)) ->
       (forall xs, AdviceMap_get m final = Some xs -> hash_elements xs = final) ->
       stub_hash (to_account out) = final).
Proof.
  destruct (output_words so) as (final & ncom & script & Hw). exists final, ncom, script.
  pose proof (outputs_outcome so m notes final ncom script Hw) as Hout.
  split; [by apply parse_output_stack_ok|]. split_and!.
  - intros out. split; [intros Heq; by rewrite Heq in Hout|]. by apply (outputs_accepted_ok so m notes final ncom script).
  - intros e Heq. by rewrite Heq in Hout.
  - split; [intros Heq; by rewrite Heq in Hout|]. intros (xs & Hget & Hm).
    unfold from_transaction_parts. rewrite (parse_output_stack_ok so final ncom script Hw). cbn [mbind res_bind].
    rewrite Hget. cbn [ok_or mbind res_bind]. by rewrite group_panics.
  - intros out _ Hget Hkey. by rewrite <- (Hkey _ Hget).
Qed.
End kernel_properties.

(** ** Witnesses *)

Import RefInstances RefMachine.

Lemma consumed_ready path : proof_shaped (input_of path) -> Forall note_ready [input_of path].
Proof.
  intros (_ & Hidx & Hlen). constructor; [|constructor]. split; [rewrite Hlen; by vm_compute; lia|].
  split; [by rewrite Hlen|]. split; [apply (sample_note_wf [ONE]); by vm_compute|]. split; by vm_compute.
Qed.

Definition sample_program : Program := program_with_kernel EMPTY_WORD tt [].

Lemma kernel_inputs_spec_witness :
  exists ti args a si a', get_kernel_inputs unit (mkTxWitness sample_program ti args a) = Ok (si, a') /\
    is_notes (ti_input_notes ti) <> [].
Proof.
  destruct consumed_inputs as (acc & header & chain & path & ti & Hti & _ & Hshape & _).
  apply transaction_inputs_new_ok in Hti as [-> _].
  destruct (sample_account ONE) as (x & _).
  set (ti := mkTransactionInputs acc None header chain
    (mkInputNotes [input_of path] (build_input_notes_commitment [input_of path]))).
  destruct (kernel_inputs_spec ti tx_args_default AdviceInputs_default sample_program
    (mkTransactionOutputs (stub_of_account x) (mkOutputNotes [] EMPTY_WORD))
    (mkAccountDelta (mkAccountStorageDelta [] []) (mkAccountVaultDelta [] []) None))
    as (si & a' & Hok & _); [exact (consumed_ready path Hshape)|].
  exists ti, tx_args_default, AdviceInputs_default, si, a'. split; [exact Hok|discriminate].
Defined.

Lemma kernel_inputs_authenticated_witness :
  exists ti si a' st header root, kernel_inputs (E := unit) ti tx_args_default AdviceInputs_default = Ok (si, a') /\
    is_notes (ti_input_notes ti) <> [] /\ advice_stack a' = st /\ length st = 57%nat /\
    merge (hash_elements (take 32 st)) root = block_hash header /\ ti_block_header ti = header.
Proof.
  destruct consumed_inputs as (acc & header & chain & path & ti & Hti & Hheader & Hshape & Hcom & _).
  assert (Hnotes : Forall (fun n => note_wf (in_note n)) [input_of path]).
  { constructor; [|constructor]. apply sample_note_wf. by vm_compute. }
  destruct (kernel_inputs_authenticated acc None header chain
    (mkInputNotes [input_of path] (build_input_notes_commitment [input_of path])) ti tx_args_default AdviceInputs_default
    Hti Hheader Hnotes Hcom (consumed_ready path Hshape))
    as (si & a' & st & ih & nh & root & cr & sr & co & Hok & Hsi & Hst & Hlen & _).
  apply transaction_inputs_new_ok in Hti as [Heq _]. exists ti, si, a', st, header, root. split; [exact Hok|].
  split; [by rewrite Heq|]. split; [exact Hst|]. split; [exact Hlen|]. split; [|by rewrite Heq].
  destruct (kernel_inputs_ok (E := unit) ti tx_args_default AdviceInputs_default) as (si' & a2 & Hok' & Hsi' & _);
    [rewrite Heq; exact (consumed_ready path Hshape)|].
  assert (si' = si) as -> by congruence. rewrite Hsi' in Hsi. apply (f_equal (@rev Felt)) in Hsi.
  rewrite !rev_involutive in Hsi. apply input_layout_inj in Hsi as (_ & _ & _ & Hbh). rewrite <- Hbh. by rewrite Heq.
Defined.

Lemma note_data_decodes_witness :
  exists path d, decode_notes 2 (concat (map (note_data tx_args_default) [input_of path; input_of path])) = Some [d; d].
Proof.
  destruct consumed_inputs as (_ & _ & _ & path & _ & _ & _ & Hshape & _).
  apply consumed_ready, Forall_cons_1, proj1 in Hshape.
  exists path, (data_of tx_args_default (input_of path)).
  apply (note_data_decodes tx_args_default [input_of path; input_of path]).
  constructor; [exact Hshape|]. constructor; [exact Hshape|constructor].
Defined.

Lemma kernel_stacks_round_trip_witness :
  exists so, build_output_stack (E := unit) (mkWord ONE ZERO ZERO ZERO) (mkWord ZERO ONE ZERO ZERO) None = Ok so /\
    parse_output_stack (E := unit) so = Ok (mkWord ONE ZERO ZERO ZERO, mkWord ZERO ONE ZERO ZERO, EMPTY_WORD).
Proof.
  destruct (kernel_stacks_round_trip (S := RefStacks)) as (_ & Hout & _).
  exact (Hout (mkWord ONE ZERO ZERO ZERO) (mkWord ZERO ONE ZERO ZERO) None).
Defined.

Lemma parsed_words {E X Y Z} (x x' : X) (y y' : Y) (z z' : Z) :
  Ok (E := E) (x, y, z) = Ok (x', y', z') -> x = x' /\ y = y' /\ z = z'.
Proof. by intros [= -> -> ->]. Qed.

(** An account the outputs describe is read back, and three elements make it panic. *)
Lemma from_transaction_parts_spec_witness :
  exists st so m out, from_transaction_parts so m [] = Ok out /\ to_account out = st /\
    from_transaction_parts so (AdviceMap_insert m (stub_hash st) [ONE; ONE; ONE]) [] = Panic.
Proof.
  destruct (sample_account ONE) as (a & Hwf & _). set (st := stub_of_account a).
  destruct (build_output_stack_ok (E := unit) (stub_hash st) EMPTY_WORD None) as (so & _ & Hso).
  assert (Hp : parse_output_stack (E := unit) so = Ok (stub_hash st, EMPTY_WORD, EMPTY_WORD))
    by (apply parse_output_stack_ok; by rewrite Hso).
  set (m := AdviceMap_insert AdviceMap_default (stub_hash st) (stub_data ZERO ZERO st)).
  set (out := mkTransactionOutputs st (mkOutputNotes [] EMPTY_WORD)).
  exists st, so, m, out. split; [|split; [reflexivity|]].
  - destruct (from_transaction_parts_spec so m []) as (final & ncom & script & Hparse & Hok & _).
    rewrite Hp in Hparse. apply parsed_words in Hparse as (<- & <- & <-). apply Hok. unfold outputs_accepted.
    split; [exists ZERO, ZERO; unfold m; by rewrite AdviceMap_get_insert, decide_True|].
    split; [apply Hwf|]. split; [reflexivity|]. split; [|reflexivity].
    split; [unfold MAX_OUTPUT_NOTES_PER_TX; cbn; lia|]. split; [constructor|reflexivity].
  - destruct (from_transaction_parts_spec so (AdviceMap_insert m (stub_hash st) [ONE; ONE; ONE]) [])
      as (final & ncom & script & Hparse & _ & _ & Hpanic & _).
    rewrite Hp in Hparse. apply parsed_words in Hparse as (<- & <- & <-). apply Hpanic. exists [ONE; ONE; ONE].
    split; [by rewrite AdviceMap_get_insert, decide_True|discriminate].
Defined.
