(* ===== verification/Compiler.v ===== *)
(** miden-tx/src/compiler/mod.rs (and its errors of error.rs): the programs of
    transactions, made of the kernel and the scripts of the notes and of the
    transaction, and the check that scripts fit the interface of an account. *)
From S2P Require Import Prelude Interfaces Types Reference BTree AccountIds Assets NoteMeta NoteContents Notes Blocks Chain.
From S2P Require Import Vault Storage Delta Code Account Outputs Inputs Machine Transactions.
Local Open Scope Z_scope.

(** ** Calls of a program *)

Section calls.
Context `{F : Field}.

(** [branches.last_mut().expect(..).push(hash)]. *)
Definition push_call {E} (hash : Digest) : mut (list (list Digest)) E unit :=
  branches ← read_self;
  l ← lift (expect (last branches));
  write_self (removelast branches ++ [l ++ [hash]]).

(** [branches.last().expect(..)]. *)
Definition last_branch {E} : mut (list (list Digest)) E (list Digest) :=
  branches ← read_self; lift (expect (last branches)).

Fixpoint recursively_collect_call_branches {E} (code_block : BlockTree) : mut (list (list Digest)) E unit :=
  match code_block with
  | Join first second =>
      _ ← recursively_collect_call_branches first;
      recursively_collect_call_branches second
  | Split on_true on_false =>
      l ← last_branch;
      let current_len := length l in
      _ ← recursively_collect_call_branches on_false;
      l ← last_branch;
      _ ← (if decide (current_len < length l)%nat
           then branches ← read_self; write_self (branches ++ [take current_len l]) else mret tt);
      recursively_collect_call_branches on_true
  | Loop body => recursively_collect_call_branches body
  | Call fn_hash is_syscall => if is_syscall : bool then mret tt else push_call fn_hash
  | Span | Proxy | Dyn => mret tt
  end.

Definition collect_call_branches {E} (code_block : BlockTree) : res E (list (list Digest)) :=
  let '(branches, r) := recursively_collect_call_branches code_block [[]] in
  _ ← r; Ok branches.
End calls.

(** ** The compiler *)

Section compiler.
Context `{F : Field} {C : Crypto} {MK : Merkle} {AS : Assembly} {P : Programs} {L : Linker} {V : Vm} {A : Advice}
  {D : Display}.

(** error.rs *)
Inductive TransactionCompilerError :=
| AccountInterfaceNotFound (id : AccountId)
| BuildCodeBlockTableFailed (e : AssemblyError)
| CompileNoteScriptFailed (e : AssemblyError)
| CompileTxScriptFailed (e : AssemblyError)
| LoadAccountFailed (e : AccountError)
| NoteIncompatibleWithAccountInterface (hash : Digest)
| NoteScriptError (e : NoteError)
| NoTransactionDriver
| TxScriptIncompatibleWithAccountInterface (hash : Digest).

Inductive ScriptTarget :=
| TargetAccountId (id : AccountId)
| TargetProcedures (procs : list Digest).

Inductive ScriptType := ScriptType_NoteScript | ScriptType_TransactionScript.

(** The interfaces are a [BTreeMap]. *)
Record TransactionCompiler := mkCompiler {
  cp_assembler : Assembler;
  account_procedures : list (AccountId * list Digest);
  cp_kernel_main : CodeBlock }.

Definition compiler_new {E} : res E TransactionCompiler :=
  let assembler := kernel_assembler in
  main_ast ← expect_ok kernel_main;
  kernel_main ← expect_ok (compile_in_context assembler main_ast);
  Ok (mkCompiler assembler [] kernel_main).

(** [self.account_procedures.insert(id, procedures)], which returns the old value. *)
Definition insert_interface {E} (account_id : AccountId) (procedures : list Digest)
    : mut TransactionCompiler E (option (list Digest)) :=
  self ← read_self;
  _ ← write_self (mkCompiler (cp_assembler self)
        (btree_insert AccountId_cmp (account_procedures self) account_id procedures) (cp_kernel_main self));
  mret (btree_get (account_procedures self) account_id).

Definition load_account (account_id : AccountId) (account_code : ModuleAst)
    : mut TransactionCompiler TransactionCompilerError AccountCode :=
  self ← read_self;
  account_code ← lift (map_err LoadAccountFailed (code_new account_code (cp_assembler self)));
  _ ← insert_interface account_id (procedures account_code);
  mret account_code.

Definition load_account_interface {E} (account_id : AccountId) (procedures : list Digest)
    : mut TransactionCompiler E (option (list Digest)) :=
  insert_interface account_id procedures.

Definition get_target_interface (self : TransactionCompiler) (target : ScriptTarget)
    : res TransactionCompilerError (list Digest) :=
  match target with
  | TargetAccountId id => ok_or (btree_get (account_procedures self) id) (AccountInterfaceNotFound id)
  | TargetProcedures procs => Ok procs
  end.

Definition verify_program_account_compatibility (program : CodeBlock) (target_account_interface : list Digest)
    (script_type : ScriptType) : res TransactionCompilerError unit :=
  branches ← collect_call_branches (block_tree program);
  if negb (existsb (fun call_targets =>
       forallb (fun target => bool_decide (target ∈ target_account_interface)) call_targets) branches)
  then match script_type with
       | ScriptType_NoteScript => Err (NoteIncompatibleWithAccountInterface (code_block_hash program))
       | ScriptType_TransactionScript => Err (TxScriptIncompatibleWithAccountInterface (code_block_hash program))
       end
  else Ok tt.

(** The loop over the targets of a script. *)
Fixpoint verify_targets (self : TransactionCompiler) (code_block : CodeBlock) (script_type : ScriptType)
    (targets : list ScriptTarget) : res TransactionCompilerError unit :=
  match targets with
  | [] => Ok tt
  | target :: targets' =>
      interface ← get_target_interface self target;
      _ ← verify_program_account_compatibility code_block interface script_type;
      verify_targets self code_block script_type targets'
  end.

Definition compile_note_script (self : TransactionCompiler) (note_script_ast : ProgramAst)
    (target_account_proc : list ScriptTarget) : res TransactionCompilerError NoteScript :=
  '(note_script, code_block) ← map_err (fun err => match err with
      | NoteMeta.ScriptCompilationError err => CompileNoteScriptFailed err
      | _ => NoteScriptError err
      end) (note_script_new note_script_ast (cp_assembler self));
  _ ← verify_targets self code_block ScriptType_NoteScript target_account_proc;
  Ok note_script.

Definition compile_tx_script (self : TransactionCompiler) (tx_script_ast : ProgramAst)
    (tx_script_inputs : list (Word * list Felt)) (target_account_proc : list ScriptTarget)
    : res TransactionCompilerError TransactionScript :=
  '(tx_script, code_block) ← map_err (fun e => match e with
      | Transactions.ScriptCompilationError asm_error => CompileTxScriptFailed asm_error
      end) (tx_script_new tx_script_ast tx_script_inputs (cp_assembler self));
  _ ← verify_targets self code_block ScriptType_TransactionScript target_account_proc;
  Ok tx_script.

(** *** Programs of transactions

    The assembly context, which collects what the scripts call, is the state. *)
Definition compile_note (self : TransactionCompiler) (target_account_interface : list Digest) (recorded_note : InputNote)
    : mut AssemblyContext TransactionCompilerError CodeBlock :=
  note_program ← mut_map_err CompileNoteScriptFailed
    (compile_with (cp_assembler self) (ns_code (nr_script (note_recipient (in_note recorded_note)))));
  _ ← lift (verify_program_account_compatibility note_program target_account_interface ScriptType_NoteScript);
  mret note_program.

Fixpoint compile_each (self : TransactionCompiler) (target_account_interface : list Digest) (notes : list InputNote)
    : mut AssemblyContext TransactionCompilerError (list CodeBlock) :=
  match notes with
  | [] => mret []
  | recorded_note :: notes' =>
      note_program ← compile_note self target_account_interface recorded_note;
      note_programs ← compile_each self target_account_interface notes';
      mret (note_program :: note_programs)
  end.

Definition compile_notes (self : TransactionCompiler) (target_account_interface : list Digest)
    (notes : InputNotes InputNote) : mut AssemblyContext TransactionCompilerError (list CodeBlock) :=
  compile_each self target_account_interface (is_notes notes).

Definition compile_tx_script_program (self : TransactionCompiler) (tx_script : ProgramAst)
    (target_account_interface : list Digest) : mut AssemblyContext TransactionCompilerError CodeBlock :=
  tx_script_code_block ← mut_map_err CompileTxScriptFailed (compile_with (cp_assembler self) tx_script);
  _ ← lift (verify_program_account_compatibility tx_script_code_block target_account_interface
              ScriptType_TransactionScript);
  mret tx_script_code_block.

Definition compile_transaction (self : TransactionCompiler) (account_id : AccountId) (notes : InputNotes InputNote)
    (tx_script : option ProgramAst) : res TransactionCompilerError Program :=
  target_account_interface ←
    ok_or (btree_get (account_procedures self) account_id) (AccountInterfaceNotFound account_id);
  if decide (is_notes notes = [] /\ tx_script = None) then Err NoTransactionDriver
  else
    let assembly_context := AssemblyContext_new in
    let '(assembly_context, r) := compile_notes self target_account_interface notes assembly_context in
    note_script_programs ← r;
    let '(assembly_context, r) := match tx_script with
      | Some tx_script =>
          (block ← compile_tx_script_program self tx_script target_account_interface; mret (Some block))
            assembly_context
      | None => (assembly_context, Ok None)
      end in
    tx_script_program ← r;
    cb_table ← map_err BuildCodeBlockTableFailed (build_cb_table (cp_assembler self) assembly_context);
    let cb_table := foldl cb_insert cb_table note_script_programs in
    let cb_table := match tx_script_program with
      | Some tx_script_program => cb_insert cb_table tx_script_program
      | None => cb_table
      end in
    Ok (program_with_kernel (cp_kernel_main self) (cp_assembler self) cb_table).
End compiler.

(** ** Specification *)

Section call_spec.
Context `{F : Field}.

(** The calls of one execution of a block, kernel calls left out; what a dynamic
    call or the block a proxy stands for would call is not known. *)
Inductive path : BlockTree -> list Digest -> Prop :=
| path_join f s p q : path f p -> path s q -> path (Join f s) (p ++ q)
| path_true t f p : path t p -> path (Split t f) p
| path_false t f p : path f p -> path (Split t f) p
| path_stop b : path (Loop b) []
| path_again b p q : path b p -> path (Loop b) q -> path (Loop b) (p ++ q)
| path_call h : path (Call h false) [h]
| path_syscall h : path (Call h true) []
| path_span : path Span []
| path_proxy : path Proxy []
| path_dyn : path Dyn [].

(** Every call of a block. *)
Fixpoint all_calls (b : BlockTree) : list Digest :=
  match b with
  | Join f s => all_calls f ++ all_calls s
  | Split t f => all_calls f ++ all_calls t
  | Loop b => all_calls b
  | Call h false => [h]
  | _ => []
  end.

Fixpoint split_free (b : BlockTree) : bool :=
  match b with
  | Join f s => split_free f && split_free s
  | Split _ _ => false
  | Loop b => split_free b
  | _ => true
  end.

(** Nothing follows a split. *)
Fixpoint tail_split (b : BlockTree) : bool :=
  match b with
  | Join f s => split_free f && tail_split s
  | Split t f => tail_split t && tail_split f
  | Loop b => tail_split b
  | _ => true
  end.

(** The branches that are finished in a block entered with the calls [l], and the
    branch it is left with. *)
Fixpoint branches_from (b : BlockTree) (l : list Digest) : list (list Digest) * list Digest :=
  match b with
  | Join f s =>
      let '(c1, l1) := branches_from f l in
      let '(c2, l2) := branches_from s l1 in (c1 ++ c2, l2)
  | Split t f =>
      let '(c1, l1) := branches_from f l in
      let '(c2, l2) := branches_from t l in
      (c1 ++ (if decide (l1 = l) then [] else [l1]) ++ c2, l2)
  | Loop b => branches_from b l
  | Call h false => ([], l ++ [h])
  | _ => ([], l)
  end.

Definition within (interface p : list Digest) : Prop := Forall (fun h => h ∈ interface) p.
End call_spec.

Section call_lemmas.
Context `{F : Field}.

(** The branch a block is left with is the one it is entered with, then a path. *)
Lemma branches_from_last b l : exists p, (branches_from b l).2 = l ++ p /\ path b p.
Proof.
  revert l. induction b as [f IHf s IHs|t IHt f IHf|b IH|h []| | |]; intros l; cbn [branches_from].
  - destruct (IHf l) as (p & Hp & Hpath). destruct (branches_from f l) as [c1 l1]. cbn in Hp. subst l1.
    destruct (IHs (l ++ p)) as (q & Hq & Hpath'). destruct (branches_from s (l ++ p)) as [c2 l2]. cbn in Hq. subst l2.
    exists (p ++ q). split; [by rewrite app_assoc|by constructor].
  - destruct (IHt l) as (p & Hp & Hpath). destruct (branches_from f l), (branches_from t l). cbn in *. subst.
    exists p. split; [done|by apply path_true].
  - destruct (IH l) as (p & Hp & Hpath). exists p. split; [done|]. rewrite <- (app_nil_r p).
    apply path_again; [done|constructor].
  - exists []. split; [by rewrite app_nil_r|constructor].
  - exists [h]. split; [done|constructor].
  - exists []. split; [by rewrite app_nil_r|constructor].
  - exists []. split; [by rewrite app_nil_r|constructor].
  - exists []. split; [by rewrite app_nil_r|constructor].
Qed.

Lemma path_exists b : exists p, path b p.
Proof. destruct (branches_from_last b []) as (p & _ & Hp). by exists p. Qed.

(** Without splits there is one branch, which has every call. *)
Lemma branches_from_split_free b l : split_free b = true -> branches_from b l = ([], l ++ all_calls b).
Proof.
  revert l. induction b as [f IHf s IHs|t IHt f IHf|b IH|h []| | |]; intros l; cbn [split_free branches_from all_calls];
    try done; try by rewrite app_nil_r.
  - intros [Hf Hs]%andb_prop. by rewrite IHf, IHs, app_assoc.
  - apply IH.
Qed.

(** A finished branch begins a path. *)
Lemma branches_from_closed b l br :
  br ∈ (branches_from b l).1 -> exists p q, br = l ++ p /\ path b (p ++ q) /\ (tail_split b = true -> q = []).
Proof.
  revert l br. induction b as [f IHf s IHs|t IHt f IHf|b IH|h []| | |]; intros l br; cbn [branches_from];
    try by (intros Hin; apply not_elem_of_nil in Hin).
  - destruct (branches_from_last f l) as (pf & Hpf & Hf). specialize (IHf l).
    destruct (branches_from f l) as [c1 l1] eqn:Hsplit. cbn in Hpf. subst l1. specialize (IHs (l ++ pf)).
    destruct (branches_from s (l ++ pf)) as [c2 l2]. cbn [fst snd] in *.
    intros [Hin|Hin]%elem_of_app.
    + destruct (IHf br Hin) as (p & q & -> & Hpath & _). destruct (path_exists s) as (ps & Hs).
      exists p, (q ++ ps). split; [done|]. split; [rewrite app_assoc; by constructor|].
      cbn [tail_split]. intros [Hfree _]%andb_prop.
      pose proof (branches_from_split_free f l Hfree) as Hnone. by rewrite Hnone in Hsplit; simplify_eq; apply not_elem_of_nil in Hin.
    + destruct (IHs br Hin) as (p & q & -> & Hpath & Htail). exists (pf ++ p), q.
      split; [by rewrite app_assoc|]. split; [rewrite <- app_assoc; by constructor|].
      cbn [tail_split]. by intros [_ ?%Htail]%andb_prop.
  - destruct (branches_from_last f l) as (pf & Hpf & Hf). specialize (IHf l). specialize (IHt l).
    destruct (branches_from f l) as [c1 l1], (branches_from t l) as [c2 l2]. cbn [fst snd] in *. subst l1.
    cbn [tail_split]. intros [Hin|[Hin|Hin]%elem_of_app]%elem_of_app.
    + destruct (IHf br Hin) as (p & q & -> & Hpath & Htail). exists p, q. split; [done|].
      split; [by apply path_false|]. by intros [_ ?%Htail]%andb_prop.
    + case_decide; [by apply not_elem_of_nil in Hin|]. apply list_elem_of_singleton in Hin as ->.
      exists pf, []. rewrite app_nil_r. split; [done|]. split; [by apply path_false|done].
    + destruct (IHt br Hin) as (p & q & -> & Hpath & Htail). exists p, q. split; [done|].
      split; [by apply path_true|]. by intros [?%Htail _]%andb_prop.
  - intros Hin. destruct (IH l br Hin) as (p & q & -> & Hpath & Htail). exists p, q. split; [done|].
    split; [|done]. rewrite <- (app_nil_r (p ++ q)). apply path_again; [done|constructor].
Qed.

(** No call is lost. *)
Lemma branches_from_covers b l h :
  h ∈ l ++ all_calls b -> exists br, br ∈ (branches_from b l).1 ++ [(branches_from b l).2] /\ h ∈ br.
Proof.
  revert l. induction b as [f IHf s IHs|t IHt f IHf|b IH|x []| | |]; intros l; cbn [branches_from all_calls];
    try by (intros Hin; exists l; rewrite ?app_nil_r in Hin; split; [by apply list_elem_of_singleton|]).
  - destruct (branches_from f l) as [c1 l1] eqn:H1. destruct (branches_from s l1) as [c2 l2] eqn:H2. cbn [fst snd].
    intros Hin. assert (Hc : (exists br, br ∈ c1 /\ h ∈ br) \/ h ∈ l1 ++ all_calls s).
    { rewrite app_assoc in Hin. apply elem_of_app in Hin as [Hin|Hin]; [|right; set_solver].
      destruct (IHf l Hin) as (br & Hbr & Hh). rewrite H1 in Hbr. cbn in Hbr. set_solver. }
    destruct Hc as [(br & ? & ?)|Hc]; [exists br; set_solver|].
    destruct (IHs l1 Hc) as (br & Hbr & Hh). rewrite H2 in Hbr. cbn in Hbr. exists br. set_solver.
  - destruct (branches_from f l) as [c1 l1] eqn:H1. destruct (branches_from t l) as [c2 l2] eqn:H2. cbn [fst snd].
    intros Hin. assert (Hc : h ∈ l ++ all_calls f \/ h ∈ l ++ all_calls t) by set_solver.
    destruct Hc as [Hc|Hc].
    + destruct (IHf l Hc) as (br & Hbr & Hh). rewrite H1 in Hbr. cbn in Hbr.
      case_decide as Heq; [|exists br; set_solver]. subst l1.
      apply elem_of_app in Hbr as [Hbr| ->%list_elem_of_singleton]; [exists br; set_solver|].
      destruct (IHt l) as (br & Hbr & Hh'); [set_solver|]. rewrite H2 in Hbr. cbn in Hbr. exists br. set_solver.
    + destruct (IHt l Hc) as (br & Hbr & Hh). rewrite H2 in Hbr. cbn in Hbr. exists br. set_solver.
  - apply IH.
  - cbn. intros Hin. exists (l ++ [x]). set_solver.
Qed.

(** The traversal computes these branches. *)
Lemma collect_run {E} b bs l :
  recursively_collect_call_branches (E := E) b (bs ++ [l]) =
  (bs ++ (branches_from b l).1 ++ [(branches_from b l).2], Ok tt).
Proof.
  revert bs l. induction b as [f IHf s IHs|t IHt f IHf|b IH|h []| | |]; intros bs l;
    cbn [recursively_collect_call_branches branches_from]; try done.
  - rewrite (mut_bind_ok _ _ _ _ _ (IHf bs l)). destruct (branches_from f l) as [c1 l1]. cbn [fst snd].
    rewrite app_assoc, IHs. destruct (branches_from s l1) as [c2 l2]. cbn [fst snd]. by rewrite !app_assoc.
  - assert (Hlast : forall xs (y : list Digest), last_branch (E := E) (xs ++ [y]) = (xs ++ [y], Ok y)).
    { intros xs y. unfold last_branch. run_mut. by rewrite last_snoc. }
    rewrite (mut_bind_ok _ _ _ _ _ (Hlast bs l)). cbv zeta. rewrite (mut_bind_ok _ _ _ _ _ (IHf bs l)).
    destruct (branches_from_last f l) as (p & Hp & _). destruct (branches_from f l) as [c1 l1].
    cbn [fst snd] in *. subst l1. rewrite app_assoc, (mut_bind_ok _ _ _ _ _ (Hlast (bs ++ c1) (l ++ p))).
    destruct (branches_from t l) as [c2 l2] eqn:Ht. cbn [fst snd].
    destruct (decide (length l < length (l ++ p))%nat) as [Hlt|Hle].
    + rewrite (decide_False (P := l ++ p = l)) by (intros Heq; rewrite Heq in Hlt; lia).
      run_mut. rewrite take_app_length, IHt, Ht. cbn [fst snd]. by rewrite <- !app_assoc.
    + rewrite length_app in Hle. destruct p; [|cbn in Hle; lia]. rewrite app_nil_r, decide_True by done.
      run_mut. rewrite IHt, Ht. cbn [fst snd]. by rewrite <- !app_assoc.
  - unfold push_call. run_mut. rewrite last_snoc. cbn [expect]. by rewrite removelast_last.
Qed.

Definition call_branches (b : BlockTree) : list (list Digest) :=
  (branches_from b []).1 ++ [(branches_from b []).2].

Lemma collect_call_branches_ok {E} b : collect_call_branches (E := E) b = Ok (call_branches b).
Proof. unfold collect_call_branches. by rewrite (collect_run b [] []). Qed.

Lemma call_branches_prefix b br :
  br ∈ call_branches b -> exists q, path b (br ++ q) /\ (tail_split b = true -> q = []).
Proof.
  intros [Hin| ->%list_elem_of_singleton]%elem_of_app.
  - destruct (branches_from_closed b [] br Hin) as (p & q & -> & Hp & Ht). by exists q.
  - destruct (branches_from_last b []) as (p & -> & Hp). exists []. by rewrite app_nil_r.
Qed.
End call_lemmas.

(** *** The compiler *)

Section compiler_spec.
Context `{F : Field} {C : Crypto} {MK : Merkle} {AS : Assembly} {P : Programs} {L : Linker} {V : Vm} {A : Advice}
  {D : Display}.

(** Some branch of the program calls procedures of the interface only. *)
Definition compatible (interface : list Digest) (program : CodeBlock) : Prop :=
  exists br, br ∈ call_branches (block_tree program) /\ within interface br.

Definition incompatible_error (ty : ScriptType) (hash : Digest) : TransactionCompilerError :=
  match ty with
  | ScriptType_NoteScript => NoteIncompatibleWithAccountInterface hash
  | ScriptType_TransactionScript => TxScriptIncompatibleWithAccountInterface hash
  end.

Definition target_interface (self : TransactionCompiler) (t : ScriptTarget) : option (list Digest) :=
  match t with
  | TargetAccountId id => btree_get (account_procedures self) id
  | TargetProcedures procs => Some procs
  end.

Definition target_accepts (self : TransactionCompiler) (block : CodeBlock) (t : ScriptTarget) : Prop :=
  exists interface, target_interface self t = Some interface /\ compatible interface block.

(** The programs are compiled one after the other, from one assembly context to
    another. *)
Inductive compiled (a : Assembler) : AssemblyContext -> list ProgramAst -> list CodeBlock -> AssemblyContext -> Prop :=
| compiled_nil ctx : compiled a ctx [] [] ctx
| compiled_cons ctx ctx1 ctx2 ast asts b bs :
    compile_with a ast ctx = (ctx1, Ok b) -> compiled a ctx1 asts bs ctx2 -> compiled a ctx (ast :: asts) (b :: bs) ctx2.

Definition note_program (n : InputNote) : ProgramAst := ns_code (nr_script (note_recipient (in_note n))).
Definition programs_of (notes : InputNotes InputNote) (script : option ProgramAst) : list ProgramAst :=
  map note_program (is_notes notes) ++ option_list script.

(** The program of a transaction: the kernel, with a table that has the compiled
    scripts, each compatible with the interface of the account. *)
Definition transaction_program (self : TransactionCompiler) (id : AccountId) (notes : InputNotes InputNote)
    (script : option ProgramAst) (prog : Program) : Prop :=
  exists interface blocks ctx table,
    btree_get (account_procedures self) id = Some interface /\
    (is_notes notes <> [] \/ script <> None) /\
    compiled (cp_assembler self) AssemblyContext_new (programs_of notes script) blocks ctx /\
    Forall (compatible interface) blocks /\
    build_cb_table (cp_assembler self) ctx = Ok table /\
    prog = program_with_kernel (cp_kernel_main self) (cp_assembler self) (foldl cb_insert table blocks).

(** Where the programs before the one that fails are compiled and fit. *)
Definition compiled_before (self : TransactionCompiler) (interface : list Digest) (l : list ProgramAst)
    (ctx : AssemblyContext) : Prop :=
  exists blocks, compiled (cp_assembler self) AssemblyContext_new l blocks ctx /\ Forall (compatible interface) blocks.

Definition compile_fault (self : TransactionCompiler) (id : AccountId) (notes : InputNotes InputNote)
    (script : option ProgramAst) (e : TransactionCompilerError) : Prop :=
  match btree_get (account_procedures self) id with
  | None => e = AccountInterfaceNotFound id
  | Some interface =>
      let note_fails bad := exists l n r ctx, is_notes notes = l ++ n :: r /\
        compiled_before self interface (map note_program l) ctx /\
        bad (compile_with (cp_assembler self) (note_program n) ctx) in
      let script_fails bad := exists s ctx, script = Some s /\
        compiled_before self interface (map note_program (is_notes notes)) ctx /\
        bad (compile_with (cp_assembler self) s ctx) in
      let incompatible h r := exists b, r.2 = Ok b /\ h = code_block_hash b /\ ~ compatible interface b in
      match e with
      | NoTransactionDriver => is_notes notes = [] /\ script = None
      | CompileNoteScriptFailed err => note_fails (fun r => r.2 = Err err)
      | NoteIncompatibleWithAccountInterface h => note_fails (incompatible h)
      | CompileTxScriptFailed err => script_fails (fun r => r.2 = Err err)
      | TxScriptIncompatibleWithAccountInterface h => script_fails (incompatible h)
      | BuildCodeBlockTableFailed err =>
          exists ctx, compiled_before self interface (programs_of notes script) ctx /\
            build_cb_table (cp_assembler self) ctx = Err err
      | _ => False
      end
  end.
End compiler_spec.

Section compiler_lemmas.
Context `{F : Field} {C : Crypto} {MK : Merkle} {AS : Assembly} {P : Programs} {L : Linker} {LL : LinkerLaws L} {V : Vm}
  {A : Advice} {D : Display}.

Lemma existsb_compatible interface (b : CodeBlock) :
  existsb (fun br => forallb (fun h => bool_decide (h ∈ interface)) br) (call_branches (block_tree b)) = true <->
  compatible interface b.
Proof.
  rewrite existsb_exists. unfold compatible, within.
  split; intros (br & Hin & Hall); exists br; (split; [by apply list_elem_of_In|]).
  - apply Forall_forall. intros h Hh. rewrite forallb_forall in Hall.
    by apply list_elem_of_In, Hall, bool_decide_eq_true in Hh.
  - apply forallb_forall. intros h Hh. apply bool_decide_eq_true. rewrite Forall_forall in Hall.
    by apply Hall, list_elem_of_In.
Qed.

Lemma compatible_dec interface (b : CodeBlock) : compatible interface b \/ ~ compatible interface b.
Proof. rewrite <- existsb_compatible. destruct (existsb _ _); [by left|by right]. Qed.

Lemma verify_compatible (b : CodeBlock) interface ty :
  compatible interface b -> verify_program_account_compatibility b interface ty = Ok tt.
Proof.
  intros Hc%existsb_compatible. unfold verify_program_account_compatibility. rewrite collect_call_branches_ok.
  cbn [mbind res_bind]. by rewrite Hc.
Qed.

Lemma verify_incompatible (b : CodeBlock) interface ty :
  ~ compatible interface b ->
  verify_program_account_compatibility b interface ty = Err (incompatible_error ty (code_block_hash b)).
Proof.
  rewrite <- existsb_compatible. intros Hno. unfold verify_program_account_compatibility.
  rewrite collect_call_branches_ok. cbn [mbind res_bind]. destruct (existsb _ _); [done|]. by destruct ty.
Qed.

Lemma verify_ok_iff (b : CodeBlock) interface ty :
  verify_program_account_compatibility b interface ty = Ok tt <-> compatible interface b.
Proof.
  split; [|apply verify_compatible]. intros Hv. destruct (compatible_dec interface b) as [|Hno]; [done|].
  rewrite (verify_incompatible b _ _ Hno) in Hv. done.
Qed.

Lemma compiled_app a ctx l bs ctx1 l' bs' ctx2 :
  compiled a ctx l bs ctx1 -> compiled a ctx1 l' bs' ctx2 -> compiled a ctx (l ++ l') (bs ++ bs') ctx2.
Proof. induction 1 as [|? ? ? ? ? ? ? Hc _ IH]; [done|]. intros H. cbn. by econstructor; [|apply IH]. Qed.

Lemma compiled_app_inv a ctx l l' bs ctx2 :
  compiled a ctx (l ++ l') bs ctx2 -> exists b1 b2 ctx1,
    bs = b1 ++ b2 /\ compiled a ctx l b1 ctx1 /\ compiled a ctx1 l' b2 ctx2.
Proof.
  revert ctx bs. induction l as [|x l IH]; intros ctx bs H.
  - exists [], bs, ctx. split; [done|]. split; [constructor|done].
  - inversion H as [|? ctx1 ? ? ? b bs0 Hc Hr]; subst. destruct (IH _ _ Hr) as (b1 & b2 & c1 & -> & H1 & H2).
    exists (b :: b1), b2, c1. split; [done|]. split; [by econstructor|done].
Qed.

(** The loop over the notes. *)
Lemma compile_each_outcome self interface notes ctx :
  let fails bad := exists l n r bs ctx1, notes = l ++ n :: r /\
    compiled (cp_assembler self) ctx (map note_program l) bs ctx1 /\ Forall (compatible interface) bs /\
    bad (compile_with (cp_assembler self) (note_program n) ctx1) in
  match compile_each self interface notes ctx with
  | (ctx', Ok bs) => compiled (cp_assembler self) ctx (map note_program notes) bs ctx' /\ Forall (compatible interface) bs
  | (_, Err e) =>
      (exists err, e = CompileNoteScriptFailed err /\ fails (fun r => r.2 = Err err)) \/
      (exists b, e = NoteIncompatibleWithAccountInterface (code_block_hash b) /\ ~ compatible interface b /\
         fails (fun r => r.2 = Ok b))
  | (_, Panic) => False
  end.
Proof.
  cbv zeta. revert ctx. induction notes as [|n notes IH]; intros ctx; [by split; constructor|].
  cbn [compile_each]. unfold compile_note. fold (note_program n). run_mut.
  destruct (compile_with (cp_assembler self) (note_program n) ctx) as [ctx1 [b|err|]] eqn:Hc.
  - cbn [map_err]. destruct (compatible_dec interface b) as [Hcomp|Hno].
    + rewrite verify_compatible by done. specialize (IH ctx1).
      destruct (compile_each self interface notes ctx1) as [ctx2 [bs|e|]]; [| |done].
      * destruct IH as [IH Hall]. split; [by econstructor|by constructor].
      * destruct IH as [(err & -> & l & x & r & bs & c & -> & Hl & Hf & Hbad)|(b' & -> & Hno & l & x & r & bs & c & -> & Hl & Hf & Hbad)];
          [left; exists err|right; exists b']; (split; [done|]); try (split; [done|]);
          exists (n :: l), x, r, (b :: bs), c; (split; [done|]); (split; [by econstructor|]);
          (split; [by constructor|done]).
    + rewrite verify_incompatible by done. right. exists b. split; [done|]. split; [done|].
      exists [], n, notes, [], ctx. split; [done|]. split; [constructor|]. split; [constructor|]. by rewrite Hc.
  - cbn [map_err]. left. exists err. split; [done|]. exists [], n, notes, [], ctx. split; [done|].
    split; [constructor|]. split; [constructor|]. by rewrite Hc.
  - apply (compile_with_total (cp_assembler self) (note_program n) ctx). by rewrite Hc.
Qed.

Lemma compile_each_complete self interface notes ctx bs ctx' :
  compiled (cp_assembler self) ctx (map note_program notes) bs ctx' -> Forall (compatible interface) bs ->
  compile_each self interface notes ctx = (ctx', Ok bs).
Proof.
  revert ctx bs. induction notes as [|n notes IH]; intros ctx bs Hc Hall.
  - by inversion Hc.
  - inversion Hc as [|? ctx1 ? ? ? b bs0 Hcn Hr]; subst. apply Forall_cons in Hall as [Hb Hall].
    cbn [compile_each]. unfold compile_note. fold (note_program n). run_mut. rewrite Hcn. cbn [map_err].
    rewrite verify_compatible by done. by rewrite (IH _ _ Hr Hall).
Qed.

Lemma compile_transaction_outcome self id notes script :
  match compile_transaction self id notes script with
  | Ok prog => transaction_program self id notes script prog
  | Err e => compile_fault self id notes script e
  | Panic => False
  end.
Proof.
  unfold compile_transaction, compile_fault, transaction_program, programs_of, compiled_before.
  destruct (btree_get (account_procedures self) id) as [interface|]; [|done]. cbn [ok_or mbind res_bind].
  case_decide as Hnone; [done|]. unfold compile_notes.
  assert (Hdriver : is_notes notes <> [] \/ script <> None) by (destruct script; [by right|left; intros ?; by apply Hnone]).
  pose proof (compile_each_outcome self interface (is_notes notes) AssemblyContext_new) as Hnotes. cbv zeta in *.
  destruct (compile_each self interface (is_notes notes) AssemblyContext_new) as [ctx [bs|e|]]; [| |done].
  2:{ cbn [mbind res_bind]. destruct Hnotes as [(err & -> & l & n & r & bs & c & ? & ? & ? & ?)|
        (b & -> & ? & l & n & r & bs & c & ? & ? & ? & ?)].
      - exists l, n, r, c. split; [done|]. split; [by exists bs|done].
      - exists l, n, r, c. split; [done|]. split; [by exists bs|]. by exists b. }
  destruct Hnotes as [Hcomp Hall]. cbn [mbind res_bind]. destruct script as [s|].
  2:{ cbn [mbind res_bind option_list]. rewrite app_nil_r.
      destruct (build_cb_table (cp_assembler self) ctx) as [t|err|] eqn:Ht; cbn [map_err mbind res_bind].
      - by exists interface, bs, ctx, t.
      - exists ctx. split; [by exists bs|done].
      - by apply build_cb_table_total in Ht. }
  unfold compile_tx_script_program. run_mut.
  destruct (compile_with (cp_assembler self) s ctx) as [ctx1 [b|err|]] eqn:Hs.
  2:{ cbn [map_err]. exists s, ctx. split; [done|]. split; [by exists bs|]. by rewrite Hs. }
  2:{ apply (compile_with_total (cp_assembler self) s ctx). by rewrite Hs. }
  cbn [map_err]. destruct (compatible_dec interface b) as [Hb|Hb].
  2:{ rewrite verify_incompatible by done. exists s, ctx. split; [done|]. split; [by exists bs|].
      exists b. by rewrite Hs. }
  rewrite verify_compatible by done. cbn [option_list].
  assert (Hcomp' : compiled (cp_assembler self) AssemblyContext_new (map note_program (is_notes notes) ++ [s]) (bs ++ [b]) ctx1).
  { eapply compiled_app; [exact Hcomp|]. econstructor; [exact Hs|constructor]. }
  assert (Hall' : Forall (compatible interface) (bs ++ [b])) by (apply Forall_app; by repeat constructor).
  destruct (build_cb_table (cp_assembler self) ctx1) as [t|err|] eqn:Ht; cbn [map_err].
  - exists interface, (bs ++ [b]), ctx1, t. split_and!; try done. by rewrite foldl_app.
  - exists ctx1. split; [by exists (bs ++ [b])|done].
  - by apply build_cb_table_total in Ht.
Qed.

Lemma compile_transaction_complete self id notes script prog :
  transaction_program self id notes script prog -> compile_transaction self id notes script = Ok prog.
Proof.
  intros (interface & blocks & ctx & t & Hi & Hd & Hc & Hall & Ht & ->).
  unfold compile_transaction, compile_notes. rewrite Hi. cbn [ok_or mbind res_bind].
  rewrite decide_False by (intros [? ?]; destruct Hd; done).
  unfold programs_of in Hc. apply compiled_app_inv in Hc as (b1 & b2 & ctx1 & -> & H1 & H2).
  apply Forall_app in Hall as [Ha1 Ha2]. rewrite (compile_each_complete self interface _ _ _ _ H1 Ha1).
  cbn [mbind res_bind]. destruct script as [s|]; cbn [option_list] in H2.
  - inversion H2 as [|? ctx2 ? ? ? b bs0 Hs Hr]; subst. inversion Hr; subst. apply Forall_cons_1 in Ha2 as [Hb _].
    unfold compile_tx_script_program. run_mut. rewrite Hs. cbn [map_err]. rewrite verify_compatible by done.
    rewrite Ht. cbn [map_err]. by rewrite foldl_app.
  - inversion H2; subst. rewrite Ht. cbn [map_err mbind res_bind]. by rewrite app_nil_r.
Qed.

(** A block inserted in the table is found under its hash, unless another block
    with that hash was inserted later. *)
Lemma table_has t (blocks : list CodeBlock) b :
  b ∈ blocks -> exists b', cb_get (foldl cb_insert t blocks) (code_block_hash b) = Some b' /\
    b' ∈ blocks /\ code_block_hash b' = code_block_hash b.
Proof.
  induction blocks as [|x blocks IH] using rev_ind; [by intros []%not_elem_of_nil|].
  rewrite foldl_app. cbn [foldl]. rewrite cb_get_insert. intros Hin. case_decide as Hx.
  - exists x. split; [done|]. split; [set_solver|done].
  - apply elem_of_app in Hin as [Hin| ->%list_elem_of_singleton]; [|done].
    destruct (IH Hin) as (b' & Hg & Hb' & Hh). exists b'. split; [done|]. split; [set_solver|done].
Qed.

Lemma verify_targets_ok self b ty targets :
  verify_targets self b ty targets = Ok tt <-> Forall (target_accepts self b) targets.
Proof.
  induction targets as [|t ts IH]; [split; [constructor|done]|].
  cbn [verify_targets]. rewrite Forall_cons. unfold target_accepts at 1.
  assert (Hg : forall i, get_target_interface self t = Ok i <-> target_interface self t = Some i).
  { intros i. destruct t as [tid|]; cbn; [|naive_solver]. destruct (btree_get _ tid); cbn; naive_solver. }
  split.
  - intros H. inv_res. destruct x0. apply verify_ok_iff in H0. split; [|by apply IH]. exists x. by rewrite <- Hg.
  - intros [(i & Hi & Hc) Hts]. apply Hg in Hi. rewrite Hi. cbn [mbind res_bind].
    rewrite verify_compatible by done. cbn [mbind res_bind]. by apply IH.
Qed.
End compiler_lemmas.

(** ** Properties *)

Section call_properties.
Context `{F : Field} {C : Crypto} {MK : Merkle} {AS : Assembly} {P : Programs} {L : Linker} {V : Vm} {A : Advice}
  {D : Display}.

(** The traversal of a program collects a list of branches whose last one is the
    calls of an execution, and every one of which begins the calls of an
    execution, and is all of them where nothing follows a split; and every call of
    the program is in some branch. *)
Theorem call_branches_spec (b : BlockTree) :
  exists branches, collect_call_branches (E := unit) b = Ok branches /\
    (exists p, last branches = Some p /\ path b p) /\
    (forall br, br ∈ branches -> exists q, path b (br ++ q) /\ (tail_split b = true -> q = [])) /\
    (forall h, h ∈ all_calls b -> exists br, br ∈ branches /\ h ∈ br).
Proof.
  exists (call_branches b). split; [apply collect_call_branches_ok|]. split; [|split].
  - destruct (branches_from_last b []) as (p & Hp & Hpath). exists p. split; [|done].
    unfold call_branches. by rewrite last_snoc, Hp.
  - apply call_branches_prefix.
  - intros h Hh. by apply (branches_from_covers b [] h).
Qed.

(** C17: the check that a program fits an interface never panics and names the program
    it refuses. A program all of whose executions call the interface only is
    accepted; of an accepted program some execution begins with calls of the
    interface, and has only such calls if nothing follows a split; a program
    without splits is accepted exactly when all of its calls are in the interface. *)
Theorem compatibility_check_spec (program : CodeBlock) (interface : list Digest) (ty : ScriptType) :
  let verified := verify_program_account_compatibility program interface ty in
  let tree := block_tree program in
  (verified = Ok tt \/ verified = Err (incompatible_error ty (code_block_hash program))) /\
  ((forall p, path tree p -> within interface p) -> verified = Ok tt) /\
  (verified = Ok tt -> exists p q, path tree (p ++ q) /\ within interface p) /\
  (tail_split tree = true -> verified = Ok tt -> exists p, path tree p /\ within interface p) /\
  (split_free tree = true -> verified = Ok tt <-> within interface (all_calls tree)).
Proof.
  cbv zeta. split; [|split; [|split; [|split]]].
  - destruct (compatible_dec interface program) as [Hc|Hc];
      [left; by apply verify_compatible|right; by apply verify_incompatible].
  - intros Hall. apply verify_compatible. destruct (branches_from_last (block_tree program) []) as (p & Hp & Hpath).
    exists p. split; [|by apply Hall]. unfold call_branches. rewrite Hp. set_solver.
  - intros (br & Hin & Hw)%verify_ok_iff. destruct (call_branches_prefix _ _ Hin) as (q & Hq & _).
    by exists br, q.
  - intros Htail (br & Hin & Hw)%verify_ok_iff. destruct (call_branches_prefix _ _ Hin) as (q & Hq & Hnil).
    exists br. by rewrite (Hnil Htail), app_nil_r in Hq.
  - intros Hfree. rewrite verify_ok_iff. unfold compatible, call_branches. rewrite branches_from_split_free by done.
    cbn [fst snd app]. split; [by intros (br & ->%list_elem_of_singleton & ?)|]. intros Hw.
    exists (all_calls (block_tree program)). split; [set_solver|done].
Qed.

(** The check is not exact on programs that go on after a split. It accepts one
    whose false branch fits although what follows the split, which every execution
    calls, is not in the interface; and it refuses one that may call nothing, since
    a false branch without calls is not kept. *)
Theorem compatibility_check_inexact (program : CodeBlock) (x y z : Digest) (interface : list Digest) (ty : ScriptType)
    (Hx : x ∉ interface) (Hy : y ∈ interface) (Hz : z ∉ interface) :
  (block_tree program = Join (Split (Call x false) (Call y false)) (Call z false) ->
     verify_program_account_compatibility program interface ty = Ok tt /\
     forall p, path (block_tree program) p -> ~ within interface p) /\
  (block_tree program = Split (Call x false) Span ->
     verify_program_account_compatibility program interface ty =
       Err (incompatible_error ty (code_block_hash program)) /\
     exists p, path (block_tree program) p /\ within interface p).
Proof.
  split; intros Htree.
  - split.
    + apply verify_compatible. exists [y]. split; [|by constructor]. rewrite Htree. set_solver.
    + rewrite Htree. intros p Hp Hw. inversion Hp as [? ? p1 q1 Hp1 Hq1| | | | | | | | |]; subst.
      inversion Hq1; subst. apply Forall_app in Hw as [_ Hw]. by apply Forall_cons_1 in Hw as [? _].
  - split.
    + apply verify_incompatible. intros (br & Hin & Hw). rewrite Htree in Hin. cbn in Hin.
      apply list_elem_of_singleton in Hin as ->. by apply Forall_cons_1 in Hw as [? _].
    + rewrite Htree. exists []. split; [apply path_false; constructor|constructor].
Qed.
End call_properties.

Section compiler_properties.
Context `{F : Field} {C : Crypto} {MK : Merkle} {AS : Assembly} {P : Programs} {L : Linker} {LL : LinkerLaws L} {V : Vm}
  {A : Advice} {D : Display}.

(** C11: a transaction is compiled exactly when the interface of the account is known,
    there is a note or a script, and the scripts compile in order and fit the
    interface; its program is the kernel, and has a block with the hash of each
    compiled script. Every failure is reported with the first thing that is wrong. *)
Theorem compile_transaction_spec (self : TransactionCompiler) (id : AccountId) (notes : InputNotes InputNote)
    (script : option ProgramAst) :
  (forall prog, compile_transaction self id notes script = Ok prog <-> transaction_program self id notes script prog) /\
  (forall e, compile_transaction self id notes script = Err e -> compile_fault self id notes script e) /\
  compile_transaction self id notes script <> Panic /\
  (forall prog, compile_transaction self id notes script = Ok prog ->
     program_main prog = cp_kernel_main self /\
     exists interface blocks ctx, btree_get (account_procedures self) id = Some interface /\
       compiled (cp_assembler self) AssemblyContext_new (programs_of notes script) blocks ctx /\
       Forall (fun b => compatible interface b /\ exists b', cb_get (program_table prog) (code_block_hash b) = Some b' /\
         b' ∈ blocks /\ code_block_hash b' = code_block_hash b) blocks).
Proof.
  pose proof (compile_transaction_outcome self id notes script) as Hout.
  split; [|split; [|split]].
  - intros prog. split; [intros H; by rewrite H in Hout|apply compile_transaction_complete].
  - intros e H. by rewrite H in Hout.
  - intros H. by rewrite H in Hout.
  - intros prog H. rewrite H in Hout. destruct Hout as (interface & blocks & ctx & t & Hi & _ & Hc & Hall & _ & ->).
    split; [apply program_main_with|]. exists interface, blocks, ctx. split; [done|]. split; [done|].
    apply Forall_forall. intros b Hb. rewrite Forall_forall in Hall. split; [by apply Hall|].
    rewrite program_table_with. by apply table_has.
Qed.

(** A new compiler has the kernel and knows no account. Loading an account compiles
    its code and keeps its procedures as the interface of the account, leaving those
    of the others, and nothing if the code is refused; a note or transaction script
    is compiled exactly when it assembles and fits every target, whose interfaces
    are the loaded ones or given. *)
Theorem compiler_scripts_spec (self : TransactionCompiler) (Hnd : NoDup (account_procedures self).*1) :
  (exists c ast, compiler_new (E := unit) = Ok c /\ kernel_main = Ok ast /\ account_procedures c = [] /\
     compile_in_context (cp_assembler c) ast = Ok (cp_kernel_main c)) /\
  (forall id m, match load_account id m self with
     | (self', Ok code) => code_new m (cp_assembler self) = Ok code /\ NoDup (account_procedures self').*1 /\
         get_target_interface self' (TargetAccountId id) = Ok (procedures code) /\
         forall id', id' <> id -> get_target_interface self' (TargetAccountId id') =
           get_target_interface self (TargetAccountId id')
     | (self', r) => self' = self /\ r = (code ← map_err LoadAccountFailed (code_new m (cp_assembler self)); Ok code)
     end) /\
  (forall id procs, exists self', load_account_interface (E := unit) id procs self =
       (self', Ok (btree_get (account_procedures self) id)) /\
     get_target_interface self' (TargetAccountId id) = Ok procs) /\
  (forall ast targets s, compile_note_script self ast targets = Ok s <-> exists b,
     compile_in_context (cp_assembler self) ast = Ok b /\ s = mkNoteScript (code_block_hash b) ast /\
     Forall (target_accepts self b) targets) /\
  (forall ast inputs targets s, compile_tx_script self ast inputs targets = Ok s <-> exists b,
     compile_in_context (cp_assembler self) ast = Ok b /\
     s = mkTransactionScript ast (code_block_hash b) (collect_inputs inputs) /\
     Forall (target_accepts self b) targets).
Proof.
  split; [|split; [|split; [|split]]].
  - destruct kernel_main_ok as (ast & b & Hast & Hb). unfold compiler_new. rewrite Hast. cbn [expect_ok mbind res_bind].
    rewrite Hb. cbn [expect_ok mbind res_bind]. eexists _, ast. by split_and!.
  - intros id m. unfold load_account, insert_interface. run_mut.
    destruct (code_new m (cp_assembler self)) as [code|e|]; cbn [map_err]; [|done|done].
    split; [done|]. cbn [account_procedures]. split; [by apply btree_insert_nodup|].
    cbn [get_target_interface account_procedures].
    rewrite btree_get_insert by done. rewrite decide_True by done. split; [done|]. intros id' Hne.
    by rewrite btree_get_insert, decide_False by done.
  - intros id procs. unfold load_account_interface, insert_interface. run_mut. eexists. split; [done|].
    cbn [get_target_interface account_procedures]. by rewrite btree_get_insert, decide_True by done.
  - intros ast targets s. unfold compile_note_script, note_script_new.
    destruct (compile_in_context (cp_assembler self) ast) as [b|e|]; cbn [map_err mbind res_bind];
      [|split; [done|by intros (? & ? & _)]..].
    split.
    + intros H. inv_res. exists b. split; [done|]. split; [done|]. destruct x. by apply verify_targets_ok in H.
    + intros (b' & [= <-] & -> & Ht%(verify_targets_ok self b ScriptType_NoteScript)). by rewrite Ht.
  - intros ast inputs targets s. unfold compile_tx_script, tx_script_new.
    destruct (compile_in_context (cp_assembler self) ast) as [b|e|]; cbn [map_err mbind res_bind];
      [|split; [done|by intros (? & ? & _)]..].
    split.
    + intros H. inv_res. exists b. split; [done|]. split; [done|]. destruct x. by apply verify_targets_ok in H.
    + intros (b' & [= <-] & -> & Ht%(verify_targets_ok self b ScriptType_TransactionScript)). by rewrite Ht.
Qed.
End compiler_properties.

(** ** Witnesses *)

Import RefInstances RefMachine.

Definition word_of (n : Z) : Word := mkWord (Felt_new n) ZERO ZERO ZERO.

Lemma word_of_ne n m : bool_decide (as_int (Felt_new n) = as_int (Felt_new m)) = false -> word_of n <> word_of m.
Proof. intros Hn Heq. apply bool_decide_eq_false in Hn. apply Hn. exact (f_equal (fun w => as_int (w0 w)) Heq). Qed.

Lemma compatibility_check_inexact_witness :
  let split_first := RefLinkerOf (fun _ => Join (Split (Call (word_of 1) false) (Call (word_of 2) false)) (Call (word_of 3) false)) in
  verify_program_account_compatibility (L := split_first) EMPTY_WORD [word_of 2] ScriptType_NoteScript = Ok tt.
Proof.
  cbv zeta. apply (compatibility_check_inexact (L := RefLinkerOf (fun _ =>
    Join (Split (Call (word_of 1) false) (Call (word_of 2) false)) (Call (word_of 3) false)))
    EMPTY_WORD (word_of 1) (word_of 2) (word_of 3) [word_of 2]); [| | |reflexivity].
  - intros H%list_elem_of_singleton. exact (word_of_ne 1 2 eq_refl H).
  - by apply list_elem_of_singleton.
  - intros H%list_elem_of_singleton. exact (word_of_ne 3 2 eq_refl H).
Defined.

Definition sample_compiler : TransactionCompiler := mkCompiler (P := RefPrograms) tt [] (ref_hash []).

Lemma compiler_scripts_spec_witness :
  exists c s, compiler_new (E := unit) = Ok c /\ compile_note_script c [] [TargetProcedures [ref_hash []]] = Ok s.
Proof.
  destruct (compiler_scripts_spec sample_compiler) as ((c & ast & Hnew & _ & _ & _) & _ & _ & Hnote & _); [constructor|].
  exists c, (mkNoteScript (P := RefPrograms) (ref_hash []) []). split; [exact Hnew|]. injection Hnew as <-.
  apply Hnote. exists (ref_hash []). split; [reflexivity|]. split; [reflexivity|].
  constructor; [|constructor]. exists [ref_hash []]. split; [reflexivity|]. exists [ref_hash []].
  split; [by left|]. constructor; [by left|constructor].
Defined.

(** A transaction with a script and no notes, on an account whose only procedure it calls. *)
Lemma compile_transaction_spec_witness :
  exists c id prog, compile_transaction c id (mkInputNotes [] EMPTY_WORD) (Some []) = Ok prog /\
    exists b b', cb_get (program_table prog) (code_block_hash b) = Some b' /\ code_block_hash b' = code_block_hash b.
Proof.
  set (id := mkAccountId ONE). set (c := mkCompiler (P := RefPrograms) tt [(id, [ref_hash []])] (ref_hash [])).
  destruct (compile_transaction_spec c id (mkInputNotes [] EMPTY_WORD) (Some [])) as (Hiff & _ & _ & Hprog).
  assert (Hc : exists prog, transaction_program c id (mkInputNotes [] EMPTY_WORD) (Some []) prog).
  { eexists. exists [ref_hash []], [ref_hash []], tt, []. split; [reflexivity|]. split; [right; discriminate|].
    split; [by econstructor; [|constructor]|]. split; [|split; reflexivity].
    constructor; [|constructor]. exists [ref_hash []]. split; [by left|]. constructor; [by left|constructor]. }
  destruct Hc as (prog & Hc%Hiff). exists c, id, prog. split; [exact Hc|].
  destruct (Hprog prog Hc) as (_ & interface & blocks & ctx & _ & Hcomp & Hall).
  inversion Hcomp; subst. apply Forall_cons_1, proj1, proj2 in Hall. destruct Hall as (b' & Hget & _ & Hh).
  eexists _, b'. split; [exact Hget|exact Hh].
Defined.
