(* ===== verification/Executor.v ===== *)
(** miden-tx/src/executor, prover and verifier (and their errors of error.rs): a
    transaction is prepared from the data of a store, executed on its host, proved,
    and its proof verified. *)
From S2P Require Import Prelude Interfaces Types Reference BTree AccountIds Assets NoteMeta NoteContents Notes Blocks Chain.
From S2P Require Import Vault Storage Delta Code Account Outputs Inputs Memory Tracker Host Machine Transactions Kernel Compiler.
Local Open Scope Z_scope.

(** ** The data store (executor/data.rs) *)

Section store.
Context `{F : Field} {C : Crypto} {MK : Merkle} {AS : Assembly} {P : Programs} {V : Vm} {A : Advice} {L : Linker}.

(** error.rs *)
Inductive DataStoreError :=
| AccountNotFound (id : AccountId)
| BlockNotFound (block_num : Z)
| InvalidTransactionInput (e : TransactionInputError)
| InternalError (msg : string)
| NoteAlreadyConsumed (id : NoteId)
| NoteNotFound (id : NoteId).

(** The trait [DataStore]. *)
Class DataStore (T : Type) := {
  get_transaction_inputs : T -> AccountId -> Z -> list NoteId -> res DataStoreError TransactionInputs;
  get_account_code : T -> AccountId -> res DataStoreError ModuleAst
}.
End store.
Arguments DataStoreError : clear implicits.
Arguments DataStoreError {_ _ _}.

(** ** The executor (executor/mod.rs) *)

Section executor.
Context `{F : Field} {C : Crypto} {MK : Merkle} {AS : Assembly} {P : Programs} {V : Vm} {VA : VmAdvice} {A : @Advice F C MK V}
  {S : @Stacks F} {L : @Linker F AS P} {PR : @Processor F C MK V VA S AS P L} {FE : Features} {D : Display} {B : Build}
  {IO : ByteIO}.

(** error.rs *)
Inductive TransactionExecutorError :=
| Executor_CompileNoteScriptFailed (e : TransactionCompilerError)
| CompileTransactionScriptFailed (e : TransactionCompilerError)
| CompileTransactionFailed (e : TransactionCompilerError)
| ExecuteTransactionProgramFailed (e : ExecutionError)
| FetchAccountCodeFailed (e : DataStoreError)
| FetchTransactionInputsFailed (e : DataStoreError)
| InconsistentAccountId (input_id output_id : AccountId)
| InconsistentAccountNonceDelta (expected actual : option Felt)
| InvalidTransactionOutput (e : TransactionOutputError)
| Executor_LoadAccountFailed (e : TransactionCompilerError).

(** A call that has no errors. *)
Definition no_error {E X} (r : res Empty_set X) : res E X := map_err (fun e : Empty_set => match e with end) r.

Section with_store.
Context {T : Type} {DS : DataStore T}.

Record TransactionExecutor := mkExecutor { data_store : T; ex_compiler : TransactionCompiler }.

Definition executor_new {E} (data_store : T) : res E TransactionExecutor :=
  compiler ← compiler_new; Ok (mkExecutor data_store compiler).

Definition put_compiler (c : TransactionCompiler) (self : TransactionExecutor) : TransactionExecutor :=
  mkExecutor (data_store self) c.

Definition executor_load_account (account_id : AccountId)
    : mut TransactionExecutor TransactionExecutorError AccountCode :=
  self ← read_self;
  account_code ← lift (map_err FetchAccountCodeFailed (get_account_code (data_store self) account_id));
  on_field ex_compiler put_compiler (mut_map_err Executor_LoadAccountFailed (load_account account_id account_code)).

Definition executor_load_account_interface {E} (account_id : AccountId) (procedures : list Digest)
    : mut TransactionExecutor E (option (list Digest)) :=
  on_field ex_compiler put_compiler (load_account_interface account_id procedures).

Definition executor_compile_note_script (self : TransactionExecutor) (note_script_ast : ProgramAst)
    (target_account_procs : list ScriptTarget) : res TransactionExecutorError NoteScript :=
  map_err Executor_CompileNoteScriptFailed (compile_note_script (ex_compiler self) note_script_ast target_account_procs).

Definition executor_compile_tx_script (self : TransactionExecutor) (tx_script_ast : ProgramAst)
    (inputs : list (Word * list Felt)) (target_account_procs : list ScriptTarget)
    : res TransactionExecutorError TransactionScript :=
  map_err CompileTransactionScriptFailed
    (compile_tx_script (ex_compiler self) tx_script_ast inputs target_account_procs).

Definition prepare_transaction (self : TransactionExecutor) (account_id : AccountId) (block_ref : Z)
    (notes : list NoteId) (tx_args : TransactionArgs) : res TransactionExecutorError PreparedTransaction :=
  tx_inputs ← map_err FetchTransactionInputsFailed
    (get_transaction_inputs (data_store self) account_id block_ref notes);
  tx_program ← map_err CompileTransactionFailed
    (compile_transaction (ex_compiler self) account_id (ti_input_notes tx_inputs) (ts_code <$> ta_tx_script tx_args));
  Ok (mkPrepared tx_program tx_inputs tx_args).
End with_store.

Definition build_executed_transaction (program : Program) (tx_args : TransactionArgs) (tx_inputs : TransactionInputs)
    (stack_outputs : StackOutputs) (host : TransactionHost) : res TransactionExecutorError ExecutedTransaction :=
  '(advice_recorder, account_delta, output_notes) ← no_error (into_parts host);
  let advice_witness := recorded advice_recorder in
  let map := provider_map advice_recorder in
  tx_outputs ← map_err InvalidTransactionOutput (from_transaction_parts stack_outputs map output_notes);
  let final_account := to_account tx_outputs in
  let initial_account := ti_account tx_inputs in
  if decide (acc_id initial_account <> stub_id final_account)
  then Err (InconsistentAccountId (acc_id initial_account) (stub_id final_account))
  else
    let nonce_delta := felt_sub (stub_nonce final_account) (acc_nonce initial_account) in
    let executed := executed_new program tx_inputs tx_outputs account_delta tx_args advice_witness in
    if decide (nonce_delta = ZERO) then
      if decide (is_Some (delta_nonce account_delta))
      then Err (InconsistentAccountNonceDelta None (delta_nonce account_delta)) else executed
    else if decide (stub_nonce final_account <> default ZERO (delta_nonce account_delta))
    then Err (InconsistentAccountNonceDelta (Some (stub_nonce final_account)) (delta_nonce account_delta))
    else executed.

Definition execute_transaction {T} {DS : DataStore T} (self : TransactionExecutor (T := T)) (account_id : AccountId)
    (block_ref : Z) (notes : list NoteId) (tx_args : TransactionArgs)
    : res TransactionExecutorError ExecutedTransaction :=
  transaction ← prepare_transaction self account_id block_ref notes tx_args;
  '(stack_inputs, advice_inputs) ← get_kernel_inputs _ transaction;
  let advice_recorder := provider_of advice_inputs in
  host ← no_error (host_new (stub_of_account (ti_account (pr_inputs transaction))) advice_recorder);
  let '(host, result) := execute host_call (pr_program transaction) stack_inputs host in
  stack_outputs ← map_err ExecuteTransactionProgramFailed result;
  build_executed_transaction (pr_program transaction) (pr_args transaction) (pr_inputs transaction) stack_outputs host.

(** ** The prover (prover/mod.rs) *)

Inductive TransactionProverError :=
| ProveTransactionProgramFailed (e : ExecutionError)
| InvalidAccountDelta (e : AccountError)
| Prover_InvalidTransactionOutput (e : TransactionOutputError)
| Prover_ProvenTransactionError (e : ProvenTransactionError).

Definition prove_transaction (tx_witness : TransactionWitness) : res TransactionProverError ProvenTransaction :=
  '(stack_inputs, advice_inputs) ← get_kernel_inputs _ tx_witness;
  let account := ti_account (wi_inputs tx_witness) in
  let input_notes := nullifiers_of_inputs (ti_input_notes (wi_inputs tx_witness)) in
  let account_id := acc_id account in
  let block_hash := block_hash (ti_block_header (wi_inputs tx_witness)) in
  let tx_script_root := ts_hash <$> ta_tx_script (wi_args tx_witness) in
  let advice_provider := provider_of advice_inputs in
  host ← no_error (host_new (stub_of_account account) advice_provider);
  let '(host, result) := prove host_call (wi_program tx_witness) stack_inputs host in
  '(stack_outputs, proof) ← map_err ProveTransactionProgramFailed result;
  '(advice_provider, account_delta, output_notes) ← no_error (into_parts host);
  let map := provider_map advice_provider in
  tx_outputs ← map_err Prover_InvalidTransactionOutput (from_transaction_parts stack_outputs map output_notes);
  let builder := builder_new account_id (proof_init_hash account) (stub_hash (to_account tx_outputs)) block_hash proof in
  let builder := add_input_notes (is_notes input_notes) builder in
  let builder := add_output_notes (on_notes (to_output_notes tx_outputs)) builder in
  let builder := match tx_script_root with
    | Some tx_script_root => builder_tx_script_root tx_script_root builder
    | None => builder
    end in
  on_chain ← is_on_chain account_id;
  builder ← (if on_chain : bool then
      account_details ← (if is_new account then
          let '(account, r) := apply_delta account_delta account in
          _ ← map_err InvalidAccountDelta r; Ok (Full account)
        else Ok (Delta account_delta));
      Ok (builder_account_details account_details builder)
    else Ok builder);
  map_err Prover_ProvenTransactionError (build builder).

(** ** The verifier (verifier/mod.rs) *)

Inductive TransactionVerifierError :=
| TransactionVerificationFailed (e : VerificationError)
| InsufficientProofSecurityLevel (actual required : Z).

Record TransactionVerifier := mkVerifier { tx_program_info : ProgramInfo; proof_security_level : Z }.

(** [TransactionKernel::program_info], in miden-lib. *)
Definition program_info {E} : res E ProgramInfo :=
  main_ast ← expect_ok kernel_main;
  kernel_main ← expect_ok (compile_in_context kernel_assembler main_ast);
  Ok (ProgramInfo_new (code_block_hash kernel_main) kernel_assembler).

Definition verifier_new {E} (proof_security_level : Z) : res E TransactionVerifier :=
  tx_program_info ← program_info;
  Ok (mkVerifier tx_program_info proof_security_level).

Definition verify_transaction (self : TransactionVerifier) (transaction : ProvenTransaction)
    : res TransactionVerifierError unit :=
  stack_inputs ← build_input_stack (pt_account_id transaction) (pt_initial_account_hash transaction)
    (is_commitment (pt_input_notes transaction)) (pt_block_ref transaction);
  stack_outputs ← build_output_stack (pt_final_account_hash transaction)
    (on_commitment (pt_output_notes transaction)) (pt_tx_script_root transaction);
  level ← map_err TransactionVerificationFailed
    (verify (tx_program_info self) stack_inputs stack_outputs (pt_proof transaction));
  if decide (level < proof_security_level self)
  then Err (InsufficientProofSecurityLevel level (proof_security_level self)) else Ok tt.
End executor.

(** ** Specification *)

Section spec.
Context `{F : Field} {FL : FieldLaws F} {C : Crypto} {MK : Merkle} {AS : Assembly} {P : Programs} {V : Vm} {VA : VmAdvice}
  {A : @Advice F C MK V} {S : @Stacks F} {L : @Linker F AS P} {PR : @Processor F C MK V VA S AS P L} {FE : Features}
  {D : Display} {B : Build} {IO : ByteIO}.

(** The nonce of the delta tells the final nonce, if it differs from the initial one. *)
Definition nonce_agrees (initial final : Felt) (d : AccountDelta) : Prop :=
  if decide (final = initial) then delta_nonce d = None else default ZERO (delta_nonce d) = final.

(** What the executed transaction of a run of the host has. *)
Definition executed_from (prog : Program) (ti : TransactionInputs) (args : TransactionArgs) (so : StackOutputs)
    (h : TransactionHost) (tx : ExecutedTransaction) : Prop :=
  exists p d notes final ncom script out,
    into_parts (E := Empty_set) h = Ok (p, d, notes) /\
    take 12 (output_stack so) = rev (output_layout final ncom script) /\
    outputs_accepted final ncom (provider_map p) notes out /\
    acc_id (ti_account ti) = stub_id (to_account out) /\
    nonce_agrees (acc_nonce (ti_account ti)) (stub_nonce (to_account out)) d /\
    tx = mkExecuted None prog ti out d args (recorded p).

(** The account a kernel state describes, as the stub reported at the end. *)
Definition kernel_stub (a : Account) (k : KernelState) (st : AccountStub) : Prop :=
  stub_id st = acc_id a /\ stub_nonce st = k_nonce k /\ stub_vault_root st = commitment (k_vault k) /\
  (exists t : SimpleSmt STORAGE_TREE_DEPTH, stub_storage_root st = SimpleSmt_root t /\
     forall i, 0 <= i < 2 ^ STORAGE_TREE_DEPTH -> SimpleSmt_get t i = k_slots k i) /\
  stub_code_root st = code_root (acc_code a).

(** The account has the vault, the storage and the nonce of a kernel state. *)
Definition account_of_kernel (a : Account) (k : KernelState) : Prop :=
  acc_vault a ≡ k_vault k /\ (forall i, SimpleSmt_get (slots (acc_storage a)) i = k_slots k i) /\ acc_nonce a = k_nonce k.

(** The kernel leaves the commitments to its final state on the stack, and the data
    of the account in the advice map. *)
Definition kernel_reports (k : KernelState) (st : AccountStub) (so : StackOutputs) : Prop :=
  (exists script, take 12 (output_stack so) =
     rev (output_layout (stub_hash st) (build_output_notes_commitment (k_notes k)) script)) /\
  AdviceMap_get (provider_map (k_adv k)) (stub_hash st) = Some (stub_data ZERO ZERO st).

(** A run of a kernel that does what its calls say: the host is made for the account
    and sees the calls, which take the state of the kernel from the account to [k];
    the account changes and its nonce grows, the notes are distinct, and the final
    state is reported. The calls that change the vault are at most 65535. *)
Record honest_run (a : Account) (adv : AdviceProvider) (h0 h : TransactionHost)
    (calls : list (ProcessState * HostCall)) (k : KernelState) (st : AccountStub) (so : StackOutputs) : Prop := {
  run_host : host_new (E := Empty_set) (stub_of_account a) adv = Ok h0;
  run_calls_made : drive host_call calls h0 = (h, Ok tt);
  run_trace : kernel_trace (acct_procedure_index_map h0) (layout (acc_storage a)) (kernel_start a adv) calls k;
  run_few_calls : Z.of_nat (vault_calls calls) <= 65535;
  run_nonce : as_int (acc_nonce a) < as_int (k_nonce k);
  run_changed : (exists key, view (k_vault k) key <> view (acc_vault a) key) \/
    (exists i, k_slots k i <> SimpleSmt_get (slots (acc_storage a)) i);
  run_stub : kernel_stub a k st;
  run_reports : kernel_reports k st so;
  run_ids : NoDup (out_id <$> k_notes k);
  run_few_notes : Z.of_nat (length (k_notes k)) <= MAX_OUTPUT_NOTES_PER_TX }.

(** A proven transaction of the given inputs and outputs. *)
Definition proves (ti : TransactionInputs) (args : TransactionArgs) (out : TransactionOutputs) (d : AccountDelta)
    (pf : ExecutionProof) (ptx : ProvenTransaction) : Prop :=
  let a := ti_account ti in
  pt_account_id ptx = acc_id a /\ pt_initial_account_hash ptx = proof_init_hash a /\
  pt_final_account_hash ptx = stub_hash (to_account out) /\
  is_notes (pt_input_notes ptx) = map nullifier (is_notes (ti_input_notes ti)) /\
  on_notes (pt_output_notes ptx) = on_notes (to_output_notes out) /\
  pt_tx_script_root ptx = ts_hash <$> ta_tx_script args /\ pt_block_ref ptx = block_hash (ti_block_header ti) /\
  pt_proof ptx = pf /\
  match pt_account_details ptx with
  | None => ~ on_chain_id (acc_id a)
  | Some (Full a') => on_chain_id (acc_id a) /\ is_new a = true /\ apply_delta d a = (a', Ok tt)
  | Some (Delta d') => on_chain_id (acc_id a) /\ is_new a = false /\ d' = d
  end.
End spec.

(** ** Lemmas *)

Section executor_lemmas.
Context `{F : Field} {FL : FieldLaws F} {C : Crypto} {MK : Merkle} {AS : Assembly} {P : Programs} {V : Vm} {VA : VmAdvice}
  {A : @Advice F C MK V} {AL : AdviceLaws A} {S : @Stacks F} {SL : StacksLaws S} {L : @Linker F AS P}
  {PR : @Processor F C MK V VA S AS P L} {PRL : ProcessorLaws PR} {FE : Features} {D : Display} {B : Build} {IO : ByteIO}.

Lemma no_error_ok {E X} (r : res Empty_set X) (x : X) : no_error (E := E) r = Ok x <-> r = Ok x.
Proof. destruct r as [y|[]|]; cbn; split; intros H; simplify_eq; done. Qed.

Lemma felt_sub_zero (x y : Felt) : felt_sub x y = ZERO <-> x = y.
Proof.
  rewrite felt_zero_iff, as_int_sub, felt_eq_iff. pose proof (as_int_range x) as Hx. pose proof (as_int_range y) as Hy.
  unfold MODULUS in *. split; [|intros ->; by rewrite Z.sub_diag].
  intros H. apply Z.mod_divide in H as [q Hq]; [|done]. nia.
Qed.

Lemma build_executed_outcome prog ti args so h :
  match build_executed_transaction prog args ti so h with
  | Ok tx => executed_from prog ti args so h tx
  | Err (InconsistentAccountId i j) => i = acc_id (ti_account ti) /\ j <> i
  | Err (InconsistentAccountNonceDelta e a) =>
      exists p d notes out, into_parts (E := Empty_set) h = Ok (p, d, notes) /\
        from_transaction_parts so (provider_map p) notes = Ok out /\ a = delta_nonce d /\
        ~ nonce_agrees (acc_nonce (ti_account ti)) (stub_nonce (to_account out)) d
  | Err (InvalidTransactionOutput e) =>
      exists p d notes, into_parts (E := Empty_set) h = Ok (p, d, notes) /\
        from_transaction_parts so (provider_map p) notes = Err e
  | Err _ => False
  | Panic => into_parts (E := Empty_set) h = Panic \/
      exists p d notes, into_parts (E := Empty_set) h = Ok (p, d, notes) /\
        from_transaction_parts so (provider_map p) notes = Panic
  end.
Proof.
  unfold build_executed_transaction. destruct (into_parts (E := Empty_set) h) as [[[p d] notes]|[]|] eqn:Hparts;
    [|by left]. cbn [no_error map_err mbind res_bind].
  destruct (output_words so) as (final & ncom & script & Hw).
  pose proof (outputs_outcome so (provider_map p) notes final ncom script Hw) as Hout.
  destruct (from_transaction_parts so (provider_map p) notes) as [out|e|] eqn:Hfrom;
    cbn [map_err mbind res_bind]; [|by exists p, d, notes|by right; exists p, d, notes].
  case_decide as Hid; [cbn; by split|].
  assert (Hnew : executed_new (E := TransactionExecutorError) prog ti out d args (recorded p) =
    Ok (mkExecuted None prog ti out d args (recorded p))).
  { unfold executed_new. by rewrite bool_decide_true. }
  assert (Hok : nonce_agrees (acc_nonce (ti_account ti)) (stub_nonce (to_account out)) d ->
    executed_from prog ti args so h (mkExecuted None prog ti out d args (recorded p))).
  { intros Hn. exists p, d, notes, final, ncom, script, out. by split_and!. }
  rewrite Hnew. unfold nonce_agrees in Hok.
  destruct (decide (felt_sub (stub_nonce (to_account out)) (acc_nonce (ti_account ti)) = ZERO)) as [Hz|Hz];
    rewrite felt_sub_zero in Hz.
  - rewrite decide_True in Hok by done. destruct (decide (is_Some (delta_nonce d))) as [Hs|Hs].
    + exists p, d, notes, out. unfold nonce_agrees. rewrite decide_True by done. split_and!; try done.
      intros Hn. rewrite Hn in Hs. by apply is_Some_None in Hs.
    + apply Hok. by apply eq_None_not_Some.
  - rewrite decide_False in Hok by done.
    destruct (decide (stub_nonce (to_account out) <> default ZERO (delta_nonce d))) as [Hs|Hs].
    + exists p, d, notes, out. unfold nonce_agrees. rewrite decide_False by done. split_and!; try done.
    + apply Hok. symmetry. by apply dec_stable.
Qed.

Lemma build_executed_complete prog ti args so h tx :
  executed_from prog ti args so h tx -> build_executed_transaction prog args ti so h = Ok tx.
Proof.
  intros (p & d & notes & final & ncom & script & out & Hparts & Hw & Hout & Hid & Hn & ->).
  unfold build_executed_transaction. rewrite Hparts. cbn [no_error map_err mbind res_bind].
  rewrite (outputs_accepted_ok so _ _ _ _ _ _ Hw Hout). cbn [map_err mbind res_bind].
  rewrite decide_False by (intros H; by apply H). unfold executed_new. rewrite bool_decide_true by done.
  cbn [assert_ mbind res_bind]. unfold nonce_agrees in Hn. case_decide as Hf.
  - rewrite decide_True by by apply felt_sub_zero. by rewrite Hn, decide_False by apply is_Some_None.
  - rewrite decide_False by by rewrite felt_sub_zero. by rewrite decide_False by congruence.
Qed.

Section with_store.
Context {T : Type} {DS : DataStore T}.

Lemma prepare_transaction_ok (self : TransactionExecutor (T := T)) id ref notes args pr :
  prepare_transaction self id ref notes args = Ok pr <-> exists ti prog,
    get_transaction_inputs (data_store self) id ref notes = Ok ti /\
    compile_transaction (ex_compiler self) id (ti_input_notes ti) (ts_code <$> ta_tx_script args) = Ok prog /\
    pr = mkPrepared prog ti args.
Proof.
  unfold prepare_transaction. split.
  - intros H. inv_res. by eexists _, _.
  - intros (ti & prog & Hti & Hprog & ->). rewrite Hti. cbn [map_err mbind res_bind]. by rewrite Hprog.
Qed.

(** The steps of an execution that starts. *)
Lemma execute_transaction_run (self : TransactionExecutor (T := T)) id ref notes args pr si adv h0 :
  prepare_transaction self id ref notes args = Ok pr ->
  kernel_inputs (E := TransactionExecutorError) (pr_inputs pr) (pr_args pr) AdviceInputs_default = Ok (si, adv) ->
  host_new (E := Empty_set) (stub_of_account (ti_account (pr_inputs pr))) (provider_of adv) = Ok h0 ->
  execute_transaction self id ref notes args =
  (let '(h, r) := execute host_call (pr_program pr) si h0 in
   so ← map_err ExecuteTransactionProgramFailed r;
   build_executed_transaction (pr_program pr) (pr_args pr) (pr_inputs pr) so h).
Proof.
  intros Hpr Hin Hh. apply (no_error_ok (E := TransactionExecutorError)) in Hh.
  refine (eq_trans (bind_step _ _ _ Hpr) _). refine (eq_trans (bind_step _ _ _ Hin) _).
  exact (bind_step _ _ _ Hh).
Qed.

Lemma execute_transaction_ok (self : TransactionExecutor (T := T)) id ref notes args tx :
  execute_transaction self id ref notes args = Ok tx -> exists pr si adv h0 h so,
    prepare_transaction self id ref notes args = Ok pr /\
    kernel_inputs (E := TransactionExecutorError) (pr_inputs pr) (pr_args pr) AdviceInputs_default = Ok (si, adv) /\
    host_new (E := Empty_set) (stub_of_account (ti_account (pr_inputs pr))) (provider_of adv) = Ok h0 /\
    execute host_call (pr_program pr) si h0 = (h, Ok so) /\
    executed_from (pr_program pr) (pr_inputs pr) (pr_args pr) so h tx.
Proof.
  intros H. unfold execute_transaction in H. apply bind_ok in H as (pr & Hpr & H).
  apply bind_ok in H as ([si adv] & Hin & H). apply bind_ok in H as (h0 & Hh0%no_error_ok & H).
  destruct (execute host_call (pr_program pr) si h0) as [h r] eqn:Hex. apply bind_ok in H as (so & Hr & H).
  apply map_err_ok in Hr as ->. pose proof (build_executed_outcome (pr_program pr) (pr_inputs pr) (pr_args pr) so h) as Hout.
  rewrite H in Hout. by exists pr, si, adv, h0, h, so.
Qed.
End with_store.
End executor_lemmas.

(** ** Properties of execution *)

Section execution_properties.
Context `{F : Field} {FL : FieldLaws F} {C : Crypto} {SML : SmtLaws C} {SSL : SimpleSmtLaws C} {MK : Merkle} {ML : MerkleLaws MK}
  {AS : Assembly} {P : Programs} {PL : ProgramLaws P} {V : Vm} {VL : VmLaws V} {VA : VmAdvice}
  {A : @Advice F C MK V} {AL : AdviceLaws A} {S : @Stacks F} {SL : StacksLaws S} {L : @Linker F AS P} {LL : LinkerLaws L}
  {PR : @Processor F C MK V VA S AS P L} {PRL : ProcessorLaws PR} {FE : Features} {D : Display} {B : Build} {IO : ByteIO}.
(** From an honest run, an executed transaction. *)
Lemma honest_run_builds prog (ti : TransactionInputs) (args : TransactionArgs) adv h0 h so calls k st (a := ti_account ti) :
  account_wf a -> holdings_ok (view (acc_vault a)) -> honest_run a adv h0 h calls k st so ->
  exists tx a', build_executed_transaction prog args ti so h = Ok tx /\
    ex_inputs tx = ti /\ on_notes (to_output_notes (ex_outputs tx)) = k_notes k /\
    account_delta_valid (ex_delta tx) /\ apply_delta (ex_delta tx) a = (a', Ok tt) /\ account_wf a' /\
    stub_of_account a' = to_account (ex_outputs tx) /\ account_hash a' = stub_hash (to_account (ex_outputs tx)) /\
    account_of_kernel a' k /\ to_account (ex_outputs tx) = st.
Proof.
  intros Hwf Hm0 [Hh0 Hdrive Htrace Hcalls Hnonce Hchanged Hst Hrep Hids Hnotes].
  destruct (host_new_ok _ _ _ Hh0) as (m & ->). cbn [acct_procedure_index_map] in Htrace.
  destruct (host_inv_trace a m _ calls k Hm0 Htrace 0%nat _ (host_inv_start a adv m (proj1 (proj2 Hwf))))
    as (h' & Hrun & Hinv). rewrite Nat.add_0_r in Hinv. unfold run_calls in Hrun. rewrite Hdrive in Hrun.
  injection Hrun as <-.
  destruct (host_into_parts a m _ k h Hm0 Hinv Hcalls Hnonce Hchanged) as (Hparts & Ht & Hv).
  destruct (host_delta_applies a m _ k h Hwf Hm0 Hinv Ht Hv Hnonce) as (a' & Happly & Hwf' & Hvault & Hslots & _ & Hn).
  destruct Hst as (Hsid & Hsn & Hsv & (t & Hss & Htree) & Hsc), Hrep as ((script & Hso) & Hmap).
  set (ons := mkOutputNotes (k_notes k) (build_output_notes_commitment (k_notes k))).
  set (d := mkAccountDelta _ _ _) in *. set (out := mkTransactionOutputs st ons).
  exists (mkExecuted None prog ti out d args (recorded (k_adv k))), a'.
  pose proof (apply_delta_stages a d Hwf Ht Hv) as Hkept. rewrite Happly in Hkept. destruct Hkept as (_ & Hkid & Hkcode & _).
  assert (Hstub : stub_of_account a' = st).
  { unfold stub_of_account. rewrite Hn, Hkid, Hkcode. destruct st as [i n v s c]. cbn in *. subst. f_equal.
    - by rewrite Hvault.
    - apply SimpleSmt_root_ext. intros i Hi. by rewrite Hslots, Htree. }
  split; [|cbn; split_and!; try done; by rewrite <- Hstub].
  apply build_executed_complete. exists (k_adv k), d, (k_notes k), (stub_hash st), (on_commitment ons), script, out.
  split; [done|]. split; [done|]. split.
  { split; [by exists ZERO, ZERO|]. split; [cbn; rewrite Hsid; apply Hwf|]. by split_and!. }
  split; [done|]. split; [|done]. unfold nonce_agrees. cbn [to_account out delta_nonce d default]. rewrite Hsn.
  rewrite decide_False; [done|]. intros Heq. rewrite Heq in Hnonce. unfold a in Hnonce. lia.
Qed.

Context {T : Type} {DS : DataStore T}.

(** C15: an executed transaction is that of the inputs in the store and of the given
    arguments: its program runs the kernel with the compiled scripts, on the public
    inputs of the account, the notes and the block; the host saw a list of calls, all
    accepted, and its delta and its notes, with the final account and the
    commitment on the output stack, are those of the transaction; the account
    keeps its identifier, and the delta has the new nonce exactly when it changed.
    The identifier is that of the four hashes, and the same when asked for again. *)
Theorem execute_transaction_spec (self : TransactionExecutor (T := T)) (id : AccountId) (ref : Z) (notes : list NoteId)
    (args : TransactionArgs) (tx : ExecutedTransaction) (Htx : execute_transaction self id ref notes args = Ok tx) :
  exists si adv h0 h so calls, let a := ti_account (ex_inputs tx) in
    get_transaction_inputs (data_store self) id ref notes = Ok (ex_inputs tx) /\ ex_args tx = args /\
    transaction_program (ex_compiler self) id (ti_input_notes (ex_inputs tx)) (ts_code <$> ta_tx_script args) (ex_program tx) /\
    input_stack si = rev (input_layout (acc_id a) (proof_init_hash a) (is_commitment (ti_input_notes (ex_inputs tx)))
      (block_hash (ti_block_header (ex_inputs tx)))) /\
    host_new (E := Empty_set) (stub_of_account a) (provider_of adv) = Ok h0 /\
    execute host_call (ex_program tx) si h0 = (h, Ok so) /\ drive host_call calls h0 = (h, Ok tt) /\
    executed_from (ex_program tx) (ex_inputs tx) args so h tx /\
    (exists tx', executed_id (E := unit) tx = (tx', Ok (id_of_executed tx)) /\
       executed_id (E := unit) tx' = (tx', Ok (id_of_executed tx))).
Proof.
  apply execute_transaction_ok in Htx as (pr & si & adv & h0 & h & so & Hpr & Hin & Hh0 & Hex & Hfrom).
  pose proof Hfrom as (p & d & ns & final & ncom & script & out & _ & _ & _ & _ & _ & ->).
  apply prepare_transaction_ok in Hpr as (ti & prog & Hti & Hprog & ->). cbn [pr_inputs pr_args pr_program] in *.
  destruct (execute_drives host_call prog si h0 h (Ok so) Hex) as (calls & _ & Hcalls).
  exists si, adv, h0, h, so, calls. cbn [ex_inputs ex_args ex_program].
  split; [done|]. split; [done|]. split.
  { pose proof (compile_transaction_outcome (ex_compiler self) id (ti_input_notes ti) (ts_code <$> ta_tx_script args)) as Hc.
    by rewrite Hprog in Hc. }
  split.
  { unfold kernel_inputs in Hin. apply bind_ok in Hin as (si' & Hsi & Hin).
    destruct (extend_advice_inputs ti args AdviceInputs_default) as [adv' r]. inv_res.
    destruct (build_input_stack_ok (E := TransactionExecutorError) (acc_id (ti_account ti)) (proof_init_hash (ti_account ti))
      (is_commitment (ti_input_notes ti)) (block_hash (ti_block_header ti))) as (si2 & Hsi2 & Hs).
    rewrite Hsi in Hsi2. by injection Hsi2 as <-. }
  split; [done|]. split; [done|]. split; [by apply Hcalls|]. split; [done|].
  exists (mkExecuted (Some (id_of_executed (mkExecuted None prog ti out d args (recorded p)))) prog ti out d args (recorded p)).
  by split.
Qed.

(** C14: refusals name what is inconsistent: the account the outputs are of, or a nonce
    the delta does not tell; every other error is the error of a step. *)
Theorem execute_transaction_refuses (self : TransactionExecutor (T := T)) (id : AccountId) (ref : Z) (notes : list NoteId)
    (args : TransactionArgs) (pr : PreparedTransaction) (si : StackInputs) (adv : AdviceInputs) (h0 : TransactionHost)
    (Hpr : prepare_transaction self id ref notes args = Ok pr)
    (Hin : kernel_inputs (E := TransactionExecutorError) (pr_inputs pr) (pr_args pr) AdviceInputs_default = Ok (si, adv))
    (Hh0 : host_new (E := Empty_set) (stub_of_account (ti_account (pr_inputs pr))) (provider_of adv) = Ok h0) :
  let a := ti_account (pr_inputs pr) in
  let '(h, r) := execute host_call (pr_program pr) si h0 in
  match r, execute_transaction self id ref notes args with
  | Err e, r' => r' = Err (ExecuteTransactionProgramFailed e)
  | Panic, r' => r' = Panic
  | Ok so, Ok tx => executed_from (pr_program pr) (pr_inputs pr) (pr_args pr) so h tx
  | Ok so, Err (InconsistentAccountId i j) => i = acc_id a /\ j <> i
  | Ok so, Err (InconsistentAccountNonceDelta _ actual) => exists p d ns out,
      into_parts (E := Empty_set) h = Ok (p, d, ns) /\ from_transaction_parts so (provider_map p) ns = Ok out /\
      actual = delta_nonce d /\ ~ nonce_agrees (acc_nonce a) (stub_nonce (to_account out)) d
  | Ok so, Err (InvalidTransactionOutput e) => exists p d ns, into_parts (E := Empty_set) h = Ok (p, d, ns) /\
      from_transaction_parts so (provider_map p) ns = Err e
  | Ok so, Err _ => False
  | Ok so, Panic => into_parts (E := Empty_set) h = Panic \/ exists p d ns,
      into_parts (E := Empty_set) h = Ok (p, d, ns) /\ from_transaction_parts so (provider_map p) ns = Panic
  end.
Proof.
  cbv zeta. rewrite (execute_transaction_run self id ref notes args pr si adv h0 Hpr Hin Hh0).
  destruct (execute host_call (pr_program pr) si h0) as [h [so|e|]]; [|done|done]. cbn [map_err mbind res_bind].
  pose proof (build_executed_outcome (pr_program pr) (pr_inputs pr) (pr_args pr) so h) as Hout.
  destruct (build_executed_transaction (pr_program pr) (pr_args pr) (pr_inputs pr) so h) as [tx|[]|]; done.
Qed.

(** C2: the executor and the host together: if the kernel changes the account as the
    calls it makes say, and reports the final state it reaches, then the
    transaction is executed, its notes are the notes the kernel created, and
    applying its delta to the account gives the vault, the storage and the nonce the
    kernel reached, and the final account hash the transaction claims. *)
Theorem execution_reaches_final_account (self : TransactionExecutor (T := T)) (id : AccountId) (ref : Z)
    (notes : list NoteId) (args : TransactionArgs) (pr : PreparedTransaction) (si : StackInputs) (adv : AdviceInputs)
    (h0 h : TransactionHost) (so : StackOutputs) (calls : list (ProcessState * HostCall)) (k : KernelState) (st : AccountStub)
    (Hpr : prepare_transaction self id ref notes args = Ok pr)
    (Hin : kernel_inputs (E := TransactionExecutorError) (pr_inputs pr) (pr_args pr) AdviceInputs_default = Ok (si, adv))
    (a := ti_account (pr_inputs pr))
    (Hwf : account_wf a) (Hm0 : holdings_ok (view (acc_vault a)))
    (Hex : execute host_call (pr_program pr) si h0 = (h, Ok so))
    (Hrun : honest_run a (provider_of adv) h0 h calls k st so) :
  exists tx a', execute_transaction self id ref notes args = Ok tx /\
    ex_inputs tx = pr_inputs pr /\ on_notes (to_output_notes (ex_outputs tx)) = k_notes k /\
    account_delta_valid (ex_delta tx) /\ apply_delta (ex_delta tx) a = (a', Ok tt) /\ account_wf a' /\
    stub_of_account a' = to_account (ex_outputs tx) /\ account_hash a' = stub_hash (to_account (ex_outputs tx)) /\
    account_of_kernel a' k /\ to_account (ex_outputs tx) = st.
Proof.
  rewrite (execute_transaction_run self id ref notes args pr si adv h0 Hpr Hin (run_host _ _ _ _ _ _ _ _ Hrun)), Hex.
  cbn [map_err mbind res_bind]. by apply (honest_run_builds _ _ _ (provider_of adv) h0 h so calls k st).
Qed.
End execution_properties.

(** ** Properties of proofs *)

Section proof_properties.
Context `{F : Field} {FL : FieldLaws F} {C : Crypto} {SML : SmtLaws C} {SSL : SimpleSmtLaws C} {MK : Merkle} {ML : MerkleLaws MK}
  {AS : Assembly} {P : Programs} {PL : ProgramLaws P} {V : Vm} {VL : VmLaws V} {VA : VmAdvice} {A : @Advice F C MK V}
  {AL : AdviceLaws A} {S : @Stacks F} {SL : StacksLaws S} {L : @Linker F AS P} {LL : LinkerLaws L} {PR : @Processor F C MK V VA S AS P L}
  {PRL : ProcessorLaws PR} {FE : Features} {D : Display} {B : Build} {IO : ByteIO}.

Lemma is_on_chain_iff {E} id : AccountId_valid id ->
  is_on_chain (E := E) id = Ok (bool_decide (on_chain_id id)).
Proof. apply is_on_chain_valid. Qed.

(** The steps of a proof that succeeds. *)
Lemma prove_transaction_ok (w : TransactionWitness) ptx :
  AccountId_valid (acc_id (ti_account (wi_inputs w))) -> prove_transaction w = Ok ptx ->
  exists si adv h0 h so pf p d ns out,
    kernel_inputs (E := TransactionProverError) (wi_inputs w) (wi_args w) (wi_advice w) = Ok (si, adv) /\
    host_new (E := Empty_set) (stub_of_account (ti_account (wi_inputs w))) (provider_of adv) = Ok h0 /\
    prove host_call (wi_program w) si h0 = (h, Ok (so, pf)) /\
    into_parts (E := Empty_set) h = Ok (p, d, ns) /\ from_transaction_parts so (provider_map p) ns = Ok out /\
    proves (wi_inputs w) (wi_args w) out d pf ptx /\ proven_wf ptx.
Proof.
  intros Hid H. unfold prove_transaction in H. apply bind_ok in H as ([si adv] & Hin & H).
  apply bind_ok in H as (h0 & Hh0%no_error_ok & H).
  destruct (prove host_call (wi_program w) si h0) as [h r] eqn:Hprove.
  apply bind_ok in H as ([so pf] & Hr & H). apply map_err_ok in Hr as ->.
  apply bind_ok in H as ([[p d] ns] & Hparts%no_error_ok & H).
  apply bind_ok in H as (out & Hout%map_err_ok & H). apply bind_ok in H as (on & Hon & H).
  rewrite is_on_chain_iff in Hon by done. injection Hon as <-. apply bind_ok in H as (b & Hb & H).
  apply map_err_ok in H. exists si, adv, h0, h, so, pf, p, d, ns, out. do 5 (split; [done|]).
  set (script := ts_hash <$> ta_tx_script (wi_args w)) in *.
  set (b0 := match script with Some _ => _ | None => _ end) in Hb.
  assert (Hb0 : b0 = mkBuilder (acc_id (ti_account (wi_inputs w))) (proof_init_hash (ti_account (wi_inputs w)))
    (stub_hash (to_account out)) None (is_notes (nullifiers_of_inputs (ti_input_notes (wi_inputs w))))
    (on_notes (to_output_notes out)) script (block_hash (ti_block_header (wi_inputs w))) pf)
    by (unfold b0; by destruct script).
  assert (Hdetails : exists details, b = mkBuilder (pb_account_id b0) (pb_initial_account_hash b0)
      (pb_final_account_hash b0) details (pb_input_notes b0) (pb_output_notes b0) script (pb_block_ref b0) pf /\
    match details with
    | None => ~ on_chain_id (acc_id (ti_account (wi_inputs w)))
    | Some (Full a') => on_chain_id (acc_id (ti_account (wi_inputs w))) /\ is_new (ti_account (wi_inputs w)) = true /\
        apply_delta d (ti_account (wi_inputs w)) = (a', Ok tt)
    | Some (Delta d') => on_chain_id (acc_id (ti_account (wi_inputs w))) /\ is_new (ti_account (wi_inputs w)) = false /\ d' = d
    end).
  { rewrite Hb0. case_bool_decide as Hc; [|injection Hb as <-; exists None; by rewrite Hb0].
    apply bind_ok in Hb as (det & Hdet & Hb). injection Hb as <-. exists (Some det).
    split; [unfold builder_account_details; by rewrite Hb0|]. destruct (is_new (ti_account (wi_inputs w))).
    - destruct (apply_delta d (ti_account (wi_inputs w))) as [a' r]. inv_res. by destruct x.
    - by injection Hdet as <-. }
  destruct Hdetails as (details & -> & Hdet).
  apply build_ok in H as (Hins & Houts & Hwf & Htx); [|by rewrite Hb0]. split; [|done].
  rewrite Hb0 in Hins, Houts, Htx. cbn in Hins, Houts, Htx. unfold proves. rewrite Htx. cbn.
  split_and!; done.
Qed.

Lemma kernel_inputs_stack {E} ti args a si adv :
  kernel_inputs (E := E) ti args a = Ok (si, adv) ->
  StackInputs_new (input_layout (acc_id (ti_account ti)) (proof_init_hash (ti_account ti))
    (is_commitment (ti_input_notes ti)) (block_hash (ti_block_header ti))) = Ok si.
Proof.
  unfold kernel_inputs. intros H. apply bind_ok in H as (si' & Hsi & H).
  destruct (extend_advice_inputs ti args a) as [a' r]. apply bind_ok in H as (u & _ & H). injection H as <- <-.
  exact (proj1 (expect_ok_ok _ _) Hsi).
Qed.

Lemma build_input_stack_of {E} id init notes block si :
  StackInputs_new (input_layout id init notes block) = Ok si ->
  build_input_stack (E := E) id init notes block = Ok si.
Proof. intros H. unfold build_input_stack. cbv zeta. fold (input_layout id init notes block). by rewrite H. Qed.

(** A proof succeeds when the run does, and the delta of a new account on chain
    leads to the final account hash. *)
Lemma prove_transaction_succeeds (w : TransactionWitness) si adv h0 h so pf p d ns out (a := ti_account (wi_inputs w)) :
  AccountId_valid (acc_id a) -> input_notes_wf (ti_input_notes (wi_inputs w)) ->
  kernel_inputs (E := TransactionProverError) (wi_inputs w) (wi_args w) (wi_advice w) = Ok (si, adv) ->
  host_new (E := Empty_set) (stub_of_account a) (provider_of adv) = Ok h0 ->
  prove host_call (wi_program w) si h0 = (h, Ok (so, pf)) ->
  into_parts (E := Empty_set) h = Ok (p, d, ns) -> from_transaction_parts so (provider_map p) ns = Ok out ->
  (if is_new a then exists a', apply_delta d a = (a', Ok tt) /\ acc_id a' = acc_id a /\
     account_hash a' = stub_hash (to_account out)
   else account_hash a <> EMPTY_WORD) ->
  exists ptx, prove_transaction w = Ok ptx.
Proof.
  intros Hid Hwf Hin Hh0 Hprove Hparts Hout Hacc.
  apply (no_error_ok (E := TransactionProverError)) in Hh0, Hparts.
  assert (Hons : output_notes_new (on_notes (to_output_notes out)) = Ok (to_output_notes out)).
  { destruct (output_words so) as (f & n & t & Hw). pose proof (outputs_outcome so (provider_map p) ns f n t Hw) as Ho.
    rewrite Hout in Ho. destruct Ho as (_ & _ & Hon & Hw' & _). by apply output_notes_new_ok. }
  assert (Hins : input_notes_new (is_notes (nullifiers_of_inputs (ti_input_notes (wi_inputs w)))) =
    Ok (nullifiers_of_inputs (ti_input_notes (wi_inputs w)))) by by apply nullifiers_of_inputs_new.
  unfold prove_transaction. rewrite (bind_step _ _ _ Hin), (bind_step _ _ _ Hh0), Hprove. cbn [map_err mbind res_bind].
  rewrite Hparts. cbn [mbind res_bind]. rewrite Hout. cbn [map_err mbind res_bind].
  rewrite is_on_chain_iff by done. cbn [mbind res_bind].
  set (b0 := match _ with Some _ => _ | None => _ end).
  assert (Hb0 : b0 = mkBuilder (acc_id a) (proof_init_hash a)
    (stub_hash (to_account out)) None (is_notes (nullifiers_of_inputs (ti_input_notes (wi_inputs w))))
    (on_notes (to_output_notes out)) (ts_hash <$> ta_tx_script (wi_args w)) (block_hash (ti_block_header (wi_inputs w))) pf)
    by (unfold b0; by destruct (ts_hash <$> ta_tx_script (wi_args w))).
  assert (Hbuild : forall det, details_fit (acc_id a) (proof_init_hash a) (stub_hash (to_account out)) det ->
    exists ptx, build (mkBuilder (acc_id a) (proof_init_hash a) (stub_hash (to_account out)) det
      (pb_input_notes b0) (pb_output_notes b0) (pb_tx_script_root b0) (pb_block_ref b0) (pb_proof b0)) = Ok ptx).
  { intros det Hfit. unfold build. rewrite Hb0. cbn [pb_input_notes pb_output_notes]. rewrite Hins.
    cbn [map_err mbind res_bind]. rewrite Hons. cbn [map_err mbind res_bind]. eexists. by apply validate_ok. }
  unfold proof_init_hash in *. fold a in Hacc |- *. unfold details_fit in Hbuild. fold (on_chain_id (acc_id a)) in Hbuild.
  destruct (decide (on_chain_id (acc_id a))) as [Hon|Hoff].
  - rewrite bool_decide_true by done. destruct (is_new a).
    + destruct Hacc as (a' & Happly & Hida & Hhash). rewrite Happly. cbn [map_err mbind res_bind].
      unfold builder_account_details. rewrite Hb0. cbn.
      destruct (Hbuild (Some (Full a'))) as (ptx & Hptx); [done|]. rewrite Hb0 in Hptx. cbn in Hptx.
      exists ptx. by rewrite Hptx.
    + cbn [mbind res_bind]. unfold builder_account_details. rewrite Hb0. cbn.
      destruct (Hbuild (Some (Delta d))) as (ptx & Hptx); [done|]. rewrite Hb0 in Hptx. cbn in Hptx.
      exists ptx. by rewrite Hptx.
  - rewrite bool_decide_false by done. cbn [mbind res_bind].
    destruct (Hbuild None) as (ptx & Hptx); [done|]. rewrite Hb0 in *. cbn in Hptx |- *. exists ptx. by rewrite Hptx.
Qed.

Lemma parsed_stack_agrees so so' final ncom script :
  parse_output_stack (E := unit) so = Ok (final, ncom, script) ->
  output_stack so' = rev (output_layout final ncom script) ++ replicate 4 ZERO ->
  take 12 (output_stack so') = take 12 (output_stack so) /\
  (drop 12 (output_stack so) = replicate 4 ZERO -> output_stack so' = output_stack so).
Proof.
  intros Hparse Hs'. destruct (output_words so) as (f & n & t & Hw).
  rewrite (parse_output_stack_ok so f n t Hw) in Hparse. injection Hparse as -> -> ->.
  assert (Ht : take 12 (output_stack so') = take 12 (output_stack so)) by by rewrite Hs', Hw.
  split; [done|]. intros Hd. by rewrite Hs', <- Hw, <- Hd, take_drop.
Qed.

(** The identifiers of a proven and an executed transaction of one run. *)
Lemma proven_executed_id so m ns out ti args d pf ptx (tx : ExecutedTransaction) :
  from_transaction_parts so m ns = Ok out -> proves ti args out d pf ptx -> proven_wf ptx ->
  input_notes_wf (ti_input_notes ti) -> ex_inputs tx = ti ->
  stub_hash (to_account (ex_outputs tx)) = stub_hash (to_account out) ->
  on_commitment (to_output_notes (ex_outputs tx)) = on_commitment (to_output_notes out) -> pt_id ptx = id_of_executed tx.
Proof.
  intros Hout (_ & Hini & Hfin & Hns & Hons & _) (-> & _ & (_ & _ & Hic) & (_ & _ & Hoc)) (_ & _ & Hin) Htx Hhash Hcom.
  pose proof (output_words so) as (final & ncom & script & Hw).
  pose proof (outputs_outcome so m ns final ncom script Hw) as Hacc. rewrite Hout in Hacc.
  destruct Hacc as (_ & _ & _ & (_ & _ & Hcout) & _).
  unfold id_of_proven, id_of_executed. rewrite Hic, Hoc, Hini, Hfin, Hns, Hons, nullifiers_commitment, Hhash, Hcom, Hcout.
  rewrite <- Hin. by rewrite Htx.
Qed.

(** An honest run is proved, and the proven transaction is that of the executed one. *)
Lemma honest_run_proves (w : TransactionWitness) si adv h0 h so pf calls k st (a := ti_account (wi_inputs w)) :
  input_notes_wf (ti_input_notes (wi_inputs w)) ->
  kernel_inputs (E := TransactionProverError) (wi_inputs w) (wi_args w) (wi_advice w) = Ok (si, adv) ->
  account_wf a -> holdings_ok (view (acc_vault a)) -> (is_new a = false -> account_hash a <> EMPTY_WORD) ->
  prove host_call (wi_program w) si h0 = (h, Ok (so, pf)) -> honest_run a (provider_of adv) h0 h calls k st so ->
  exists ptx tx a', prove_transaction w = Ok ptx /\
    build_executed_transaction (wi_program w) (wi_args w) (wi_inputs w) so h = Ok tx /\
    proves (wi_inputs w) (wi_args w) (ex_outputs tx) (ex_delta tx) pf ptx /\ pt_id ptx = id_of_executed tx /\
    to_account (ex_outputs tx) = st /\ on_notes (to_output_notes (ex_outputs tx)) = k_notes k /\
    apply_delta (ex_delta tx) a = (a', Ok tt) /\ account_wf a' /\ stub_of_account a' = st /\ account_of_kernel a' k.
Proof.
  intros Hnotes Hin Hwf Hm0 Hinit Hprove Hrun. pose proof (run_host _ _ _ _ _ _ _ _ Hrun) as Hh0.
  destruct (honest_run_builds (wi_program w) (wi_inputs w) (wi_args w) _ h0 h so calls k st Hwf Hm0 Hrun)
    as (tx & a' & Htx & Hti & Hkn & _ & Happly & Hwf' & Hstub & Hhash & Hak & Hst).
  pose proof (build_executed_outcome (wi_program w) (wi_inputs w) (wi_args w) so h) as Hout. rewrite Htx in Hout.
  destruct Hout as (p & d & ns & final & ncom & script & out & Hparts & Hw & Hacc & Hid & _ & Heq).
  rewrite Heq in Hti, Hkn, Happly, Hstub, Hhash, Hst. cbn in Hti, Hkn, Happly, Hstub, Hhash, Hst.
  apply (outputs_accepted_ok _ _ _ _ _ _ _ Hw) in Hacc.
  destruct (prove_transaction_succeeds w si adv h0 h so pf p d ns out (proj1 Hwf) Hnotes Hin Hh0 Hprove Hparts Hacc)
    as (ptx & Hptx).
  { destruct (is_new _) eqn:Hnew; [exists a'|by apply Hinit]. split; [done|]. split; [|done].
    change (stub_id (stub_of_account a') = acc_id a). rewrite Hstub. by symmetry. }
  destruct (prove_transaction_ok w ptx (proj1 Hwf) Hptx)
    as (si' & adv' & h0' & h' & so' & pf' & p' & d' & ns' & out' & Hin' & Hh0' & Hp' & Hparts' & Hout' & Hproves & Hwfp).
  rewrite Hin in Hin'. injection Hin' as <- <-. unfold a in Hh0. rewrite Hh0 in Hh0'. injection Hh0' as <-.
  rewrite Hprove in Hp'. injection Hp' as <- <- <-. rewrite Hparts in Hparts'. injection Hparts' as <- <- <-.
  rewrite Hacc in Hout'. injection Hout' as <-. exists ptx, tx, a'. split; [done|]. split; [done|].
  split; [by rewrite Heq|]. split.
  { by apply (proven_executed_id so _ ns out _ _ d pf ptx tx Hacc Hproves Hwfp Hnotes); rewrite Heq. }
  rewrite Heq. cbn. split_and!; try done. by rewrite <- Hst.
Qed.

(** C13: a proven transaction is that of an execution of the same program on the same
    public inputs: of the same account, hashes and notes, with the notes the host
    recorded and the script root and block of the witness; it has the account
    details its account calls for, for a new account the account the delta of the
    host leads to. If the outputs are those of the executed transaction the witness
    is of, then the two transactions have one identifier. *)
Theorem prove_transaction_spec (w : TransactionWitness) (ptx : ProvenTransaction)
    (Hid : AccountId_valid (acc_id (ti_account (wi_inputs w)))) (Hin : input_notes_wf (ti_input_notes (wi_inputs w)))
    (Hprove : prove_transaction w = Ok ptx) :
  exists si adv h0 h so pf p d ns out,
    get_kernel_inputs TransactionProverError w = Ok (si, adv) /\
    host_new (E := Empty_set) (stub_of_account (ti_account (wi_inputs w))) (provider_of adv) = Ok h0 /\
    execute host_call (wi_program w) si h0 = (h, Ok so) /\
    into_parts (E := Empty_set) h = Ok (p, d, ns) /\ from_transaction_parts so (provider_map p) ns = Ok out /\
    proves (wi_inputs w) (wi_args w) out d pf ptx /\ proven_wf ptx /\
    forall tx, witness_of_executed tx = w ->
      stub_hash (to_account (ex_outputs tx)) = stub_hash (to_account out) ->
      on_commitment (to_output_notes (ex_outputs tx)) = on_commitment (to_output_notes out) ->
      pt_id ptx = id_of_executed tx.
Proof.
  destruct (prove_transaction_ok w ptx Hid Hprove)
    as (si & adv & h0 & h & so & pf & p & d & ns & out & Hk & Hh0 & Hp & Hparts & Hout & Hproves & Hwf).
  exists si, adv, h0, h, so, pf, p, d, ns, out. split; [exact Hk|]. split; [done|]. split.
  { destruct (prove_executes host_call (wi_program w) si h0) as [H1 H2]. rewrite Hp in H1, H2. cbn in H1, H2.
    rewrite (surjective_pairing (execute host_call (wi_program w) si h0)). by rewrite <- H1, <- H2. }
  do 4 (split; [done|]). intros tx Htx Hhash Hcom.
  apply (proven_executed_id so _ ns out _ _ d pf ptx tx Hout Hproves Hwf Hin); [by rewrite <- Htx|done..].
Qed.

(** C10: the verifier checks a proof against the public inputs it was made with, and
    against outputs that agree with those of the prover, if the kernel left the
    script root and the final account hash of the transaction on the stack; they are
    the same stack if nothing else is on it. So a transaction that was proved is
    accepted exactly when the proof system accepts the proof for these with the
    required security level. *)
Theorem verifier_checks_prover (w : TransactionWitness) (ptx : ProvenTransaction) (v : TransactionVerifier)
    (Hid : AccountId_valid (acc_id (ti_account (wi_inputs w)))) (Hin : input_notes_wf (ti_input_notes (wi_inputs w)))
    (Hprove : prove_transaction w = Ok ptx) :
  exists si adv h0 h so so' pf, get_kernel_inputs TransactionProverError w = Ok (si, adv) /\
    prove host_call (wi_program w) si h0 = (h, Ok (so, pf)) /\
    (verify_transaction v ptx = Ok tt <->
       exists level, verify (tx_program_info v) si so' pf = Ok level /\ proof_security_level v <= level) /\
    (forall actual required, verify_transaction v ptx = Err (InsufficientProofSecurityLevel actual required) ->
       verify (tx_program_info v) si so' pf = Ok actual /\ required = proof_security_level v /\ actual < required) /\
    (forall e, verify_transaction v ptx = Err (TransactionVerificationFailed e) ->
       verify (tx_program_info v) si so' pf = Err e) /\
    verify_transaction v ptx <> Panic /\
    (parse_output_stack (E := unit) so = Ok (pt_final_account_hash ptx, on_commitment (pt_output_notes ptx),
        default EMPTY_WORD (pt_tx_script_root ptx)) ->
       take 12 (output_stack so') = take 12 (output_stack so) /\
       (drop 12 (output_stack so) = replicate 4 ZERO -> output_stack so' = output_stack so)).
Proof.
  destruct (prove_transaction_ok w ptx Hid Hprove)
    as (si & adv & h0 & h & so & pf & p & d & ns & out & Hk & _ & Hp & _ & _ & Hproves & Hwf).
  destruct (build_output_stack_ok (E := TransactionVerifierError) (pt_final_account_hash ptx)
    (on_commitment (pt_output_notes ptx)) (pt_tx_script_root ptx)) as (so' & Hso' & Hs').
  exists si, adv, h0, h, so, so', pf. split; [exact Hk|]. split; [done|].
  assert (Hsi : build_input_stack (E := TransactionVerifierError) (pt_account_id ptx) (pt_initial_account_hash ptx)
    (is_commitment (pt_input_notes ptx)) (pt_block_ref ptx) = Ok si).
  { apply build_input_stack_of. apply kernel_inputs_stack in Hk. destruct Hwf as (_ & _ & (_ & _ & Hic) & _), Hin as (_ & _ & Hin).
    destruct Hproves as (-> & -> & _ & Hns & _ & _ & -> & _). rewrite Hic, Hns, nullifiers_commitment, <- Hin. exact Hk. }
  assert (Hpf : pt_proof ptx = pf) by apply Hproves.
  assert (Hrun : verify_transaction v ptx =
    (level ← map_err TransactionVerificationFailed (verify (tx_program_info v) si so' pf);
     if decide (level < proof_security_level v)
     then Err (InsufficientProofSecurityLevel level (proof_security_level v)) else Ok tt)).
  { unfold verify_transaction. rewrite Hsi. cbn [mbind res_bind]. rewrite Hso'. cbn [mbind res_bind]. by rewrite Hpf. }
  rewrite Hrun. pose proof (verify_total (tx_program_info v) si so' pf) as Htotal.
  assert (Hagree : parse_output_stack (E := unit) so = Ok (pt_final_account_hash ptx, on_commitment (pt_output_notes ptx),
      default EMPTY_WORD (pt_tx_script_root ptx)) ->
    take 12 (output_stack so') = take 12 (output_stack so) /\
    (drop 12 (output_stack so) = replicate 4 ZERO -> output_stack so' = output_stack so)).
  { intros Hparse. by apply (parsed_stack_agrees _ _ _ _ _ Hparse). }
  destruct (verify (tx_program_info v) si so' pf) as [level|e|]; cbn [map_err mbind res_bind]; [| |done].
  - split; [|split; [|split; [|split; [|exact Hagree]]]].
    + case_decide as Hl; split; [done| |intros _; exists level; split; [done|lia]|done].
      intros (? & [= <-] & ?). lia.
    + intros actual required. case_decide; [|done]. by intros [= <- <-].
    + intros e. by case_decide.
    + by case_decide.
  - split; [|split; [done|split; [by intros e' [= <-]|split; [done|exact Hagree]]]].
    split; [done|by intros (? & ? & _)].
Qed.
End proof_properties.

(** ** Expected output notes *)

Section expected_notes.
Context `{F : Field} {FL : FieldLaws F} {C : Crypto} {SML : SmtLaws C} {SSL : SimpleSmtLaws C} {MK : Merkle} {ML : MerkleLaws MK}
  {AS : Assembly} {P : Programs} {PL : ProgramLaws P} {V : Vm} {VL : VmLaws V} {VA : VmAdvice}
  {A : @Advice F C MK V} {AL : AdviceLaws A} {S : @Stacks F} {SL : StacksLaws S} {L : @Linker F AS P} {FE : Features}
  {D : Display} {B : Build} {IO : ByteIO}.

(** What is put in the advice map for a note, and for several: the last one wins. *)
Definition expected_entries (n : Note) : list (Digest * list Felt) :=
  let r := note_recipient n in
  [(nr_digest r, recipient_to_elements r); (commitment_to_key (ni_hash (nr_inputs r)), ni_values (nr_inputs r));
   (ns_hash (nr_script r), felts_of_note_script (nr_script r))].

Definition entries_agree {K W} (es : list (K * W)) : Prop :=
  forall k v v', (k, v) ∈ es -> (k, v') ∈ es -> v = v'.

Lemma nodup_agree {K W} (es : list (K * W)) : NoDup es.*1 -> entries_agree es.
Proof.
  intros Hnd k v v' (i & Hi)%list_elem_of_lookup_1 (j & Hj)%list_elem_of_lookup_1.
  assert (i = j) as ->; [|congruence].
  apply (NoDup_lookup es.*1 i j k Hnd); rewrite list_lookup_fmap; [by rewrite Hi|by rewrite Hj].
Qed.

Lemma last_entry_agree (es : list (Digest * list Felt)) k v : entries_agree es -> (k, v) ∈ es -> last_entry es k = Some v.
Proof.
  intros Hagree Hin. destruct (last_entry_some es k v Hin) as (v' & Hl & Hin'). rewrite Hl. f_equal.
  by apply (Hagree k).
Qed.

Lemma add_expected_get args n k :
  AdviceMap_get (ta_advice_map (add_expected_output_note n args)) k =
  match last_entry (expected_entries n) k with Some v => Some v | None => AdviceMap_get (ta_advice_map args) k end.
Proof.
  unfold add_expected_output_note, last_entry, expected_entries. cbn [ta_advice_map rev app find fst snd].
  rewrite !AdviceMap_get_insert. repeat case_bool_decide; repeat case_decide; simplify_eq; done.
Qed.

Lemma extend_expected_get notes args k :
  AdviceMap_get (ta_advice_map (extend_expected_output_notes notes args)) k =
  match last_entry (concat (map expected_entries notes)) k with
  | Some v => Some v
  | None => AdviceMap_get (ta_advice_map args) k
  end.
Proof.
  unfold extend_expected_output_notes. revert args. induction notes as [|n notes IH]; intros args; [done|].
  cbn [foldl map concat]. rewrite IH, add_expected_get, last_entry_app.
  by destruct (last_entry (concat (map expected_entries notes)) k).
Qed.

Lemma expected_note_provided ti notes args a a' n :
  advice_extended a a' (stack_layout ti (ta_tx_script args)) (map_layout ti (extend_expected_output_notes notes args))
    (store_layout ti) ->
  entries_agree (concat (map expected_entries notes)) -> n ∈ notes ->
  advice_has_recipient (provider_of a') (note_recipient n).
Proof.
  intros (_ & Hvals & _) Hagree Hn.
  assert (Hget : forall k v, (k, v) ∈ expected_entries n -> get_mapped_values (provider_of a') k = Some v).
  { intros k v Hin. rewrite provider_values, Hvals. unfold map_layout. rewrite !last_entry_app, AdviceMap_entries_spec.
    rewrite extend_expected_get, (last_entry_agree _ k v Hagree); [done|].
    apply list_elem_of_In, in_concat. exists (expected_entries n).
    split; [by apply in_map, list_elem_of_In|by apply list_elem_of_In]. }
  split; [apply Hget; by left|]. split; [rewrite (Hget _ (ni_values (nr_inputs (note_recipient n)))); [done|by right; left]|].
  apply Hget. by right; right; left.
Qed.

Lemma expected_script_kept notes args :
  ta_tx_script (extend_expected_output_notes notes args) = ta_tx_script args.
Proof.
  unfold extend_expected_output_notes. revert args. induction notes as [|x notes IH]; intros args; [done|].
  cbn [foldl]. by rewrite IH.
Qed.

(** C12: the arguments, the inputs of the kernel and the host together. When the input
    notes are ready for the kernel and no two announced notes have different data under
    one hash, the inputs are made, and with their advice the host answers a public note
    the arguments announce, with a well-formed recipient and any valid asset, by
    recording it with the serial number, the inputs and the script hash that were
    announced and the program its encoding decodes to, or by refusing it if the
    encoding decodes to none. That program is the announced one, and the note is recorded
    whole, if it has no debug information and does not take 4k + 1 bytes; if it takes
    4k + 1, the last byte is lost. *)
Theorem expected_notes_created (ti : TransactionInputs) (notes : list Note) (args : TransactionArgs) (a : AdviceInputs)
    (Hready : Forall note_ready (is_notes (ti_input_notes ti)))
    (Hagree : entries_agree (concat (map expected_entries notes))) :
  exists si a', kernel_inputs (E := unit) ti (extend_expected_output_notes notes args) a = Ok (si, a') /\
    forall n p h asset, n ∈ notes -> adv_provider h = provider_of a' ->
      metadata_valid (note_metadata n) -> md_note_type (note_metadata n) = NotePublic ->
      recipient_wf (note_recipient n) -> asset_valid asset ->
      note_on_stack p (note_metadata n) asset (nr_digest (note_recipient n)) ->
      let script := nr_script (note_recipient n) in
      let bytes := program_to_bytes (ns_code script) in
      handle_event NoteCreated p h = public_note_outcome h (note_metadata n) asset (note_recipient n) /\
      (note_script_ok script -> (length bytes mod 4 <> 1)%nat -> handle_event NoteCreated p h =
        (mkHost (adv_provider h) (account_delta h) (acct_procedure_index_map h)
           (output_notes h ++ [PublicNote (note_new (created_assets asset) (note_metadata n) (note_recipient n))]), Ok tt)) /\
      ((length bytes mod 4 = 1)%nat ->
        program_read_back script = program_from_bytes (take (length bytes - 1) bytes)).
Proof.
  destruct (kernel_inputs_ok (E := unit) ti (extend_expected_output_notes notes args) a Hready) as (si & a' & Hok & _ & Hext).
  exists si, a'. split; [done|]. intros n p h asset Hn Hadv Hmd Ht Hr Hv Hstack script bytes.
  rewrite expected_script_kept in Hext.
  assert (Hprov : advice_has_recipient (adv_provider h) (note_recipient n)).
  { rewrite Hadv. by apply (expected_note_provided ti notes args a a' n). }
  split; [by apply handle_public_note|]. split.
  - intros Hs Hlen. apply handle_note_created. by apply created_public.
  - intros Hlen. unfold program_read_back, decoded_bytes. fold bytes. by rewrite decide_True.
Qed.
End expected_notes.

(** ** Witnesses *)

Import RefInstances RefMachine.

(** A store with the inputs of one transaction. *)
Definition OneStore (ti : TransactionInputs) : DataStore unit :=
  {| get_transaction_inputs _ _ _ _ := Ok ti; get_account_code _ _ := Err (InternalError "no code") |}.

(** A transaction with a script and no input notes, on a new account. The kernel
    adds an asset, creates a note and counts the nonce up. *)
Definition sample_script_block : Word := ref_hash [].
Definition sample_tx_script : TransactionScript := mkTransactionScript (P := RefPrograms) [] sample_script_block [].
Definition sample_tx_inputs (a : Account) : TransactionInputs :=
  mkTransactionInputs a None (sample_header 3) (mkChainMmr sample_mmr []) (mkInputNotes [] EMPTY_WORD).
Definition sample_args (st : AccountStub) : TransactionArgs :=
  mkTransactionArgs (Some sample_tx_script) [] (AdviceMap_insert AdviceMap_default (stub_hash st) (stub_data ZERO ZERO st)).
Definition sample_executor (a : Account) : TransactionExecutor (T := unit) :=
  mkExecutor tt (mkCompiler (P := RefPrograms) tt [(acc_id a, [sample_script_block])] sample_script_block).
Definition sample_final (a : Account) (v : AssetVault) : AccountStub :=
  mkAccountStub (acc_id a) (felt_add ZERO ONE) (commitment v) (storage_root (acc_storage a)) (code_root (acc_code a)).
Definition sample_outputs (st : AccountStub) : list Felt :=
  rev (output_layout (stub_hash st) (build_output_notes_commitment [sample_output]) EMPTY_WORD).
Definition sample_end (a : Account) (v : AssetVault) (adv : AdviceProvider) : KernelState :=
  mkKernel v (SimpleSmt_get (slots (acc_storage a))) (felt_add ZERO ONE) [sample_output]
    (fst (provider_set_advice adv (sample_process []) ONE)).
Definition sample_processor (st : AccountStub) : Processor := RefProcessor sample_calls (sample_outputs st).

Lemma sample_prepared a st :
  exists prog, prepare_transaction (DS := OneStore (sample_tx_inputs a)) (sample_executor a) (acc_id a) 3 [] (sample_args st) =
    Ok (mkPrepared prog (sample_tx_inputs a) (sample_args st)).
Proof.
  eexists. apply prepare_transaction_ok. eexists _, _. split; [reflexivity|]. split; [|reflexivity].
  apply compile_transaction_complete. exists [sample_script_block], [sample_script_block], tt, [].
  split; [cbn [btree_get account_procedures ex_compiler sample_executor]; by rewrite decide_True|].
  split; [right; discriminate|]. split; [by econstructor; [|constructor]|].
  split; [|split; reflexivity]. constructor; [|constructor]. exists [sample_script_block].
  split; [by left|]. constructor; [by left|constructor].
Qed.

(** The run of this transaction, with everything the theorems ask of it. *)
Lemma sample_run {E} :
  exists a v' prog si adv h0 h (st := sample_final a v') (so := sample_outputs st)
    (k := sample_end a v' (provider_of adv)),
    account_wf a /\ holdings_ok (view (acc_vault a)) /\ acc_nonce a = ZERO /\
    prepare_transaction (DS := OneStore (sample_tx_inputs a)) (sample_executor a) (acc_id a) 3 [] (sample_args st) =
      Ok (mkPrepared prog (sample_tx_inputs a) (sample_args st)) /\
    kernel_inputs (E := E) (sample_tx_inputs a) (sample_args st) AdviceInputs_default = Ok (si, adv) /\
    honest_run a (provider_of adv) h0 h sample_calls k st so.
Proof.
  destruct (sample_account ZERO) as (a & Hwf & _ & Hv & Hn & _). destruct sample_add as (v' & Hrun & Hview).
  set (st := sample_final a v'). destruct (sample_prepared a st) as (prog & Hprep).
  destruct (kernel_inputs_ok (E := E) (sample_tx_inputs a) (sample_args st) AdviceInputs_default)
    as (si & adv & Hin & _ & Hext); [constructor|].
  destruct (sample_host_new (stub_of_account a) (provider_of adv)) as (h0 & Hh0).
  assert (Htrace : kernel_trace (acct_procedure_index_map h0) (layout (acc_storage a)) (kernel_start a (provider_of adv))
    sample_calls (sample_end a v' (provider_of adv))).
  { unfold kernel_start. rewrite Hv, Hn. by apply sample_trace. }
  destruct (host_new_ok _ _ _ Hh0) as (m & Hm).
  assert (Hm0 : holdings_ok (view (acc_vault a))) by (rewrite Hv; exact holdings_ok_default).
  destruct (host_inv_trace a m _ sample_calls _ Hm0 ltac:(rewrite Hm in Htrace; exact Htrace) 0%nat _
    (host_inv_start a (provider_of adv) m (proj1 (proj2 Hwf)))) as (h & Hdrive & _).
  exists a, v', prog, si, adv, h0, h. cbv zeta. fold st. rewrite <- Hm in Hdrive.
  do 5 (split; [assumption|]). split; try assumption.
  - by vm_compute.
  - cbn [k_nonce sample_end]. rewrite Hn. reflexivity.
  - left. exists (vault_key sample_asset). cbn [k_vault sample_end]. by rewrite Hv.
  - split; [reflexivity|]. split; [reflexivity|]. split; [reflexivity|]. split; [|reflexivity].
    by exists (slots (acc_storage a)).
  - split; [exists EMPTY_WORD; by unfold sample_outputs|].
    rewrite provider_map_values. change (get_mapped_values _ ?x) with (get_mapped_values (provider_of adv) x).
    rewrite provider_values. destruct Hext as (_ & Hvals & _). rewrite Hvals. unfold map_layout.
    rewrite !last_entry_app, AdviceMap_entries_spec. cbn [ta_advice_map sample_args].
    by rewrite AdviceMap_get_insert, decide_True.
  - apply NoDup_singleton.
  - by vm_compute.
Qed.

Lemma sample_executes (st : AccountStub) prog si h0 h :
  drive host_call sample_calls h0 = (h, Ok tt) ->
  execute (Processor := sample_processor st) host_call prog si h0 = (h, Ok (sample_outputs st)).
Proof. intros H. exact (mut_bind_ok _ _ _ _ _ H). Qed.

Lemma execution_reaches_final_account_witness :
  exists a st tx a', execute_transaction (PR := sample_processor st) (DS := OneStore (sample_tx_inputs a)) (sample_executor a)
      (acc_id a) 3 [] (sample_args st) = Ok tx /\
    apply_delta (ex_delta tx) a = (a', Ok tt) /\ account_hash a' = stub_hash (to_account (ex_outputs tx)).
Proof.
  destruct (sample_run (E := TransactionExecutorError)) as (a & v' & prog & si & adv & h0 & h & Hwf & Hm0 & _ & Hprep & Hin & Hrun).
  set (st := sample_final a v') in *.
  destruct (execution_reaches_final_account (PR := sample_processor st)
    (DS := OneStore (sample_tx_inputs a)) (sample_executor a) (acc_id a) 3 [] (sample_args st) _ si adv h0 h
    (sample_outputs st) sample_calls (sample_end a v' (provider_of adv)) st Hprep Hin Hwf Hm0
    (sample_executes st _ _ _ _ (run_calls_made _ _ _ _ _ _ _ _ Hrun)) Hrun)
    as (tx & a' & Htx & _ & _ & _ & Happly & _ & _ & Hhash & _).
  exists a, st, tx, a'. split; [exact Htx|]. split; [exact Happly|exact Hhash].
Defined.

(** The executed transaction of this run. *)
Lemma sample_executed :
  exists a st tx, account_wf a /\ execute_transaction (PR := sample_processor st) (DS := OneStore (sample_tx_inputs a))
    (sample_executor a) (acc_id a) 3 [] (sample_args st) = Ok tx.
Proof.
  destruct (sample_run (E := TransactionExecutorError)) as (a & v' & prog & si & adv & h0 & h & Hwf & Hm0 & _ & Hprep & Hin & Hrun).
  set (st := sample_final a v') in *.
  destruct (honest_run_builds (S := RefStacks) prog (sample_tx_inputs a) (sample_args st) (provider_of adv) h0 h
    (sample_outputs st) sample_calls (sample_end a v' (provider_of adv)) st Hwf Hm0 Hrun) as (tx & a' & Htx & _).
  exists a, st, tx. split; [exact Hwf|].
  rewrite (execute_transaction_run (PR := sample_processor st) (DS := OneStore (sample_tx_inputs a)) _ _ _ _ _ _ _ _ _ Hprep Hin
    (run_host _ _ _ _ _ _ _ _ Hrun)).
  rewrite (sample_executes st _ _ _ _ (run_calls_made _ _ _ _ _ _ _ _ Hrun)). exact Htx.
Qed.

Lemma execute_transaction_spec_witness :
  exists st ti c tx si h0 h so, execute_transaction (PR := sample_processor st) (DS := OneStore ti) c (acc_id (ti_account ti)) 3 []
      (sample_args st) = Ok tx /\
    execute (Processor := sample_processor st) host_call (ex_program tx) si h0 = (h, Ok so) /\ ex_inputs tx = ti.
Proof.
  destruct sample_executed as (a & st & tx & _ & Htx).
  destruct (execute_transaction_spec (PR := sample_processor st) (PRL := RefProcessorLaws _ _) (DS := OneStore (sample_tx_inputs a))
    _ _ _ _ _ tx Htx) as (si & adv & h0 & h & so & calls & Hti & _ & _ & _ & _ & Hex & _).
  exists st, (sample_tx_inputs a), (sample_executor a), tx, si, h0, h, so. split; [exact Htx|]. split; [exact Hex|].
  by injection Hti.
Defined.

Lemma execute_transaction_refuses_witness :
  exists a st, execute_transaction (PR := RefProcessor [(sample_process [], Event 7)] (sample_outputs st))
      (DS := OneStore (sample_tx_inputs a)) (sample_executor a) (acc_id a) 3 [] (sample_args st) =
    Err (ExecuteTransactionProgramFailed (EventError "event 7 is not a transaction kernel event")).
Proof.
  destruct (sample_run (E := TransactionExecutorError)) as (a & v' & prog & si & adv & h0 & h & Hwf & _ & _ & Hprep & Hin & [Hh0 _]).
  set (st := sample_final a v') in *. exists a, st.
  exact (execute_transaction_refuses (PR := RefProcessor [(sample_process [], Event 7)] (sample_outputs st))
    (DS := OneStore (sample_tx_inputs a)) (sample_executor a) (acc_id a) 3 [] (sample_args st) _ si adv h0 Hprep Hin Hh0).
Defined.

Lemma sample_proves (st : AccountStub) prog si h0 h :
  drive host_call sample_calls h0 = (h, Ok tt) ->
  prove (Processor := sample_processor st) host_call prog si h0 = (h, Ok (sample_outputs st, 96)).
Proof.
  intros H. cbn [prove sample_processor RefProcessor]. unfold ref_execute, mbind, mut_bind. by rewrite H.
Qed.

(** The proof of this run. *)
Definition sample_witness (a : Account) (st : AccountStub) (prog : Program) : TransactionWitness :=
  mkTxWitness prog (sample_tx_inputs a) (sample_args st) AdviceInputs_default.

Lemma sample_is_new a (Q : Prop) : acc_nonce a = ZERO -> is_new a = false -> Q.
Proof. unfold is_new. intros ->. by rewrite bool_decide_true. Qed.

Lemma sample_proved :
  exists a st prog ptx, account_wf a /\ input_notes_wf (ti_input_notes (sample_tx_inputs a)) /\
    prove_transaction (PR := sample_processor st) (sample_witness a st prog) = Ok ptx.
Proof.
  destruct (sample_run (E := TransactionProverError)) as (a & v' & prog & si & adv & h0 & h & Hwf & Hm0 & Hn & Hprep & Hin & Hrun).
  set (st := sample_final a v') in *. pose proof (run_calls_made _ _ _ _ _ _ _ _ Hrun) as Hdrive.
  assert (Hnotes : input_notes_wf (ti_input_notes (sample_tx_inputs a))) by (split; [by vm_compute|split; [constructor|done]]).
  destruct (honest_run_proves (PR := sample_processor st) (sample_witness a st prog) si adv h0 h (sample_outputs st) 96
    sample_calls (sample_end a v' (provider_of adv)) st Hnotes Hin Hwf Hm0 (sample_is_new a _ Hn)
    (sample_proves st prog si h0 h Hdrive) Hrun) as (ptx & tx & a' & Hptx & _).
  exists a, st, prog, ptx. split; [exact Hwf|]. split; [exact Hnotes|exact Hptx].
Qed.

Lemma prove_transaction_spec_witness :
  exists a st prog ptx, prove_transaction (PR := sample_processor st) (sample_witness a st prog) = Ok ptx /\
    exists out d pf, proves (PR := sample_processor st) (sample_tx_inputs a) (sample_args st) out d pf ptx.
Proof.
  destruct sample_proved as (a & st & prog & ptx & Hwf & Hnotes & Hptx). exists a, st, prog, ptx. split; [exact Hptx|].
  destruct (prove_transaction_spec (PR := sample_processor st) (PRL := RefProcessorLaws _ _) (sample_witness a st prog) ptx
    (proj1 Hwf) Hnotes Hptx) as (si & adv & h0 & h & so & pf & p & d & ns & out & _ & _ & _ & _ & _ & Hproves & _).
  exists out, d, pf. exact Hproves.
Defined.

Lemma verifier_checks_prover_witness :
  exists a st prog ptx, prove_transaction (PR := sample_processor st) (sample_witness a st prog) = Ok ptx /\
    verify_transaction (PR := sample_processor st) (mkVerifier (L := RefLinker) EMPTY_WORD 100) ptx <> Panic.
Proof.
  destruct sample_proved as (a & st & prog & ptx & Hwf & Hnotes & Hptx). exists a, st, prog, ptx. split; [exact Hptx|].
  destruct (verifier_checks_prover (PR := sample_processor st) (PRL := RefProcessorLaws _ _) (sample_witness a st prog) ptx
    (mkVerifier (L := RefLinker) EMPTY_WORD 100) (proj1 Hwf) Hnotes Hptx)
    as (si & adv & h0 & h & so & so' & pf & _ & _ & _ & _ & _ & Hpanic & _). exact Hpanic.
Defined.

(** A public note that is announced is created whole with the advice of the kernel. *)
Definition announced_note : Note :=
  note_new (created_assets (sample_nft 1)) public_metadata (public_recipient [7; 8; 9; 10]).

Lemma expected_notes_created_witness :
  exists ti si a', kernel_inputs (E := unit) ti (extend_expected_output_notes [announced_note] tx_args_default)
      AdviceInputs_default = Ok (si, a') /\
    let h := mkHost (provider_of a') (tracker_new sample_stub) [] [] in
    handle_event NoteCreated (sample_process (public_note_stack (note_recipient announced_note))) h =
      (mkHost (provider_of a') (tracker_new sample_stub) [] [PublicNote announced_note], Ok tt).
Proof.
  destruct (sample_account ONE) as (a & _). exists (sample_tx_inputs a).
  destruct (expected_notes_created (sample_tx_inputs a) [announced_note] tx_args_default AdviceInputs_default)
    as (si & a' & Hok & Hcreated); [constructor| |].
  { apply nodup_agree, (NoDup_fmap_1 (fun w => as_int (w0 w))). apply (bool_decide_unpack _). by vm_compute. }
  exists si, a'. split; [exact Hok|]. intros h.
  destruct (Hcreated announced_note (sample_process (public_note_stack (note_recipient announced_note))) h (sample_nft 1)
    (list_elem_of_here _ _) eq_refl public_metadata_valid eq_refl (public_recipient_wf _) (sample_nft_valid 1 ltac:(lia))
    (public_note_on_stack _)) as (_ & Hwhole & _).
  apply Hwhole; [split; [by repeat constructor|by vm_compute]|by vm_compute].
Defined.
