(* ===== verification/Network.v ===== *)
(** What the other side of the network learns from a proven transaction: the account
    data a transaction of an account on chain carries is enough to follow the
    account. The theorem joins the host, the kernel's outputs, the prover and the
    deltas. *)
From S2P Require Import Prelude Interfaces Types Reference AccountIds NoteMeta Notes Blocks Chain Vault Storage Delta Code.
From S2P Require Import Account Outputs Inputs Memory Tracker Host Machine Transactions Kernel Compiler Executor.
Local Open Scope Z_scope.

Section network.
Context `{F : Field} {FL : FieldLaws F} {C : Crypto} {SML : SmtLaws C} {SSL : SimpleSmtLaws C} {MK : Merkle} {ML : MerkleLaws MK}
  {AS : Assembly} {P : Programs} {PL : ProgramLaws P} {V : Vm} {VL : VmLaws V} {VA : VmAdvice}
  {A : @Advice F C MK V} {AL : AdviceLaws A} {S : @Stacks F} {SL : StacksLaws S} {L : @Linker F AS P} {LL : LinkerLaws L}
  {PR : @Processor F C MK V VA S AS P L} {PRL : ProcessorLaws PR} {FE : Features} {D : Display} {B : Build} {IO : ByteIO}.

(** Whoever holds the account [a], or nothing for a new one, follows a transaction:
    a full account replaces what is held, a delta is applied to it; a private account
    cannot be followed. *)
Definition follow (a : Account) (details : option AccountDetails) : option Account :=
  match details with
  | None => None
  | Some (Full a') => Some a'
  | Some (Delta d) => match apply_delta d a with (a', Ok _) => Some a' | _ => None end
  end.

(** C1: the prover, the host, the kernel's outputs and the deltas together: if the
    kernel changes the account as the calls it makes say and reports the final state
    it reaches, then the transaction is proved and names that final state: its output
    notes are the notes the kernel created, it has the identifier of the executed
    transaction of this run, and if the account is on chain, whoever follows the
    transaction gets an account with the vault, the storage and the nonce the kernel
    reached, and with the final hash the transaction claims. *)
Theorem proven_transaction_followed (w : TransactionWitness) (a := ti_account (wi_inputs w)) (si : StackInputs)
    (adv : AdviceInputs) (h0 h : TransactionHost) (so : StackOutputs) (pf : ExecutionProof)
    (calls : list (ProcessState * HostCall)) (k : KernelState) (st : AccountStub)
    (Hnotes : input_notes_wf (ti_input_notes (wi_inputs w)))
    (Hin : kernel_inputs (E := TransactionProverError) (wi_inputs w) (wi_args w) (wi_advice w) = Ok (si, adv))
    (Hwf : account_wf a) (Hm0 : holdings_ok (view (acc_vault a)))
    (Hinit : is_new a = false -> account_hash a <> EMPTY_WORD)
    (Hprove : prove host_call (wi_program w) si h0 = (h, Ok (so, pf)))
    (Hrun : honest_run a (provider_of adv) h0 h calls k st so) :
  exists ptx tx, prove_transaction w = Ok ptx /\
    build_executed_transaction (wi_program w) (wi_args w) (wi_inputs w) so h = Ok tx /\ pt_id ptx = id_of_executed tx /\
    pt_initial_account_hash ptx = proof_init_hash a /\ pt_final_account_hash ptx = stub_hash st /\
    on_notes (pt_output_notes ptx) = k_notes k /\
    match follow a (pt_account_details ptx) with
    | None => ~ on_chain_id (acc_id a)
    | Some a' => on_chain_id (acc_id a) /\ account_wf a' /\ acc_id a' = acc_id a /\ account_of_kernel a' k /\
                 account_hash a' = pt_final_account_hash ptx
    end.
Proof.
  destruct (honest_run_proves w si adv h0 h so pf calls k st Hnotes Hin Hwf Hm0 Hinit Hprove Hrun)
    as (ptx & tx & a' & Hptx & Htx & Hproves & Hid & Hst & Hkn & Happly & Hwf' & Hstub & Hak).
  exists ptx, tx. do 3 (split; [done|]). destruct Hproves as (_ & Hini & Hfin & _ & Hons & _ & _ & _ & Hdet).
  assert (Ha' : acc_id a' = acc_id a) by (pose proof (proj1 (run_stub _ _ _ _ _ _ _ _ Hrun)) as <-; by rewrite <- Hstub).
  rewrite Hini, Hfin, Hons, Hst, Hkn. do 3 (split; [done|]). unfold a in *.
  destruct (pt_account_details ptx) as [[a''|d']|]; cbn [follow]; [| |done].
  - destruct Hdet as (Hc & _ & Ha''). rewrite Happly in Ha''. injection Ha'' as <-. by rewrite <- Hstub.
  - destruct Hdet as (Hc & _ & ->). rewrite Happly. by rewrite <- Hstub.
Qed.
End network.

(** ** Witness *)

Import RefInstances RefMachine.

(** The transaction on a new account whose kernel adds an asset, creates a note and
    counts the nonce up. *)
Lemma proven_transaction_followed_witness :
  exists a st prog adv v' ptx, prove_transaction (PR := sample_processor st) (sample_witness a st prog) = Ok ptx /\
    on_notes (pt_output_notes ptx) = [sample_output] /\
    match follow a (pt_account_details ptx) with
    | None => ~ on_chain_id (acc_id a)
    | Some a' => on_chain_id (acc_id a) /\ account_wf a' /\ acc_id a' = acc_id a /\
                 account_of_kernel a' (sample_end a v' adv) /\ account_hash a' = pt_final_account_hash ptx
    end.
Proof.
  destruct (sample_run (E := TransactionProverError)) as (a & v' & prog & si & adv & h0 & h & Hwf & Hm0 & Hn & _ & Hin & Hrun).
  set (st := sample_final a v') in *.
  assert (Hnotes : input_notes_wf (ti_input_notes (sample_tx_inputs a))) by (split; [by vm_compute|split; [constructor|done]]).
  destruct (proven_transaction_followed (PR := sample_processor st) (sample_witness a st prog) si adv h0 h (sample_outputs st)
    96 sample_calls (sample_end a v' (provider_of adv)) st Hnotes Hin Hwf Hm0 (sample_is_new a _ Hn)
    (sample_proves st prog si h0 h (run_calls_made _ _ _ _ _ _ _ _ Hrun)) Hrun)
    as (ptx & tx & Hptx & _ & _ & _ & _ & Hkn & Hfollow).
  exists a, st, prog, (provider_of adv), v', ptx. split; [exact Hptx|]. split; [exact Hkn|exact Hfollow].
Defined.
