(* ===== verification/StandardAccounts.v ===== *)
(** src/miden-lib: accounts/wallets/mod.rs, accounts/faucets/mod.rs and auth.rs, the
    constructors of wallets and fungible faucets. *)
From S2P Require Import Prelude Interfaces Types Reference AccountIds Seed Assets TokenSymbols Vault Storage Code Account Inputs Machine.
Local Open Scope Z_scope.

(** The constructors search for a seed, with fuel: [None] when it ran out. The search is
    the one of a build without the feature [concurrent]; with it [get_account_seed] is the
    threaded search of Seed.v, which may return another good seed. *)
Section accounts.
Context `{F : Field} {C : Crypto} {AS : Assembly} {FE : Features} {D : Display} {B : Build} {P : Programs} {L : Linker}
  {ML : MidenLib}.

Inductive AuthScheme := RpoFalcon512 (pub_key : PublicKey).

(** What both constructors end with: the seed, the identifier and the account. *)
Definition with_seed (fuel : nat) (init_seed : list Z) (account_type : AccountType) (storage_type : AccountStorageType)
    (vault : AssetVault) (storage : AccountStorage) (code : AccountCode) : option (res AccountError (Account * Word)) :=
  match get_account_seed_single account_type storage_type (code_root code) (storage_root storage) fuel init_seed with
  | None => None
  | Some found =>
      account_seed ←? found;
      account_id ←? AccountId_new account_seed (code_root code) (storage_root storage);
      Some (Ok (mkAccount account_id vault storage code ZERO, account_seed))
  end.

Definition wallet_source (auth_scheme_procedure : string) : string :=
  "
    use.miden::contracts::wallets::basic->basic_wallet
    use.miden::contracts::auth::basic

    export.basic_wallet::receive_asset
    export.basic_wallet::send_asset
    export." ++ auth_scheme_procedure ++ "

    ".

Definition create_basic_wallet (fuel : nat) (init_seed : list Z) (auth_scheme : AuthScheme) (account_type : AccountType)
    (account_storage_type : AccountStorageType) : option (res AccountError (Account * Word)) :=
  if decide (account_type = FungibleFaucet \/ account_type = NonFungibleFaucet)
  then Some (Err (AccountIdInvalidFieldElement "Basic wallet accounts cannot have a faucet account type"))
  else
    let '(auth_scheme_procedure, storage_slot_0_data) :=
      match auth_scheme with
      | RpoFalcon512 pub_key => ("basic::auth_tx_rpo_falcon512"%string, word_of_public_key pub_key)
      end in
    account_code_ast ←? map_err (fun e => AccountCodeAssemblerError (AssemblyError_from e))
      (ModuleAst_parse (wallet_source auth_scheme_procedure));
    account_code ←? code_new account_code_ast kernel_assembler;
    account_storage ←? storage_new [mkSlotItem 0 (new_value storage_slot_0_data)];
    account_vault ←? expect_ok (vault_new []);
    with_seed fuel init_seed account_type account_storage_type account_vault account_storage account_code.

Definition MAX_MAX_SUPPLY : Z := Z.shiftl 1 63 - 1.
Definition MAX_DECIMALS : Z := 12.

(** [decimals] is a [u8]. *)
Definition create_basic_fungible_faucet (fuel : nat) (init_seed : list Z) (symbol : TokenSymbol) (decimals : Z)
    (max_supply : Felt) (account_storage_type : AccountStorageType) (auth_scheme : AuthScheme)
    : option (res AccountError (Account * Word)) :=
  let auth_data := match auth_scheme with RpoFalcon512 pub_key => word_of_public_key pub_key end in
  faucet_code_ast ←? expect (get_module_ast "miden::contracts::faucets::basic_fungible");
  account_code ←? code_new faucet_code_ast kernel_assembler;
  if decide (decimals > MAX_DECIMALS)
  then Some (Err (FungibleFaucetInvalidMetadata "Decimals must be less than 13"))
  else if decide (as_int max_supply > MAX_MAX_SUPPLY)
  then Some (Err (FungibleFaucetInvalidMetadata "Max supply must be < 2^63"))
  else
    let metadata := mkWord max_supply (Felt_new decimals) (ts_felt symbol) ZERO in
    account_storage ←? storage_new [mkSlotItem 0 (new_value auth_data); mkSlotItem 1 (new_value metadata)];
    account_vault ←? expect_ok (vault_new []);
    with_seed fuel init_seed FungibleFaucet account_storage_type account_vault account_storage account_code.
End accounts.
Arguments AuthScheme : clear implicits.
Arguments AuthScheme {_ _ _ _ _}.

(** ** Specification *)

Section spec.
Context `{F : Field} {C : Crypto} {AS : Assembly} {FE : Features} {D : Display} {B : Build}.

(** A new account with the code, an empty vault, the slots given and an identifier
    of the requested kind, which the seed is of. *)
Definition fresh_account (code : AccountCode) (items : list SlotItem) (t : AccountType) (st : AccountStorageType)
    (a : Account) (seed : Word) : Prop :=
  account_wf a /\ is_new a = true /\ acc_code a = code /\
  account_type (E := Empty_set) (acc_id a) = Ok t /\ storage_type (E := Empty_set) (acc_id a) = Ok st /\
  (forall k, view (acc_vault a) k = None) /\
  (forall i, 0 <= i < SLOT_LAYOUT_COMMITMENT_INDEX ->
     get_item (E := AccountError) (acc_storage a) i = Ok (slot_value (slot_at items i))) /\
  validate_account_seed a (Some seed) = Ok tt.

(** No seed within the fuel gives an identifier of the requested kind. *)
Definition no_seed (fuel : nat) (init_seed : list Z) (t : AccountType) (st : AccountStorageType) (code_root storage_root : Digest) : Prop :=
  forall k, (k < fuel)%nat -> ~ good_seed t st code_root storage_root (seed_chain code_root storage_root (initial_seed init_seed) k).
End spec.

(** ** Lemmas *)

Section lemmas.
Context `{F : Field} {FL : FieldLaws F} {C : Crypto} {SML : SmtLaws C} {SSL : SimpleSmtLaws C} {AS : Assembly}
  {FE : Features} {D : Display} {B : Build} {P : Programs} {L : Linker} {ML : MidenLib}.

Lemma vault_new_nil : exists v, vault_new [] = Ok v /\ vault_wf v /\ forall k, view v k = None.
Proof.
  destruct (vault_new_ok []) as (v & Hv & Hwf & Hget); [constructor|constructor|]. exists v.
  split; [done|]. split; [done|]. intros k. unfold view. rewrite Hget. by rewrite decide_True.
Qed.

(** The storage of values at distinct indices. *)
Lemma storage_of_values (items : list SlotItem) : items_ok items ->
  Forall (fun it => slot_type (item_slot it) = DEFAULT_SLOT_TYPE) items ->
  exists s, storage_new items = Ok s /\ storage_wf s /\ Forall slot_type_u8 (layout s) /\
    forall i, 0 <= i < SLOT_LAYOUT_COMMITMENT_INDEX ->
      get_item (E := AccountError) s i = Ok (slot_value (slot_at items i)).
Proof.
  intros Hok Hty. destruct (storage_new_ok items Hok) as (s & Hs & Hwf & Hslots). exists s.
  split; [done|]. split; [done|]. split.
  - apply slot_types_u8; [done|]. intros i Hi. rewrite (proj1 (Hslots i Hi)). f_equal. clear -Hty.
    unfold slot_at. induction Hty as [|it items Hit _ IH]; [done|]. cbn [fmap list_fmap entry_or item_pair].
    by case_decide.
  - intros i Hi. unfold get_item. rewrite bool_decide_true by (unfold SLOT_LAYOUT_COMMITMENT_INDEX, STORAGE_TREE_DEPTH in *; lia).
    cbn [assert_ mbind res_bind]. by rewrite (proj2 (Hslots i Hi)).
Qed.

Lemma with_seed_spec fuel init_seed t st v s code items :
  vault_wf v -> (forall k, view v k = None) -> storage_wf s -> Forall slot_type_u8 (layout s) ->
  (forall i, 0 <= i < SLOT_LAYOUT_COMMITMENT_INDEX ->
     get_item (E := AccountError) s i = Ok (slot_value (slot_at items i))) -> code_wf code ->
  match with_seed fuel init_seed t st v s code with
  | None => no_seed fuel init_seed t st (code_root code) (storage_root s)
  | Some (Ok (a, seed)) => acc_storage a = s /\ fresh_account code items t st a seed
  | Some _ => False
  end.
Proof.
  intros Hv Hempty Hs Hu8 Hget Hcode. unfold with_seed, get_account_seed_single.
  destruct (seed_loop _ _ _ _ _ _ _) as [r|] eqn:Hr; [|intros k Hk; exact (seed_loop_none _ _ _ _ _ _ Hr k Hk)].
  apply seed_loop_spec in Hr as (k & _ & -> & (id & Hid & Ht & Hst) & _). cbn [try_]. rewrite Hid. cbn [try_].
  split; [done|]. pose proof Hid as Hvalid. apply bind_ok in Hvalid as (? & _ & Hvalid).
  apply try_from_felt_ok_iff in Hvalid as [_ Hvalid].
  split; [by split_and!|]. split; [by apply bool_decide_true|]. do 5 (split; [done|]).
  unfold validate_account_seed. unfold is_new. cbn [acc_nonce acc_code acc_storage acc_id].
  rewrite bool_decide_true by done. rewrite Hid. cbn [map_err mbind res_bind]. by rewrite decide_False by tauto.
Qed.
End lemmas.

(** ** Properties *)

Section properties.
Context `{F : Field} {FL : FieldLaws F} {C : Crypto} {SML : SmtLaws C} {SSL : SimpleSmtLaws C} {AS : Assembly}
  {FE : Features} {D : Display} {B : Build} {P : Programs} {L : Linker} {ML : MidenLib}.

(** A wallet is created for regular account types only. When its code assembles,
    what is created is a well-formed new account with this code, the public key in
    slot 0, every other slot and the vault empty, and an identifier of the
    requested type and storage type; the seed returned with it is the one its
    first transaction is accepted with. Nothing is created only when no seed
    within the fuel is good. *)
Theorem create_basic_wallet_spec (fuel : nat) (init_seed : list Z) (pub_key : PublicKey) (t : AccountType)
    (st : AccountStorageType) (m : ModuleAst) (code : AccountCode)
    (Hparse : ModuleAst_parse (wallet_source "basic::auth_tx_rpo_falcon512") = Ok m)
    (Hcode : code_new m kernel_assembler = Ok code) :
  match create_basic_wallet fuel init_seed (RpoFalcon512 pub_key) t st with
  | None => exists s, no_seed fuel init_seed t st (code_root code) (storage_root s)
  | Some (Ok (a, seed)) => (t = RegularAccountImmutableCode \/ t = RegularAccountUpdatableCode) /\
      fresh_account code [mkSlotItem 0 (new_value (word_of_public_key pub_key))] t st a seed
  | Some (Err e) => (t = FungibleFaucet \/ t = NonFungibleFaucet) /\
      e = AccountIdInvalidFieldElement "Basic wallet accounts cannot have a faucet account type"
  | Some Panic => False
  end.
Proof.
  unfold create_basic_wallet. case_decide as Ht; [done|]. rewrite Hparse. cbn [map_err try_]. rewrite Hcode. cbn [try_].
  set (items := [mkSlotItem 0 (new_value (word_of_public_key pub_key))]).
  destruct (storage_of_values items) as (s & Hs & Hwf & Hu8 & Hget).
  { split; [|apply NoDup_singleton]. repeat constructor; cbn; unfold SLOT_LAYOUT_COMMITMENT_INDEX; lia. }
  { by repeat constructor. }
  destruct vault_new_nil as (v & Hv & Hvwf & Hempty). rewrite Hs, Hv. cbn [try_ expect_ok].
  pose proof (with_seed_spec fuel init_seed t st v s code items Hvwf Hempty Hwf Hu8 Hget
    (proj2 (proj2 (proj1 (code_new_ok _ _ _) Hcode)))) as Hspec.
  destruct (with_seed fuel init_seed t st v s code) as [[[a seed]| |]|]; [|done|done|by exists s].
  split; [|apply Hspec]. destruct t; naive_solver.
Qed.

(** C30: a faucet is created when it has at most 12 decimals and a supply below 2^63, and
    otherwise refused with the reason. It is a well-formed new account of a fungible
    faucet, with the code of the library, the public key in slot 0, and in slot 1
    the supply, the decimals and the symbol; its identifier is one that issues
    assets, up to the whole supply, and the seed is accepted with it. *)
Theorem create_basic_fungible_faucet_spec (fuel : nat) (init_seed : list Z) (symbol : TokenSymbol) (decimals : Z)
    (max_supply : Felt) (st : AccountStorageType) (pub_key : PublicKey) (m : ModuleAst) (code : AccountCode)
    (Hmodule : get_module_ast "miden::contracts::faucets::basic_fungible" = Some m)
    (Hcode : code_new m kernel_assembler = Ok code) :
  let metadata := mkWord max_supply (Felt_new decimals) (ts_felt symbol) ZERO in
  match create_basic_fungible_faucet fuel init_seed symbol decimals max_supply st (RpoFalcon512 pub_key) with
  | None => exists s, no_seed fuel init_seed FungibleFaucet st (code_root code) (storage_root s)
  | Some (Ok (a, seed)) => decimals <= 12 /\ as_int max_supply < 2 ^ 63 /\
      fresh_account code [mkSlotItem 0 (new_value (word_of_public_key pub_key)); mkSlotItem 1 (new_value metadata)]
        FungibleFaucet st a seed /\
      (forall amount, 0 <= amount <= as_int max_supply ->
         exists x, fungible_new (acc_id a) amount = Ok x /\ fungible_valid x /\ fa_amount x = amount)
  | Some (Err e) => if decide (decimals <= 12)
      then 2 ^ 63 <= as_int max_supply /\ e = FungibleFaucetInvalidMetadata "Max supply must be < 2^63"
      else e = FungibleFaucetInvalidMetadata "Decimals must be less than 13"
  | Some Panic => False
  end.
Proof.
  intros metadata. unfold create_basic_fungible_faucet. rewrite Hmodule. cbn [expect try_]. rewrite Hcode. cbn [try_].
  fold metadata. change MAX_MAX_SUPPLY with (2 ^ 63 - 1). unfold MAX_DECIMALS.
  case_decide as Hd; [by rewrite decide_False by lia|]. case_decide as Hm; [by rewrite decide_True by lia; split; [lia|]|].
  set (items := [mkSlotItem 0 _; mkSlotItem 1 _]).
  destruct (storage_of_values items) as (s & Hs & Hwf & Hu8 & Hget).
  { split; [repeat constructor; cbn; unfold SLOT_LAYOUT_COMMITMENT_INDEX; lia|]. cbn. repeat constructor; set_solver. }
  { by repeat constructor. }
  destruct vault_new_nil as (v & Hv & Hvwf & Hempty). rewrite Hs, Hv. cbn [try_ expect_ok].
  pose proof (with_seed_spec fuel init_seed FungibleFaucet st v s code items Hvwf Hempty Hwf Hu8 Hget
    (proj2 (proj2 (proj1 (code_new_ok _ _ _) Hcode)))) as Hspec.
  destruct (with_seed fuel init_seed FungibleFaucet st v s code) as [[[a seed]| |]|]; [|done|done|by exists s].
  split; [lia|]. split; [lia|]. destruct Hspec as [_ Hfresh]. split; [done|]. intros amount Ha.
  destruct Hfresh as ((Hid & _) & _ & _ & Ht & _). rewrite account_type_total in Ht. injection Ht as Ht.
  exists (mkFungibleAsset (acc_id a) amount). rewrite fungible_new_ok. unfold fungible_valid.
  change MAX_AMOUNT with (2 ^ 63 - 1). cbn [fa_faucet_id fa_amount]. split_and!; (done || lia).
Qed.
End properties.

(** ** Witnesses

    With a hash function that always gives a digest that is accepted, the first
    seed is the one searched for. *)

Import RefInstances RefMachine.

Definition LuckyCrypto (id : Z) : Crypto := {|
  hash_elements _ := mkWord (Felt_new id) ZERO ZERO ZERO;
  hash_bytes := hash_bytes (Crypto := RefCrypto);
  digest_bytes := digest_bytes (Crypto := RefCrypto);
  digest_cmp := digest_cmp (Crypto := RefCrypto);
  merge := merge (Crypto := RefCrypto);
  MerkleError := MerkleError (Crypto := RefCrypto);
  Smt := Smt (Crypto := RefCrypto);
  Smt_new := Smt_new (Crypto := RefCrypto);
  Smt_with_entries := Smt_with_entries (Crypto := RefCrypto);
  Smt_get_value := Smt_get_value (Crypto := RefCrypto);
  Smt_insert := Smt_insert (Crypto := RefCrypto);
  Smt_entries := Smt_entries (Crypto := RefCrypto);
  Smt_root := Smt_root (Crypto := RefCrypto);
  SimpleSmt := SimpleSmt (Crypto := RefCrypto);
  SimpleSmt_with_leaves := SimpleSmt_with_leaves (Crypto := RefCrypto);
  SimpleSmt_get := @SimpleSmt_get _ RefCrypto;
  SimpleSmt_insert := @SimpleSmt_insert _ RefCrypto;
  SimpleSmt_leaves := @SimpleSmt_leaves _ RefCrypto;
  SimpleSmt_root := @SimpleSmt_root _ RefCrypto;
  hex_to_bytes := hex_to_bytes (Crypto := RefCrypto)
|}.

Lemma LuckySmtLaws id : SmtLaws (LuckyCrypto id).
Proof. destruct RefSmtLaws. by split. Qed.
Lemma LuckySimpleSmtLaws id : SimpleSmtLaws (LuckyCrypto id).
Proof. destruct RefSimpleSmtLaws. by split. Qed.

Definition lucky_module : ModuleAst := [mkWord ONE ONE ONE ONE].

Lemma lucky_code id : exists code, code_new (C := LuckyCrypto id) lucky_module tt = Ok code.
Proof.
  destruct (build_procedure_tree_ok (C := LuckyCrypto id) (SL := LuckySimpleSmtLaws id) (E := Empty_set) [mkWord ONE ONE ONE ONE])
    as (tree & Htree & _); [by vm_compute|]. exists (mkAccountCode (C := LuckyCrypto id) lucky_module [mkWord ONE ONE ONE ONE] tree).
  apply (code_new_ok (C := LuckyCrypto id)). split; [reflexivity|]. split; [reflexivity|].
  split; [by split|exact Htree].
Qed.

(** Every seed is good when the digest is of an identifier of the requested kind. *)
Lemma lucky_seed id t cr sr seed :
  AccountId_valid (mkAccountId (Felt_new id)) -> is_ok (validate_seed_digest (C := LuckyCrypto id) (mkWord (Felt_new id) ZERO ZERO ZERO)) = true ->
  account_type (E := Empty_set) (mkAccountId (Felt_new id)) = Ok t ->
  storage_type (E := Empty_set) (mkAccountId (Felt_new id)) = Ok OnChain ->
  good_seed (C := LuckyCrypto id) t OnChain cr sr seed.
Proof.
  intros Hv Hd Ht Hst. exists (mkAccountId (Felt_new id)). split; [|by split]. unfold AccountId_new.
  change (compute_digest (C := LuckyCrypto id) seed cr sr) with (mkWord (Felt_new id) ZERO ZERO ZERO).
  destruct (validate_seed_digest _) as [x| |]; [|discriminate|discriminate]. cbn [mbind res_bind w0].
  exact (try_from_felt_valid (C := LuckyCrypto id) _ Hv).
Qed.

Lemma lucky_wallet_seed cr sr seed :
  good_seed (C := LuckyCrypto ACCOUNT_ID_REGULAR_ACCOUNT_IMMUTABLE_CODE_ON_CHAIN) RegularAccountImmutableCode OnChain cr sr seed.
Proof. apply lucky_seed; [split; [|left]; by vm_compute|by vm_compute..]. Qed.

Lemma lucky_faucet_seed cr sr seed :
  good_seed (C := LuckyCrypto ACCOUNT_ID_FUNGIBLE_FAUCET_ON_CHAIN) FungibleFaucet OnChain cr sr seed.
Proof. apply lucky_seed; [split; [|left]; by vm_compute|by vm_compute..]. Qed.

Lemma create_basic_wallet_spec_witness :
  let CR := LuckyCrypto ACCOUNT_ID_REGULAR_ACCOUNT_IMMUTABLE_CODE_ON_CHAIN in
  exists a seed, create_basic_wallet (C := CR) 1 (replicate 32 0) (RpoFalcon512 (ML := RefMidenLib) EMPTY_WORD)
      RegularAccountImmutableCode OnChain = Some (Ok (a, seed)) /\
    validate_account_seed (C := CR) a (Some seed) = Ok tt.
Proof.
  intros CR. destruct (lucky_code ACCOUNT_ID_REGULAR_ACCOUNT_IMMUTABLE_CODE_ON_CHAIN) as (code & Hcode).
  pose proof (create_basic_wallet_spec (C := CR) (SML := LuckySmtLaws _) (SSL := LuckySimpleSmtLaws _) (ML := RefMidenLib)
    1 (replicate 32 0) EMPTY_WORD RegularAccountImmutableCode OnChain lucky_module code eq_refl Hcode) as Hspec.
  destruct (create_basic_wallet _ _ _ _ _) as [[[a seed]|e|]|].
  - exists a, seed. split; [reflexivity|]. apply Hspec.
  - destruct Hspec as [[|] _]; discriminate.
  - contradiction.
  - destruct Hspec as (s & Hno). destruct (Hno 0%nat); [lia|]. apply lucky_wallet_seed.
Defined.

(** A faucet of 1000 tokens. *)
Lemma create_basic_fungible_faucet_spec_witness :
  let CR := LuckyCrypto ACCOUNT_ID_FUNGIBLE_FAUCET_ON_CHAIN in
  exists a seed x, create_basic_fungible_faucet (C := CR) 1 (replicate 32 0) (mkTokenSymbol ONE) 8 (Felt_new 1000) OnChain
      (RpoFalcon512 (ML := RefMidenLib) EMPTY_WORD) = Some (Ok (a, seed)) /\
    get_item (C := CR) (E := AccountError) (acc_storage a) 1 = Ok (mkWord (Felt_new 1000) (Felt_new 8) ONE ZERO) /\
    fungible_new (acc_id a) 1000 = Ok x.
Proof.
  intros CR. destruct (lucky_code ACCOUNT_ID_FUNGIBLE_FAUCET_ON_CHAIN) as (code & Hcode).
  pose proof (create_basic_fungible_faucet_spec (C := CR) (SML := LuckySmtLaws _) (SSL := LuckySimpleSmtLaws _) (ML := RefMidenLib)
    1 (replicate 32 0) (mkTokenSymbol ONE) 8 (Felt_new 1000) OnChain EMPTY_WORD lucky_module code eq_refl Hcode) as Hspec.
  cbv zeta in Hspec. destruct (create_basic_fungible_faucet _ _ _ _ _ _ _) as [[[a seed]|e|]|].
  - destruct Hspec as (_ & _ & Hfresh & Hissue). destruct (Hissue 1000) as (x & Hx & _); [by vm_compute|].
    exists a, seed, x. split; [reflexivity|]. split; [|exact Hx].
    destruct Hfresh as (_ & _ & _ & _ & _ & _ & Hget & _). apply (Hget 1). by split.
  - rewrite decide_True in Hspec by lia. destruct Hspec as [Hbig _]. by vm_compute in Hbig.
  - contradiction.
  - destruct Hspec as (s & Hno). destruct (Hno 0%nat); [lia|]. apply lucky_faucet_seed.
Defined.
