(* ===== verification/StandardNotes.v ===== *)
(** src/miden-lib: notes/mod.rs and notes/utils.rs, the constructors of the standard
    notes. *)
From S2P Require Import Prelude Interfaces Types Reference AccountIds Assets NoteMeta NoteContents Notes Machine.
Local Open Scope Z_scope.

Section notes.
Context `{F : Field} {C : Crypto} {AS : Assembly} {FE : Features} {D : Display} {B : Build} {P : Programs} {L : Linker}
  {ML : MidenLib}.

Definition build_note_script (bytes : list Z) : res NoteError NoteScript :=
  script_ast ← map_err NoteDeserializationError (program_from_bytes bytes);
  '(note_script, _) ← note_script_new script_ast kernel_assembler;
  Ok note_script.

Definition build_p2id_recipient (target : AccountId) (serial_num : Word) : res NoteError Digest :=
  note_script ← build_note_script P2ID_masb;
  let script_hash := ns_hash note_script in
  let serial_num_hash := merge serial_num EMPTY_WORD in
  let merge_script := merge serial_num_hash script_hash in
  Ok (merge merge_script (hash_elements [felt_of_id target; ZERO; ZERO; ZERO])).

(** The generator is passed by value. *)
Definition create_p2id_note (sender target : AccountId) (assets : list Asset) (note_type : NoteType) (rng : FeltRng)
    : res NoteError Note :=
  note_script ← build_note_script P2ID_masb;
  inputs ← note_inputs_new [felt_of_id target];
  tag ← from_account_id target ExecLocal;
  let '(rng, serial_num) := draw_word rng in
  let aux := ZERO in
  metadata ← metadata_new sender note_type tag aux;
  vault ← note_assets_new assets;
  let recipient := recipient_new serial_num note_script inputs in
  Ok (note_new vault metadata recipient).

Definition create_p2idr_note (sender target : AccountId) (assets : list Asset) (note_type : NoteType)
    (recall_height : Z) (rng : FeltRng) : res NoteError Note :=
  note_script ← build_note_script P2IDR_masb;
  inputs ← note_inputs_new [felt_of_id target; Felt_new recall_height];
  tag ← from_account_id target ExecLocal;
  let '(rng, serial_num) := draw_word rng in
  let aux := ZERO in
  vault ← note_assets_new assets;
  metadata ← metadata_new sender note_type tag aux;
  let recipient := recipient_new serial_num note_script inputs in
  Ok (note_new vault metadata recipient).

Definition create_swap_note (sender : AccountId) (offered_asset requested_asset : Asset) (note_type : NoteType)
    (rng : FeltRng) : res NoteError (Note * Word) :=
  note_script ← build_note_script SWAP_masb;
  let '(rng, payback_serial_num) := draw_word rng in
  payback_recipient ← build_p2id_recipient sender payback_serial_num;
  asset_word ← word_of_asset requested_asset;
  payback_tag ← from_account_id sender ExecLocal;
  inputs ← note_inputs_new
    [w0 payback_recipient; w1 payback_recipient; w2 payback_recipient; w3 payback_recipient;
     w0 asset_word; w1 asset_word; w2 asset_word; w3 asset_word; felt_of_tag payback_tag];
  let tag := tag_of_u32 0 in
  let '(rng, serial_num) := draw_word rng in
  let aux := ZERO in
  metadata ← metadata_new sender note_type tag aux;
  vault ← note_assets_new [offered_asset];
  let recipient := recipient_new serial_num note_script inputs in
  Ok (note_new vault metadata recipient, payback_serial_num).
End notes.

(** ** Specification *)

Section spec.
Context `{F : Field} {C : Crypto} {AS : Assembly} {FE : Features} {D : Display} {B : Build} {P : Programs} {L : Linker}
  {ML : MidenLib}.

(** A note of the library: well-formed, from the sender, with the script of the
    bytes, these inputs, the tag, and a serial number the generator draws. *)
Definition standard_note (masb : list Z) (sender : AccountId) (note_type : NoteType) (tag : NoteTag) (inputs : list Felt)
    (assets : list Asset) (serial_num : Word) (n : Note) : Prop :=
  note_wf n /\ note_metadata n = mkNoteMetadata sender note_type tag ZERO /\ na_assets (note_assets n) = assets /\
  build_note_script masb = Ok (nr_script (note_recipient n)) /\ ni_values (nr_inputs (note_recipient n)) = inputs /\
  nr_serial_num (note_recipient n) = serial_num.

(** The tag for local execution by one account. *)
Definition local_tag (target : AccountId) : NoteTag := mkNoteTag (u64_of_id target / 2 ^ 48 * 2 ^ 14).

(** A list of assets a note can carry. *)
Definition assets_accepted (assets : list Asset) : Prop :=
  1 <= Z.of_nat (length assets) <= MAX_ASSETS_PER_NOTE /\ NoDup (vault_key <$> assets).
End spec.

(** ** Lemmas *)

Section lemmas.
Context `{F : Field} {FL : FieldLaws F} {C : Crypto} {AS : Assembly} {FE : Features} {D : Display} {B : Build}
  {P : Programs} {L : Linker} {ML : MidenLib}.

Lemma local_tag_made (target : AccountId) :
  from_account_id target ExecLocal = Ok (local_tag target) /\ 0 <= tag_value (local_tag target) < 2 ^ 30.
Proof.
  pose proof (as_int_u64 (id_felt target) : 0 <= u64_of_id target < 2 ^ 64) as Hr.
  unfold from_account_id, local_tag. cbn [tag_value]. rewrite local_tag_value by done. split; [done|].
  pose proof (Z.div_pos (u64_of_id target) (2 ^ 48)). pose proof (Z.div_lt_upper_bound (u64_of_id target) (2 ^ 48) (2 ^ 16)). lia.
Qed.

(** A tag below 2^30 suits every note type and is for one account. *)
Lemma low_tag_metadata (tag : NoteTag) sender t :
  0 <= tag_value tag < 2 ^ 30 -> metadata_new sender t tag ZERO = Ok (mkNoteMetadata sender t tag ZERO) /\
  tag_u32 tag /\ tag_consistent tag t.
Proof.
  intros Hr. assert (Hu : tag_u32 tag) by (unfold tag_u32; lia).
  assert (Hbit : forall i, 30 <= i -> Z.testbit (tag_value tag) i = false).
  { intros i Hi. rewrite Z.testbit_false by lia. rewrite Z.div_small; [done|]. split; [lia|].
    apply Z.lt_le_trans with (2 ^ 30); [lia|]. apply Z.pow_le_mono_r; lia. }
  assert (Hc : tag_consistent tag t) by (destruct t; [| split|]; apply Hbit; lia).
  split; [by apply metadata_new_ok|]. by split.
Qed.

(** A note made of these parts. *)
Lemma standard_note_made masb sender t tag values assets serial script n :
  AccountId_valid sender -> Forall asset_valid assets -> 0 <= tag_value tag < 2 ^ 30 ->
  build_note_script masb = Ok script -> Z.of_nat (length values) <= MAX_INPUTS_PER_NOTE ->
  standard_note masb sender t tag values assets serial n <->
  exists vault inputs, note_assets_new assets = Ok vault /\ note_inputs_new values = Ok inputs /\
    n = note_new vault (mkNoteMetadata sender t tag ZERO) (recipient_new serial script inputs).
Proof.
  intros Hs Ha Ht Hscript Hlen. destruct (low_tag_metadata tag sender t Ht) as (_ & Hu & Hc). split.
  - intros (((Hav & Hal & And & Hah) & _ & ((Hil & Hih) & Hd) & Hnid & Hnul) & Hmd & Has & Hsc & Hin & Hser).
    rewrite Hscript in Hsc. injection Hsc as Hsc. exists (note_assets n), (nr_inputs (note_recipient n)).
    split; [by apply note_assets_new_ok|]. split; [by apply note_inputs_new_ok|].
    unfold note_id_of_note, nullifier_of_note in *. destruct n as [na md [sn sc ni dg] id nul]. cbn [note_assets note_metadata note_recipient note_id note_nullifier
      nr_serial_num nr_script nr_inputs nr_digest] in *. subst. reflexivity.
  - intros (vault & inputs & Hv & Hi & ->). apply note_assets_new_ok in Hv as [Has Hvwf]; [|done].
    apply note_inputs_new_ok in Hi as [Hin Hiwf]. split; [|done]. split_and!; try done.
Qed.

Lemma assets_accepted_new assets : Forall asset_valid assets ->
  (exists vault, note_assets_new assets = Ok vault) <-> assets_accepted assets.
Proof.
  intros Ha. split.
  - intros (v & [<- (_ & Hl & Hnd & _)]%note_assets_new_ok); [by split|done].
  - intros [Hl Hnd]. exists (mkNoteAssets assets (hash_elements (asset_elements assets))).
    apply note_assets_new_ok; [done|]. split; [done|]. split; [done|]. split; [done|]. by split.
Qed.

Lemma few_inputs (values : list Felt) : Z.of_nat (length values) <= MAX_INPUTS_PER_NOTE ->
  note_inputs_new values = Ok (mkNoteInputs values (hash_elements (pad_inputs values))).
Proof. intros Hl. unfold note_inputs_new. by rewrite decide_False by lia. Qed.

(** What the constructors do when nothing but the script and the assets can fail. *)
Definition made (masb : list Z) (sender : AccountId) (t : NoteType) (tag : NoteTag) (values : list Felt)
    (assets : list Asset) (serial : Word) : res NoteError Note :=
  script ← build_note_script masb;
  vault ← note_assets_new assets;
  Ok (note_new vault (mkNoteMetadata sender t tag ZERO)
    (recipient_new serial script (mkNoteInputs values (hash_elements (pad_inputs values))))).

Lemma made_ok masb sender t tag values assets serial n :
  AccountId_valid sender -> Forall asset_valid assets -> 0 <= tag_value tag < 2 ^ 30 ->
  Z.of_nat (length values) <= MAX_INPUTS_PER_NOTE ->
  made masb sender t tag values assets serial = Ok n <-> standard_note masb sender t tag values assets serial n.
Proof.
  intros Hs Ha Ht Hl. unfold made. destruct (build_note_script masb) as [script|e|] eqn:Hb; cbn [mbind res_bind];
    [|split; [done|intros (_ & _ & _ & Hb' & _); congruence]..].
  rewrite (standard_note_made _ _ _ _ _ _ _ script) by done. rewrite few_inputs by done. split.
  - intros H. inv_res. by eexists _, _.
  - intros (v & i & -> & [= <-] & ->). done.
Qed.

Lemma made_exists masb sender t tag values assets serial : Forall asset_valid assets ->
  (exists n, made masb sender t tag values assets serial = Ok n) <->
  (exists s, build_note_script masb = Ok s) /\ assets_accepted assets.
Proof.
  intros Ha. rewrite <- assets_accepted_new by done. unfold made.
  destruct (build_note_script masb) as [script|e|]; cbn [mbind res_bind]; [|naive_solver..].
  destruct (note_assets_new assets) as [v|e|]; cbn [mbind res_bind]; naive_solver.
Qed.

Lemma p2id_made sender target assets t rng :
  create_p2id_note sender target assets t rng =
  made P2ID_masb sender t (local_tag target) [felt_of_id target] assets (draw_word rng).2.
Proof.
  unfold create_p2id_note, made. destruct (build_note_script P2ID_masb) as [script|e|]; [|done|done].
  destruct (local_tag_made target) as [-> Hr]. rewrite few_inputs by done. cbn [mbind res_bind].
  destruct (draw_word rng) as [rng' w]. by rewrite (proj1 (low_tag_metadata _ sender t Hr)).
Qed.

Lemma p2idr_made sender target assets t h rng :
  create_p2idr_note sender target assets t h rng =
  made P2IDR_masb sender t (local_tag target) [felt_of_id target; Felt_new h] assets (draw_word rng).2.
Proof.
  unfold create_p2idr_note, made. destruct (build_note_script P2IDR_masb) as [script|e|]; [|done|done].
  destruct (local_tag_made target) as [-> Hr]. rewrite few_inputs by done. cbn [mbind res_bind].
  destruct (draw_word rng) as [rng' w]. by rewrite (proj1 (low_tag_metadata _ sender t Hr)).
Qed.

Lemma swap_made sender offered requested t rng : asset_valid requested ->
  create_swap_note sender offered requested t rng =
  (_ ← build_note_script SWAP_masb;
   d ← build_p2id_recipient sender (draw_word rng).2;
   n ← made SWAP_masb sender t (mkNoteTag 0)
     (word_elements d ++ word_elements (asset_word requested) ++ [felt_of_tag (local_tag sender)]) [offered]
     (draw_word (draw_word rng).1).2;
   Ok (n, (draw_word rng).2)).
Proof.
  intros Hr. unfold create_swap_note, made. destruct (build_note_script SWAP_masb) as [script|e|]; [|done|done].
  cbn [mbind res_bind]. destruct (draw_word rng) as [rng' w]. cbn [fst snd].
  destruct (build_p2id_recipient sender w) as [d|e|]; [|done|done]. cbn [mbind res_bind].
  rewrite word_of_asset_valid by done. destruct (local_tag_made sender) as [-> _]. cbn [mbind res_bind].
  destruct (draw_word rng') as [rng2 w']. cbn [snd].
  rewrite few_inputs by (cbn; unfold MAX_INPUTS_PER_NOTE; lia). cbn [mbind res_bind].
  destruct (low_tag_metadata (mkNoteTag 0) sender t) as [Hm _]; [cbn; lia|]. unfold tag_of_u32. rewrite Hm.
  cbn [mbind res_bind]. by destruct (note_assets_new [offered]).
Qed.
End lemmas.

(** ** Properties *)

Section properties.
Context `{F : Field} {FL : FieldLaws F} {C : Crypto} {AS : Assembly} {FE : Features} {D : Display} {B : Build}
  {P : Programs} {L : Linker} {ML : MidenLib}.

(** C31: the standard notes, for valid accounts and assets: what is created is exactly
    the well-formed note of the sender with the script of the library, the
    documented inputs, a tag that the target alone is meant by and that asks for
    local execution, the assets, and the serial number drawn; a SWAP note carries
    the offered asset, and the recipient, the word and the tag of the payback. A
    P2ID or P2IDR note is created exactly when its script loads and a note can
    carry the assets. *)
Theorem standard_notes_spec (sender target : AccountId) (assets : list Asset) (t : NoteType) (recall_height : Z)
    (offered requested : Asset) (rng : FeltRng) (Hsender : AccountId_valid sender) (Hassets : Forall asset_valid assets)
    (Hoffered : asset_valid offered) (Hrequested : asset_valid requested) :
  let serial := (draw_word rng).2 in
  (forall n, create_p2id_note sender target assets t rng = Ok n <->
     standard_note P2ID_masb sender t (local_tag target) [felt_of_id target] assets serial n) /\
  (forall n, create_p2idr_note sender target assets t recall_height rng = Ok n <->
     standard_note P2IDR_masb sender t (local_tag target) [felt_of_id target; Felt_new recall_height] assets serial n) /\
  (forall n s, create_swap_note sender offered requested t rng = Ok (n, s) <-> s = serial /\
     exists d, build_p2id_recipient sender serial = Ok d /\
       standard_note SWAP_masb sender t (mkNoteTag 0)
         (word_elements d ++ word_elements (asset_word requested) ++ [felt_of_tag (local_tag sender)]) [offered]
         (draw_word (draw_word rng).1).2 n) /\
  ((exists n, create_p2id_note sender target assets t rng = Ok n) <->
     (exists s, build_note_script P2ID_masb = Ok s) /\ assets_accepted assets) /\
  ((exists n, create_p2idr_note sender target assets t recall_height rng = Ok n) <->
     (exists s, build_note_script P2IDR_masb = Ok s) /\ assets_accepted assets) /\
  is_single_target (local_tag target) = true /\ execution_mode (local_tag target) = ExecLocal.
Proof.
  cbv zeta. pose proof (local_tag_made target) as [_ Ht]. split_and!.
  - intros n. rewrite p2id_made. by apply made_ok.
  - intros n. rewrite p2idr_made. by apply made_ok.
  - intros n s. rewrite swap_made by done. split.
    + intros H. inv_res. split; [done|]. eexists. split; [done|]. apply made_ok; [done|by constructor|cbn; lia|done|].
      destruct x0 as [? ? ? ?]. done.
    + intros (-> & d & Hd & Hn). pose proof Hn as (_ & _ & _ & Hb & _). rewrite Hb, Hd. cbn [mbind res_bind].
      apply made_ok in Hn; [|done|by constructor|cbn; lia|done]. by rewrite Hn.
  - rewrite p2id_made. by apply made_exists.
  - rewrite p2idr_made. by apply made_exists.
  - unfold is_single_target. rewrite Z.shiftr_div_pow2 by lia. by rewrite Z.div_small.
  - unfold execution_mode. rewrite Z.shiftr_div_pow2 by lia. by rewrite Z.div_small by lia.
Qed.

(** C23: the recipient a SWAP note pays back to is of no note: its last hash is of four
    elements, where the inputs of a note are padded to a multiple of eight. So the
    P2ID note it is meant for, and any other, has another recipient, unless the hash
    function has a collision at these inputs. *)
Theorem swap_payback_not_a_note (sender : AccountId) (offered requested : Asset) (t : NoteType) (rng : FeltRng) (n : Note)
    (s : Word) (r : NoteRecipient) (Hrequested : asset_valid requested) (Hwf : recipient_wf r)
    (Hn : create_swap_note sender offered requested t rng = Ok (n, s)) :
  let payback := [felt_of_id sender; ZERO; ZERO; ZERO] in
  word_elements (nr_digest r) <> take 4 (ni_values (nr_inputs (note_recipient n))) \/
  hash_collision (pad_inputs (ni_values (nr_inputs r))) payback \/
  exists script, build_note_script P2ID_masb = Ok script /\
    merge_collision (merge (merge (nr_serial_num r) EMPTY_WORD) (ns_hash (nr_script r)), ni_hash (nr_inputs r))
      (merge (merge s EMPTY_WORD) (ns_hash script), hash_elements payback).
Proof.
  intros payback. rewrite swap_made in Hn by done. unfold made in Hn. inv_res.
  destruct Hwf as ((_ & Hi) & Hd). unfold build_p2id_recipient in *. inv_res. cbn [note_new note_recipient recipient_new nr_inputs ni_values].
  fold payback. set (h := merge (merge (draw_word rng).2 EMPTY_WORD) _). destruct (merge h (hash_elements payback)) as [d0 d1 d2 d3] eqn:Hm.
  cbn [word_elements app take w0 w1 w2 w3].
  destruct (decide (nr_digest r = mkWord d0 d1 d2 d3)) as [Heq|Hne].
  - right. rewrite Hd, <- Hm in Heq. unfold compute_recipient_digest in Heq.
    apply (merge_equal (_, _) (_, _)) in Heq as [[= _ Heq]|Hcol]; [left|right].
    + rewrite Hi in Heq. apply hash_equal in Heq as [Heq|Hcol]; [|exact Hcol]. exfalso.
      destruct (pad_inputs_spec (ni_values (nr_inputs r))) as (k & _ & _ & Hlen). by rewrite Heq in Hlen.
    + by eexists.
  - left. intros Heq. apply Hne. destruct (nr_digest r) as [e0 e1 e2 e3]. injection Heq as -> -> -> ->. reflexivity.
Qed.
End properties.

(** ** Witnesses *)

Import RefInstances RefMachine.

Definition sample_offer : Asset := Fungible (sample_fungible 100).
Definition sample_request : Asset := NonFungible sample_non_fungible.

Lemma sample_offer_valid : asset_valid sample_offer.
Proof. apply sample_fungible_valid. by vm_compute. Qed.

Lemma sample_offer_accepted : assets_accepted [sample_offer].
Proof. split; [by split|apply NoDup_singleton]. Qed.

Lemma ref_script_loads code : is_byte code -> exists s, build_note_script (ref_script code) = Ok s.
Proof.
  intros Hc. unfold build_note_script, ref_script, note_script_new.
  assert (Hp : program_from_bytes (to_le_bytes 4 1 ++ [code]) = Ok [code]).
  { pose proof (program_bytes_round_trip [code] []) as Hrt. rewrite app_nil_r in Hrt.
    cbn [program_to_bytes RefPrograms map length] in Hrt. rewrite Z.mod_small in Hrt by done. apply Hrt.
    split; [by constructor|done]. }
  rewrite Hp. cbn [map_err mbind res_bind compile_in_context RefPrograms]. by eexists.
Qed.

Lemma standard_notes_spec_witness :
  exists n, create_p2id_note (ML := RefMidenLib) sample_id sample_id [sample_offer] NotePublic 7 = Ok n /\
    md_tag (note_metadata n) = local_tag sample_id /\ ni_values (nr_inputs (note_recipient n)) = [felt_of_id sample_id].
Proof.
  destruct (standard_notes_spec (ML := RefMidenLib) sample_id sample_id [sample_offer] NotePublic 0 sample_offer sample_request 7)
    as (Hp2id & _ & _ & Hex & _).
  - exact sample_id_valid.
  - constructor; [exact sample_offer_valid|constructor].
  - exact sample_offer_valid.
  - exact sample_non_fungible_valid.
  - destruct (proj2 Hex) as (n & Hn); [split; [by apply (ref_script_loads 1)|exact sample_offer_accepted]|].
    exists n. split; [exact Hn|]. apply Hp2id in Hn as (_ & Hmd & _ & _ & Hin & _). by rewrite Hmd, Hin.
Defined.

(** A SWAP note and the P2ID note it should be paid back with. *)
Lemma swap_payback_not_a_note_witness :
  exists n s p, create_swap_note (ML := RefMidenLib) sample_id sample_offer sample_request NotePublic 7 = Ok (n, s) /\
    create_p2id_note (ML := RefMidenLib) sample_id sample_id [sample_request] NotePublic 7 = Ok p /\
    (word_elements (nr_digest (note_recipient p)) <> take 4 (ni_values (nr_inputs (note_recipient n))) \/
     exists xs ys, hash_collision xs ys \/ exists p q, merge_collision p q).
Proof.
  destruct (ref_script_loads 1) as (s1 & Hs1); [by split|]. destruct (ref_script_loads 3) as (s3 & Hs3); [by split|].
  assert (Hreq : asset_valid sample_request) by exact sample_non_fungible_valid.
  assert (Hsw : exists n s, create_swap_note (ML := RefMidenLib) sample_id sample_offer sample_request NotePublic 7 = Ok (n, s)).
  { rewrite swap_made by exact Hreq. change (SWAP_masb (MidenLib := RefMidenLib)) with (ref_script 3). rewrite Hs3.
    unfold build_p2id_recipient. change (P2ID_masb (MidenLib := RefMidenLib)) with (ref_script 1). rewrite Hs1.
    cbn [mbind res_bind]. set (values := _ ++ _ ++ _).
    destruct (proj2 (made_exists (ref_script 3) sample_id NotePublic (mkNoteTag 0) values [sample_offer]
      (draw_word (MidenLib := RefMidenLib) (draw_word (MidenLib := RefMidenLib) 7).1).2
      ltac:(constructor; [exact sample_offer_valid|constructor])))
      as (n & Hn); [split; [by exists s3|exact sample_offer_accepted]|].
    eexists n, _. rewrite Hn. reflexivity. }
  destruct Hsw as (n & s & Hn).
  assert (Hp : exists p, create_p2id_note (ML := RefMidenLib) sample_id sample_id [sample_request] NotePublic 7 = Ok p).
  { rewrite p2id_made. apply made_exists; [by constructor|]. split; [by exists s1|]. split; [by split|apply NoDup_singleton]. }
  destruct Hp as (p & Hp). exists n, s, p. split; [exact Hn|]. split; [exact Hp|].
  assert (Hwf : recipient_wf (note_recipient p)).
  { rewrite p2id_made in Hp. apply made_ok in Hp as ((_ & _ & Hwf & _) & _);
      [exact Hwf|exact sample_id_valid|by constructor|apply local_tag_made|by vm_compute]. }
  destruct (swap_payback_not_a_note (ML := RefMidenLib) sample_id sample_offer sample_request NotePublic 7 n s (note_recipient p)
    Hreq Hwf Hn) as [Hne|[Hc|(script & _ & Hc)]].
  - left. exact Hne.
  - right. eexists _, _. left. exact Hc.
  - right. exists [], []. right. eexists _, _. exact Hc.
Defined.
