(* ===== verification/MockBuilders.v ===== *)
(** mock/src/builders: the builders of account storage, accounts and their
    identifiers, assets and notes that tests use. *)
From S2P Require Import Prelude Interfaces Types Reference AccountIds Seed Assets NoteMeta NoteContents Notes Blocks.
From S2P Require Import Vault Storage Code Account Inputs Machine StandardAccounts.
Local Open Scope Z_scope.

(** A generator of the [rand] crate: [n] random bytes, a random [u64], a generator
    seeded from it. *)
Class Rng (R : Type) := {
  gen_bytes : nat -> R -> R * list Z;
  gen_u64 : R -> R * Z;
  RngError : Type;
  from_rng : R -> R * res RngError R
}.

(** ** Account storage (account_storage.rs) *)

Section storage_builder.
Context `{F : Field} {C : Crypto} {AS : Assembly}.

Record AccountStorageBuilder := mkStorageBuilder { sb_items : list SlotItem }.

Definition storage_builder_new : AccountStorageBuilder := mkStorageBuilder [].
Definition storage_add_item (item : SlotItem) (self : AccountStorageBuilder) : AccountStorageBuilder :=
  mkStorageBuilder (sb_items self ++ [item]).
Definition storage_add_items (items : list SlotItem) (self : AccountStorageBuilder) : AccountStorageBuilder :=
  foldl (fun self item => storage_add_item item self) self items.
Definition storage_build {E} (self : AccountStorageBuilder) : res E AccountStorage :=
  expect_ok (storage_new (sb_items self)).
End storage_builder.
Arguments AccountStorageBuilder : clear implicits.
Arguments AccountStorageBuilder {_}.

Section builders.
Context `{F : Field} {C : Crypto} {AS : Assembly} {FE : Features} {D : Display} {B : Build} {P : Programs} {L : Linker}
  {ML : MidenLib} {R : Type} {RG : Rng R}.

(** error.rs *)
Inductive AccountBuilderError :=
| BuilderAccountError (e : AccountError)
| BuilderAssetVaultError (e : AssetVaultError)
| BuilderMerkleError (e : MerkleError)
| SeedAndAccountTypeMismatch
| SeedAndOnChainMismatch.

(** mod.rs *)
Definition str_to_account_code (source : string) : res AccountError AccountCode :=
  account_module_ast ← expect_ok (ModuleAst_parse source);
  code_new account_module_ast kernel_assembler.

(** mock/account.rs *)
Definition DEFAULT_ACCOUNT_CODE : string := "
    use.miden::contracts::wallets::basic->basic_wallet
    use.miden::contracts::auth::basic->basic_eoa

    export.basic_wallet::receive_asset
    export.basic_wallet::send_asset
    export.basic_eoa::auth_tx_rpo_falcon512
".

(** ** Account identifiers (account_id.rs) *)

Record AccountIdBuilder := mkIdBuilder {
  ib_account_type : AccountType; ib_storage_type : AccountStorageType; ib_code : string;
  ib_storage_root : Digest; ib_rng : R }.

Definition id_builder_new (rng : R) : AccountIdBuilder :=
  mkIdBuilder RegularAccountUpdatableCode OffChain DEFAULT_ACCOUNT_CODE EMPTY_WORD rng.
Definition id_account_type (t : AccountType) (self : AccountIdBuilder) : AccountIdBuilder :=
  mkIdBuilder t (ib_storage_type self) (ib_code self) (ib_storage_root self) (ib_rng self).
Definition id_storage_type (st : AccountStorageType) (self : AccountIdBuilder) : AccountIdBuilder :=
  mkIdBuilder (ib_account_type self) st (ib_code self) (ib_storage_root self) (ib_rng self).
Definition id_code (code : string) (self : AccountIdBuilder) : AccountIdBuilder :=
  mkIdBuilder (ib_account_type self) (ib_storage_type self) code (ib_storage_root self) (ib_rng self).
Definition id_storage_root (root : Digest) (self : AccountIdBuilder) : AccountIdBuilder :=
  mkIdBuilder (ib_account_type self) (ib_storage_type self) (ib_code self) root (ib_rng self).

(** The search for a seed has fuel. *)
Definition accountid_build_details (fuel : nat) (rng : R) (code : string) (account_type : AccountType)
    (storage_type : AccountStorageType) (storage_root : Digest)
    : R * option (res AccountBuilderError (Word * Digest)) :=
  let '(rng, init_seed) := gen_bytes 32 rng in
  (rng,
   code ←? map_err BuilderAccountError (str_to_account_code code);
   let code_root := code_root code in
   match get_account_seed_single account_type storage_type code_root storage_root fuel init_seed with
   | None => None
   | Some found => seed ←? map_err BuilderAccountError found; Some (Ok (seed, code_root))
   end).

Definition id_build (fuel : nat) (self : AccountIdBuilder)
    : AccountIdBuilder * option (res AccountBuilderError AccountId) :=
  let '(rng, details) := accountid_build_details fuel (ib_rng self) (ib_code self) (ib_account_type self)
    (ib_storage_type self) (ib_storage_root self) in
  (mkIdBuilder (ib_account_type self) (ib_storage_type self) (ib_code self) (ib_storage_root self) rng,
   match details with
   | None => None
   | Some details =>
       seed_root ←? details;
       Some (map_err BuilderAccountError (AccountId_new seed_root.1 seed_root.2 (ib_storage_root self)))
   end).

Definition id_with_seed (seed : Word) (self : AccountIdBuilder) : res AccountBuilderError AccountId :=
  code ← map_err BuilderAccountError (str_to_account_code (ib_code self));
  account_id ← map_err BuilderAccountError (AccountId_new seed (code_root code) (ib_storage_root self));
  t ← account_type account_id;
  if decide (t <> ib_account_type self) then Err SeedAndAccountTypeMismatch
  else
    st ← storage_type account_id;
    if decide (st <> ib_storage_type self) then Err SeedAndOnChainMismatch else Ok account_id.

(** ** Accounts (account.rs) *)

Record AccountBuilder := mkAccountBuilder {
  ab_assets : list Asset; ab_storage_builder : AccountStorageBuilder; ab_code : string; ab_nonce : Felt;
  ab_id_builder : AccountIdBuilder }.

Definition account_builder_new (rng : R) : AccountBuilder :=
  mkAccountBuilder [] storage_builder_new DEFAULT_ACCOUNT_CODE ZERO (id_builder_new rng).
Definition add_asset_ (asset : Asset) (self : AccountBuilder) : AccountBuilder :=
  mkAccountBuilder (ab_assets self ++ [asset]) (ab_storage_builder self) (ab_code self) (ab_nonce self) (ab_id_builder self).
Definition add_assets (assets : list Asset) (self : AccountBuilder) : AccountBuilder :=
  foldl (fun self asset => add_asset_ asset self) self assets.
Definition add_storage_item (item : SlotItem) (self : AccountBuilder) : AccountBuilder :=
  mkAccountBuilder (ab_assets self) (storage_add_item item (ab_storage_builder self)) (ab_code self) (ab_nonce self)
    (ab_id_builder self).
Definition add_storage_items (items : list SlotItem) (self : AccountBuilder) : AccountBuilder :=
  mkAccountBuilder (ab_assets self) (storage_add_items items (ab_storage_builder self)) (ab_code self) (ab_nonce self)
    (ab_id_builder self).
Definition builder_code (code : string) (self : AccountBuilder) : AccountBuilder :=
  mkAccountBuilder (ab_assets self) (ab_storage_builder self) code (ab_nonce self) (ab_id_builder self).
Definition builder_nonce (nonce : Felt) (self : AccountBuilder) : AccountBuilder :=
  mkAccountBuilder (ab_assets self) (ab_storage_builder self) (ab_code self) nonce (ab_id_builder self).
Definition builder_account_type (t : AccountType) (self : AccountBuilder) : AccountBuilder :=
  mkAccountBuilder (ab_assets self) (ab_storage_builder self) (ab_code self) (ab_nonce self)
    (id_account_type t (ab_id_builder self)).
Definition builder_storage_type (st : AccountStorageType) (self : AccountBuilder) : AccountBuilder :=
  mkAccountBuilder (ab_assets self) (ab_storage_builder self) (ab_code self) (ab_nonce self)
    (id_storage_type st (ab_id_builder self)).

(** What the identifier is built from: the code and the storage of the account. *)
Definition id_builder_for (self : AccountBuilder) (storage : AccountStorage) : AccountIdBuilder :=
  id_storage_root (storage_root storage) (id_code (ab_code self) (ab_id_builder self)).

Definition account_build (fuel : nat) (self : AccountBuilder) : option (res AccountBuilderError Account) :=
  vault ←? map_err BuilderAssetVaultError (vault_new (ab_assets self));
  storage ←? storage_build (ab_storage_builder self);
  match (id_build fuel (id_builder_for self storage)).2 with
  | None => None
  | Some built =>
      account_id ←? built;
      account_code ←? map_err BuilderAccountError (str_to_account_code (ab_code self));
      Some (Ok (mkAccount account_id vault storage account_code (ab_nonce self)))
  end.

Definition account_with_seed (seed : Word) (self : AccountBuilder) : res AccountBuilderError Account :=
  vault ← map_err BuilderAssetVaultError (vault_new (ab_assets self));
  storage ← storage_build (ab_storage_builder self);
  account_id ← id_with_seed seed (id_builder_for self storage);
  account_code ← map_err BuilderAccountError (str_to_account_code (ab_code self));
  Ok (mkAccount account_id vault storage account_code (ab_nonce self)).

(** One round of the loop over the leaves of the inner storage. *)
Definition copy_slot (leaf : Z * Word) : mut AccountStorage AccountBuilderError unit :=
  if decide (leaf.1 <> 255)
  then mut_map_err BuilderAccountError (_ ← set_item (leaf.1 mod 2 ^ 8) leaf.2; mret tt) else mret tt.

Definition account_with_seed_and_storage (seed : Word) (storage : AccountStorage) (self : AccountBuilder)
    : res AccountBuilderError Account :=
  vault ← map_err BuilderAssetVaultError (vault_new (ab_assets self));
  inner_storage ← storage_build (ab_storage_builder self);
  let '(storage, r) := for_each copy_slot (SimpleSmt_leaves (slots inner_storage)) storage in
  _ ← r;
  account_id ← id_with_seed seed (id_builder_for self storage);
  account_code ← map_err BuilderAccountError (str_to_account_code (ab_code self));
  Ok (mkAccount account_id vault storage account_code (ab_nonce self)).

(** ** Assets (fungible_asset.rs, nonfungible_asset.rs) *)

Record FungibleAssetBuilder := mkFungibleBuilder { fb_faucet_id : AccountId; fb_amount : Z }.

Definition DEFAULT_AMOUNT : Z := 10.

Definition fungible_builder_new (faucet_id : AccountId) : res AssetError FungibleAssetBuilder :=
  t ← account_type faucet_id;
  if decide (t <> FungibleFaucet) then Err (NotAFungibleFaucetId faucet_id t)
  else Ok (mkFungibleBuilder faucet_id DEFAULT_AMOUNT).

(** [amount] sets the amount and hands the builder back. *)
Definition fungible_builder_amount (amount : Z) : mut FungibleAssetBuilder AssetError unit :=
  self ← read_self;
  if decide (amount > MAX_AMOUNT) then lift (Err (AmountTooBig amount))
  else write_self (mkFungibleBuilder (fb_faucet_id self) amount).
Definition fungible_with_amount (self : FungibleAssetBuilder) (amount : Z) : res AssetError FungibleAsset :=
  fungible_new (fb_faucet_id self) amount.
Definition fungible_build (self : FungibleAssetBuilder) : res AssetError FungibleAsset :=
  fungible_new (fb_faucet_id self) (fb_amount self).

Record NonFungibleAssetDetailsBuilder := mkDetailsBuilder { db_faucet_id : AccountId; db_rng : R }.

Definition details_builder_new (faucet_id : AccountId) (rng : R) : res AssetError NonFungibleAssetDetailsBuilder :=
  t ← account_type faucet_id;
  if decide (t <> NonFungibleFaucet) then Err (NotANonFungibleFaucetId faucet_id)
  else Ok (mkDetailsBuilder faucet_id rng).
Definition details_build : mut NonFungibleAssetDetailsBuilder AssetError NonFungibleAssetDetails :=
  self ← read_self;
  let '(rng, data) := gen_bytes 5 (db_rng self) in
  _ ← write_self (mkDetailsBuilder (db_faucet_id self) rng);
  lift (details_new (db_faucet_id self) data).

Record NonFungibleAssetBuilder := mkNonFungibleBuilder { nb_details_builder : NonFungibleAssetDetailsBuilder }.

Definition non_fungible_builder_new (faucet_id : AccountId) (rng : R) : res AssetError NonFungibleAssetBuilder :=
  details_builder ← details_builder_new faucet_id rng;
  Ok (mkNonFungibleBuilder details_builder).
Definition non_fungible_build : mut NonFungibleAssetBuilder AssetError NonFungibleAsset :=
  details ← on_field nb_details_builder (fun d _ => mkNonFungibleBuilder d) details_build;
  lift (non_fungible_new details).
End builders.
Arguments AccountBuilderError : clear implicits.
Arguments AccountBuilderError {_ _ _}.
Arguments AccountIdBuilder : clear implicits.
Arguments AccountIdBuilder {_} R.
Arguments AccountBuilder : clear implicits.
Arguments AccountBuilder {_} R.
Arguments FungibleAssetBuilder : clear implicits.
Arguments FungibleAssetBuilder {_}.
Arguments NonFungibleAssetDetailsBuilder : clear implicits.
Arguments NonFungibleAssetDetailsBuilder {_} R.
Arguments NonFungibleAssetBuilder : clear implicits.
Arguments NonFungibleAssetBuilder {_} R.

(** ** Lemmas *)

Section builder_lemmas.
Context `{F : Field} {FL : FieldLaws F} {C : Crypto} {AS : Assembly} {FE : Features} {D : Display} {B : Build} {P : Programs}
  {L : Linker} {ML : MidenLib} {R : Type} {RG : Rng R}.

(** An account a seed is of: new, of the requested kind, and its seed is accepted. *)
Definition seeded_account (t : AccountType) (st : AccountStorageType) (a : Account) (seed : Word) : Prop :=
  is_new a = true /\ account_type (E := Empty_set) (acc_id a) = Ok t /\ storage_type (E := Empty_set) (acc_id a) = Ok st /\
  validate_account_seed a (Some seed) = Ok tt.

Lemma account_type_err {E E'} id t : account_type (E := E) id = Ok t -> account_type (E := E') id = Ok t.
Proof. unfold account_type, AccountType_from. repeat case_decide; by intros [= <-]. Qed.

Lemma storage_type_err {E E'} id t : storage_type (E := E) id = Ok t -> storage_type (E := E') id = Ok t.
Proof. unfold storage_type. repeat case_decide; by intros [= <-]. Qed.

Lemma id_with_seed_ok seed (self : AccountIdBuilder R) id :
  id_with_seed seed self = Ok id -> exists code, str_to_account_code (ib_code self) = Ok code /\
    AccountId_new seed (code_root code) (ib_storage_root self) = Ok id /\
    account_type (E := Empty_set) id = Ok (ib_account_type self) /\ storage_type (E := Empty_set) id = Ok (ib_storage_type self).
Proof.
  unfold id_with_seed. intros H. apply bind_ok in H as (code & Hcode%map_err_ok & H).
  apply bind_ok in H as (id' & Hid%map_err_ok & H). apply bind_ok in H as (t & Ht & H). case_decide as Htt; [done|].
  apply bind_ok in H as (st & Hst & H). case_decide as Hss; [done|]. injection H as ->. subst t st.
  exists code. split; [done|]. split; [done|]. split; [by eapply account_type_err|by eapply storage_type_err].
Qed.

Lemma new_account_seed (a : Account) seed : acc_nonce a = ZERO ->
  (validate_account_seed a (Some seed) = Ok tt <->
   AccountId_new seed (code_root (acc_code a)) (storage_root (acc_storage a)) = Ok (acc_id a)).
Proof.
  intros Hn. unfold validate_account_seed, is_new. rewrite bool_decide_true by done.
  destruct (AccountId_new _ _ _) as [id|e|]; cbn; [|done|done]. case_decide as Hid; split; intros H; try done.
  - by injection H as ->.
  - by rewrite Hid.
Qed.

(** What a seeded build ends with. *)
Lemma seeded_build_ok seed (self : AccountBuilder R) vault storage (a : Account) : ab_nonce self = ZERO ->
  (account_id ← id_with_seed seed (id_builder_for self storage);
   account_code ← map_err BuilderAccountError (str_to_account_code (ab_code self));
   Ok (mkAccount account_id vault storage account_code (ab_nonce self))) = Ok a ->
  seeded_account (ib_account_type (ab_id_builder self)) (ib_storage_type (ab_id_builder self)) a seed.
Proof.
  intros Hn H. apply bind_ok in H as (id & (code & Hcode & Hid & Ht & Hst)%id_with_seed_ok & H).
  cbn in Hcode, Hid. rewrite Hcode in H. cbn [map_err mbind res_bind] in H. injection H as <-.
  split; [by apply bool_decide_true|]. split; [done|]. split; [done|]. by apply new_account_seed.
Qed.

Lemma account_with_seed_ok seed (self : AccountBuilder R) a : ab_nonce self = ZERO -> account_with_seed seed self = Ok a ->
  seeded_account (ib_account_type (ab_id_builder self)) (ib_storage_type (ab_id_builder self)) a seed.
Proof.
  unfold account_with_seed. intros Hn H. apply bind_ok in H as (v & _ & H). apply bind_ok in H as (s & _ & H).
  by eapply seeded_build_ok.
Qed.

Lemma account_with_seed_and_storage_ok seed storage (self : AccountBuilder R) a : ab_nonce self = ZERO ->
  account_with_seed_and_storage seed storage self = Ok a ->
  seeded_account (ib_account_type (ab_id_builder self)) (ib_storage_type (ab_id_builder self)) a seed.
Proof.
  unfold account_with_seed_and_storage. intros Hn H. apply bind_ok in H as (v & _ & H). apply bind_ok in H as (s & _ & H).
  destruct (for_each _ _ _) as [s' r]. apply bind_ok in H as (u & _ & H). by eapply seeded_build_ok.
Qed.

(** The search of the builders: for the compiled code, from the next 32 random bytes. *)
Lemma build_details_ok fuel (rng : R) code t st sr seed cr :
  (accountid_build_details fuel rng code t st sr).2 = Some (Ok (seed, cr)) ->
  exists c, str_to_account_code code = Ok c /\ cr = code_root c /\
    get_account_seed_single t st cr sr fuel (gen_bytes 32 rng).2 = Some (Ok seed).
Proof.
  unfold accountid_build_details. destruct (gen_bytes 32 rng) as [rng' bytes]. cbn [snd].
  destruct (str_to_account_code code) as [c| |]; cbn [map_err try_]; [|done|done].
  destruct (get_account_seed_single _ _ _ _ _ _) as [[w| |]|] eqn:Hs; cbn; [|done|done|done].
  intros [= <- <-]. by exists c.
Qed.

(** A build searches for a seed of its own. *)
Lemma account_build_ok fuel (self : AccountBuilder R) a : account_build fuel self = Some (Ok a) ->
  acc_nonce a = ab_nonce self /\ str_to_account_code (ab_code self) = Ok (acc_code a) /\
  storage_build (E := AccountBuilderError) (ab_storage_builder self) = Ok (acc_storage a) /\
  exists seed, get_account_seed_single (ib_account_type (ab_id_builder self)) (ib_storage_type (ab_id_builder self))
      (code_root (acc_code a)) (storage_root (acc_storage a)) fuel (gen_bytes 32 (ib_rng (ab_id_builder self))).2 = Some (Ok seed) /\
    AccountId_new seed (code_root (acc_code a)) (storage_root (acc_storage a)) = Ok (acc_id a).
Proof.
  unfold account_build. destruct (map_err _ (vault_new _)) as [v| |]; cbn [try_]; [|done|done].
  destruct (storage_build _) as [s| |] eqn:Hs; cbn [try_]; [|done|done].
  unfold id_build. destruct (accountid_build_details _ _ _ _ _ _) as [rng details] eqn:Hd. cbn [snd].
  destruct details as [[[seed cr]| |]|]; cbn [try_]; [|done|done|done]. cbn [fst snd].
  destruct (build_details_ok fuel (ib_rng (ab_id_builder self)) (ab_code self) (ib_account_type (ab_id_builder self))
    (ib_storage_type (ab_id_builder self)) (storage_root s) seed cr) as (code & Hcode & -> & Hseed); [exact (f_equal snd Hd)|].
  rewrite Hcode. destruct (AccountId_new _ _ _) as [id| |] eqn:Hid; cbn [map_err try_]; [|done|done].
  intros [= <-]. cbn. split; [done|]. split; [done|]. split; [done|]. by exists seed.
Qed.

(** What the assets leave of a builder. *)
Lemma add_assets_nonce assets (self : AccountBuilder R) : ab_nonce (add_assets assets self) = ab_nonce self.
Proof. revert self. induction assets as [|x xs IH]; intros self; [done|]. exact (IH _). Qed.
End builder_lemmas.

(** ** Notes (note.rs) *)

(** [ProgramAst::parse]. *)
Class ProgramParser `{L : Linker} {ML : MidenLib} := ProgramAst_parse : string -> res ParsingError ProgramAst.

Section note_builder.
Context `{F : Field} {C : Crypto} {MK : Merkle} {AS : Assembly} {FE : Features} {D : Display} {B : Build} {P : Programs}
  {L : Linker} {ML : MidenLib} {PP : ProgramParser} {R : Type} {RG : Rng R}.

Definition DEFAULT_NOTE_CODE : string := "begin
end
".

Record NoteBuilder := mkNoteBuilder {
  nb_sender : AccountId; nb_inputs : list Felt; nb_assets : list Asset; nb_note_type : NoteType; nb_serial_num : Word;
  nb_tag : NoteTag; nb_code : string; nb_proof : option NoteInclusionProof; nb_aux : Felt }.

Definition note_builder_new (sender : AccountId) (rng : R) : NoteBuilder :=
  let '(rng, s0) := gen_u64 rng in
  let '(rng, s1) := gen_u64 rng in
  let '(rng, s2) := gen_u64 rng in
  let '(rng, s3) := gen_u64 rng in
  let serial_num := mkWord (Felt_new s0) (Felt_new s1) (Felt_new s2) (Felt_new s3) in
  mkNoteBuilder sender [] [] NotePublic serial_num (tag_of_u32 0) DEFAULT_NOTE_CODE None ZERO.

Definition note_inputs (inputs : list Felt) (self : NoteBuilder) : res NoteError NoteBuilder :=
  _ ← note_inputs_new inputs;
  Ok (mkNoteBuilder (nb_sender self) inputs (nb_assets self) (nb_note_type self) (nb_serial_num self) (nb_tag self)
        (nb_code self) (nb_proof self) (nb_aux self)).
Definition note_add_asset (asset : Asset) (self : NoteBuilder) : NoteBuilder :=
  mkNoteBuilder (nb_sender self) (nb_inputs self) (nb_assets self ++ [asset]) (nb_note_type self) (nb_serial_num self)
    (nb_tag self) (nb_code self) (nb_proof self) (nb_aux self).
Definition note_tag (tag : Z) (self : NoteBuilder) : NoteBuilder :=
  mkNoteBuilder (nb_sender self) (nb_inputs self) (nb_assets self) (nb_note_type self) (nb_serial_num self)
    (tag_of_u32 tag) (nb_code self) (nb_proof self) (nb_aux self).
Definition note_code (code : string) (self : NoteBuilder) : NoteBuilder :=
  mkNoteBuilder (nb_sender self) (nb_inputs self) (nb_assets self) (nb_note_type self) (nb_serial_num self)
    (nb_tag self) code (nb_proof self) (nb_aux self).
Definition note_proof (proof : NoteInclusionProof) (self : NoteBuilder) : NoteBuilder :=
  mkNoteBuilder (nb_sender self) (nb_inputs self) (nb_assets self) (nb_note_type self) (nb_serial_num self)
    (nb_tag self) (nb_code self) (Some proof) (nb_aux self).
Definition note_aux (aux : Felt) (self : NoteBuilder) : NoteBuilder :=
  mkNoteBuilder (nb_sender self) (nb_inputs self) (nb_assets self) (nb_note_type self) (nb_serial_num self)
    (nb_tag self) (nb_code self) (nb_proof self) aux.

(** The proof is not used. *)
Definition note_build (self : NoteBuilder) : res NoteError Note :=
  note_ast ← expect_ok (ProgramAst_parse (nb_code self));
  '(note_script, _) ← note_script_new note_ast kernel_assembler;
  vault ← note_assets_new (nb_assets self);
  metadata ← metadata_new (nb_sender self) (nb_note_type self) (nb_tag self) (nb_aux self);
  inputs ← note_inputs_new (nb_inputs self);
  let recipient := recipient_new (nb_serial_num self) note_script inputs in
  Ok (note_new vault metadata recipient).
End note_builder.
