(* ===== verification/MockInputs.v ===== *)
(** The mock headers of block/header.rs and mock/src/mock/block.rs, and of
    mock/src/mock/chain.rs the views of a chain and the data of consumed notes. *)
From S2P Require Import Prelude Interfaces Types Reference BTree AccountIds Assets NoteMeta NoteContents Notes Blocks Chain.
From S2P Require Import Vault Storage Code Account Inputs.
Local Open Scope Z_scope.

(** ** Merkle mountain ranges

    The full range of a chain, with the openings of its leaves, and how a partial
    range is made of it. *)
Class FullMmr `{MK : Merkle} := {
  Mmr : Type;
  MmrError : Type;
  Mmr_default : Mmr;
  Mmr_forest : Mmr -> Z;                             (* the number of leaves *)
  Mmr_add : Mmr -> Digest -> Mmr;
  Mmr_get : Mmr -> Z -> res MmrError Digest;
  Mmr_peaks : Mmr -> Z -> res MmrError MmrPeaks;     (* of the first leaves *)
  Mmr_open : Mmr -> Z -> Z -> res MmrError (list Digest);
  from_peaks : MmrPeaks -> PartialMmr;
  mmr_track : PartialMmr -> Z -> Digest -> list Digest -> res MmrError PartialMmr
}.

(** The leaves are those added, in order. The peaks of a number of leaves are those of
    the range when it had that many. A partial range made from the peaks of a range
    has its leaves, and takes the openings of the range. *)
Class FullMmrLaws `(FM : FullMmr) : Prop := {
  Mmr_forest_default : Mmr_forest Mmr_default = 0;
  Mmr_forest_add (m : Mmr) (d : Digest) : Mmr_forest (Mmr_add m d) = Mmr_forest m + 1;
  Mmr_get_add (m : Mmr) (d : Digest) (i : Z) : 0 <= i <= Mmr_forest m ->
    Mmr_get (Mmr_add m d) i = if decide (i = Mmr_forest m) then Ok d else Mmr_get m i;
  Mmr_peaks_ok (m : Mmr) : exists p, Mmr_peaks m (Mmr_forest m) = Ok p /\ mmr_peaks (from_peaks p) = p /\
    mmr_forest (from_peaks p) = Mmr_forest m;
  Mmr_peaks_add (m : Mmr) (d : Digest) (n : Z) : 0 <= n <= Mmr_forest m ->
    Mmr_peaks (Mmr_add m d) n = Mmr_peaks m n;
  Mmr_open_ok (m : Mmr) (i : Z) : 0 <= i < Mmr_forest m ->
    exists d path, Mmr_get m i = Ok d /\ Mmr_open m i (Mmr_forest m) = Ok path /\
      forall pm, Mmr_peaks m (Mmr_forest m) = Ok (mmr_peaks pm) -> mmr_forest pm = Mmr_forest m ->
        exists pm', mmr_track pm i d path = Ok pm' /\ mmr_peaks pm' = mmr_peaks pm /\ mmr_forest pm' = mmr_forest pm /\
          mmr_is_tracked pm' i = true /\ forall j, mmr_is_tracked pm j = true -> mmr_is_tracked pm' j = true
}.

(** ** Mock headers (block/header.rs, module mock; mock/block.rs) *)

Definition ACCOUNT_TREE_DEPTH : Z := 64.

Section mock_header.
Context `{F : Field} {C : Crypto} {AS : Assembly}.

(** What [BlockHeader::mock] draws at random. *)
Record header_random := mkRandom {
  rand_prev_hash : Digest; rand_chain_root : Digest; rand_nullifier_root : Digest; rand_note_root : Digest;
  rand_batch_root : Digest; rand_proof_hash : Digest; rand_timestamp : Felt }.

Definition header_mock {E} (rand : header_random) (block_num : Z) (chain_root note_root : option Digest)
    (accts : list Account) : res E BlockHeader :=
  acct_db ← expect_ok (SimpleSmt_with_leaves ACCOUNT_TREE_DEPTH (concat (map (fun acct =>
    if is_new acct then [] else [(as_int (felt_of_id (acc_id acct)), account_hash acct)]) accts)));
  Ok (block_header_new (rand_prev_hash rand) block_num (default (rand_chain_root rand) chain_root)
        (SimpleSmt_root acct_db) (rand_nullifier_root rand) (default (rand_note_root rand) note_root)
        (rand_batch_root rand) (rand_proof_hash rand) ZERO (rand_timestamp rand)).

Definition mock_block_header {E} (rand : header_random) (block_num : Z) (chain_root note_root : option Digest)
    (accts : list Account) : res E BlockHeader :=
  header_mock rand block_num chain_root note_root accts.
End mock_header.
Arguments header_random : clear implicits.
Arguments header_random {_}.

(** ** Views of the chain *)

Section views.
Context `{F : Field} {C : Crypto} {MK : Merkle} {FM : FullMmr}.

(** One round of the loop over the leaves. *)
Definition track_leaf {E} (mmr : Mmr) (i : Z) : mut PartialMmr E unit :=
  partial_mmr ← read_self;
  node ← lift (expect_ok (Mmr_get mmr i));
  path ← lift (expect_ok (Mmr_open mmr i (Mmr_forest mmr)));
  partial_mmr ← lift (expect_ok (mmr_track partial_mmr i node path));
  write_self partial_mmr.

Definition mmr_to_chain_mmr {E} (mmr : Mmr) (blocks : list BlockHeader) : res E ChainMmr :=
  let num_leaves := Mmr_forest mmr in
  peaks ← expect_ok (Mmr_peaks mmr (Mmr_forest mmr));
  let '(partial_mmr, r) := for_each (track_leaf mmr) (seqZ 0 num_leaves) (from_peaks peaks) in
  _ ← r;
  expect_ok (chain_mmr_new partial_mmr blocks).
End views.

Section mock_chain_data.
Context `{F : Field} {C : Crypto} {MK : Merkle} {AS : Assembly} {P : Programs} {D : Display} {FM : FullMmr}.

(** The tree of a consumed note: its authentication hash, at its own index. *)
Definition consumed_note_tree {E} (entry : Z * Note) : res E (SimpleSmt NOTE_TREE_DEPTH) :=
  expect_ok (SimpleSmt_with_leaves NOTE_TREE_DEPTH [(entry.1, authentication_hash entry.2)]).

(** Note [index] is in block [index], of which there are four. *)
Definition record_consumed {E} (block_chain : list BlockHeader) (note_trees : list (SimpleSmt NOTE_TREE_DEPTH))
    (entry : Z * Note) : res E InputNote :=
  let '(index, note) := entry in
  block_header ← expect (block_chain !! Z.to_nat index);
  auth_index ← expect_ok (LeafIndex_new NOTE_TREE_DEPTH index);
  tree ← expect (note_trees !! Z.to_nat index);
  proof ← expect_ok (inclusion_proof_new (block_num block_header) (sub_hash block_header) (note_root block_header)
    index (SimpleSmt_open tree auth_index));
  Ok (mkInputNote note proof).

Definition mock_chain_data {E} (rand : Z -> header_random) (consumed_notes : list Note)
    : res E (ChainMmr * list InputNote) :=
  note_trees ← mapM consumed_note_tree (enumerate consumed_notes);
  block_chain ← mapM (fun i => mock_block_header (rand i) i None (SimpleSmt_root <$> note_trees !! Z.to_nat i) []) (seqZ 0 4);
  let mmr := foldl (fun mmr header => Mmr_add mmr (block_hash header)) Mmr_default block_chain in
  chain_mmr ← mmr_to_chain_mmr mmr block_chain;
  recorded_notes ← mapM (record_consumed block_chain note_trees) (enumerate consumed_notes);
  Ok (chain_mmr, recorded_notes).
End mock_chain_data.


(** ** Specification *)

Section spec.
Context `{F : Field} {C : Crypto} {MK : Merkle} {FM : FullMmr}.

(** A range with the headers as leaves, in the order of their numbers. *)
Definition chain_of (mmr : Mmr) (blocks : list BlockHeader) : Prop :=
  Mmr_forest mmr = Z.of_nat (length blocks) /\ forall i h, blocks !! i = Some h -> block_num h = Z.of_nat i.

(** The range of the hashes of some headers. *)
Definition mmr_of (blocks : list BlockHeader) : Mmr :=
  foldl (fun mmr header => Mmr_add mmr (block_hash header)) Mmr_default blocks.
End spec.

(** ** Lemmas *)

Section lemmas.
Context `{F : Field} {C : Crypto} {MK : Merkle} {ML : MerkleLaws MK} {FM : FullMmr} {FML : FullMmrLaws FM}.

Lemma mmr_of_forest (blocks : list BlockHeader) : Mmr_forest (mmr_of blocks) = Z.of_nat (length blocks).
Proof.
  induction blocks as [|h blocks IH] using rev_ind; [apply Mmr_forest_default|].
  unfold mmr_of in *. rewrite foldl_snoc, Mmr_forest_add, IH, length_app. cbn. lia.
Qed.

(** The loop tracks every leaf from [i] on, and keeps the peaks. *)
Lemma track_leaves {E} (mmr : Mmr) (k : nat) i (pm : PartialMmr) :
  0 <= i -> i + Z.of_nat k <= Mmr_forest mmr ->
  Mmr_peaks mmr (Mmr_forest mmr) = Ok (mmr_peaks pm) -> mmr_forest pm = Mmr_forest mmr ->
  exists pm', for_each (track_leaf (E := E) mmr) (seqZ i (Z.of_nat k)) pm = (pm', Ok tt) /\
    mmr_peaks pm' = mmr_peaks pm /\ mmr_forest pm' = mmr_forest pm /\
    (forall j, mmr_is_tracked pm j = true \/ i <= j < i + Z.of_nat k -> mmr_is_tracked pm' j = true).
Proof.
  revert i pm. induction k as [|k IH]; intros i pm Hi Hk Hp Hf.
  { exists pm. split; [done|]. split; [done|]. split; [done|]. intros j [Hj|Hj]; [done|lia]. }
  destruct (Mmr_open_ok mmr i) as (d & path & Hget & Hopen & Htrack); [lia|].
  destruct (Htrack pm Hp Hf) as (pm1 & Ht1 & Hp1 & Hf1 & Hi1 & Hkeep).
  destruct (IH (i + 1) pm1) as (pm' & Hrun & Hp' & Hf' & Hall); [lia|lia|congruence|congruence|].
  exists pm'. rewrite seqZ_cons by lia. replace (Z.pred (Z.of_nat (S k))) with (Z.of_nat k) by lia.
  replace (Z.succ i) with (i + 1) by lia. rewrite for_each_cons.
  assert (Hstep : track_leaf (E := E) mmr i pm = (pm1, Ok tt)).
  { unfold track_leaf. run_mut. rewrite Hget, Hopen. cbn [expect_ok]. by rewrite Ht1. }
  rewrite Hstep. split; [exact Hrun|]. split; [congruence|]. split; [congruence|].
  intros j Hj. apply Hall. destruct (decide (j = i)) as [->|Hne]; [by left|].
  destruct Hj as [Hj|Hj]; [left; by apply Hkeep|right; lia].
Qed.

(** All blocks of a chain make a view of it. *)
Lemma chain_view {E} (mmr : Mmr) (blocks : list BlockHeader) : chain_of mmr blocks ->
  exists c, mmr_to_chain_mmr (E := E) mmr blocks = Ok c /\ chain_wf c /\ chain_length c = Z.of_nat (length blocks) /\
    Mmr_peaks mmr (Mmr_forest mmr) = Ok (chain_peaks c) /\
    forall num h, get_block c num = Some h <-> 0 <= num /\ blocks !! Z.to_nat num = Some h.
Proof.
  intros [Hlen Hnum]. destruct (Mmr_peaks_ok mmr) as (p & Hp & Hpm & Hfp).
  destruct (track_leaves (E := E) mmr (length blocks) 0 (from_peaks p)) as (pm & Hrun & Hpp & Hpf & Htr); [lia|lia|congruence|done|].
  destruct (chain_mmr_new_ok pm blocks) as (c & Hc & Hwf & Hm & Hget).
  - apply Forall_lookup. intros i h Hi. unfold block_tracked. rewrite (Hnum i h Hi).
    apply lookup_lt_Some in Hi. split; [lia|]. apply Htr. right. lia.
  - apply NoDup_alt. intros i j x. rewrite !list_lookup_fmap_Some.
    intros (h & -> & Hi) (h' & Heq & Hj). rewrite (Hnum i h Hi), (Hnum j h' Hj) in Heq. lia.
  - exists c. unfold mmr_to_chain_mmr. rewrite Hp. cbn [expect_ok mbind res_bind]. rewrite Hlen, Hrun.
    cbn [mbind res_bind]. rewrite Hc. split; [done|]. split; [done|]. unfold chain_length, chain_peaks. rewrite Hm.
    split; [lia|]. split; [congruence|]. intros num h. rewrite Hget. split.
    + intros [(i & Hi)%list_elem_of_lookup_1 <-]. rewrite (Hnum i h Hi), Nat2Z.id. split; [lia|done].
    + intros [Hn Hi]. split; [by eapply list_elem_of_lookup_2|]. rewrite (Hnum _ _ Hi). lia.
Qed.
End lemmas.

Section consumed_lemmas.
Context `{F : Field} {FL : FieldLaws F} {C : Crypto} {SSL : SimpleSmtLaws C} {MK : Merkle} {ML : MerkleLaws MK} {AS : Assembly}
  {P : Programs} {FE : Features} {D : Display} {FM : FullMmr} {FML : FullMmrLaws FM}.

Lemma header_mock_ok {E} rand num cr nr (accts : list Account) :
  NoDup (acc_id <$> filter (fun a => is_new a = false) accts) ->
  exists t : SimpleSmt ACCOUNT_TREE_DEPTH, header_mock (E := E) rand num cr nr accts =
    Ok (block_header_new (rand_prev_hash rand) num (default (rand_chain_root rand) cr) (SimpleSmt_root t)
          (rand_nullifier_root rand) (default (rand_note_root rand) nr) (rand_batch_root rand) (rand_proof_hash rand)
          ZERO (rand_timestamp rand)).
Proof.
  intros Hnd. unfold header_mock.
  assert (Hes : concat (map (fun acct => if is_new acct then [] else [(as_int (felt_of_id (acc_id acct)), account_hash acct)]) accts) =
    map (fun a => (as_int (felt_of_id (acc_id a)), account_hash a)) (filter (fun a => is_new a = false) accts)).
  { clear Hnd. induction accts as [|a accts IH]; [done|]. cbn [map concat]. rewrite IH, filter_cons.
    by destruct (is_new a). }
  rewrite Hes. destruct (SimpleSmt_with_leaves_ok ACCOUNT_TREE_DEPTH
    (map (fun a => (as_int (felt_of_id (acc_id a)), account_hash a)) (filter (fun a => is_new a = false) accts)))
    as (t & Ht & _).
  - rewrite <- list_fmap_compose. cbn. revert Hnd. generalize (filter (fun a => is_new a = false) accts) as l.
    induction l as [|a l IH]; cbn; intros Hnd; [constructor|]. apply NoDup_cons in Hnd as [Hin Hnd].
    constructor; [|by apply IH]. intros (b & Heq & Hb)%list_elem_of_fmap. apply Hin, list_elem_of_fmap.
    exists b. split; [|done]. apply felt_eq_iff in Heq. by destruct (acc_id a), (acc_id b); cbn in Heq; subst.
  - apply Forall_fmap, Forall_true. intros a. cbn. pose proof (as_int_range (felt_of_id (acc_id a))).
    unfold MODULUS, ACCOUNT_TREE_DEPTH in *. lia.
  - exists t. by rewrite Ht.
Qed.

(** The tree of a consumed note opens to its authentication hash. *)
Lemma consumed_note_tree_ok {E} i n : 0 <= i < 2 ^ NOTE_TREE_DEPTH ->
  exists t, consumed_note_tree (E := E) (i, n) = Ok t /\ SimpleSmt_get t i = authentication_hash n.
Proof.
  intros Hi. destruct (SimpleSmt_with_leaves_ok NOTE_TREE_DEPTH [(i, authentication_hash n)]) as (t & Ht & Hget).
  { apply NoDup_singleton. } { by constructor. }
  exists t. unfold consumed_note_tree. cbn [fst snd]. rewrite Ht. split; [done|]. rewrite Hget by done.
  cbn. by rewrite decide_True.
Qed.

(** A recorded note of a tree is in every block with the root of the tree. *)
Lemma record_consumed_ok {E} blocks trees i n h (t : SimpleSmt NOTE_TREE_DEPTH) : 0 <= i < 2 ^ NOTE_TREE_DEPTH ->
  blocks !! Z.to_nat i = Some h -> trees !! Z.to_nat i = Some t -> SimpleSmt_get t i = authentication_hash n ->
  note_root h = SimpleSmt_root t ->
  exists r, record_consumed (E := E) blocks trees (i, n) = Ok r /\ in_note r = n /\
    origin_block_num (in_origin r) = block_num h /\ is_in_block r h = true.
Proof.
  intros Hi Hh Ht Hget Hroot. destruct (LeafIndex_new_ok NOTE_TREE_DEPTH i) as (l & Hl); [done|done|].
  destruct (NodeIndex_new_ok NOTE_TREE_DEPTH i) as (ni & Hni & Hv); [done|done|].
  destruct (SimpleSmt_open_verifies NOTE_TREE_DEPTH i t l) as [Hver _]; [done|done|done|].
  unfold record_consumed. rewrite Hh. cbn [expect mbind res_bind]. rewrite Hl. cbn [expect_ok mbind res_bind].
  rewrite Ht. cbn [expect mbind res_bind]. unfold inclusion_proof_new. rewrite Hni. cbn [map_err expect_ok mbind res_bind].
  eexists. split; [done|]. split; [done|]. split; [done|]. unfold is_in_block. cbn. by rewrite Hv, <- Hget, Hroot.
Qed.

Lemma record_consumed_out {E} blocks trees i n :
  blocks !! Z.to_nat i = None -> record_consumed (E := E) blocks trees (i, n) = Panic.
Proof. intros Hh. unfold record_consumed. by rewrite Hh. Qed.
End consumed_lemmas.

(** ** Properties *)

Section properties.
Context `{F : Field} {FL : FieldLaws F} {C : Crypto} {SSL : SimpleSmtLaws C} {MK : Merkle} {ML : MerkleLaws MK} {AS : Assembly}
  {P : Programs} {FE : Features} {D : Display} {B : Build} {IO : ByteIO} {FM : FullMmr} {FML : FullMmrLaws FM}.

(** The headers of the dummy chain, with the roots of the trees there are. *)
Lemma dummy_chain_ok {E} rand (trees : list (SimpleSmt NOTE_TREE_DEPTH)) :
  exists blocks, mapM (fun i => mock_block_header (E := E) (rand i) i None (SimpleSmt_root <$> trees !! Z.to_nat i) []) (seqZ 0 4) =
    Ok blocks /\ length blocks = 4%nat /\
    forall i h, blocks !! i = Some h -> block_num h = Z.of_nat i /\
      forall t, trees !! i = Some t -> note_root h = SimpleSmt_root t.
Proof.
  destruct (mapM_res_exists (fun i => mock_block_header (E := E) (rand i) i None (SimpleSmt_root <$> trees !! Z.to_nat i) [])
    (fun i h => block_num h = i /\ forall t, trees !! Z.to_nat i = Some t -> note_root h = SimpleSmt_root t) (seqZ 0 4))
    as (blocks & Hb & Hall).
  { apply Forall_true. intros i. unfold mock_block_header.
    destruct (header_mock_ok (E := E) (rand i) i None (SimpleSmt_root <$> trees !! Z.to_nat i) []) as (t & ->); [constructor|].
    eexists. split; [done|]. split; [done|]. intros t' Ht'. cbn. by rewrite Ht'. }
  exists blocks. split; [done|]. pose proof (Forall2_length _ _ _ Hall) as Hlen. rewrite length_seqZ in Hlen. split; [done|].
  intros i h Hi. destruct (Forall2_lookup_r _ _ _ _ _ Hall Hi) as (z & Hz & Hnum & Ht).
  apply lookup_seqZ in Hz as [-> Hz]. split; [done|]. intros t. specialize (Ht t). by rewrite Z.add_0_l, Nat2Z.id in Ht.
Qed.

Lemma mock_chain_data_ok rand (notes : list Note) : (length notes <= 4)%nat ->
  exists blocks c recorded, mock_chain_data (E := Empty_set) rand notes = Ok (c, recorded) /\ in_note <$> recorded = notes /\
    chain_of (mmr_of blocks) blocks /\ length blocks = 4%nat /\ chain_wf c /\ chain_length c = 4 /\
    (forall num h, get_block c num = Some h <-> 0 <= num /\ blocks !! Z.to_nat num = Some h) /\
    Forall (fun r => exists h, get_block c (origin_block_num (in_origin r)) = Some h /\ is_in_block r h = true /\
                       origin_block_num (in_origin r) < 4) recorded.
Proof.
  intros Hlen. unfold mock_chain_data.
  destruct (mapM_res_exists (consumed_note_tree (E := Empty_set))
    (fun e t => SimpleSmt_get t e.1 = authentication_hash e.2) (enumerate notes)) as (trees & Htrees & Htall).
  { apply Forall_forall. intros [i n] [Hi Hn]%enumerate_lookup. apply lookup_lt_Some in Hn.
    apply consumed_note_tree_ok. change (2 ^ NOTE_TREE_DEPTH) with 1048576.
    cbn [fst]. lia. }
  rewrite Htrees. cbn [mbind res_bind]. destruct (dummy_chain_ok (E := Empty_set) rand trees) as (blocks & Hb & Hbl & Hblocks).
  rewrite Hb. cbn [mbind res_bind]. fold (mmr_of blocks).
  assert (Hof : chain_of (mmr_of blocks) blocks).
  { split; [apply mmr_of_forest|]. intros i h Hi. by apply Hblocks. }
  destruct (chain_view (E := Empty_set) (mmr_of blocks) blocks Hof) as (c & Hc & Hwf & Hcl & _ & Hget).
  rewrite Hc. cbn [mbind res_bind]. rewrite Hbl in Hcl.
  destruct (mapM_res_exists (record_consumed (E := Empty_set) blocks trees) (fun e r => in_note r = e.2 /\
    exists h, get_block c (origin_block_num (in_origin r)) = Some h /\ is_in_block r h = true /\
      origin_block_num (in_origin r) < 4) (enumerate notes)) as (recorded & Hr & Hrall).
  { apply Forall_forall. intros [i n] Hin. pose proof Hin as [Hi Hn]%enumerate_lookup. apply lookup_lt_Some in Hn as Hlt.
    destruct (lookup_lt_is_Some_2 blocks (Z.to_nat i)) as (h & Hh); [lia|].
    assert (Hent : enumerate notes !! Z.to_nat i = Some (i, n)).
    { unfold enumerate. rewrite list_lookup_imap, Hn. cbn. by rewrite Z2Nat.id. }
    destruct (Forall2_lookup_l _ _ _ _ _ Htall Hent) as (t & Ht & Hleaf). cbn [fst snd] in Hleaf.
    destruct (Hblocks _ _ Hh) as [Hnum Hroot].
    destruct (record_consumed_ok (E := Empty_set) blocks trees i n h t) as (r & Hr & Hrn & Hro & Hrb);
      [change (2 ^ NOTE_TREE_DEPTH) with 1048576; lia|done|done|done|by apply Hroot|].
    exists r. split; [done|]. split; [done|]. exists h. rewrite Hro, Hnum, Z2Nat.id by done.
    split; [by apply Hget|]. split; [done|lia]. }
  rewrite Hr. cbn [mbind res_bind]. exists blocks, c, recorded. split; [done|]. split.
  { apply list_eq. intros i. rewrite list_lookup_fmap. pose proof (Forall2_length _ _ _ Hrall) as Hl.
    unfold enumerate in Hl. rewrite length_imap in Hl. destruct (recorded !! i) as [r|] eqn:Hri.
    - destruct (Forall2_lookup_r _ _ _ _ _ Hrall Hri) as (e & He & Hen & _). unfold enumerate in He.
      rewrite list_lookup_imap in He. destruct (notes !! i) as [n|]; [|done]. injection He as <-. cbn in *. by rewrite Hen.
    - apply lookup_ge_None in Hri. symmetry. apply lookup_ge_None. lia. }
  do 5 (split; [done|]). clear -Hrall. induction Hrall as [|e r es rs [_ H] _ IH]; by constructor.
Qed.

Lemma mock_chain_data_panics rand (notes : list Note) : (4 < length notes)%nat ->
  mock_chain_data (E := Empty_set) rand notes = Panic.
Proof.
  intros Hlen. destruct (mock_chain_data (E := Empty_set) rand notes) as [[c recorded]|[]|] eqn:Hd; [exfalso|done].
  unfold mock_chain_data in Hd. apply bind_ok in Hd as (trees & _ & Hd). apply bind_ok in Hd as (blocks & Hb & Hd).
  destruct (dummy_chain_ok (E := Empty_set) rand trees) as (blocks' & Hb' & Hbl & _). rewrite Hb in Hb'. injection Hb' as <-.
  apply bind_ok in Hd as (c' & _ & Hd). apply bind_ok in Hd as (rs & Hrs%mapM_res_ok & _).
  destruct (lookup_lt_is_Some_2 notes 4) as (n & Hn); [lia|].
  destruct (Forall2_lookup_l _ _ _ 4%nat (4, n) Hrs) as (r & _ & Hr).
  { unfold enumerate. by rewrite list_lookup_imap, Hn. }
  rewrite record_consumed_out in Hr; [done|]. apply lookup_ge_None. cbn. lia.
Qed.

(** The inputs the tests make: up to four consumed notes are recorded in a dummy chain
    of four blocks, and these, with the header made for the block after them, are
    accepted as transaction inputs of every account with the seed it needs; more
    than four notes are more than there are blocks, and panic. *)
Theorem mock_inputs_accepted (rand : Z -> header_random) (rand' : header_random) (notes : list Note) (a : Account)
    (seed : option Word) :
  ((length notes <= 4)%nat -> exists c recorded h,
     mock_chain_data (E := Empty_set) rand notes = Ok (c, recorded) /\ in_note <$> recorded = notes /\ chain_wf c /\
     mock_block_header (E := Empty_set) rand' 4 (Some (hash_peaks (chain_peaks c))) None [a] = Ok h /\
     forall ns, is_notes ns = recorded ->
       (transaction_inputs_new a seed h c ns = Ok (mkTransactionInputs a seed h c ns) <-> seed_accepted a seed)) /\
  ((4 < length notes)%nat -> mock_chain_data (E := Empty_set) rand notes = Panic).
Proof.
  split; [|apply mock_chain_data_panics]. intros Hlen.
  destruct (mock_chain_data_ok rand notes Hlen) as (blocks & c & recorded & Hd & Hnotes & _ & _ & Hwf & Hcl & Hget & Hall).
  destruct (header_mock_ok (E := Empty_set) rand' 4 (Some (hash_peaks (chain_peaks c))) None [a]) as (t & Hh).
  { cbn [filter list_filter]. case_decide; [apply NoDup_singleton|constructor]. }
  eexists c, recorded, _. split; [done|]. split; [done|]. split; [done|]. split; [exact Hh|].
  intros ns Hns. rewrite transaction_inputs_new_ok, Hns. split; [tauto|]. intros Hseed. split; [done|]. split; [done|].
  split; [done|]. split; [done|]. eapply Forall_impl; [exact Hall|]. intros r (b & Hb & Hin & Hlt). exists b. split; [|done].
  unfold note_header. rewrite decide_False; [done|]. cbn. lia.
Qed.
End properties.

(** ** Reference instance and witnesses *)

Import RefInstances.

Module RefMmrs.
(** A range is the list of its leaves. *)
#[export] Instance RefFullMmr : FullMmr := {
  Mmr := list Word;
  MmrError := unit;
  Mmr_default := [];
  Mmr_forest m := Z.of_nat (length m);
  Mmr_add m d := m ++ [d];
  Mmr_get m i := ok_or (m !! Z.to_nat i) tt;
  Mmr_peaks m n := if decide (n <= Z.of_nat (length m)) then Ok (take (Z.to_nat n) m) else Err tt;
  Mmr_open m i n := Ok [];
  from_peaks p := mkRefMmr p [];
  mmr_track pm i d path := Ok (mkRefMmr (ref_hashes pm) (i :: ref_tracked pm))
}.

#[export] Instance RefFullMmrLaws : FullMmrLaws RefFullMmr.
Proof.
  split.
  - done.
  - intros m d. cbn. rewrite length_app. cbn. lia.
  - intros m d i Hi. cbn in *. case_decide as He.
    + subst. by rewrite Nat2Z.id, list_lookup_middle.
    + by rewrite lookup_app_l by lia.
  - intros m. exists m. cbn. rewrite decide_True by lia. by rewrite Nat2Z.id, firstn_all.
  - intros m d n Hn. cbn in *. rewrite length_app, !decide_True by lia. by rewrite take_app_le by lia.
  - intros m i Hi. cbn in *. destruct (lookup_lt_is_Some_2 m (Z.to_nat i)) as (d & Hd); [lia|].
    exists d, []. rewrite Hd. split; [done|]. split; [done|]. intros pm _ _. eexists. split; [done|]. cbn.
    split; [done|]. split; [done|]. split; [apply bool_decide_eq_true; by left|].
    intros j. rewrite !bool_decide_eq_true. by right.
Qed.
End RefMmrs.
Import RefMmrs.

Definition sample_random : header_random :=
  mkRandom EMPTY_WORD EMPTY_WORD EMPTY_WORD EMPTY_WORD EMPTY_WORD EMPTY_WORD ZERO.

(** One consumed note, on an existing account. *)
Lemma mock_inputs_accepted_witness :
  exists a c recorded h, mock_chain_data (E := Empty_set) (fun _ => sample_random) [sample_note []] = Ok (c, recorded) /\
    transaction_inputs_new a None h c (mkInputNotes recorded EMPTY_WORD) =
      Ok (mkTransactionInputs a None h c (mkInputNotes recorded EMPTY_WORD)) /\
    mock_chain_data (E := Empty_set) (fun _ => sample_random) (replicate 5 (sample_note [])) = Panic.
Proof.
  destruct (sample_account ONE) as (a & _ & _ & _ & Hn & _).
  destruct (mock_inputs_accepted (fun _ => sample_random) sample_random [sample_note []] a None) as [Hok _].
  destruct (mock_inputs_accepted (fun _ => sample_random) sample_random (replicate 5 (sample_note [])) a None) as [_ Hpanic].
  destruct (Hok ltac:(cbn; lia)) as (c & recorded & h & Hd & _ & _ & _ & Hiff). exists a, c, recorded, h.
  split; [exact Hd|]. split; [|apply Hpanic; cbn; lia]. apply Hiff; [reflexivity|].
  unfold seed_accepted, is_new. rewrite Hn. by rewrite bool_decide_false.
Defined.
