(* ===== verification/MockChain.v ===== *)
(** mock/src/mock/chain.rs: the chain of blocks tests run against, as a state machine. *)
From S2P Require Import Prelude Interfaces Types Reference BTree AccountIds Seed Assets NoteMeta NoteContents Notes Blocks Chain.
From S2P Require Import Vault Storage Code Account Inputs Machine StandardAccounts MockBuilders MockInputs.
Local Open Scope Z_scope.

(** ** Objects of the chain *)

Section chain.
Context `{F : Field} {C : Crypto} {MK : Merkle} {AS : Assembly} {P : Programs} {FE : Features} {D : Display} {B : Build}
  {L : Linker} {ML : MidenLib} {FM : FullMmr} {R : Type} {RG : Rng R}.

Record Objects := mkObjects {
  ob_accounts : list (Account * Word);
  ob_fungible_faucets : list (AccountId * FungibleAssetBuilder);
  ob_nonfungible_faucets : list (AccountId * NonFungibleAssetBuilder R);
  ob_notes : list Note;
  ob_recorded_notes : list InputNote;
  ob_nullifiers : list Digest }.

Definition objects_new : Objects := mkObjects [] [] [] [] [] [].

Definition build_notes_tree {E} (self : Objects) : res E (SimpleSmt NOTE_TREE_DEPTH) :=
  let ids := map (fun e : Z * Note => (e.1 * 2, note_id_digest (note_id e.2))) (enumerate (ob_notes self)) in
  let metadata := map (fun e : Z * Note => (e.1 * 2 + 1, word_of_metadata (note_metadata e.2))) (enumerate (ob_notes self)) in
  expect_ok (SimpleSmt_with_leaves NOTE_TREE_DEPTH (ids ++ metadata)).

Definition finalize_note {E} (header : BlockHeader) (notes : SimpleSmt NOTE_TREE_DEPTH) (entry : Z * Note)
    : res E InputNote :=
  let '(index, note) := entry in
  auth_index ← expect_ok (LeafIndex_new NOTE_TREE_DEPTH index);
  proof ← expect_ok (inclusion_proof_new (block_num header) (sub_hash header) (note_root header) index
    (SimpleSmt_open notes auth_index));
  Ok (mkInputNote note proof).

(** The notes are drained. *)
Definition finalize_notes {E} (header : BlockHeader) (notes : SimpleSmt NOTE_TREE_DEPTH) : mut Objects E (list InputNote) :=
  self ← read_self;
  _ ← write_self (mkObjects (ob_accounts self) (ob_fungible_faucets self) (ob_nonfungible_faucets self) []
                    (ob_recorded_notes self) (ob_nullifiers self));
  lift (mapM (finalize_note header notes) (enumerate (ob_notes self))).

(** Both lists of objects change: those committed and those pending. *)
Definition update_with {E} (header : BlockHeader) (notes : SimpleSmt NOTE_TREE_DEPTH) : mut (Objects * Objects) E unit :=
  '(self, pending) ← read_self;
  _ ← write_self
    (mkObjects (ob_accounts self ++ ob_accounts pending) (ob_fungible_faucets self ++ ob_fungible_faucets pending)
       (ob_nonfungible_faucets self ++ ob_nonfungible_faucets pending) (ob_notes self) (ob_recorded_notes self)
       (ob_nullifiers self),
     mkObjects [] [] [] (ob_notes pending) (ob_recorded_notes pending) (ob_nullifiers pending));
  recorded_notes ← on_field snd (fun pending s => (fst s, pending)) (finalize_notes header notes);
  '(self, pending) ← read_self;
  write_self
    (mkObjects (ob_accounts self) (ob_fungible_faucets self) (ob_nonfungible_faucets self) (ob_notes self)
       (ob_recorded_notes self ++ recorded_notes) (ob_nullifiers self),
     mkObjects (ob_accounts pending) (ob_fungible_faucets pending) (ob_nonfungible_faucets pending) (ob_notes pending)
       (ob_recorded_notes pending) []).

(** ** The chain *)

Record MockChain := mkMockChain {
  mc_chain : Mmr; mc_blocks : list BlockHeader; mc_nullifiers : Smt; mc_accounts : SimpleSmt ACCOUNT_TREE_DEPTH;
  mc_rng : R; mc_account_id_builder : AccountIdBuilder R; mc_objects : Objects; mc_pending_objects : Objects }.

Inductive Immutable := No | Yes.
Inductive MockError := DuplicatedNullifier | DuplicatedNote.

Definition mock_chain_new {E} (rng : R) : res E MockChain :=
  let '(rng, account_rng) := from_rng rng in
  account_rng ← expect_ok account_rng;
  accounts ← expect_ok (SimpleSmt_new ACCOUNT_TREE_DEPTH);
  Ok (mkMockChain Mmr_default [] Smt_new accounts rng (id_builder_new account_rng) objects_new objects_new).

(** *** Sealing a block *)

Definition TIMESTAMP_START : Felt := Felt_new 1693348223.
Definition TIMESTAMP_STEP : Felt := Felt_new 10.

Definition put_accounts (accounts : SimpleSmt ACCOUNT_TREE_DEPTH) (self : MockChain) : MockChain :=
  mkMockChain (mc_chain self) (mc_blocks self) (mc_nullifiers self) accounts (mc_rng self) (mc_account_id_builder self)
    (mc_objects self) (mc_pending_objects self).
Definition put_nullifiers (nullifiers : Smt) (self : MockChain) : MockChain :=
  mkMockChain (mc_chain self) (mc_blocks self) nullifiers (mc_accounts self) (mc_rng self) (mc_account_id_builder self)
    (mc_objects self) (mc_pending_objects self).
Definition put_blocks (chain : Mmr) (blocks : list BlockHeader) (self : MockChain) : MockChain :=
  mkMockChain chain blocks (mc_nullifiers self) (mc_accounts self) (mc_rng self) (mc_account_id_builder self)
    (mc_objects self) (mc_pending_objects self).
Definition put_objects (objects pending : Objects) (self : MockChain) : MockChain :=
  mkMockChain (mc_chain self) (mc_blocks self) (mc_nullifiers self) (mc_accounts self) (mc_rng self)
    (mc_account_id_builder self) objects pending.
Definition put_rng (rng : R) (self : MockChain) : MockChain :=
  mkMockChain (mc_chain self) (mc_blocks self) (mc_nullifiers self) (mc_accounts self) rng (mc_account_id_builder self)
    (mc_objects self) (mc_pending_objects self).
Definition put_id_builder (b : AccountIdBuilder R) (self : MockChain) : MockChain :=
  mkMockChain (mc_chain self) (mc_blocks self) (mc_nullifiers self) (mc_accounts self) (mc_rng self) b
    (mc_objects self) (mc_pending_objects self).

Definition insert_accounts (entries : list (Account * Word)) (accounts : SimpleSmt ACCOUNT_TREE_DEPTH)
    : SimpleSmt ACCOUNT_TREE_DEPTH :=
  foldl (fun t e => fst (SimpleSmt_insert t (as_int (felt_of_id (acc_id e.1))) (account_hash e.1))) accounts entries.
Definition insert_nullifiers (block_num : Z) (ns : list Digest) (nullifiers : Smt) : Smt :=
  foldl (fun t n => fst (Smt_insert t n (mkWord (Felt_new block_num) ZERO ZERO ZERO))) nullifiers ns.

(** The header of the next block. *)
Definition next_header {E} (self : MockChain) (block_num : Z) (notes : SimpleSmt NOTE_TREE_DEPTH) : res E BlockHeader :=
  let previous := last (mc_blocks self) in
  peaks ← expect_ok (Mmr_peaks (mc_chain self) (Mmr_forest (mc_chain self)));
  let prev_hash := from_option block_hash EMPTY_WORD previous in
  let timestamp := from_option (fun header => felt_add (timestamp header) TIMESTAMP_STEP) TIMESTAMP_START previous in
  Ok (block_header_new prev_hash block_num (hash_peaks peaks) (SimpleSmt_root (mc_accounts self))
        (Smt_root (mc_nullifiers self)) (SimpleSmt_root notes) EMPTY_WORD EMPTY_WORD ZERO timestamp).

Definition seal_block {E} : mut MockChain E BlockHeader :=
  self ← read_self;
  block_num ← lift (if decide (Z.of_nat (length (mc_blocks self)) < 2 ^ 32)
                    then Ok (Z.of_nat (length (mc_blocks self))) else Panic);
  _ ← write_self (put_accounts (insert_accounts (ob_accounts (mc_objects self))
                    (insert_accounts (ob_accounts (mc_pending_objects self)) (mc_accounts self))) self);
  self ← read_self;
  _ ← write_self (put_nullifiers (insert_nullifiers block_num (ob_nullifiers (mc_pending_objects self))
                    (mc_nullifiers self)) self);
  self ← read_self;
  notes ← lift (build_notes_tree (mc_pending_objects self));
  header ← lift (next_header self block_num notes);
  _ ← write_self (put_blocks (Mmr_add (mc_chain self) (block_hash header)) (mc_blocks self ++ [header]) self);
  _ ← on_field (fun s => (mc_objects s, mc_pending_objects s)) (fun o => put_objects o.1 o.2) (update_with header notes);
  mret header.

(** *** Adding notes, nullifiers and accounts *)

Definition check_nullifier_unknown {E} (self : MockChain) (nullifier : Digest) : res E unit :=
  _ ← assert_ (existsb (fun e => bool_decide (e = nullifier)) (ob_nullifiers (mc_pending_objects self)));
  assert_ (bool_decide (Smt_get_value (mc_nullifiers self) nullifier <> EMPTY_WORD)).

Definition add_note (note : Note) : mut MockChain MockError unit :=
  self ← read_self;
  let pending := mc_pending_objects self in
  if existsb (fun e => bool_decide (note_id e = note_id note)) (ob_notes pending)
  then lift (Err DuplicatedNote)
  else if existsb (fun e => bool_decide (in_id e = note_id note)) (ob_recorded_notes (mc_objects self))
  then lift (Err DuplicatedNote)
  else
    _ ← lift (check_nullifier_unknown self (nullifier_digest (note_nullifier note)));
    write_self (put_objects (mc_objects self)
      (mkObjects (ob_accounts pending) (ob_fungible_faucets pending) (ob_nonfungible_faucets pending)
         (ob_notes pending ++ [note]) (ob_recorded_notes pending) (ob_nullifiers pending)) self).

Definition add_nullifier (nullifier : Digest) : mut MockChain MockError unit :=
  self ← read_self;
  let pending := mc_pending_objects self in
  _ ← lift (check_nullifier_unknown self nullifier);
  write_self (put_objects (mc_objects self)
    (mkObjects (ob_accounts pending) (ob_fungible_faucets pending) (ob_nonfungible_faucets pending)
       (ob_notes pending) (ob_recorded_notes pending) (ob_nullifiers pending ++ [nullifier])) self).

Definition push_account {E} (account : Account) (seed : Word) : mut MockChain E unit :=
  self ← read_self;
  let pending := mc_pending_objects self in
  write_self (put_objects (mc_objects self)
    (mkObjects (ob_accounts pending ++ [(account, seed)]) (ob_fungible_faucets pending) (ob_nonfungible_faucets pending)
       (ob_notes pending) (ob_recorded_notes pending) (ob_nullifiers pending)) self).

Definition add_account {E} (account : Account) (seed : Word) : mut MockChain E unit :=
  self ← read_self;
  _ ← lift (assert_ (negb (existsb (fun e : Account * Word => bool_decide (acc_id e.1 = acc_id account))
                             (ob_accounts (mc_pending_objects self)))));
  push_account account seed.

(** The chain of blocks as a view with all of them. *)
Definition chain {E} (self : MockChain) : res E ChainMmr := mmr_to_chain_mmr (mc_chain self) (mc_blocks self).

Definition block_header {E} (self : MockChain) (block_number : nat) : res E BlockHeader :=
  expect (mc_blocks self !! block_number).
Definition fungible {E} (self : MockChain) (faucet_pos : nat) : res E AccountId :=
  res_map fst (expect (ob_fungible_faucets (mc_objects self) !! faucet_pos)).
Definition nonfungible {E} (self : MockChain) (faucet_pos : nat) : res E AccountId :=
  res_map fst (expect (ob_nonfungible_faucets (mc_objects self) !! faucet_pos)).
Definition account_seed {E} (self : MockChain) (pos : nat) : res E Word :=
  res_map snd (expect (ob_accounts (mc_objects self) !! pos)).

(** What is done through the reference [account_mut] gives. *)
Definition account_mut {E A} (pos : nat) (op : mut Account E A) : mut MockChain E A :=
  self ← read_self;
  let objects := mc_objects self in
  '(account, seed) ← lift (expect (ob_accounts objects !! pos));
  let '(account, r) := op account in
  _ ← write_self (put_objects
    (mkObjects (<[pos := (account, seed)]> (ob_accounts objects)) (ob_fungible_faucets objects)
       (ob_nonfungible_faucets objects) (ob_notes objects) (ob_recorded_notes objects) (ob_nullifiers objects))
    (mc_pending_objects self) self);
  lift r.

(** *** Building accounts, faucets and assets

    The searches for a seed have fuel. *)
Definition lift_search {E A} (o : option (res E A)) (s : MockChain) : option (MockChain * res E A) :=
  match o with Some r => Some (s, r) | None => None end.

(** What the builders of accounts end with. *)
Definition push_built (built : option (res AccountBuilderError Account)) (seed : Word) (self : MockChain)
    : option (MockChain * res Empty_set AccountId) :=
  match built with
  | None => None
  | Some built => Some ((account ← lift (expect_ok built); _ ← push_account account seed; mret (acc_id account)) self)
  end.

Definition account_type_of (immutable : Immutable) : AccountType :=
  match immutable with Yes => RegularAccountImmutableCode | No => RegularAccountUpdatableCode end.

Definition build_account (fuel : nat) (code : string) (storage : list SlotItem) (assets : list Asset)
    (immutable : Immutable) (storage_type : AccountStorageType) (self : MockChain)
    : option (MockChain * res Empty_set AccountId) :=
  let account_type := account_type_of immutable in
  match storage_build (E := Empty_set) (storage_add_items storage storage_builder_new) with
  | Ok storage =>
      let '(rng, details) := accountid_build_details fuel (mc_rng self) code account_type storage_type (storage_root storage) in
      let self := put_rng rng self in
      match details with
      | None => None
      | Some (Ok (seed, _)) =>
          let '(rng, account_rng) := from_rng (mc_rng self) in
          let self := put_rng rng self in
          push_built (account_rng ←? expect_ok account_rng;
             Some (account_with_seed_and_storage seed storage
               (builder_code code (builder_storage_type storage_type (builder_account_type account_type
                  (add_assets assets (account_builder_new account_rng))))))) seed self
      | Some _ => Some (self, Panic)
      end
  | _ => Some (self, Panic)
  end.

Definition build_account_with_seed (seed : Word) (code : string) (storage : list SlotItem) (assets : list Asset)
    (immutable : Immutable) (storage_type : AccountStorageType) (self : MockChain)
    : option (MockChain * res Empty_set AccountId) :=
  let account_type := account_type_of immutable in
  let '(rng, account_rng) := from_rng (mc_rng self) in
  let self := put_rng rng self in
  push_built (account_rng ←? expect_ok account_rng;
    Some (account_with_seed seed (builder_code code (builder_storage_type storage_type (builder_account_type account_type
      (add_assets assets (add_storage_items storage (account_builder_new account_rng)))))))) seed self.

(** The seed that is kept is that of the first search; the builder searches again. *)
Definition build_basic_wallet (fuel : nat) (self : MockChain) : option (MockChain * res Empty_set AccountId) :=
  let account_type := RegularAccountUpdatableCode in
  match storage_build (E := Empty_set) storage_builder_new with
  | Ok storage =>
      let '(rng, details) := accountid_build_details fuel (mc_rng self) DEFAULT_ACCOUNT_CODE account_type OnChain
        (storage_root storage) in
      let self := put_rng rng self in
      match details with
      | None => None
      | Some (Ok (seed, _)) =>
          let '(rng, account_rng) := from_rng (mc_rng self) in
          let self := put_rng rng self in
          push_built (account_rng ←? expect_ok account_rng;
            account_build fuel (builder_code DEFAULT_ACCOUNT_CODE (builder_storage_type OnChain
              (builder_account_type account_type (account_builder_new account_rng))))) seed self
      | Some _ => Some (self, Panic)
      end
  | _ => Some (self, Panic)
  end.

(** The configuration of the builder of faucet identifiers is kept. *)
Definition configure_faucet (account_type : AccountType) (storage_type : AccountStorageType) (code : string)
    (storage_root : Digest) (self : MockChain) : MockChain :=
  put_id_builder (id_storage_root storage_root (id_code code (id_storage_type storage_type
    (id_account_type account_type (mc_account_id_builder self))))) self.

Definition push_fungible {E} (faucet_id : AccountId) : mut MockChain E AccountId :=
  builder ← lift (expect_ok (fungible_builder_new faucet_id));
  self ← read_self;
  let pending := mc_pending_objects self in
  _ ← write_self (put_objects (mc_objects self)
    (mkObjects (ob_accounts pending) (ob_fungible_faucets pending ++ [(faucet_id, builder)])
       (ob_nonfungible_faucets pending) (ob_notes pending) (ob_recorded_notes pending) (ob_nullifiers pending)) self);
  mret faucet_id.

Definition push_nonfungible {E} (faucet_id : AccountId) : mut MockChain E AccountId :=
  self ← read_self;
  let '(rng, builder_rng) := from_rng (mc_rng self) in
  _ ← write_self (put_rng rng self);
  builder_rng ← lift (expect_ok builder_rng);
  builder ← lift (expect_ok (non_fungible_builder_new faucet_id builder_rng));
  self ← read_self;
  let pending := mc_pending_objects self in
  _ ← write_self (put_objects (mc_objects self)
    (mkObjects (ob_accounts pending) (ob_fungible_faucets pending)
       (ob_nonfungible_faucets pending ++ [(faucet_id, builder)]) (ob_notes pending) (ob_recorded_notes pending)
       (ob_nullifiers pending)) self);
  mret faucet_id.

(** The identifier of a faucet, searched for or made from a seed. *)
Definition build_id (fuel : nat) (self : MockChain) : option (MockChain * res Empty_set AccountId) :=
  let '(b, built) := id_build fuel (mc_account_id_builder self) in
  lift_search ((fun r => expect_ok r) <$> built) (put_id_builder b self).

Definition build_fungible_faucet (fuel : nat) (storage_type : AccountStorageType) (code : string) (storage_root : Digest)
    (self : MockChain) : option (MockChain * res Empty_set AccountId) :=
  '(self, id) ← build_id fuel (configure_faucet FungibleFaucet storage_type code storage_root self);
  Some ((faucet_id ← lift id; push_fungible faucet_id) self).

Definition build_fungible_faucet_with_seed (seed : Word) (storage_type : AccountStorageType) (code : string)
    (storage_root : Digest) : mut MockChain Empty_set AccountId :=
  self ← read_self;
  let self := configure_faucet FungibleFaucet storage_type code storage_root self in
  _ ← write_self self;
  faucet_id ← lift (expect_ok (id_with_seed seed (mc_account_id_builder self)));
  push_fungible faucet_id.

Definition build_nonfungible_faucet (fuel : nat) (storage_type : AccountStorageType) (code : string) (storage_root : Digest)
    (self : MockChain) : option (MockChain * res Empty_set AccountId) :=
  '(self, id) ← build_id fuel (configure_faucet NonFungibleFaucet storage_type code storage_root self);
  Some ((faucet_id ← lift id; push_nonfungible faucet_id) self).

Definition build_nonfungible_faucet_with_seed (seed : Word) (storage_type : AccountStorageType) (code : string)
    (storage_root : Digest) : mut MockChain Empty_set AccountId :=
  self ← read_self;
  let self := configure_faucet NonFungibleFaucet storage_type code storage_root self in
  _ ← write_self self;
  faucet_id ← lift (expect_ok (id_with_seed seed (mc_account_id_builder self)));
  push_nonfungible faucet_id.

(** The builder of the faucet keeps the amount. *)
Definition build_fungible_asset {E} (faucet_pos : nat) (amount : Z) : mut MockChain E Asset :=
  self ← read_self;
  let objects := mc_objects self in
  '(id, builder) ← lift (expect (ob_fungible_faucets objects !! faucet_pos));
  let '(builder, r) := fungible_builder_amount amount builder in
  _ ← write_self (put_objects
    (mkObjects (ob_accounts objects) (<[faucet_pos := (id, builder)]> (ob_fungible_faucets objects))
       (ob_nonfungible_faucets objects) (ob_notes objects) (ob_recorded_notes objects) (ob_nullifiers objects))
    (mc_pending_objects self) self);
  _ ← lift (expect_ok r);
  lift (res_map Fungible (expect_ok (fungible_build builder))).

Definition build_nonfungible_asset {E} (faucet_pos : nat) : mut MockChain E Asset :=
  self ← read_self;
  let objects := mc_objects self in
  '(id, builder) ← lift (expect (ob_nonfungible_faucets objects !! faucet_pos));
  let '(builder, r) := non_fungible_build builder in
  _ ← write_self (put_objects
    (mkObjects (ob_accounts objects) (ob_fungible_faucets objects)
       (<[faucet_pos := (id, builder)]> (ob_nonfungible_faucets objects)) (ob_notes objects) (ob_recorded_notes objects)
       (ob_nullifiers objects))
    (mc_pending_objects self) self);
  lift (res_map NonFungible (expect_ok r)).
End chain.

(** ** Specification *)

Section spec.
Context `{F : Field} {C : Crypto} {MK : Merkle} {AS : Assembly} {P : Programs} {FE : Features} {D : Display} {B : Build}
  {L : Linker} {ML : MidenLib} {FM : FullMmr} {R : Type} {RG : Rng R}.
Abbreviation Chain := (MockChain (R := R)).

(** What a test can do with a chain, as long as nothing panics. *)
Inductive mock_step (s s' : Chain) : Prop :=
| step_seal (h : BlockHeader) : seal_block (E := Empty_set) s = (s', Ok h) -> mock_step s s'
| step_note (n : Note) (r : res MockError unit) : add_note n s = (s', r) -> r <> Panic -> mock_step s s'
| step_nullifier (d : Digest) (r : res MockError unit) : add_nullifier d s = (s', r) -> r <> Panic -> mock_step s s'
| step_account (a : Account) (seed : Word) : add_account (E := Empty_set) a seed s = (s', Ok tt) -> mock_step s s'
| step_account_mut (A E : Type) (pos : nat) (op : mut Account E A) (r : res E A) :
    account_mut pos op s = (s', r) -> r <> Panic -> mock_step s s'
| step_build_account fuel code items assets im st id :
    build_account fuel code items assets im st s = Some (s', Ok id) -> mock_step s s'
| step_build_seeded seed code items assets im st id :
    build_account_with_seed seed code items assets im st s = Some (s', Ok id) -> mock_step s s'
| step_build_wallet fuel id : build_basic_wallet fuel s = Some (s', Ok id) -> mock_step s s'
| step_fungible_faucet fuel st code root id : build_fungible_faucet fuel st code root s = Some (s', Ok id) -> mock_step s s'
| step_fungible_seeded seed st code root id : build_fungible_faucet_with_seed seed st code root s = (s', Ok id) -> mock_step s s'
| step_nonfungible_faucet fuel st code root id :
    build_nonfungible_faucet fuel st code root s = Some (s', Ok id) -> mock_step s s'
| step_nonfungible_seeded seed st code root id :
    build_nonfungible_faucet_with_seed seed st code root s = (s', Ok id) -> mock_step s s'
| step_fungible_asset pos amount a : build_fungible_asset (E := Empty_set) pos amount s = (s', Ok a) -> mock_step s s'
| step_nonfungible_asset pos a : build_nonfungible_asset (E := Empty_set) pos s = (s', Ok a) -> mock_step s s'.

Definition mock_reachable (rng : R) (s : Chain) : Prop :=
  exists s0, mock_chain_new (E := Empty_set) rng = Ok s0 /\ rtc mock_step s0 s.

(** Each header links to the one before it and commits to the range of the headers
    before it. *)
Definition blocks_linked (mmr : Mmr) (blocks : list BlockHeader) : Prop :=
  forall i h, blocks !! i = Some h -> header_consistent h /\ block_num h = Z.of_nat i /\
    Mmr_get mmr (Z.of_nat i) = Ok (block_hash h) /\
    (exists p, Mmr_peaks mmr (Z.of_nat i) = Ok p /\ chain_root h = hash_peaks p) /\
    match i with
    | O => prev_hash h = EMPTY_WORD /\ timestamp h = TIMESTAMP_START
    | S j => exists g, blocks !! j = Some g /\ prev_hash h = block_hash g /\ timestamp h = felt_add (timestamp g) TIMESTAMP_STEP
    end.

(** No note and no nullifier is in the chain or waits for a block. *)
Definition no_notes (s : Chain) : Prop :=
  ob_notes (mc_pending_objects s) = [] /\ ob_nullifiers (mc_pending_objects s) = [] /\
  ob_recorded_notes (mc_objects s) = [] /\ forall k, Smt_get_value (mc_nullifiers s) k = EMPTY_WORD.

(** What operations other than those of blocks, notes and nullifiers leave alone. *)
Definition same_notes (o o' : Objects (R := R)) : Prop :=
  ob_notes o' = ob_notes o /\ ob_recorded_notes o' = ob_recorded_notes o /\ ob_nullifiers o' = ob_nullifiers o.

(** An account and its seed wait for the next block. *)
Definition account_pushed (s s' : Chain) (a : Account) (seed : Word) : Prop :=
  ob_accounts (mc_pending_objects s') = ob_accounts (mc_pending_objects s) ++ [(a, seed)].
Definition frames (s s' : Chain) : Prop :=
  mc_chain s' = mc_chain s /\ mc_blocks s' = mc_blocks s /\ mc_nullifiers s' = mc_nullifiers s /\
  mc_accounts s' = mc_accounts s /\ same_notes (mc_objects s) (mc_objects s') /\
  same_notes (mc_pending_objects s) (mc_pending_objects s').
End spec.

(** ** Lemmas *)

Section lemmas.
Context `{F : Field} {FL : FieldLaws F} {C : Crypto} {SML : SmtLaws C} {SSL : SimpleSmtLaws C} {MK : Merkle} {ML : MerkleLaws MK}
  {AS : Assembly} {P : Programs} {FE : Features} {D : Display} {B : Build} {L : Linker} {MLB : MidenLib}
  {FM : FullMmr} {FML : FullMmrLaws FM} {R : Type} {RG : Rng R}.
Abbreviation Chain := (MockChain (R := R)).
Implicit Types s : Chain.

#[export] Instance frames_preorder : PreOrder (frames (R := R)).
Proof.
  split.
  - intros s. done.
  - unfold frames, same_notes. intros s t u H H'. intuition congruence.
Qed.

(** Runs of the operations that build objects: the last write is a frame. *)
Lemma push_account_frames {E} a seed s : frames s (push_account (E := E) a seed s).1.
Proof. done. Qed.

Lemma push_fungible_frames {E} id s : frames s (push_fungible (E := E) id s).1.
Proof. unfold push_fungible. run_mut. by destruct (expect_ok (fungible_builder_new id)). Qed.

Lemma push_nonfungible_frames {E} id s : frames s (push_nonfungible (E := E) id s).1.
Proof.
  unfold push_nonfungible. run_mut. destruct (from_rng (mc_rng s)) as [rng r].
  destruct (expect_ok r) as [g| |]; [|done|done]. by destruct (expect_ok (non_fungible_builder_new id g)).
Qed.

Lemma push_built_frames built seed s s' r : push_built built seed s = Some (s', r) -> frames s s'.
Proof.
  unfold push_built. destruct built as [b|]; [|done]. intros H. apply Some_inj in H. revert H. run_mut.
  destruct (expect_ok b); by intros [= <- _].
Qed.

Lemma build_id_frames fuel s s' r : build_id fuel s = Some (s', r) -> frames s s'.
Proof. unfold build_id. destruct (id_build _ _) as [b [o|]]; cbn; [|done]. by intros [= <- _]. Qed.

Lemma build_account_frames fuel code items assets im st s s' r :
  build_account fuel code items assets im st s = Some (s', r) -> frames s s'.
Proof.
  unfold build_account. destruct (storage_build _) as [storage| |]; [|by intros [= <- _]..].
  destruct (accountid_build_details _ _ _ _ _ _) as [rng [[[seed root]| |]|]]; [|by intros [= <- _]..|done].
  destruct (from_rng _) as [rng' g]. intros H%push_built_frames. exact H.
Qed.

Lemma build_seeded_frames seed code items assets im st s s' r :
  build_account_with_seed seed code items assets im st s = Some (s', r) -> frames s s'.
Proof. unfold build_account_with_seed. destruct (from_rng _) as [rng' g]. intros H%push_built_frames. exact H. Qed.

Lemma build_wallet_frames fuel s s' r : build_basic_wallet fuel s = Some (s', r) -> frames s s'.
Proof.
  unfold build_basic_wallet. destruct (storage_build _) as [storage| |]; [|by intros [= <- _]..].
  destruct (accountid_build_details _ _ _ _ _ _) as [rng [[[seed root]| |]|]]; [|by intros [= <- _]..|done].
  destruct (from_rng _) as [rng' g]. intros H%push_built_frames. exact H.
Qed.

(** A faucet: the builder is configured, an identifier made, the faucet pushed. *)
Lemma faucet_frames (push : AccountId -> mut Chain Empty_set AccountId) id s s' (r : res Empty_set AccountId) :
  (forall id s, frames s (push id s).1) -> (faucet_id ← lift id; push faucet_id) s = (s', r) -> frames s s'.
Proof.
  intros Hpush H. replace s' with ((faucet_id ← lift id; push faucet_id) s).1 by by rewrite H.
  destruct id as [id| |]; [apply Hpush|done|done].
Qed.

Lemma build_faucet_frames (push : AccountId -> mut Chain Empty_set AccountId) fuel t st code root s s' r :
  (forall id s, frames s (push id s).1) ->
  ('(self, id) ← build_id fuel (configure_faucet t st code root s); Some ((faucet_id ← lift id; push faucet_id) self)) =
    Some (s', r) -> frames s s'.
Proof.
  intros Hpush. destruct (build_id _ _) as [[u id]|] eqn:Hid; [|done]. cbn. intros [= H].
  etrans; [|exact (faucet_frames push id u s' r Hpush H)]. apply build_id_frames in Hid. exact Hid.
Qed.

Lemma build_fungible_asset_frames {E} pos amount s : frames s (build_fungible_asset (E := E) pos amount s).1.
Proof.
  unfold build_fungible_asset. run_mut. destruct (ob_fungible_faucets _ !! pos) as [[id b]|]; [|done]. cbn [expect].
  destruct (fungible_builder_amount amount b) as [b' r]. by destruct (expect_ok r) as [u| |].
Qed.

Lemma build_nonfungible_asset_frames {E} pos s : frames s (build_nonfungible_asset (E := E) pos s).1.
Proof.
  unfold build_nonfungible_asset. run_mut. destruct (ob_nonfungible_faucets _ !! pos) as [[id b]|]; [|done]. cbn [expect].
  by destruct (non_fungible_build b) as [b' r].
Qed.

Lemma account_mut_frames {A E} pos (op : mut Account E A) s : frames s (account_mut pos op s).1.
Proof.
  unfold account_mut. run_mut. destruct (ob_accounts _ !! pos) as [[a seed]|]; [|done]. cbn [expect].
  by destruct (op a) as [a' r].
Qed.

Lemma add_account_frames {E} a seed s : frames s (add_account (E := E) a seed s).1.
Proof. unfold add_account. run_mut. by destruct (assert_ _) as [u| |]. Qed.

(** A step frames the chain, unless it seals a block or adds a note or a nullifier. *)
Lemma mock_step_cases s s' : mock_step s s' -> frames s s' \/ (exists h, seal_block (E := Empty_set) s = (s', Ok h)) \/
  (exists n r, add_note n s = (s', r) /\ r <> Panic) \/ (exists d r, add_nullifier d s = (s', r) /\ r <> Panic).
Proof.
  intros H. destruct H as [h H|n r H ?|d r H ?|a seed H|A E pos op r H _|fuel code items assets im st id H
    |seed code items assets im st id H|fuel id H|fuel st code root id H|seed st code root id H|fuel st code root id H
    |seed st code root id H|pos amount a H|pos a H].
  - right; left. by exists h.
  - right; right; left. by exists n, r.
  - right; right; right. by exists d, r.
  - left. pose proof (add_account_frames (E := Empty_set) a seed s) as Hf. by rewrite H in Hf.
  - left. pose proof (account_mut_frames pos op s) as Hf. by rewrite H in Hf.
  - left. by eapply build_account_frames.
  - left. by eapply build_seeded_frames.
  - left. by eapply build_wallet_frames.
  - left. eapply (build_faucet_frames push_fungible); [apply push_fungible_frames|exact H].
  - left. exact (faucet_frames push_fungible _ (configure_faucet FungibleFaucet st code root s) s' (Ok id) push_fungible_frames H).
  - left. eapply (build_faucet_frames push_nonfungible); [apply push_nonfungible_frames|exact H].
  - left. exact (faucet_frames push_nonfungible _ (configure_faucet NonFungibleFaucet st code root s) s' (Ok id) push_nonfungible_frames H).
  - left. pose proof (build_fungible_asset_frames (E := Empty_set) pos amount s) as Hf. by rewrite H in Hf.
  - left. pose proof (build_nonfungible_asset_frames (E := Empty_set) pos s) as Hf. by rewrite H in Hf.
Qed.

(** ** Accounts *)

Lemma push_built_ok built seed s s' id : push_built built seed s = Some (s', Ok id) ->
  exists a, built = Some (Ok a) /\ acc_id a = id /\ account_pushed s s' a seed.
Proof.
  unfold push_built. destruct built as [b|]; [|done]. intros H. apply Some_inj in H. revert H. run_mut.
  destruct b as [a| |]; cbn [expect_ok]; [|done|done]. intros [= <- <-]. by exists a.
Qed.

Lemma from_rng_try {E A} (g : res RngError R) (k : R -> res E A) (x : A) :
  (account_rng ←? expect_ok g; Some (k account_rng)) = Some (Ok x) -> exists g', g = Ok g' /\ k g' = Ok x.
Proof. destruct g as [g'| |]; cbn; [|done|done]. intros [= H]. by exists g'. Qed.

Lemma build_account_seeded fuel code items assets im st s s' id :
  build_account fuel code items assets im st s = Some (s', Ok id) ->
  exists a seed, account_pushed s s' a seed /\ acc_id a = id /\ seeded_account (account_type_of im) st a seed.
Proof.
  unfold build_account. destruct (storage_build _) as [storage| |]; [|done|done].
  destruct (accountid_build_details _ _ _ _ _ _) as [rng [[[seed root]| |]|]]; [|done|done|done].
  cbn [put_rng mc_rng]. destruct (from_rng _) as [rng' g].
  intros (a & (g' & _ & Ha)%from_rng_try & Hid & Hp)%push_built_ok. exists a, seed. split; [exact Hp|]. split; [done|].
  apply account_with_seed_and_storage_ok in Ha; [exact Ha|]. exact (add_assets_nonce _ _).
Qed.

Lemma build_with_seed_seeded seed code items assets im st s s' id :
  build_account_with_seed seed code items assets im st s = Some (s', Ok id) ->
  exists a, account_pushed s s' a seed /\ acc_id a = id /\ seeded_account (account_type_of im) st a seed.
Proof.
  unfold build_account_with_seed. destruct (from_rng _) as [rng' g].
  intros (a & (g' & _ & Ha)%from_rng_try & Hid & Hp)%push_built_ok. exists a. split; [exact Hp|]. split; [done|].
  apply account_with_seed_ok in Ha; [exact Ha|]. exact (add_assets_nonce _ _).
Qed.

(** ** Notes and nullifiers *)

Lemma check_nullifier_panics {E} s d : no_notes s -> check_nullifier_unknown (E := E) s d = Panic.
Proof. intros (_ & Hn & _). unfold check_nullifier_unknown. by rewrite Hn. Qed.

Lemma add_note_panics s n : no_notes s -> add_note n s = (s, Panic).
Proof.
  intros Hs. pose proof Hs as (Hn & _ & Hr & _). unfold add_note. run_mut. rewrite Hn, Hr. cbn [existsb].
  by rewrite check_nullifier_panics.
Qed.

Lemma add_nullifier_panics s d : no_notes s -> add_nullifier d s = (s, Panic).
Proof. intros Hs. unfold add_nullifier. run_mut. by rewrite check_nullifier_panics. Qed.

Lemma no_notes_frames s s' : frames s s' -> no_notes s -> no_notes s'.
Proof. intros (_ & _ & Hn & _ & (_ & Hr & _) & (Hp & _ & Hd)). unfold no_notes. by rewrite Hn, Hr, Hp, Hd. Qed.

(** ** Sealing *)

(** The objects after a block is sealed without notes. *)
Definition committed (s : Chain) : Objects :=
  let self := mc_objects s in let pending := mc_pending_objects s in
  mkObjects (ob_accounts self ++ ob_accounts pending) (ob_fungible_faucets self ++ ob_fungible_faucets pending)
    (ob_nonfungible_faucets self ++ ob_nonfungible_faucets pending) (ob_notes self) [] (ob_nullifiers self).

(** The committed accounts are inserted after the pending ones. *)
Definition sealed_accounts (s : Chain) : SimpleSmt ACCOUNT_TREE_DEPTH :=
  insert_accounts (ob_accounts (mc_objects s)) (insert_accounts (ob_accounts (mc_pending_objects s)) (mc_accounts s)).

Lemma seal_block_ok s : no_notes s -> Z.of_nat (length (mc_blocks s)) < 2 ^ 32 ->
  exists (t : SimpleSmt NOTE_TREE_DEPTH) p h, SimpleSmt_with_leaves NOTE_TREE_DEPTH [] = Ok t /\
    Mmr_peaks (mc_chain s) (Mmr_forest (mc_chain s)) = Ok p /\
    h = block_header_new (from_option block_hash EMPTY_WORD (last (mc_blocks s))) (Z.of_nat (length (mc_blocks s)))
      (hash_peaks p) (SimpleSmt_root (sealed_accounts s)) (Smt_root (mc_nullifiers s)) (SimpleSmt_root t)
      EMPTY_WORD EMPTY_WORD ZERO
      (from_option (fun g => felt_add (timestamp g) TIMESTAMP_STEP) TIMESTAMP_START (last (mc_blocks s))) /\
    seal_block (E := Empty_set) s =
      (mkMockChain (Mmr_add (mc_chain s) (block_hash h)) (mc_blocks s ++ [h]) (mc_nullifiers s) (sealed_accounts s)
         (mc_rng s) (mc_account_id_builder s) (committed s) (mkObjects [] [] [] [] (ob_recorded_notes (mc_pending_objects s)) []),
       Ok h).
Proof.
  intros (Hn & Hd & Hr & _) Hlen. destruct (SimpleSmt_with_leaves_ok NOTE_TREE_DEPTH []) as (t & Ht & _); [constructor..|].
  destruct s as [ch blocks nul accs rng idb [oa ofu onf on orn onu] [pa pfu pnf pn prn pnu]].
  cbn [mc_pending_objects mc_objects mc_blocks mc_chain ob_notes ob_nullifiers ob_recorded_notes] in *. subst pn pnu orn.
  destruct (Mmr_peaks_ok ch) as (p & Hp & _). exists t, p. eexists. do 2 (split; [done|]). split; [reflexivity|].
  unfold seal_block, build_notes_tree, next_header, update_with, finalize_notes. run_mut.
  cbn [mc_blocks mc_chain mc_pending_objects put_accounts put_nullifiers ob_notes enumerate imap map app].
  rewrite decide_True, Ht by done. cbn [expect_ok]. rewrite Hp. reflexivity.
Qed.

Lemma seal_block_full s : 2 ^ 32 <= Z.of_nat (length (mc_blocks s)) -> seal_block (E := Empty_set) s = (s, Panic).
Proof. intros Hlen. unfold seal_block. run_mut. by rewrite decide_False by lia. Qed.

Lemma blocks_linked_snoc mmr blocks h : Mmr_forest mmr = Z.of_nat (length blocks) -> blocks_linked mmr blocks ->
  header_consistent h -> block_num h = Z.of_nat (length blocks) ->
  (exists p, Mmr_peaks mmr (Mmr_forest mmr) = Ok p /\ chain_root h = hash_peaks p) ->
  prev_hash h = from_option block_hash EMPTY_WORD (last blocks) ->
  timestamp h = from_option (fun g => felt_add (timestamp g) TIMESTAMP_STEP) TIMESTAMP_START (last blocks) ->
  blocks_linked (Mmr_add mmr (block_hash h)) (blocks ++ [h]).
Proof.
  intros Hf Hold Hc Hnum (p & Hp & Hroot) Hprev Htime i g Hi.
  destruct (decide (i < length blocks)%nat) as [Hlt|Hge].
  - rewrite lookup_app_l in Hi by done. destruct (Hold i g Hi) as (Hgc & Hgn & Hget & (q & Hq & Hqr) & Hlink).
    split; [done|]. split; [done|]. split; [rewrite Mmr_get_add by lia; by rewrite decide_False by lia|]. split.
    { exists q. by rewrite Mmr_peaks_add by lia. }
    destruct i as [|j]; [done|]. destruct Hlink as (g' & Hg' & Hrest). exists g'. split; [|done].
    by apply lookup_app_l_Some.
  - apply lookup_lt_Some in Hi as Hlen. rewrite length_app in Hlen. cbn in Hlen.
    replace i with (length blocks) in * by lia. rewrite list_lookup_middle in Hi by done. injection Hi as <-.
    split; [done|]. split; [done|]. split; [rewrite Mmr_get_add by lia; by rewrite decide_True by lia|]. split.
    { exists p. by rewrite Mmr_peaks_add, <- Hf by lia. }
    destruct blocks as [|b blocks' _] using rev_ind; [done|]. rewrite last_snoc in Hprev, Htime.
    rewrite length_app. cbn. rewrite Nat.add_1_r. exists b. split; [|done].
    rewrite <- app_assoc. by apply list_lookup_middle.
Qed.

(** ** The invariant of reachable chains *)

(** The roots of a block without notes and nullifiers. *)
Definition block_empty (h : BlockHeader) : Prop :=
  nullifier_root h = Smt_root Smt_new /\
  exists t : SimpleSmt NOTE_TREE_DEPTH, SimpleSmt_with_leaves NOTE_TREE_DEPTH [] = Ok t /\ note_root h = SimpleSmt_root t.

Definition chain_inv (s : Chain) : Prop :=
  Mmr_forest (mc_chain s) = Z.of_nat (length (mc_blocks s)) /\ blocks_linked (mc_chain s) (mc_blocks s) /\
  Forall block_empty (mc_blocks s) /\ no_notes s.

Lemma chain_inv_new rng s : mock_chain_new (E := Empty_set) rng = Ok s -> chain_inv s.
Proof.
  unfold mock_chain_new. destruct (from_rng rng) as [rng' r]. intros H. inv_res.
  split; [apply Mmr_forest_default|]. split; [by intros i h Hi|]. split; [constructor|].
  do 3 (split; [done|]). intros k. apply Smt_get_new.
Qed.

Lemma chain_inv_frames s s' : frames s s' -> chain_inv s -> chain_inv s'.
Proof.
  intros Hf (Hlen & Hl & He & Hn). pose proof (no_notes_frames _ _ Hf Hn) as Hn'.
  destruct Hf as (Hc & Hb & _). unfold chain_inv. by rewrite Hc, Hb.
Qed.

Lemma chain_inv_seal s s' h : chain_inv s -> seal_block (E := Empty_set) s = (s', Ok h) -> chain_inv s' /\
  mc_blocks s' = mc_blocks s ++ [h] /\ block_num h = Z.of_nat (length (mc_blocks s)) /\
  (exists p, Mmr_peaks (mc_chain s) (Mmr_forest (mc_chain s)) = Ok p /\ chain_root h = hash_peaks p) /\
  mc_accounts s' = sealed_accounts s /\ account_root h = SimpleSmt_root (sealed_accounts s).
Proof.
  intros (Hf & Hl & He & Hn) Hseal. destruct (decide (Z.of_nat (length (mc_blocks s)) < 2 ^ 32)) as [Hlen|Hlen];
    [|by rewrite seal_block_full in Hseal by lia].
  destruct (seal_block_ok s Hn Hlen) as (t & p & g & Ht & Hp & Hg & Hs). rewrite Hseal in Hs. injection Hs as -> ->.
  rename g into h. cbn [mc_blocks mc_accounts].
  assert (Hc : header_consistent h) by (rewrite Hg; apply block_header_new_consistent; lia).
  split; [|split; [done|]; split; [by rewrite Hg|]; split; [exists p; by rewrite Hg|]; split; [done|by rewrite Hg]].
  split; [cbn; rewrite Mmr_forest_add, length_app; cbn; lia|]. split; [|split].
  - cbn [mc_chain mc_blocks]. apply blocks_linked_snoc; [done|done|done|by rewrite Hg|exists p; by rewrite Hg|by rewrite Hg..].
  - cbn [mc_blocks]. apply Forall_app. split; [done|]. constructor; [|done]. split; [|exists t; by rewrite Hg].
    rewrite Hg. cbn. apply Smt_root_ext. intros k. rewrite Smt_get_new. apply Hn.
  - do 3 (split; [done|]). apply Hn.
Qed.

Lemma chain_inv_step s s' : mock_step s s' -> chain_inv s -> chain_inv s'.
Proof.
  intros [Hf|[[h Hh]|[(n & r & Hn & Hr)|(d & r & Hd & Hr)]]]%mock_step_cases Hinv.
  - by apply (chain_inv_frames s).
  - by apply (chain_inv_seal s s' h).
  - exfalso. rewrite add_note_panics in Hn by apply Hinv. apply Hr. by injection Hn.
  - exfalso. rewrite add_nullifier_panics in Hd by apply Hinv. apply Hr. by injection Hd.
Qed.

Lemma chain_inv_reachable rng s : mock_reachable rng s -> chain_inv s.
Proof.
  intros (s0 & Hs0%chain_inv_new & Hsteps). induction Hsteps as [|s t u Hst _ IH]; [done|].
  apply IH. by apply (chain_inv_step s).
Qed.

Lemma chain_inv_chain s : chain_inv s -> chain_of (mc_chain s) (mc_blocks s).
Proof. intros (Hf & Hl & _). split; [done|]. intros i h Hi. by apply Hl. Qed.

(** What the account tree holds after several insertions: the last one counts. *)
Lemma insert_accounts_get (es : list (Account * Word)) t k : 0 <= k < 2 ^ ACCOUNT_TREE_DEPTH ->
  SimpleSmt_get (insert_accounts es t) k =
  from_option (fun e : Account * Word => account_hash e.1) (SimpleSmt_get t k)
    (last (filter (fun e : Account * Word => as_int (felt_of_id (acc_id e.1)) = k) es)).
Proof.
  intros Hk. unfold insert_accounts. induction es as [|e es IH] using rev_ind; [done|].
  rewrite foldl_snoc, filter_app. cbn [filter list_filter]. pose proof (as_int_range (felt_of_id (acc_id e.1))).
  rewrite SimpleSmt_get_insert by (unfold MODULUS, ACCOUNT_TREE_DEPTH in *; lia).
  case_decide as He; [by rewrite last_snoc|]. by rewrite app_nil_r.
Qed.
End lemmas.

(** ** Properties *)

Section properties.
Context `{F : Field} {FL : FieldLaws F} {C : Crypto} {SML : SmtLaws C} {SSL : SimpleSmtLaws C} {MK : Merkle} {ML : MerkleLaws MK}
  {AS : Assembly} {P : Programs} {FE : Features} {D : Display} {B : Build} {IO : ByteIO} {L : Linker} {MLB : MidenLib}
  {FM : FullMmr} {FML : FullMmrLaws FM} {R : Type} {RG : Rng R}.
Abbreviation Chain := (MockChain (R := R)).

(** C26: the chain a test runs against is a chain, whatever the test does with it: each
    header links to the one before it and commits to the headers before it, and all
    of them make a view of the chain. The next block is sealed, unless there are
    2^32 of them, and a view taken before it is sealed is accepted with its header;
    a view taken after it is not. *)
Theorem mock_chain_linked (rng : R) (s : Chain) (Hs : mock_reachable rng s) :
  blocks_linked (mc_chain s) (mc_blocks s) /\
  exists c, chain (E := Empty_set) s = Ok c /\ chain_wf c /\
    (forall num h, get_block c num = Some h <-> 0 <= num /\ mc_blocks s !! Z.to_nat num = Some h) /\
    (2 ^ 32 <= Z.of_nat (length (mc_blocks s)) -> seal_block (E := Empty_set) s = (s, Panic)) /\
    (Z.of_nat (length (mc_blocks s)) < 2 ^ 32 -> exists s' h, seal_block (E := Empty_set) s = (s', Ok h) /\
       mc_blocks s' = mc_blocks s ++ [h] /\
       forall a seed (ns : InputNotes InputNote), is_notes ns = [] ->
         (transaction_inputs_new a seed h c ns = Ok (mkTransactionInputs a seed h c ns) <-> seed_accepted a seed) /\
         forall c' ti, chain (E := Empty_set) s' = Ok c' -> transaction_inputs_new a seed h c' ns <> Ok ti).
Proof.
  apply chain_inv_reachable in Hs. split; [apply Hs|].
  destruct (chain_view (E := Empty_set) _ _ (chain_inv_chain s Hs)) as (c & Hc & Hwf & Hcl & Hp & Hget).
  exists c. split; [done|]. split; [done|]. split; [done|]. split; [apply seal_block_full|]. intros Hlen.
  destruct (seal_block_ok s (proj2 (proj2 (proj2 Hs))) Hlen) as (t & p & h & _ & _ & _ & Hseal). eexists _, h.
  split; [exact Hseal|]. destruct (chain_inv_seal _ _ _ Hs Hseal) as (Hs' & Hb & Hnum & (p' & Hp' & Hroot) & _).
  split; [done|]. intros a seed ns Hns. rewrite Hp in Hp'. injection Hp' as <-. split.
  - rewrite transaction_inputs_new_ok, Hns, Hcl, Hnum, Hroot. split; [tauto|]. by intros.
  - intros c' ti Hc' (_ & _ & Hcl' & _)%transaction_inputs_new_ok.
    destruct (chain_view (E := Empty_set) _ _ (chain_inv_chain _ Hs')) as (c2 & Hc2 & _ & Hcl2 & _).
    unfold chain in Hc'. rewrite Hc2 in Hc'. injection Hc' as <-. rewrite Hcl2, Hb, length_app, Hnum in Hcl'. cbn in Hcl'. lia.
Qed.

(** C40: the check for unknown nullifiers asserts the opposite of what it is for: in no
    chain a test can make is there a note or a nullifier, adding one panics, and
    every block has the roots of the empty trees. *)
Theorem mock_chain_takes_no_notes (rng : R) (s : Chain) (Hs : mock_reachable rng s) :
  (forall n, add_note n s = (s, Panic)) /\ (forall d, add_nullifier d s = (s, Panic)) /\
  ob_recorded_notes (mc_objects s) = [] /\ Forall block_empty (mc_blocks s).
Proof.
  apply chain_inv_reachable in Hs as (_ & _ & He & Hn). split; [intros n; by apply add_note_panics|].
  split; [intros d; by apply add_nullifier_panics|]. split; [apply Hn|done].
Qed.

(** The tree of accounts after a block is sealed: the account of an identifier is the
    last committed one, and a pending one only if none was committed before. So a
    new state of a committed account is missing from the block it is sealed in. *)
Theorem mock_chain_account_root (rng : R) (s s' : Chain) (h : BlockHeader) (Hs : mock_reachable rng s)
    (Hseal : seal_block (E := Empty_set) s = (s', Ok h)) :
  account_root h = SimpleSmt_root (mc_accounts s') /\
  forall id, let with_id (es : list (Account * Word)) := filter (fun e : Account * Word => acc_id e.1 = id) es in
    SimpleSmt_get (mc_accounts s') (as_int (felt_of_id id)) =
    match last (with_id (ob_accounts (mc_objects s))), last (with_id (ob_accounts (mc_pending_objects s))) with
    | Some e, _ => account_hash e.1
    | None, Some e => account_hash e.1
    | None, None => SimpleSmt_get (mc_accounts s) (as_int (felt_of_id id))
    end.
Proof.
  apply chain_inv_reachable in Hs. destruct (chain_inv_seal s s' h Hs Hseal) as (_ & _ & _ & _ & Ha & Hroot).
  rewrite Ha. split; [done|]. intros id. cbv zeta. unfold sealed_accounts.
  pose proof (as_int_range (felt_of_id id)). rewrite !insert_accounts_get by (unfold MODULUS, ACCOUNT_TREE_DEPTH in *; lia).
  assert (Hsame : forall es : list (Account * Word),
    filter (fun e : Account * Word => as_int (felt_of_id (acc_id e.1)) = as_int (felt_of_id id)) es =
    filter (fun e : Account * Word => acc_id e.1 = id) es).
  { intros es. apply list_filter_iff. intros e. rewrite <- felt_eq_iff. unfold felt_of_id.
    destruct (acc_id e.1), id. cbn. split; [by intros ->|by intros [= ->]]. }
  rewrite !Hsame. by destruct (last (filter _ (ob_accounts (mc_objects s)))), (last (filter _ (ob_accounts (mc_pending_objects s)))).
Qed.

(** The accounts the chain builds are the accounts of the seeds kept with them: new, of
    the requested kind, and their seeds are accepted. The basic wallet is the
    exception: it is built from the seed of another search, which starts from other
    bytes, and the seed kept with it is accepted only if it gives the same
    identifier. *)
Theorem mock_accounts_seeded (s s' : Chain) (id : AccountId) :
  (forall fuel code items assets im st, build_account fuel code items assets im st s = Some (s', Ok id) ->
     exists a seed, account_pushed s s' a seed /\ acc_id a = id /\ seeded_account (account_type_of im) st a seed) /\
  (forall seed code items assets im st, build_account_with_seed seed code items assets im st s = Some (s', Ok id) ->
     exists a, account_pushed s s' a seed /\ acc_id a = id /\ seeded_account (account_type_of im) st a seed) /\
  (forall fuel, build_basic_wallet fuel s = Some (s', Ok id) ->
     exists a seed kept c rng,
       let search := get_account_seed_single RegularAccountUpdatableCode OnChain (code_root c)
         (storage_root (acc_storage a)) fuel in
       account_pushed s s' a kept /\ acc_id a = id /\ acc_code a = c /\
       search (gen_bytes 32 (mc_rng s)).2 = Some (Ok kept) /\
       (from_rng (gen_bytes 32 (mc_rng s)).1).2 = Ok rng /\ search (gen_bytes 32 rng).2 = Some (Ok seed) /\
       AccountId_new seed (code_root c) (storage_root (acc_storage a)) = Ok id /\
       (validate_account_seed a (Some kept) = Ok tt <->
        AccountId_new kept (code_root c) (storage_root (acc_storage a)) = Ok id)).
Proof.
  split; [intros *; apply build_account_seeded|]. split; [intros *; apply build_with_seed_seeded|].
  intros fuel H. unfold build_basic_wallet in H.
  destruct (storage_build storage_builder_new) as [storage| |] eqn:Hst; [|done|done].
  pose proof (build_details_ok fuel (mc_rng s) DEFAULT_ACCOUNT_CODE RegularAccountUpdatableCode OnChain (storage_root storage))
    as Hd.
  destruct (accountid_build_details _ _ _ _ _ _) as [rng details] eqn:Hdet. cbn [snd] in Hd.
  assert (Hrng : rng = (gen_bytes 32 (mc_rng s)).1).
  { unfold accountid_build_details in Hdet. destruct (gen_bytes 32 (mc_rng s)). by injection Hdet. }
  destruct details as [[[kept root]| |]|]; [|done|done|done].
  destruct (Hd kept root eq_refl) as (c & Hc & -> & Hkept). cbn [put_rng mc_rng] in H.
  destruct (from_rng rng) as [rng' g] eqn:Hg. apply push_built_ok in H as (a & Ha & Hid & Hp).
  destruct g as [g| |]; cbn [expect_ok try_] in Ha; [|done|done].
  apply account_build_ok in Ha as (Hn & Hca & Hsa & seed & Hseed & Hnew). cbn in Hn, Hca, Hsa, Hseed.
  rewrite Hc in Hca. injection Hca as ->. change (storage_build storage_builder_new) with
    (expect_ok (E' := AccountBuilderError) (storage_new [])) in Hsa.
  change (storage_build storage_builder_new) with (expect_ok (E' := Empty_set) (storage_new [])) in Hst.
  destruct (storage_new []) as [sto| |]; [|done|done]. injection Hst as <-. injection Hsa as Hsa. rewrite Hsa in *.
  exists a, seed, kept, (acc_code a), g. cbv zeta. split; [exact Hp|]. split; [done|]. split; [done|]. split; [done|].
  split; [by rewrite <- Hrng, Hg|]. split; [done|]. rewrite <- Hid. split; [done|].
  by apply new_account_seed.
Qed.
End properties.

(** ** Reference generator and witnesses *)

Import RefInstances RefMachine RefMmrs.

(** A generator is a counter. *)
#[local] Instance RefRng : Rng Z := {
  gen_bytes n r := (r + 1, replicate n (r mod 256));
  gen_u64 r := (r + 1, r mod 2 ^ 64);
  RngError := unit;
  from_rng r := (r + 1, Ok (r + 1000))
}.

Lemma sample_chain : exists s : MockChain (R := Z), mock_chain_new (E := Empty_set) 0 = Ok s /\ mock_reachable 0 s.
Proof.
  unfold mock_reachable, mock_chain_new. cbn [from_rng RefRng expect_ok mbind res_bind].
  destruct (SimpleSmt_new_ok ACCOUNT_TREE_DEPTH) as (t & Ht & _); [by unfold ACCOUNT_TREE_DEPTH|]. rewrite Ht.
  cbn [expect_ok mbind res_bind]. eexists. split; [reflexivity|]. eexists. split; [reflexivity|]. apply rtc_refl.
Qed.

(** The first block of a chain. *)
Lemma mock_chain_linked_witness :
  exists (s s' : MockChain (R := Z)) h, mock_reachable 0 s /\ seal_block (E := Empty_set) s = (s', Ok h) /\ mc_blocks s' = [h].
Proof.
  destruct sample_chain as (s & Hs & Hr). destruct (mock_chain_linked 0 s Hr) as (_ & c & _ & _ & _ & _ & Hseal).
  assert (Hb : mc_blocks s = []).
  { unfold mock_chain_new in Hs. destruct (from_rng 0) as [g r]. apply bind_ok in Hs as (x & _ & Hs).
    apply bind_ok in Hs as (t & _ & Hs). by injection Hs as <-. }
  rewrite Hb in Hseal. destruct (Hseal ltac:(done)) as (s' & h & Hrun & Hb' & _). exists s, s', h. split; [exact Hr|].
  split; [exact Hrun|]. exact Hb'.
Defined.

Lemma mock_chain_takes_no_notes_witness :
  exists s : MockChain (R := Z), mock_reachable 0 s /\ add_nullifier EMPTY_WORD s = (s, Panic).
Proof.
  destruct sample_chain as (s & _ & Hr). exists s. split; [exact Hr|]. apply (mock_chain_takes_no_notes 0 s Hr).
Defined.
