(* ===== verification/MockHost.v ===== *)
(** mock/src/mock/host: the host the tests of the kernel run against, which keeps the
    advice provider only, and how it relates to the host of miden-tx. *)
From S2P Require Import Prelude Interfaces Types Reference BTree AccountIds Assets Vault Storage.
From S2P Require Import Delta Code Account Tracker NoteMeta NoteContents Notes Outputs Memory Host Machine.
Local Open Scope Z_scope.

#[export] Instance TransactionEvent_eq_dec : EqDecision TransactionEvent.
Proof. solve_decision. Defined.

Section mock_host.
Context `{F : Field} {C : Crypto} {AS : Assembly} {P : Programs} {FE : Features} {D : Display} {B : Build}
  {MK : Merkle} {V : Vm} {VA : VmAdvice} {A : Advice}.

(** ** Procedure indexes (account_procs.rs)

    The map is made as that of the transaction host; the empty digest has an index
    of its own. *)
Definition mock_get_proc_index (self : list (Digest * Z)) (process : ProcessState) : res TransactionKernelError Z :=
  let proc_root := get_stack_word process 0 in
  if decide (proc_root = EMPTY_WORD) then Ok 255
  else ok_or (btree_get self proc_root) (UnknownAccountProcedure proc_root).

(** ** The host (mod.rs) *)

Record MockHost := mkMockHost {
  mh_adv_provider : AdviceProvider;
  mh_acct_procedure_index_map : list (Digest * Z) }.

Definition mock_host_new {E} (account : AccountStub) (advice_inputs : AdviceInputs) : res E MockHost :=
  let adv_provider := provider_of advice_inputs in
  proc_index_map ← procedure_map_new (stub_code_root account) adv_provider;
  Ok (mkMockHost adv_provider proc_index_map).

Definition mock_into_parts (self : MockHost) : AdviceProvider * AccountVaultDelta :=
  (mh_adv_provider self, mkAccountVaultDelta [] []).

Definition on_push_account_procedure_index (process : ProcessState) : mut MockHost ExecutionError unit :=
  self ← read_self;
  proc_idx ← lift (map_err (fun err => EventError (display_kernel_error err))
    (mock_get_proc_index (mh_acct_procedure_index_map self) process));
  let '(adv, r) := push_stack (mh_adv_provider self) (Felt_new proc_idx) in
  _ ← write_self (mkMockHost adv (mh_acct_procedure_index_map self));
  lift r.

(** What the advice provider answers. *)
Definition mock_ask (ask : AdviceProvider -> AdviceProvider * res ExecutionError HostResponse)
    : mut MockHost ExecutionError HostResponse :=
  self ← read_self;
  let '(adv, r) := ask (mh_adv_provider self) in
  _ ← write_self (mkMockHost adv (mh_acct_procedure_index_map self));
  lift r.

Definition mock_get_advice (process : ProcessState) (extractor : AdviceExtractor) : mut MockHost ExecutionError HostResponse :=
  mock_ask (fun adv => provider_get_advice adv process extractor).
Definition mock_set_advice (process : ProcessState) (injector : AdviceInjector) : mut MockHost ExecutionError HostResponse :=
  mock_ask (fun adv => provider_set_advice adv process injector).

Definition mock_on_event (process : ProcessState) (event_id : Z) : mut MockHost ExecutionError HostResponse :=
  event ← lift (map_err (fun err => EventError (display_event_error err)) (event_try_from event_id));
  if decide (proc_ctx process <> ContextId_root) then lift (Err (EventError (display_event event ++ not_root_context)))
  else
    _ ← match event with
        | AccountPushProcedureIndex => on_push_account_procedure_index process
        | _ => mret tt
        end;
    mret HostResponse_None.

Definition mock_call (call : ProcessState * HostCall) : mut MockHost ExecutionError HostResponse :=
  match call.2 with
  | GetAdvice extractor => mock_get_advice call.1 extractor
  | SetAdvice injector => mock_set_advice call.1 injector
  | Event event_id => mock_on_event call.1 event_id
  end.

(** ** Specification

    The mock host of a host: the same provider and the same map. *)
Definition mock_of (h : TransactionHost) : MockHost := mkMockHost (adv_provider h) (acct_procedure_index_map h).
End mock_host.

Section lemmas.
Context `{F : Field} {FL : FieldLaws F} {C : Crypto} {SL : SmtLaws C} {SSL : SimpleSmtLaws C} {AS : Assembly} {P : Programs}
  {FE : Features} {D : Display} {B : Build} {MK : Merkle} {ML : MerkleLaws MK} {V : Vm} {VL : VmLaws V} {VA : VmAdvice}
  {A : Advice}.

(** What a run of the host leaves of the provider and the map. *)
Definition keeps_advice {E X} (m : mut TransactionHost E X) (h : TransactionHost) : Prop :=
  mock_of (m h).1 = mock_of h.

Lemma keeps_read {E X} (k : TransactionHost -> mut TransactionHost E X) h :
  keeps_advice (k h) h -> keeps_advice (self ← read_self; k self) h.
Proof. done. Qed.

Lemma keeps_lift {E X Y} (r : res E Y) (k : Y -> mut TransactionHost E X) h :
  (forall x, keeps_advice (k x) h) -> keeps_advice (x ← lift r; k x) h.
Proof. intros Hk. destruct r as [x| |]; [apply Hk|done|done]. Qed.

Lemma keeps_if {E X} (c : Prop) `{Decision c} (m m' : mut TransactionHost E X) h :
  keeps_advice m h -> keeps_advice m' h -> keeps_advice (if decide c then m else m') h.
Proof. by case_decide. Qed.

Lemma keeps_delta {E X} (m : mut AccountDeltaTracker E X) h : keeps_advice (on_field account_delta put_delta m) h.
Proof. unfold keeps_advice. run_mut. by destruct (m (account_delta h)) as [t r]. Qed.

Ltac keeps :=
  repeat (apply keeps_read || (apply keeps_lift; intros ?) || apply keeps_if || apply keeps_delta); try done.

Lemma handle_event_keeps e p h : e <> AccountPushProcedureIndex -> keeps_advice (handle_event e p) h.
Proof.
  intros He. destruct e; cbn [handle_event]; [..|done|].
  - unfold on_account_vault_add_asset. keeps.
  - unfold on_account_vault_remove_asset. keeps.
  - unfold on_account_storage_set_item. cbv zeta. keeps.
  - unfold on_account_increment_nonce. keeps.
  - unfold on_note_created. cbv zeta. keeps.
Qed.

(** A map of the host has no entry for the empty digest. *)
Definition no_empty_entry (m : list (Digest * Z)) : Prop := btree_get m EMPTY_WORD = None.

Lemma procedure_map_no_empty {E} root adv m : procedure_map_new (E := E) root adv = Ok m -> no_empty_entry m.
Proof.
  unfold procedure_map_new. change (seqZ 0 MAX_NUM_PROCEDURES) with (seqZ 0 (Z.of_nat 256)). intros H.
  destruct (index_procedures_spec (E := E) (get_store_subset adv [root]) root 256 0 []) as (m' & Hm & _ & Hsound & _);
    [lia|by vm_compute|constructor|]. rewrite H in Hm. injection Hm as <-. unfold no_empty_entry.
  destruct (btree_get m EMPTY_WORD) as [i|] eqn:Hi; [|done]. by destruct (Hsound _ _ Hi) as [|(_ & _ & Hne)].
Qed.

(** A procedure the map knows has the same index in both hosts. *)
Lemma mock_index_agrees m p i : no_empty_entry m -> get_proc_index m p = Ok i -> mock_get_proc_index m p = Ok i.
Proof.
  unfold no_empty_entry, get_proc_index, mock_get_proc_index. intros Hm Hi. case_decide as He; [|done].
  by rewrite He, Hm in Hi.
Qed.

Lemma drive_cons {H} (host : ProcessState * HostCall -> mut H ExecutionError HostResponse) c cs h :
  drive host (c :: cs) h = match host c h with
                           | (h1, Ok _) => drive host cs h1
                           | (h1, Err e) => (h1, Err e)
                           | (h1, Panic) => (h1, Panic)
                           end.
Proof. unfold drive. rewrite for_each_cons. run_mut. by destruct (host c h) as [h1 [r| |]]. Qed.

(** One call. *)
Lemma mock_call_follows c h h' r : no_empty_entry (acct_procedure_index_map h) -> host_call c h = (h', Ok r) ->
  mock_call c (mock_of h) = (mock_of h', Ok r) /\ acct_procedure_index_map h' = acct_procedure_index_map h.
Proof.
  intros Hm. destruct c as [p [x|x|id]]; unfold host_call, mock_call; cbn [fst snd].
  - unfold get_advice, mock_get_advice, ask_provider, mock_ask. run_mut. cbn [mock_of mh_adv_provider].
    destruct (provider_get_advice (adv_provider h) p x) as [adv r']. by intros [= <- ->].
  - unfold set_advice, mock_set_advice, ask_provider, mock_ask. run_mut. cbn [mock_of mh_adv_provider].
    destruct (provider_set_advice (adv_provider h) p x) as [adv r']. by intros [= <- ->].
  - unfold on_event, mock_on_event. destruct (event_try_from id) as [e| |]; [|done|done].
    cbn [map_err lift mbind mut_bind]. case_decide as Hctx; [done|].
    destruct (decide (e = AccountPushProcedureIndex)) as [->|He].
    + unfold handle_event, on_account_push_procedure_index, on_push_account_procedure_index. run_mut.
      cbn [mock_of mh_adv_provider mh_acct_procedure_index_map].
      destruct (get_proc_index (acct_procedure_index_map h) p) as [i| |] eqn:Hi;
        [|done|done].
      rewrite (mock_index_agrees (acct_procedure_index_map h) p i Hm Hi). cbn [map_err].
      pose proof (push_stack_ok (adv_provider h) (Felt_new i)) as Hpush.
      destruct (push_stack (adv_provider h) (Felt_new i)) as [adv pr]. cbn in Hpush. subst pr. cbn [expect_ok map_err].
      by intros [= <- <-].
    + pose proof (handle_event_keeps e p h He) as Hk. unfold keeps_advice in Hk.
      run_mut. destruct (handle_event e p h) as [h1 [[]| |]]; cbn [fst map_err] in *; [|done|done].
      intros [= <- <-]. rewrite Hk. split; [by destruct e|]. exact (f_equal mh_acct_procedure_index_map Hk).
Qed.
End lemmas.

(** ** Properties *)

Section properties.
Context `{F : Field} {FL : FieldLaws F} {C : Crypto} {SL : SmtLaws C} {SSL : SimpleSmtLaws C} {AS : Assembly} {P : Programs}
  {FE : Features} {D : Display} {B : Build} {MK : Merkle} {ML : MerkleLaws MK} {V : Vm} {VL : VmLaws V} {VA : VmAdvice}
  {A : Advice}.

(** The mock host follows the host of a transaction: started for the same account with
    the same advice, it answers all calls the host answers and leaves the advice
    provider the host leaves. It answers more: every event in the root context is
    accepted, and the empty digest, which the host knows no procedure of, has
    index 255. *)
Theorem mock_host_follows (account : AccountStub) (adv : AdviceInputs) :
  exists h, host_new (E := Empty_set) account (provider_of adv) = Ok h /\
    mock_host_new (E := Empty_set) account adv = Ok (mock_of h) /\
    (forall calls h', run_calls calls h = (h', Ok tt) -> drive mock_call calls (mock_of h) = (mock_of h', Ok tt)) /\
    forall p, get_stack_word p 0 = EMPTY_WORD ->
      get_proc_index (acct_procedure_index_map h) p = Err (UnknownAccountProcedure EMPTY_WORD) /\
      mock_get_proc_index (mh_acct_procedure_index_map (mock_of h)) p = Ok 255.
Proof.
  destruct (index_procedures_spec (E := Empty_set) (get_store_subset (provider_of adv) [stub_code_root account])
    (stub_code_root account) 256 0 []) as (m & Hm & _); [lia|by vm_compute|constructor|].
  change (seqZ 0 (Z.of_nat 256)) with (seqZ 0 MAX_NUM_PROCEDURES) in Hm.
  assert (Hmap : procedure_map_new (E := Empty_set) (stub_code_root account) (provider_of adv) = Ok m) by exact Hm.
  pose proof (procedure_map_no_empty _ _ _ Hmap) as Hne. unfold host_new, mock_host_new. rewrite Hmap.
  eexists. split; [reflexivity|]. split; [reflexivity|]. split.
  - set (h := mkHost _ _ _ _). change m with (acct_procedure_index_map h) in Hne. clearbody h. clear Hm Hmap.
    intros calls. revert h Hne. unfold run_calls. induction calls as [|c cs IH]; intros h Hne h' Hrun.
    { cbn in Hrun. by injection Hrun as <-. }
    rewrite drive_cons in Hrun. rewrite drive_cons. destruct (host_call c h) as [h1 [r| |]] eqn:Hc; [|done|done].
    destruct (mock_call_follows _ _ _ _ Hne Hc) as [Hmc Hmap]. rewrite Hmc. apply (IH h1); [|exact Hrun].
    by rewrite Hmap.
  - intros p Hp. unfold get_proc_index, mock_get_proc_index. rewrite Hp. cbn [mock_of acct_procedure_index_map].
    rewrite Hne. split; [done|]. by rewrite decide_True.
Qed.
End properties.
