(* ===== verification/MockFixtures.v ===== *)
(** The fixtures of the tests of the kernel and of the executor (mock/src: constants.rs,
    utils.rs, mock/account.rs, mock/notes.rs, mock/transaction.rs): accounts, notes, transaction inputs and executed transactions, as clients of the constructors. *)
From stdpp Require Import pretty.
From S2P Require Import Prelude Interfaces Types Reference AccountIds Seed Assets NoteMeta NoteContents Notes Outputs Blocks Chain.
From S2P Require Import Vault Storage Delta Code Account Inputs Memory Machine Transactions Identifiers StandardNotes StandardAccounts MockBuilders MockInputs.
Local Open Scope Z_scope.

(** What the fixtures use of the program builder of the virtual machine: a program
    that is one block of operations. *)
Class Spans `{L : Linker} := {
  Operation : Type;
  Operation_Push : Felt -> Operation;
  Operation_Drop : Operation;
  new_span : list Operation -> CodeBlock;
  Program_new : CodeBlock -> Program
}.

Section fixtures.
Context `{F : Field} {C : Crypto} {MK : Merkle} {AS : Assembly} {FE : Features} {D : Display} {B : Build} {P : Programs}
  {L : Linker} {ML : MidenLib} {PP : ProgramParser} {DT : DigestText} {FM : FullMmr}.

(** ** Assets (constants.rs) *)

Definition FUNGIBLE_ASSET_AMOUNT : Z := 100.
Definition FUNGIBLE_FAUCET_INITIAL_BALANCE : Z := 50000.
Definition CONSUMED_ASSET_1_AMOUNT : Z := 100.
Definition CONSUMED_ASSET_2_AMOUNT : Z := 200.
Definition CONSUMED_ASSET_3_AMOUNT : Z := 300.
Definition CONSUMED_ASSET_4_AMOUNT : Z := 100.
Definition NON_FUNGIBLE_ASSET_DATA : list Z := [1; 2; 3; 4].
Definition NON_FUNGIBLE_ASSET_DATA_2 : list Z := [5; 6; 7; 8].
Definition CHILD_ROOT_PARENT_LEAF_INDEX : Z := 10.
Definition CHILD_SMT_DEPTH : Z := 64.
Definition CHILD_STORAGE_INDEX_0 : Z := 40.
Definition CHILD_STORAGE_VALUE_0 : Word := mkWord (Felt_new 11) (Felt_new 12) (Felt_new 13) (Felt_new 14).

Definition non_fungible_asset {E} (account_id : Z) : res E Asset :=
  faucet_id ← expect_ok (try_from_u64 account_id);
  non_fungible_asset_details ← expect_ok (details_new faucet_id NON_FUNGIBLE_ASSET_DATA);
  non_fungible_asset ← expect_ok (non_fungible_new non_fungible_asset_details);
  Ok (NonFungible non_fungible_asset).

Definition non_fungible_asset_2 {E} (account_id : Z) : res E Asset :=
  faucet_id ← expect_ok (try_from_u64 account_id);
  non_fungible_asset_2_details ← expect_ok (details_new faucet_id NON_FUNGIBLE_ASSET_DATA_2);
  non_fungible_asset_2 ← expect_ok (non_fungible_new non_fungible_asset_2_details);
  Ok (NonFungible non_fungible_asset_2).

(** A fungible asset of a faucet given as an integer, as the fixtures make them. *)
Definition fungible_asset_of {E} (account_id amount : Z) : res E Asset :=
  faucet_id ← expect_ok (try_from_u64 account_id);
  asset ← expect_ok (fungible_new faucet_id amount);
  Ok (Fungible asset).

(** ** Texts of words (utils.rs) *)

Definition prepare_word (word : Word) : string :=
  String.concat "." (map (fun x => pretty (as_int x)) (word_elements word)).

Definition prepare_assets {E} (note_assets : NoteAssets) : res E (list string) :=
  mapM (fun asset => asset_word ← word_of_asset asset; Ok (prepare_word asset_word)) (na_assets note_assets).

(** ** Accounts (mock/account.rs) *)

Definition STORAGE_INDEX_0 : Z := 20.
Definition STORAGE_VALUE_0 : Word := mkWord (Felt_new 1) (Felt_new 2) (Felt_new 3) (Felt_new 4).
Definition STORAGE_INDEX_1 : Z := 30.
Definition STORAGE_VALUE_1 : Word := mkWord (Felt_new 5) (Felt_new 6) (Felt_new 7) (Felt_new 8).

Definition storage_item_0 : SlotItem := mkSlotItem STORAGE_INDEX_0 (new_value STORAGE_VALUE_0).
Definition storage_item_1 : SlotItem := mkSlotItem STORAGE_INDEX_1 (new_value STORAGE_VALUE_1).

Definition mock_account_vault {E} : res E AssetVault :=
  fungible_asset ← fungible_asset_of ACCOUNT_ID_FUNGIBLE_FAUCET_ON_CHAIN FUNGIBLE_ASSET_AMOUNT;
  fungible_asset_1 ← fungible_asset_of ACCOUNT_ID_FUNGIBLE_FAUCET_ON_CHAIN_1 FUNGIBLE_ASSET_AMOUNT;
  fungible_asset_2 ← fungible_asset_of ACCOUNT_ID_FUNGIBLE_FAUCET_ON_CHAIN_2 FUNGIBLE_ASSET_AMOUNT;
  non_fungible_asset ← non_fungible_asset ACCOUNT_ID_NON_FUNGIBLE_FAUCET_ON_CHAIN;
  expect_ok (vault_new [fungible_asset; fungible_asset_1; fungible_asset_2; non_fungible_asset]).

Definition mock_account_storage {E} : res E AccountStorage :=
  expect_ok (storage_new [storage_item_0; storage_item_1]).

Definition MASTS : list string :=
  ["0xe06a83054c72efc7e32698c4fc6037620cde834c9841afb038a5d39889e502b6";
   "0xd0260c15a64e796833eb2987d4072ac2ea824b3ce4a54a1e693bada6e82f71dd";
   "0xd765111e22479256e87a57eaf3a27479d19cc876c9a715ee6c262e0a0d47a2ac";
   "0x17b326d5403115afccc0727efa72bd929bfdc7bbf284c7c28a7aadade5d4cc9d";
   "0x73c14f65d2bab6f52eafc4397e104b3ab22a470f6b5cbc86d4aa4d3978c8b7d4";
   "0xef07641ea1aa8fe85d8f854d29bf729b92251e1433244892138fd9ca898a5a22";
   "0xff06b90f849c4b262cbfbea67042c4ea017ea0e9c558848a951d44b23370bec5";
   "0x8ef0092134469a1330e3c468f57c7f085ce611645d09cc7516c786fefc71d794"].
Definition ACCOUNT_RECEIVE_ASSET_MAST_ROOT : string := nth 0 MASTS "".
Definition ACCOUNT_SEND_ASSET_MAST_ROOT : string := nth 1 MASTS "".
Definition ACCOUNT_INCR_NONCE_MAST_ROOT : string := nth 2 MASTS "".
Definition ACCOUNT_SET_ITEM_MAST_ROOT : string := nth 3 MASTS "".
Definition ACCOUNT_SET_CODE_MAST_ROOT : string := nth 4 MASTS "".
Definition ACCOUNT_CREATE_NOTE_MAST_ROOT : string := nth 5 MASTS "".
Definition ACCOUNT_ACCOUNT_PROCEDURE_1_MAST_ROOT : string := nth 6 MASTS "".
Definition ACCOUNT_ACCOUNT_PROCEDURE_2_MAST_ROOT : string := nth 7 MASTS "".

Definition DEFAULT_AUTH_SCRIPT : string := "
    use.miden::contracts::auth::basic->auth_tx

    begin
        call.auth_tx::auth_tx_rpo_falcon512
    end
".

(** The no-break space of the text below, in UTF-8. *)
Definition nbsp : string := String (Ascii.ascii_of_nat 194) (String (Ascii.ascii_of_nat 160) EmptyString).

(** The text in [mock_account_code]. *)
Definition mock_account_source : string := "use.miden::account
            use.miden::tx
            use.miden::contracts::wallets::basic->wallet

            # acct proc 0
            export.wallet::receive_asset
            # acct proc 1
            export.wallet::send_asset

            # acct proc 2
            export.incr_nonce
                push.0 swap
                # => [value, 0]

                exec.account::incr_nonce
                # => [0]
            end

            #" +:+ nbsp +:+ "acct proc 3
            export.set_item
                exec.account::set_item
                # => [R', V, 0, 0, 0]

                movup.8 drop movup.8 drop movup.8 drop
                # => [R', V]
            end

            # acct proc 4
            export.set_code
                padw swapw
                # => [CODE_ROOT, 0, 0, 0, 0]

                exec.account::set_code
                # => [0, 0, 0, 0]
            end

            # acct proc 5
            export.create_note
                exec.tx::create_note
                # => [ptr, 0, 0, 0, 0, 0, 0, 0, 0, 0]
            end

            # acct proc 6
            export.account_procedure_1
                push.1.2
                add
            end

            # acct proc 7
            export.account_procedure_2
                push.2.1
                sub
            end
            ".

Definition mock_account_code {E} (assembler : Assembler) : res E AccountCode :=
  account_module_ast ← expect_ok (ModuleAst_parse mock_account_source);
  code ← expect_ok (code_new account_module_ast assembler);
  current ← mapM (fun i => procedure ← expect (procedures code !! i); Ok (digest_to_hex procedure)) (seq 0 8);
  _ ← assert_ (bool_decide (current = MASTS));
  Ok code.

Inductive MockAccountType :=
| StandardNew
| StandardExisting
| MockFungibleFaucet (acct_id : Z) (nonce : Felt) (empty_reserved_slot : bool)
| MockNonFungibleFaucet (acct_id : Z) (nonce : Felt) (empty_reserved_slot : bool).

Definition mock_account {E} (account_id : Z) (nonce : Felt) (account_code : AccountCode) : res E Account :=
  account_storage ← mock_account_storage;
  account_vault ← mock_account_vault;
  account_id ← expect_ok (try_from_u64 account_id);
  Ok (mkAccount account_id account_vault account_storage account_code nonce).

Definition mock_fungible_faucet {E} (account_id : Z) (nonce : Felt) (empty_reserved_slot : bool) (assembler : Assembler)
    : res E Account :=
  let initial_balance := if empty_reserved_slot then ZERO else Felt_new FUNGIBLE_FAUCET_INITIAL_BALANCE in
  account_storage ← expect_ok (storage_new
    [mkSlotItem FAUCET_STORAGE_DATA_SLOT (new_value (mkWord ZERO ZERO ZERO initial_balance))]);
  account_id ← expect_ok (try_from_u64 account_id);
  account_code ← mock_account_code assembler;
  Ok (mkAccount account_id vault_default account_storage account_code nonce).

Definition mock_non_fungible_faucet {E} (account_id : Z) (nonce : Felt) (empty_reserved_slot : bool)
    (assembler : Assembler) : res E Account :=
  entires ← (if empty_reserved_slot then Ok [] else
    key ← non_fungible_asset_2 ACCOUNT_ID_NON_FUNGIBLE_FAUCET_ON_CHAIN;
    key_word ← word_of_asset key;
    value ← non_fungible_asset_2 ACCOUNT_ID_NON_FUNGIBLE_FAUCET_ON_CHAIN;
    value_word ← word_of_asset value;
    Ok [(key_word, value_word)]);
  nft_tree ← expect_ok (Smt_with_entries entires);
  account_storage ← expect_ok (storage_new [mkSlotItem FAUCET_STORAGE_DATA_SLOT (new_map (Smt_root nft_tree))]);
  account_id ← expect_ok (try_from_u64 account_id);
  account_code ← mock_account_code assembler;
  Ok (mkAccount account_id vault_default account_storage account_code nonce).

Inductive AccountSeedType :=
| FungibleFaucetInvalidInitialBalance
| FungibleFaucetValidInitialBalance
| NonFungibleFaucetInvalidReservedSlot
| NonFungibleFaucetValidReservedSlot
| RegularAccountUpdatableCodeOnChain
| RegularAccountUpdatableCodeOffChain.

(** The account whose code and storage a seed is searched for, and the type asked for. *)
Definition seed_account {E} (account_seed_type : AccountSeedType) (assembler : Assembler) : res E (Account * AccountType) :=
  match account_seed_type with
  | FungibleFaucetInvalidInitialBalance =>
      account ← mock_fungible_faucet ACCOUNT_ID_REGULAR_ACCOUNT_UPDATABLE_CODE_ON_CHAIN ZERO false assembler;
      Ok (account, FungibleFaucet)
  | FungibleFaucetValidInitialBalance =>
      account ← mock_fungible_faucet ACCOUNT_ID_REGULAR_ACCOUNT_UPDATABLE_CODE_ON_CHAIN ZERO true assembler;
      Ok (account, FungibleFaucet)
  | NonFungibleFaucetInvalidReservedSlot =>
      account ← mock_non_fungible_faucet ACCOUNT_ID_REGULAR_ACCOUNT_UPDATABLE_CODE_ON_CHAIN ZERO false assembler;
      Ok (account, NonFungibleFaucet)
  | NonFungibleFaucetValidReservedSlot =>
      account ← mock_non_fungible_faucet ACCOUNT_ID_REGULAR_ACCOUNT_UPDATABLE_CODE_ON_CHAIN ZERO true assembler;
      Ok (account, NonFungibleFaucet)
  | RegularAccountUpdatableCodeOnChain =>
      account_code ← mock_account_code assembler;
      account ← mock_account ACCOUNT_ID_REGULAR_ACCOUNT_UPDATABLE_CODE_OFF_CHAIN ONE account_code;
      Ok (account, RegularAccountUpdatableCode)
  | RegularAccountUpdatableCodeOffChain =>
      account_code ← mock_account_code assembler;
      account ← mock_account ACCOUNT_ID_REGULAR_ACCOUNT_UPDATABLE_CODE_OFF_CHAIN ONE account_code;
      Ok (account, RegularAccountUpdatableCode)
  end.

(** The search for a seed has fuel. *)
Definition generate_account_seed {E} (fuel : nat) (account_seed_type : AccountSeedType) : option (res E (AccountId * Word)) :=
  let init_seed := replicate 32 0 in
  made ←? seed_account account_seed_type kernel_assembler;
  let '(account, account_type) := made in
  match get_account_seed_single account_type OnChain (code_root (acc_code account)) (storage_root (acc_storage account))
          fuel init_seed with
  | None => None
  | Some found =>
      seed ←? expect_ok found;
      account_id ←? expect_ok (AccountId_new seed (code_root (acc_code account)) (storage_root (acc_storage account)));
      Some (Ok (account_id, seed))
  end.

Definition mock_new_account {E} (fuel : nat) (assembler : Assembler) : option (res E Account) :=
  match generate_account_seed fuel RegularAccountUpdatableCodeOffChain with
  | None => None
  | Some generated =>
      generated ←? generated;
      let '(acct_id, _account_seed) := generated in
      account_storage ←? mock_account_storage;
      account_code ←? mock_account_code assembler;
      Some (Ok (mkAccount acct_id vault_default account_storage account_code ZERO))
  end.

(** ** Notes (mock/notes.rs) *)

Record SerialNumGenerator := mkSerialNumGenerator { sg_state : Z }.
Definition serial_num_gen_new : SerialNumGenerator := mkSerialNumGenerator 0.
Definition next_serial_num {E} : mut SerialNumGenerator E Word :=
  self ← read_self;
  state_1 ← lift (add_w 64 (sg_state self) 1);
  state_2 ← lift (add_w 64 (sg_state self) 2);
  state_3 ← lift (add_w 64 (sg_state self) 3);
  let serial_num := mkWord (Felt_new (sg_state self)) (Felt_new state_1) (Felt_new state_2) (Felt_new state_3) in
  state ← lift (add_w 64 (sg_state self) 4);
  _ ← write_self (mkSerialNumGenerator state);
  mret serial_num.

Inductive AssetPreservationStatus :=
| TooFewInput
| Preserved
| PreservedWithAccountVaultDelta
| TooManyFungibleInput
| TooManyNonFungibleInput.

Definition simple_note_source : string := "begin push.1 drop end".
Definition note_1_script_src (recipient0 : Word) (tag0 : NoteTag) (asset0 : string) (recipient1 : Word) (tag1 : NoteTag)
    (asset1 : string) : string :=
  "begin
            # create note 0
            push." +:+ prepare_word recipient0 +:+ "
            push." +:+ pretty (NoteType_repr NotePublic) +:+ "
            push." +:+ pretty (tag_value tag0) +:+ "
            push." +:+ asset0 +:+ "
            # MAST root of the `create_note` mock account procedure
            call." +:+ ACCOUNT_CREATE_NOTE_MAST_ROOT +:+ "
            drop drop dropw dropw

            # create note 1
            push." +:+ prepare_word recipient1 +:+ "
            push." +:+ pretty (NoteType_repr NotePublic) +:+ "
            push." +:+ pretty (tag_value tag1) +:+ "
            push." +:+ asset1 +:+ "
            # MAST root of the `create_note` mock account procedure
            call." +:+ ACCOUNT_CREATE_NOTE_MAST_ROOT +:+ "
            drop drop dropw dropw
        end
        ".
Definition note_2_script_src (recipient : Word) (tag : NoteTag) (asset : string) : string :=
  "begin
            # create note 2
            push." +:+ prepare_word recipient +:+ "
            push." +:+ pretty (NoteType_repr NotePublic) +:+ "
            push." +:+ pretty (tag_value tag) +:+ "
            push." +:+ asset +:+ "
            # MAST root of the `create_note` mock account procedure
            call." +:+ ACCOUNT_CREATE_NOTE_MAST_ROOT +:+ "
            drop drop dropw dropw
        end
        ".
Definition note_5_source : string := "use.miden::note
        use.miden::contracts::wallets::basic->wallet

        begin
            # read the assets to memory
            push.0 exec.note::get_assets
            # => [num_assets, dest_ptr]

            # assert the number of assets is 3
            push.3 assert_eq
            # => [dest_ptr]

            # add the first asset to the vault
            padw dup.4 mem_loadw call.wallet::receive_asset dropw
            # => [dest_ptr]

            # add the second asset to the vault
            push.1 add padw dup.4 mem_loadw call.wallet::receive_asset dropw
            # => [dest_ptr+1]

            # add the third asset to the vault
            push.1 add padw movup.4 mem_loadw call.wallet::receive_asset dropw
            # => []
        end
        ".

(** What the source does for every note: parse and compile the script, make the
    inputs, the vault and the metadata, draw a serial number, build the note. *)
Definition parse_note_script {E} (assembler : Assembler) (source : string) : res E NoteScript :=
  ast ← expect_ok (ProgramAst_parse source);
  '(script, _) ← expect_ok (note_script_new ast assembler);
  Ok script.
Definition next_note {E} (sender : AccountId) (assets : list Asset) (inputs : list Felt) (script : NoteScript)
    : mut SerialNumGenerator E Note :=
  inputs ← lift (expect_ok (note_inputs_new inputs));
  vault ← lift (expect_ok (note_assets_new assets));
  metadata ← lift (expect_ok (metadata_new sender NotePublic (tag_of_u32 0) ZERO));
  serial_num ← next_serial_num;
  mret (note_new vault metadata (recipient_new serial_num script inputs)).

(** The text of the first asset of a note. *)
Definition first_asset {E} (note : Note) : res E string :=
  prepared ← prepare_assets (note_assets note);
  expect (prepared !! 0%nat).

Definition note_tag_of (note : Note) : NoteTag := md_tag (note_metadata note).

Definition mock_notes {E} (assembler : Assembler) (asset_preservation : AssetPreservationStatus)
    : res E (list Note * list OutputNote) :=
  sender ← expect_ok (try_from_u64 ACCOUNT_ID_SENDER);
  fungible_asset_1 ← fungible_asset_of ACCOUNT_ID_FUNGIBLE_FAUCET_ON_CHAIN_1 CONSUMED_ASSET_1_AMOUNT;
  fungible_asset_2 ← fungible_asset_of ACCOUNT_ID_FUNGIBLE_FAUCET_ON_CHAIN_2 CONSUMED_ASSET_2_AMOUNT;
  fungible_asset_3 ← fungible_asset_of ACCOUNT_ID_FUNGIBLE_FAUCET_ON_CHAIN_3 CONSUMED_ASSET_3_AMOUNT;
  snd ((
    note_script ← lift (parse_note_script assembler simple_note_source);
    created_note_1 ← next_note sender [fungible_asset_1] [Felt_new 1] note_script;
    created_note_2 ← next_note sender [fungible_asset_2] [Felt_new 2] note_script;
    created_note_3 ← next_note sender [fungible_asset_3] [Felt_new 2] note_script;
    asset0 ← lift (first_asset created_note_1);
    asset1 ← lift (first_asset created_note_2);
    note_1_script ← lift (parse_note_script assembler
      (note_1_script_src (nr_digest (note_recipient created_note_1)) (note_tag_of created_note_1) asset0
                         (nr_digest (note_recipient created_note_2)) (note_tag_of created_note_2) asset1));
    consumed_note_1 ← next_note sender [fungible_asset_1] [Felt_new 1] note_1_script;
    asset ← lift (first_asset created_note_3);
    note_2_script ← lift (parse_note_script assembler
      (note_2_script_src (nr_digest (note_recipient created_note_3)) (note_tag_of created_note_3) asset));
    consumed_note_2 ← next_note sender [fungible_asset_2; fungible_asset_3] [Felt_new 2] note_2_script;
    note_3_script ← lift (parse_note_script assembler simple_note_source);
    consumed_note_3 ← next_note sender [fungible_asset_2; fungible_asset_3] [Felt_new 2] note_3_script;
    note_4_script ← lift (parse_note_script assembler simple_note_source);
    non_fungible ← lift (non_fungible_asset_2 ACCOUNT_ID_NON_FUNGIBLE_FAUCET_ON_CHAIN);
    consumed_note_4 ← next_note sender [non_fungible] [Felt_new 1] note_4_script;
    note_5_script ← lift (parse_note_script assembler note_5_source);
    consumed_note_5 ← next_note sender [fungible_asset_1; fungible_asset_3; non_fungible] [] note_5_script;
    let consumed_notes := match asset_preservation with
      | TooFewInput => [consumed_note_1]
      | Preserved => [consumed_note_1; consumed_note_2]
      | PreservedWithAccountVaultDelta => [consumed_note_1; consumed_note_2; consumed_note_5]
      | TooManyFungibleInput => [consumed_note_1; consumed_note_2; consumed_note_3]
      | TooManyNonFungibleInput => [consumed_note_1; consumed_note_2; consumed_note_4]
      end in
    let created_notes := [PublicNote created_note_1; PublicNote created_note_2; PublicNote created_note_3] in
    mret (consumed_notes, created_notes)) serial_num_gen_new).

(** ** Transactions (mock/transaction.rs)

    What [BlockHeader::mock] draws at random is given for every header. *)
Context {V : Vm} {A : Advice} {SP : Spans}.
Context {IO : ByteIO}.

Definition existing_account {E} (assembler : Assembler) : res E Account :=
  account_code ← mock_account_code assembler;
  mock_account ACCOUNT_ID_REGULAR_ACCOUNT_UPDATABLE_CODE_OFF_CHAIN ONE account_code.

(** The account of the inputs. *)
Definition account_of_type {E} (fuel : nat) (account_type : MockAccountType) (assembler : Assembler) : option (res E Account) :=
  match account_type with
  | StandardNew => mock_new_account fuel assembler
  | StandardExisting => Some (existing_account assembler)
  | MockFungibleFaucet acct_id nonce empty_reserved_slot =>
      Some (mock_fungible_faucet acct_id nonce empty_reserved_slot assembler)
  | MockNonFungibleFaucet acct_id nonce empty_reserved_slot =>
      Some (mock_non_fungible_faucet acct_id nonce empty_reserved_slot assembler)
  end.

Definition public_notes (output_notes : list OutputNote) : list Note :=
  omap (fun n => match n with PublicNote note => Some note | PrivateNote _ => None end) output_notes.

(** What follows the choice of the account. *)
Definition inputs_of_account {E} (rand : Z -> header_random) (rand' : header_random) (assembler : Assembler) (account : Account)
    (asset_preservation : AssetPreservationStatus) (account_seed : option Word) : res E (TransactionInputs * TransactionArgs) :=
  '(input_notes, output_notes) ← mock_notes assembler asset_preservation;
  '(chain_mmr, recorded_notes) ← mock_chain_data rand input_notes;
  block_header ← mock_block_header rand' 4 (Some (hash_peaks (chain_peaks chain_mmr))) None [account];
  input_notes ← expect_ok (input_notes_new recorded_notes);
  tx_inputs ← expect_ok (transaction_inputs_new account account_seed block_header chain_mmr input_notes);
  let output_notes := public_notes output_notes in
  Ok (tx_inputs, extend_expected_output_notes output_notes tx_args_default).

Definition mock_inputs_with_account_seed {E} (fuel : nat) (rand : Z -> header_random) (rand' : header_random)
    (account_type : MockAccountType) (asset_preservation : AssetPreservationStatus) (account_seed : option Word)
    : option (res E (TransactionInputs * TransactionArgs)) :=
  let assembler := kernel_assembler in
  match account_of_type fuel account_type assembler with
  | None => None
  | Some account =>
      account ←? account;
      Some (inputs_of_account rand rand' assembler account asset_preservation account_seed)
  end.

Definition mock_inputs {E} (fuel : nat) (rand : Z -> header_random) (rand' : header_random) (account_type : MockAccountType)
    (asset_preservation : AssetPreservationStatus) : option (res E (TransactionInputs * TransactionArgs)) :=
  mock_inputs_with_account_seed fuel rand rand' account_type asset_preservation None.

(** The given account is used for an existing account and a fungible faucet only; the
    default is made in any case. *)
Definition mock_inputs_with_existing {E} (fuel : nat) (rand : Z -> header_random) (rand' : header_random)
    (account_type : MockAccountType) (asset_preservation : AssetPreservationStatus) (account : option Account)
    (consumed_notes_from : option (list Note))
    : option (res E (Account * BlockHeader * ChainMmr * list InputNote * AdviceInputs * list OutputNote)) :=
  let auxiliary_data := AdviceInputs_default in
  let assembler := kernel_assembler in
  match account_of_type fuel account_type assembler with
  | None => None
  | Some made =>
      made ←? made;
      let account := match account_type with
        | StandardExisting | MockFungibleFaucet _ _ _ => default made account
        | StandardNew | MockNonFungibleFaucet _ _ _ => made
        end in
      notes ←? mock_notes assembler asset_preservation;
      let '(consumed_notes, created_notes) := notes in
      let consumed_notes := default consumed_notes consumed_notes_from in
      data ←? mock_chain_data rand consumed_notes;
      let '(chain_mmr, recorded_notes) := data in
      block_header ←? mock_block_header rand' 4 (Some (hash_peaks (chain_peaks chain_mmr))) None [account];
      Some (Ok (account, block_header, chain_mmr, recorded_notes, auxiliary_data, created_notes))
  end.

(** The derived [Default]. *)
Definition account_delta_default : AccountDelta :=
  mkAccountDelta (mkAccountStorageDelta [] []) (mkAccountVaultDelta [] []) None.

Definition build_dummy_tx_program : Program :=
  let operations := [Operation_Push ZERO; Operation_Drop] in
  let span := new_span operations in
  Program_new span.

Definition mock_executed_tx {E} (rand : Z -> header_random) (rand' : header_random)
    (asset_preservation : AssetPreservationStatus) : res E ExecutedTransaction :=
  let assembler := kernel_assembler in
  initial_account ← existing_account assembler;
  final_account ← mock_account ACCOUNT_ID_REGULAR_ACCOUNT_UPDATABLE_CODE_OFF_CHAIN (Felt_new 2) (acc_code initial_account);
  '(input_notes, output_notes) ← mock_notes assembler asset_preservation;
  '(block_chain, input_notes) ← mock_chain_data rand input_notes;
  block_header ← mock_block_header rand' 4 (Some (hash_peaks (chain_peaks block_chain))) None [initial_account];
  input_notes ← expect_ok (input_notes_new input_notes);
  tx_inputs ← expect_ok (transaction_inputs_new initial_account None block_header block_chain input_notes);
  let tx_args := foldl (fun args note => match note with
    | PublicNote note => add_expected_output_note note args | PrivateNote _ => args end) tx_args_default output_notes in
  output_notes ← expect_ok (output_notes_new output_notes);
  let tx_outputs := mkTransactionOutputs (stub_of_account final_account) output_notes in
  let program := build_dummy_tx_program in
  let account_delta := account_delta_default in
  executed_new program tx_inputs tx_outputs account_delta tx_args AdviceInputs_default.
End fixtures.
Arguments MockAccountType : clear implicits.
Arguments MockAccountType {_}.

(** ** Specification *)

Section spec.
Context `{F : Field} {C : Crypto} {MK : Merkle} {AS : Assembly} {FE : Features} {D : Display} {B : Build} {P : Programs}
  {L : Linker} {ML : MidenLib} {PP : ProgramParser}.

(** The identifier of a constant, and the constants an identifier is made of. *)
Definition test_id (v : Z) : AccountId := mkAccountId (Felt_new v).
Definition id_accepted (v : Z) : bool :=
  bool_decide (0 <= v < MODULUS) && bool_decide (MIN_ACCOUNT_ONES <= count_ones v) &&
  bool_decide (storage_bits v = ON_CHAIN \/ storage_bits v = OFF_CHAIN).

(** The fungible assets of the notes. *)
Definition consumed_asset (faucet amount : Z) : Asset := Fungible (mkFungibleAsset (test_id faucet) amount).
Definition consumed_asset_1 : Asset := consumed_asset ACCOUNT_ID_FUNGIBLE_FAUCET_ON_CHAIN_1 100.
Definition consumed_asset_2 : Asset := consumed_asset ACCOUNT_ID_FUNGIBLE_FAUCET_ON_CHAIN_2 200.
Definition consumed_asset_3 : Asset := consumed_asset ACCOUNT_ID_FUNGIBLE_FAUCET_ON_CHAIN_3 300.

(** A text the assembler makes a script of. *)
Definition compiles (a : Assembler) (source : string) : Prop :=
  exists ast b, ProgramAst_parse source = Ok ast /\ compile_in_context a ast = Ok b.

(** The four scripts of the notes compile, whatever the recipients, tags and assets
    written into the first two. *)
Definition note_scripts_compile (a : Assembler) : Prop :=
  compiles a simple_note_source /\ compiles a note_5_source /\
  (forall r0 t0 a0 r1 t1 a1, compiles a (note_1_script_src r0 t0 a0 r1 t1 a1)) /\
  (forall r t a0, compiles a (note_2_script_src r t a0)).

(** The [k]-th word of the generator starts with [4 * k]. *)
Definition serial_num (k : Z) : Word :=
  mkWord (Felt_new (4 * k)) (Felt_new (4 * k + 1)) (Felt_new (4 * k + 2)) (Felt_new (4 * k + 3)).

Definition fixture_note (k : Z) (assets : list Asset) (inputs : list Felt) (n : Note) : Prop :=
  note_wf n /\ note_metadata n = mkNoteMetadata (test_id ACCOUNT_ID_SENDER) NotePublic (mkNoteTag 0) ZERO /\
  na_assets (note_assets n) = assets /\ ni_values (nr_inputs (note_recipient n)) = inputs /\
  nr_serial_num (note_recipient n) = serial_num k.

Definition assets_of (notes : list Note) : list Asset := concat (map (fun n => na_assets (note_assets n)) notes).

(** What the consumed notes carry more than the created ones, and less. *)
Definition surplus (nft : Asset) (s : AssetPreservationStatus) : list Asset :=
  match s with
  | TooFewInput | Preserved => []
  | PreservedWithAccountVaultDelta => [consumed_asset_1; consumed_asset_3; nft]
  | TooManyFungibleInput => [consumed_asset_2; consumed_asset_3]
  | TooManyNonFungibleInput => [nft]
  end.
Definition deficit (s : AssetPreservationStatus) : list Asset :=
  match s with TooFewInput => [consumed_asset_2; consumed_asset_3] | _ => [] end.
End spec.

(** ** Lemmas *)

Section lemmas.
Context `{F : Field} {FL : FieldLaws F} {C : Crypto} {SML : SmtLaws C} {SSL : SimpleSmtLaws C} {MK : Merkle} {MKL : MerkleLaws MK}
  {AS : Assembly} {FE : Features} {D : Display} {B : Build} {P : Programs} {L : Linker} {ML : MidenLib} {PP : ProgramParser}
  {DT : DigestText} {FM : FullMmr} {FML : FullMmrLaws FM}.

Lemma test_id_ok v : id_accepted v = true ->
  try_from_u64 v = Ok (test_id v) /\ AccountId_valid (test_id v) /\ type_of_id (test_id v) = type_of_bits (type_bits v) /\
  as_int (id_felt (test_id v)) = v.
Proof.
  unfold id_accepted. intros Hv. apply andb_prop in Hv as [Hv Hs%bool_decide_eq_true].
  apply andb_prop in Hv as [Hr%bool_decide_eq_true Hn%bool_decide_eq_true].
  assert (Hint : as_int (Felt_new v) = v) by (by apply as_int_new_small).
  assert (Hok : AccountId_valid (test_id v)) by (split; cbn; by rewrite Hint).
  split; [|split; [done|]].
  - unfold try_from_u64, parse_felt. rewrite Felt_try_from_bytes_ok by done. by apply (try_from_felt_valid (test_id v)).
  - unfold type_of_id. cbn. by rewrite Hint.
Qed.

Lemma fungible_asset_of_ok {E} v amount : id_accepted v = true -> type_of_bits (type_bits v) = FungibleFaucet ->
  0 <= amount <= MAX_AMOUNT ->
  fungible_asset_of (E := E) v amount = Ok (consumed_asset v amount) /\ asset_valid (consumed_asset v amount).
Proof.
  intros Hv Ht Ha. destruct (test_id_ok v Hv) as (Hid & Hval & Hty & _). unfold fungible_asset_of. rewrite Hid.
  cbn [expect_ok mbind res_bind]. rewrite (proj2 (fungible_new_ok (test_id v) amount (mkFungibleAsset (test_id v) amount)))
    by (split; [done|]; split; [congruence|lia]).
  split; [done|]. split; [done|]. split; [cbn; congruence|done].
Qed.

(** The non-fungible asset of some data. *)
Definition nft_of (v : Z) (data : list Z) : Asset :=
  let h := hash_bytes data in
  let d3 := as_int (w3 h) in
  NonFungible (mkNonFungibleAsset (mkWord (w0 h) (Felt_new v) (w2 h)
    (Felt_new (Z.lxor (Z.land d3 ACCOUNT_ISFAUCET_MASK) d3)))).

Lemma nft_made {E} v data : id_accepted v = true -> type_of_bits (type_bits v) = NonFungibleFaucet ->
  (faucet_id ← expect_ok (try_from_u64 v); details ← expect_ok (details_new faucet_id data);
   asset ← expect_ok (non_fungible_new details); Ok (NonFungible asset)) = Ok (E := E) (nft_of v data) /\
  asset_valid (nft_of v data).
Proof.
  intros Hv Ht. destruct (test_id_ok v Hv) as (Hid & Hval & Hty & _). rewrite Hid. cbn [expect_ok mbind res_bind].
  unfold details_new, non_fungible_new, from_parts. rewrite account_type_total, Hty, Ht.
  cbn [mbind res_bind]. rewrite decide_False by naive_solver. cbn [expect_ok mbind res_bind nfd_faucet_id nfd_asset_data].
  rewrite account_type_total, Hty, Ht. cbn [mbind res_bind]. rewrite decide_False by naive_solver.
  split; [done|]. split; [done|]. split; [cbn -[Z.lxor]; change (mkAccountId (Felt_new v)) with (test_id v); congruence|].
  cbn -[Z.lxor Z.land Z.testbit]. set (d3 := as_int (w3 (hash_bytes data))). pose proof (as_int_range (w3 (hash_bytes data))) as Hd3.
  destruct (clear_bit_le d3 ACCOUNT_ISFAUCET_MASK) as [Hlo Hhi]; [unfold d3; lia|].
  rewrite as_int_new_small by (unfold d3 in *; lia).
  apply not_true_iff_false. rewrite <- faucet_mask_testbit, clear_bit_land. done.
Qed.

(** The key of a non-fungible asset is not the key of a fungible one of the constants:
    element 1 is the faucet. *)
Lemma nft_key_fresh v data faucet amount : id_accepted v = true ->
  vault_key (nft_of v data) <> vault_key (consumed_asset faucet amount).
Proof.
  intros Hv. destruct (test_id_ok v Hv) as (_ & Hval & _ & _). apply account_id_valid_nonzero in Hval.
  intros Heq. apply Hval. exact (f_equal w1 Heq).
Qed.

Lemma fungible_key_inj f f' amount amount' : id_accepted f = true -> id_accepted f' = true ->
  vault_key (consumed_asset f amount) = vault_key (consumed_asset f' amount') -> f = f'.
Proof.
  intros Hf Hf' Heq. destruct (test_id_ok f Hf) as (_ & _ & _ & <-). destruct (test_id_ok f' Hf') as (_ & _ & _ & <-).
  exact (f_equal (fun w => as_int (w3 w)) Heq).
Qed.

(** One note: the generator advances by four. *)
Lemma next_note_ok {E} (k : Z) assets inputs script :
  0 <= k < 2 ^ 32 -> Forall asset_valid assets -> 1 <= Z.of_nat (length assets) <= MAX_ASSETS_PER_NOTE ->
  NoDup (vault_key <$> assets) -> Z.of_nat (length inputs) <= MAX_INPUTS_PER_NOTE ->
  exists n, next_note (E := E) (test_id ACCOUNT_ID_SENDER) assets inputs script (mkSerialNumGenerator (4 * k)) =
      (mkSerialNumGenerator (4 * (k + 1)), Ok n) /\
    fixture_note k assets inputs n /\ nr_script (note_recipient n) = script.
Proof.
  intros Hk Ha Hl Hnd Hin. unfold next_note.
  assert (Hi : note_inputs_new inputs = Ok (mkNoteInputs inputs (hash_elements (pad_inputs inputs))))
    by (apply note_inputs_new_ok; by repeat split).
  assert (Hv : note_assets_new assets = Ok (mkNoteAssets assets (hash_elements (asset_elements assets))))
    by (apply note_assets_new_ok; [done|]; split; [done|]; split; [exact Ha|]; split; [exact Hl|]; by split).
  destruct (low_tag_metadata (mkNoteTag 0) (test_id ACCOUNT_ID_SENDER) NotePublic) as (Hm & Hu & Hc); [cbn; lia|].
  change (mkNoteTag 0) with (tag_of_u32 0) in Hm.
  assert (Hadd : forall d, 0 <= d <= 4 -> add_w (E := E) 64 (4 * k) d = Ok (4 * k + d))
    by (intros d Hd; unfold add_w; by rewrite decide_True by lia).
  rewrite Hi, Hv, Hm. unfold next_serial_num. run_mut. cbn [expect_ok sg_state]. rewrite !Hadd by lia.
  replace (4 * k + 4) with (4 * (k + 1)) by lia. eexists. split; [reflexivity|]. split; [|done].
  destruct (test_id_ok ACCOUNT_ID_SENDER) as (_ & Hs & _); [by vm_compute|].
  split; [|done]. by split_and!.
Qed.

Lemma parse_note_script_ok {E} a source : compiles a source -> exists s, parse_note_script (E := E) a source = Ok s.
Proof.
  intros (ast & b & Hp & Hc). exists (mkNoteScript (code_block_hash b) ast).
  unfold parse_note_script, note_script_new. rewrite Hp. cbn [expect_ok mbind res_bind]. by rewrite Hc.
Qed.

Lemma first_asset_ok {E} k a assets inputs n : fixture_note k (a :: assets) inputs n ->
  first_asset (E := E) n = Ok (prepare_word (asset_word a)).
Proof.
  intros (((Hv & _) & _) & _ & Has & _). rewrite Has in Hv. unfold first_asset, prepare_assets. rewrite Has.
  assert (Hm : mapM (fun asset => asset_word ← word_of_asset asset; Ok (prepare_word asset_word)) (a :: assets) =
    Ok (E := E) (map (fun a => prepare_word (asset_word a)) (a :: assets))).
  { clear Has. induction Hv as [|x xs Hx _ IH]; [done|]. cbn [mapM map]. rewrite word_of_asset_valid by done.
    cbn [mbind res_bind]. by rewrite IH. }
  by rewrite Hm.
Qed.

(** The assets of the notes, as the steps need them. *)
Definition nft_asset : Asset := nft_of ACCOUNT_ID_NON_FUNGIBLE_FAUCET_ON_CHAIN NON_FUNGIBLE_ASSET_DATA_2.

Lemma fixture_assets_ok {E} :
  fungible_asset_of (E := E) ACCOUNT_ID_FUNGIBLE_FAUCET_ON_CHAIN_1 CONSUMED_ASSET_1_AMOUNT = Ok consumed_asset_1 /\
  fungible_asset_of (E := E) ACCOUNT_ID_FUNGIBLE_FAUCET_ON_CHAIN_2 CONSUMED_ASSET_2_AMOUNT = Ok consumed_asset_2 /\
  fungible_asset_of (E := E) ACCOUNT_ID_FUNGIBLE_FAUCET_ON_CHAIN_3 CONSUMED_ASSET_3_AMOUNT = Ok consumed_asset_3 /\
  non_fungible_asset_2 (E := E) ACCOUNT_ID_NON_FUNGIBLE_FAUCET_ON_CHAIN = Ok nft_asset /\
  Forall asset_valid [consumed_asset_1; consumed_asset_2; consumed_asset_3; nft_asset] /\
  NoDup (vault_key <$> [consumed_asset_1; consumed_asset_2; consumed_asset_3; nft_asset]).
Proof.
  destruct (fungible_asset_of_ok (E := E) ACCOUNT_ID_FUNGIBLE_FAUCET_ON_CHAIN_1 CONSUMED_ASSET_1_AMOUNT) as [H1 V1]; [by vm_compute..|].
  destruct (fungible_asset_of_ok (E := E) ACCOUNT_ID_FUNGIBLE_FAUCET_ON_CHAIN_2 CONSUMED_ASSET_2_AMOUNT) as [H2 V2]; [by vm_compute..|].
  destruct (fungible_asset_of_ok (E := E) ACCOUNT_ID_FUNGIBLE_FAUCET_ON_CHAIN_3 CONSUMED_ASSET_3_AMOUNT) as [H3 V3]; [by vm_compute..|].
  destruct (nft_made (E := E) ACCOUNT_ID_NON_FUNGIBLE_FAUCET_ON_CHAIN NON_FUNGIBLE_ASSET_DATA_2) as [H4 V4]; [by vm_compute..|].
  do 4 (split; [done|]). split; [rewrite !Forall_cons, Forall_nil; by split_and!|]. cbn [fmap list_fmap].
  repeat (apply NoDup_cons; split; [rewrite !not_elem_of_cons; split_and!|]); try apply not_elem_of_nil; try apply NoDup_singleton;
    try (intros Heq; by apply fungible_key_inj in Heq; [|by vm_compute..]);
    try (intros Heq; symmetry in Heq; revert Heq; apply nft_key_fresh; by vm_compute).
Qed.

(** The created notes and the five consumed ones. *)
Record fixture_notes (c1 c2 c3 n1 n2 n3 n4 n5 : Note) : Prop := {
  fx_c1 : fixture_note 0 [consumed_asset_1] [Felt_new 1] c1;
  fx_c2 : fixture_note 1 [consumed_asset_2] [Felt_new 2] c2;
  fx_c3 : fixture_note 2 [consumed_asset_3] [Felt_new 2] c3;
  fx_n1 : fixture_note 3 [consumed_asset_1] [Felt_new 1] n1;
  fx_n2 : fixture_note 4 [consumed_asset_2; consumed_asset_3] [Felt_new 2] n2;
  fx_n3 : fixture_note 5 [consumed_asset_2; consumed_asset_3] [Felt_new 2] n3;
  fx_n4 : fixture_note 6 [nft_asset] [Felt_new 1] n4;
  fx_n5 : fixture_note 7 [consumed_asset_1; consumed_asset_3; nft_asset] [] n5 }.

Lemma next_fixture_ok {E} (k : Z) assets inputs script :
  0 <= k < 2 ^ 32 -> assets <> [] -> sublist assets [consumed_asset_1; consumed_asset_2; consumed_asset_3; nft_asset] ->
  Z.of_nat (length inputs) <= MAX_INPUTS_PER_NOTE ->
  exists n, next_note (E := E) (test_id ACCOUNT_ID_SENDER) assets inputs script (mkSerialNumGenerator (4 * k)) =
      (mkSerialNumGenerator (4 * (k + 1)), Ok n) /\ fixture_note k assets inputs n.
Proof.
  intros Hk Hne Hsub Hin. destruct (fixture_assets_ok (E := E)) as (_ & _ & _ & _ & Hval & Hnd).
  destruct (next_note_ok (E := E) k assets inputs script) as (n & Hn & Hf & _); [done|..|done|by exists n].
  - rewrite Forall_forall in Hval. apply Forall_forall. intros x Hx. apply Hval.
    eapply elem_of_submseteq; [done|by apply sublist_submseteq].
  - apply sublist_length in Hsub. cbn in Hsub. destruct assets; [done|]. cbn in *. unfold MAX_ASSETS_PER_NOTE. lia.
  - eapply sublist_NoDup; [done|]. by apply fmap_sublist.
Qed.

Ltac note_step k :=
  match goal with
  | |- context [next_note (E := ?E) ?id ?assets ?inputs ?script] =>
      let n := fresh "n" in let Hn := fresh "Hn" in let Hf := fresh "Hf" in
      destruct (next_fixture_ok (E := E) k assets inputs script) as (n & Hn & Hf);
        [lia|done|by repeat constructor|cbn; unfold MAX_INPUTS_PER_NOTE; lia|];
      erewrite mut_bind_ok by exact Hn; clear Hn
  end.

Ltac script_step H :=
  match goal with
  | |- context [lift (parse_note_script (E := ?E) ?a ?source)] =>
      let sc := fresh "script" in let Hp := fresh "Hp" in
      destruct (parse_note_script_ok (E := E) a source) as (sc & Hp); [by apply H|];
      erewrite mut_bind_ok by (apply lift_step; exact Hp); clear Hp
  end.
Ltac asset_step :=
  match goal with
  | Hf : fixture_note _ _ _ ?n |- context [lift (first_asset ?n)] =>
      erewrite mut_bind_ok by (apply lift_step; eapply first_asset_ok; exact Hf)
  end.

Lemma mock_notes_made {E} a st : note_scripts_compile a ->
  exists c1 c2 c3 n1 n2 n3 n4 n5, fixture_notes c1 c2 c3 n1 n2 n3 n4 n5 /\
    mock_notes (E := E) a st = Ok (match st with
      | TooFewInput => [n1]
      | Preserved => [n1; n2]
      | PreservedWithAccountVaultDelta => [n1; n2; n5]
      | TooManyFungibleInput => [n1; n2; n3]
      | TooManyNonFungibleInput => [n1; n2; n4]
      end, [PublicNote c1; PublicNote c2; PublicNote c3]).
Proof.
  intros (Hsimple & Hlast & Hfirst & Hsecond). unfold mock_notes.
  destruct (test_id_ok ACCOUNT_ID_SENDER) as (-> & _); [by vm_compute|]. cbn [expect_ok mbind res_bind].
  destruct (fixture_assets_ok (E := E)) as (-> & -> & -> & Hnft & _). cbn [mbind res_bind].
  change serial_num_gen_new with (mkSerialNumGenerator (4 * 0)).
  script_step Hsimple. note_step 0. note_step 1. note_step 2. do 2 asset_step.
  script_step Hfirst. note_step 3. asset_step. script_step Hsecond. note_step 4.
  script_step Hsimple. note_step 5. script_step Hsimple. erewrite mut_bind_ok by (apply lift_step; exact Hnft).
  note_step 6. script_step Hlast. note_step 7.
  eexists _, _, _, _, _, _, _, _. split; [by constructor|]. reflexivity.
Qed.

(** ** Distinct notes *)

Lemma serial_num_inj j k : 0 <= j < 2 ^ 32 -> 0 <= k < 2 ^ 32 -> serial_num j = serial_num k -> j = k.
Proof.
  intros Hj Hk [= Heq%(f_equal as_int) _ _ _]. rewrite !as_int_new_small in Heq by (unfold MODULUS; lia). lia.
Qed.

Lemma serials_distinct ks : NoDup ks -> Forall (fun k => 0 <= k < 2 ^ 32) ks -> NoDup (serial_num <$> ks).
Proof.
  induction 1 as [|k ks Hin _ IH]; intros Hks; [constructor|]. apply Forall_cons in Hks as [Hk Hks].
  cbn. constructor; [|by apply IH]. intros (j & Heq & Hj)%list_elem_of_fmap. apply Hin.
  rewrite Forall_forall in Hks. rewrite (serial_num_inj k j); [done|done|by apply Hks|done].
Qed.

(** Two notes of a list with a collision in their nullifiers, or in their identifiers. *)
Definition two_of (notes : list Note) (bad : Note -> Note -> Prop) : Prop :=
  exists i j n n', i <> j /\ notes !! i = Some n /\ notes !! j = Some n' /\ bad n n'.

Lemma distinct_or_bad {K} `{EqDecision K} (key : Note -> K) (bad : Note -> Note -> Prop) notes :
  (forall n n', n ∈ notes -> n' ∈ notes -> nr_serial_num (note_recipient n) <> nr_serial_num (note_recipient n') ->
     key n = key n' -> bad n n') ->
  NoDup ((fun n => nr_serial_num (note_recipient n)) <$> notes) -> NoDup (key <$> notes) \/ two_of notes bad.
Proof.
  induction notes as [|n notes IH]; intros Hbad Hnd; [left; constructor|]. cbn in Hnd. apply NoDup_cons in Hnd as [Hin Hnd].
  destruct IH as [Hok|(i & j & m & m' & Hij & Hi & Hj & Hb)]; [|done| |].
  - intros m m' Hm Hm'. apply Hbad; by right.
  - destruct (decide (key n ∈ key <$> notes)) as [Hk|Hk]; [right|left; by constructor].
    apply list_elem_of_fmap in Hk as (m & Heq & Hm). pose proof Hm as (j & Hj)%list_elem_of_lookup_1.
    exists 0%nat, (S j), n, m. split; [done|]. split; [done|]. split; [done|].
    apply Hbad; [by left|by right| |done]. intros Hs. apply Hin, list_elem_of_fmap. by exists m.
  - right. exists (S i), (S j), m, m'. split; [congruence|done].
Qed.

Definition nullifiers_collide (n n' : Note) : Prop := hash_collision (nullifier_preimage n) (nullifier_preimage n').

Lemma nullifiers_distinct notes : Forall note_wf notes ->
  NoDup ((fun n => nr_serial_num (note_recipient n)) <$> notes) ->
  NoDup (note_nullifier <$> notes) \/ two_of notes nullifiers_collide.
Proof.
  intros Hwf. apply distinct_or_bad. rewrite Forall_forall in Hwf. intros n n' Hn Hn' Hs Heq.
  destruct (Hwf n Hn) as (_ & _ & _ & _ & Hnul). destruct (Hwf n' Hn') as (_ & _ & _ & _ & Hnul').
  rewrite Hnul, Hnul' in Heq. unfold nullifier_of_note, nullifier_new in Heq. injection Heq as Heq.
  apply hash_equal in Heq as [Heq|Hc]; [|exact Hc]. exfalso. apply Hs.
  by apply word_elements_app_inj in Heq as [Heq _].
Qed.

Lemma note_ids_distinct notes : Forall note_wf notes ->
  NoDup ((fun n => nr_serial_num (note_recipient n)) <$> notes) -> NoDup (note_id <$> notes) \/ two_of notes merges_collide.
Proof.
  intros Hwf. apply distinct_or_bad. rewrite Forall_forall in Hwf. intros n n' Hn Hn' Hs Heq.
  destruct (note_id_merges n n') as [(_ & _ & _ & Hser)|Hc]; [by apply Hwf|by apply Hwf|done|by destruct Hs|done].
Qed.

(** ** The accounts *)

Lemma mock_storage_ok {E} : exists s, mock_account_storage (E := E) = Ok s /\ storage_wf s /\ Forall slot_type_u8 (layout s) /\
  get_item (E := AccountError) s STORAGE_INDEX_0 = Ok STORAGE_VALUE_0 /\
  get_item (E := AccountError) s STORAGE_INDEX_1 = Ok STORAGE_VALUE_1.
Proof.
  destruct (storage_of_values [storage_item_0; storage_item_1]) as (s & Hs & Hwf & Hu8 & Hget).
  { split; [by repeat constructor|]. apply (bool_decide_unpack _). by vm_compute. }
  { by repeat constructor. }
  exists s. unfold mock_account_storage. rewrite Hs. split; [done|]. split; [done|]. split; [done|].
  split; (rewrite Hget; [reflexivity|by split]).
Qed.

Definition mock_assets : list Asset :=
  [consumed_asset ACCOUNT_ID_FUNGIBLE_FAUCET_ON_CHAIN FUNGIBLE_ASSET_AMOUNT;
   consumed_asset ACCOUNT_ID_FUNGIBLE_FAUCET_ON_CHAIN_1 FUNGIBLE_ASSET_AMOUNT;
   consumed_asset ACCOUNT_ID_FUNGIBLE_FAUCET_ON_CHAIN_2 FUNGIBLE_ASSET_AMOUNT;
   nft_of ACCOUNT_ID_NON_FUNGIBLE_FAUCET_ON_CHAIN NON_FUNGIBLE_ASSET_DATA].

Lemma mock_assets_keys : NoDup (vault_key <$> mock_assets).
Proof.
  cbn [fmap list_fmap mock_assets].
  repeat (apply NoDup_cons; split; [rewrite !not_elem_of_cons; split_and!|]); try apply not_elem_of_nil; try apply NoDup_singleton;
    try (intros Heq; by apply fungible_key_inj in Heq; [|by vm_compute..]);
    try (intros Heq; symmetry in Heq; revert Heq; apply nft_key_fresh; by vm_compute).
Qed.

Lemma mock_vault_ok {E} : exists v, mock_account_vault (E := E) = Ok v /\ vault_wf v /\
  forall k, Smt_get_value (asset_tree v) k = entry_or (asset_entry <$> mock_assets) k EMPTY_WORD.
Proof.
  destruct (fungible_asset_of_ok (E := E) ACCOUNT_ID_FUNGIBLE_FAUCET_ON_CHAIN FUNGIBLE_ASSET_AMOUNT) as [H0 V0]; [by vm_compute..|].
  destruct (fungible_asset_of_ok (E := E) ACCOUNT_ID_FUNGIBLE_FAUCET_ON_CHAIN_1 FUNGIBLE_ASSET_AMOUNT) as [H1 V1]; [by vm_compute..|].
  destruct (fungible_asset_of_ok (E := E) ACCOUNT_ID_FUNGIBLE_FAUCET_ON_CHAIN_2 FUNGIBLE_ASSET_AMOUNT) as [H2 V2]; [by vm_compute..|].
  destruct (nft_made (E := E) ACCOUNT_ID_NON_FUNGIBLE_FAUCET_ON_CHAIN NON_FUNGIBLE_ASSET_DATA) as [H3 V3]; [by vm_compute..|].
  destruct (vault_new_ok mock_assets) as (v & Hv & Hwf & Hget).
  { unfold mock_assets. rewrite !Forall_cons, Forall_nil. by split_and!. } { apply mock_assets_keys. }
  exists v. split; [|by split]. unfold mock_account_vault. rewrite H0, H1, H2. cbn [mbind res_bind].
  unfold non_fungible_asset. rewrite H3. cbn [mbind res_bind]. fold mock_assets. by rewrite Hv.
Qed.

Lemma mock_account_made {E} v nonce code : id_accepted v = true -> code_wf code ->
  exists a, mock_account (E := E) v nonce code = Ok a /\ account_wf a /\ acc_id a = test_id v /\ acc_nonce a = nonce /\
    acc_code a = code /\ mock_account_storage (E := E) = Ok (acc_storage a) /\ mock_account_vault (E := E) = Ok (acc_vault a).
Proof.
  intros Hv Hcode. destruct (test_id_ok v Hv) as (Hid & Hval & _). destruct (mock_storage_ok (E := E)) as (s & Hs & Hswf & Hu8 & _).
  destruct (mock_vault_ok (E := E)) as (vt & Hvt & Hvwf & _). unfold mock_account. rewrite Hs, Hvt. cbn [mbind res_bind].
  rewrite Hid. cbn [expect_ok mbind res_bind]. eexists. split; [done|]. by split_and!.
Qed.

Lemma mock_code_wf {E} a code : mock_account_code (E := E) a = Ok code ->
  code_wf code /\ forall E', mock_account_code (E := E') a = Ok code.
Proof.
  unfold mock_account_code. destruct (ModuleAst_parse mock_account_source) as [m| |]; [|done|done].
  cbn [expect_ok mbind res_bind]. destruct (code_new m a) as [c| |] eqn:Hc; [|done|done]. cbn [expect_ok mbind res_bind].
  apply code_new_ok in Hc as (_ & _ & Hwf). intros H. apply bind_ok in H as (cur & Hcur & H). apply bind_ok in H as (u & Ha & [= ->]).
  split; [done|]. intros E'. apply mapM_res_ok in Hcur.
  assert (Hcur' : mapM (fun i => procedure ← expect (procedures code !! i); Ok (digest_to_hex procedure)) (seq 0 8) = Ok (E := E') cur).
  { clear -Hcur. revert cur Hcur. generalize (seq 0 8) as l. induction l as [|i l IH]; intros cur Hcur; inversion Hcur as [|? y ? ys Hy Hys]; subst; [done|].
    cbn [mapM]. destruct (procedures code !! i); [|done]. cbn in *. injection Hy as ->. by rewrite (IH ys Hys). }
  rewrite Hcur'. cbn [mbind res_bind]. unfold assert_ in *. by case_bool_decide.
Qed.
End lemmas.

(** ** Properties *)

Section properties.
Context `{F : Field} {FL : FieldLaws F} {C : Crypto} {SML : SmtLaws C} {SSL : SimpleSmtLaws C} {MK : Merkle} {MKL : MerkleLaws MK}
  {AS : Assembly} {FE : Features} {D : Display} {B : Build} {P : Programs} {L : Linker} {ML : MidenLib} {PP : ProgramParser}
  {DT : DigestText} {FM : FullMmr} {FML : FullMmrLaws FM} {V : Vm} {A : Advice} {SP : Spans} {IO : ByteIO}.

Ltac all_assumed := cbn; repeat (apply Forall_cons; split; [assumption|]); apply Forall_nil_2.

(** The consumed notes are well-formed, at most three, and their serial numbers differ. *)
Lemma mock_notes_outcome {E} a st : note_scripts_compile a ->
  exists consumed created, mock_notes (E := E) a st = Ok (consumed, PublicNote <$> created) /\
    Forall note_wf consumed /\ Forall note_wf created /\ (length consumed <= 4)%nat /\ length created = 3%nat /\
    NoDup ((fun n => nr_serial_num (note_recipient n)) <$> created ++ consumed) /\
    Forall (fun n => note_metadata n = mkNoteMetadata (test_id ACCOUNT_ID_SENDER) NotePublic (mkNoteTag 0) ZERO)
      (created ++ consumed) /\
    assets_of consumed ++ deficit st = assets_of created ++ surplus nft_asset st.
Proof.
  intros Hc. destruct (mock_notes_made (E := E) a st Hc) as (c1 & c2 & c3 & n1 & n2 & n3 & n4 & n5 & Hf & Hrun).
  destruct Hf as [(W1 & M1 & A1 & _ & S1) (W2 & M2 & A2 & _ & S2) (W3 & M3 & A3 & _ & S3) (W4 & M4 & A4 & _ & S4)
    (W5 & M5 & A5 & _ & S5) (W6 & M6 & A6 & _ & S6) (W7 & M7 & A7 & _ & S7) (W8 & M8 & A8 & _ & S8)].
  eexists _, [c1; c2; c3]. split; [exact Hrun|]. split; [destruct st; all_assumed|].
  split; [all_assumed|]. split; [destruct st; cbn; lia|]. split; [done|]. split; [|split].
  - assert (Hnd : forall ks, bool_decide (NoDup ks /\ Forall (fun k => 0 <= k < 2 ^ 32) ks) = true -> NoDup (serial_num <$> ks)).
    { intros ks [Hnd Hks]%bool_decide_eq_true. by apply serials_distinct. }
    destruct st; cbn; rewrite ?S1, ?S2, ?S3, ?S4, ?S5, ?S6, ?S7, ?S8;
      [apply (Hnd [0; 1; 2; 3])|apply (Hnd [0; 1; 2; 3; 4])|apply (Hnd [0; 1; 2; 3; 4; 7])|apply (Hnd [0; 1; 2; 3; 4; 5])
      |apply (Hnd [0; 1; 2; 3; 4; 6])]; by vm_compute.
  - destruct st; all_assumed.
  - destruct st; unfold assets_of; cbn; by rewrite ?A1, ?A2, ?A3, ?A4, ?A5, ?A6, ?A7, ?A8.
Qed.

Lemma public_notes_all (notes : list Note) : public_notes (PublicNote <$> notes) = notes.
Proof. induction notes as [|n notes IH]; [done|]. cbn. f_equal. exact IH. Qed.

(** The inputs made for an account: refused exactly when the seed is, unless two of the
    consumed notes have one nullifier. *)
Lemma inputs_of_account_ok rand rand' a acct st seed : note_scripts_compile a ->
  (~ seed_accepted acct seed -> inputs_of_account (E := Empty_set) rand rand' a acct st seed = Panic) /\
  (seed_accepted acct seed -> exists consumed created, mock_notes (E := Empty_set) a st = Ok (consumed, PublicNote <$> created) /\
     (two_of consumed nullifiers_collide \/
      exists ti, inputs_of_account (E := Empty_set) rand rand' a acct st seed =
          Ok (ti, extend_expected_output_notes created tx_args_default) /\
        ti_account ti = acct /\ ti_account_seed ti = seed /\ in_note <$> is_notes (ti_input_notes ti) = consumed /\
        input_notes_wf (ti_input_notes ti) /\ block_num (ti_block_header ti) = 4 /\ chain_wf (ti_block_chain ti))).
Proof.
  intros Hc. destruct (mock_notes_outcome (E := Empty_set) a st Hc) as (consumed & created & Hm & Hwf & _ & Hlen & _ & Hnd & _).
  destruct (mock_chain_data_ok rand consumed Hlen) as (blocks & c & recorded & Hd & Hnotes & _ & _ & Hcwf & Hcl & _ & Hall).
  destruct (header_mock_ok (E := Empty_set) rand' 4 (Some (hash_peaks (chain_peaks c))) None [acct]) as (t & Hh).
  { cbn [filter list_filter]. case_decide; [apply NoDup_singleton|constructor]. }
  fold (mock_block_header (E := Empty_set) rand' 4 (Some (hash_peaks (chain_peaks c))) None [acct]) in Hh.
  set (h := block_header_new _ _ _ _ _ _ _ _ _ _) in Hh.
  unfold inputs_of_account. rewrite Hm. cbn [mbind res_bind]. rewrite Hd. cbn [mbind res_bind].
  rewrite Hh. cbn [mbind res_bind].
  assert (Hti : forall ns, is_notes ns = recorded ->
    transaction_inputs_new acct seed h c ns = Ok (mkTransactionInputs acct seed h c ns) <-> seed_accepted acct seed).
  { intros ns Hns. rewrite transaction_inputs_new_ok, Hns. split; [tauto|]. intros Hs. do 4 (split; [done|]).
    eapply Forall_impl; [exact Hall|]. intros r (b & Hb & Hin & Hlt). exists b. split; [|done].
    unfold note_header. rewrite decide_False; [done|]. cbn. lia. }
  split.
  - intros Hno. destruct (input_notes_new recorded) as [ns| |] eqn:Hns; [|done|done]. cbn [expect_ok mbind res_bind].
    apply input_notes_new_ok in Hns as [Hns _].
    destruct (transaction_inputs_new acct seed h c ns) as [ti| |] eqn:Ht; [|done|done].
    exfalso. apply Hno, (Hti ns Hns). by pose proof Ht as [-> _]%transaction_inputs_new_ok.
  - intros Hseed. exists consumed, created. split; [done|].
    rewrite fmap_app in Hnd. apply NoDup_app in Hnd as (_ & _ & Hnd).
    destruct (nullifiers_distinct consumed Hwf Hnd) as [Hdist|Hcol]; [right|by left].
    assert (Hns : input_notes_new recorded = Ok (mkInputNotes recorded (build_input_notes_commitment recorded))).
    { apply input_notes_new_ok. split; [done|]. split; [|split; [|done]]; cbn [is_notes].
      - apply (f_equal length) in Hnotes. rewrite length_fmap in Hnotes. unfold MAX_INPUT_NOTES_PER_TX. lia.
      - rewrite <- Hnotes, <- list_fmap_compose in Hdist. exact Hdist. }
    rewrite Hns. cbn [expect_ok mbind res_bind].
    rewrite (proj2 (Hti (mkInputNotes recorded (build_input_notes_commitment recorded)) eq_refl) Hseed).
    cbn [expect_ok mbind res_bind]. eexists. split; [by rewrite public_notes_all|].
    apply input_notes_new_ok in Hns. by split_and!; [..|apply Hns| |].
Qed.

(** ** The faucets and the accounts a seed is searched for *)

Lemma faucet_storage_ok slot : slot_type_u8 (slot_type slot) ->
  exists s, storage_new [mkSlotItem FAUCET_STORAGE_DATA_SLOT slot] = Ok s /\ storage_wf s /\ Forall slot_type_u8 (layout s) /\
    get_item (E := AccountError) s FAUCET_STORAGE_DATA_SLOT = Ok (slot_value slot).
Proof.
  intros Hty. set (items := [mkSlotItem FAUCET_STORAGE_DATA_SLOT slot]).
  destruct (storage_new_ok items) as (s & Hs & Hwf & Hslots).
  { split; [|apply NoDup_singleton]. by repeat constructor. }
  exists s. split; [done|]. split; [done|]. split.
  - apply Forall_lookup. intros j t Hj. destruct Hwf as (Hlen & H255 & _). apply lookup_lt_Some in Hj as Hlt.
    unfold NUM_STORAGE_SLOTS in Hlen. destruct (decide (j = Z.to_nat SLOT_LAYOUT_COMMITMENT_INDEX)) as [->|Hne].
    + rewrite H255 in Hj. by simplify_eq.
    + unfold SLOT_LAYOUT_COMMITMENT_INDEX in *. destruct (Hslots (Z.of_nat j)) as [Hl _]; [lia|].
      rewrite Nat2Z.id, Hj in Hl. injection Hl as ->. unfold slot_at. cbn. by case_decide.
  - unfold get_item. rewrite bool_decide_true by done. cbn [assert_ mbind res_bind].
    rewrite (proj2 (Hslots FAUCET_STORAGE_DATA_SLOT ltac:(by split))). reflexivity.
Qed.

(** The faucets differ in the identifier and the nonce given to them. *)
Definition same_faucet (make : forall E : Type, Z -> Felt -> res E Account) (code : AccountCode) (slot : Word) : Prop :=
  exists s, storage_wf s /\ Forall slot_type_u8 (layout s) /\
    get_item (E := AccountError) s FAUCET_STORAGE_DATA_SLOT = Ok slot /\
    forall E v id nonce, try_from_u64 v = Ok id -> make E v nonce = Ok (mkAccount id vault_default s code nonce).

Lemma fungible_faucet_made a code empty : mock_account_code (E := Empty_set) a = Ok code ->
  same_faucet (fun E v nonce => mock_fungible_faucet (E := E) v nonce empty a) code
    (mkWord ZERO ZERO ZERO (if empty then ZERO else Felt_new FUNGIBLE_FAUCET_INITIAL_BALANCE)).
Proof.
  intros [_ Hcode]%mock_code_wf.
  destruct (faucet_storage_ok (new_value (mkWord ZERO ZERO ZERO (if empty then ZERO else Felt_new FUNGIBLE_FAUCET_INITIAL_BALANCE))))
    as (s & Hs & Hwf & Hu8 & Hget); [by split|].
  exists s. split; [done|]. split; [done|]. split; [exact Hget|]. intros E v id nonce Hid.
  unfold mock_fungible_faucet. cbv zeta. rewrite Hs. cbn [expect_ok mbind res_bind]. rewrite Hid.
  cbn [expect_ok mbind res_bind]. by rewrite Hcode.
Qed.

Lemma non_fungible_faucet_made a code (empty : bool) : mock_account_code (E := Empty_set) a = Ok code ->
  exists t : Smt, (forall k, Smt_get_value t k = if empty then EMPTY_WORD
      else if decide (asset_word nft_asset = k) then asset_word nft_asset else EMPTY_WORD) /\
    same_faucet (fun E v nonce => mock_non_fungible_faucet (E := E) v nonce empty a) code (Smt_root t).
Proof.
  intros [_ Hcode]%mock_code_wf.
  destruct (Smt_with_entries_ok (if empty then [] else [(asset_word nft_asset, asset_word nft_asset)])) as (t & Ht & Hget).
  { destruct empty; [constructor|apply NoDup_singleton]. }
  exists t. split; [intros k; rewrite Hget; by destruct empty|].
  destruct (faucet_storage_ok (new_map (Smt_root t))) as (s & Hs & Hwf & Hu8 & Hitem); [by split|].
  exists s. split; [done|]. split; [done|]. split; [exact Hitem|]. intros E v id nonce Hid.
  assert (Hentries : (if empty then Ok [] else
      key ← non_fungible_asset_2 ACCOUNT_ID_NON_FUNGIBLE_FAUCET_ON_CHAIN; key_word ← word_of_asset key;
      value ← non_fungible_asset_2 ACCOUNT_ID_NON_FUNGIBLE_FAUCET_ON_CHAIN; value_word ← word_of_asset value;
      Ok [(key_word, value_word)]) = Ok (E := E) (if empty then [] else [(asset_word nft_asset, asset_word nft_asset)])).
  { destruct empty; [done|]. destruct (fixture_assets_ok (E := E)) as (_ & _ & _ & -> & Hval & _). cbn [mbind res_bind].
    rewrite !Forall_cons in Hval. destruct Hval as (_ & _ & _ & Hval & _). by rewrite word_of_asset_valid. }
  unfold mock_non_fungible_faucet. rewrite Hentries. cbn [mbind res_bind]. rewrite Ht. cbn [expect_ok mbind res_bind].
  rewrite Hs. cbn [expect_ok mbind res_bind]. rewrite Hid. cbn [expect_ok mbind res_bind]. by rewrite Hcode.
Qed.

(** The type the seed is searched for, and the account the inputs are made for. *)
Definition requested_type (ty : AccountSeedType) : AccountType :=
  match ty with
  | FungibleFaucetInvalidInitialBalance | FungibleFaucetValidInitialBalance => FungibleFaucet
  | NonFungibleFaucetInvalidReservedSlot | NonFungibleFaucetValidReservedSlot => NonFungibleFaucet
  | RegularAccountUpdatableCodeOnChain | RegularAccountUpdatableCodeOffChain => RegularAccountUpdatableCode
  end.
Definition inputs_type (ty : AccountSeedType) (id : AccountId) : MockAccountType :=
  match ty with
  | FungibleFaucetInvalidInitialBalance => MockFungibleFaucet (u64_of_id id) ZERO false
  | FungibleFaucetValidInitialBalance => MockFungibleFaucet (u64_of_id id) ZERO true
  | NonFungibleFaucetInvalidReservedSlot => MockNonFungibleFaucet (u64_of_id id) ZERO false
  | NonFungibleFaucetValidReservedSlot => MockNonFungibleFaucet (u64_of_id id) ZERO true
  | RegularAccountUpdatableCodeOnChain | RegularAccountUpdatableCodeOffChain => StandardNew
  end.

Lemma u64_of_id_back id : AccountId_valid id -> try_from_u64 (u64_of_id id) = Ok id.
Proof.
  intros Hid. unfold try_from_u64, u64_of_id. rewrite parse_felt_as_int. cbn [mbind res_bind]. by apply try_from_felt_valid.
Qed.

(** A generated seed is one of the search, for an on-chain account. *)
Lemma generated_good fuel ty id seed : generate_account_seed (E := Empty_set) fuel ty = Some (Ok (id, seed)) ->
  exists acct, seed_account (E := Empty_set) ty kernel_assembler = Ok (acct, requested_type ty) /\
    AccountId_new seed (code_root (acc_code acct)) (storage_root (acc_storage acct)) = Ok id /\
    account_type (E := Empty_set) id = Ok (requested_type ty) /\ storage_type (E := Empty_set) id = Ok OnChain.
Proof.
  unfold generate_account_seed. intros H.
  destruct (seed_account ty kernel_assembler) as [[acct t]| |] eqn:Hacct; cbn [try_] in H; [|done|done].
  assert (Ht : t = requested_type ty).
  { destruct ty; cbn in Hacct;
      repeat match goal with H : (_ ≫= _) = Ok _ |- _ => apply bind_ok in H as (? & _ & H) end; by injection Hacct as _ <-. }
  subst t. unfold get_account_seed_single in H. destruct (seed_loop _ _ _ _ _ _ _) as [r|] eqn:Hr; [|done].
  apply seed_loop_spec in Hr as (k & _ & -> & (id' & Hid & Hty & Hst) & _). cbn [expect_ok try_] in H. rewrite Hid in H.
  cbn [expect_ok try_] in H. injection H as -> <-. by exists acct.
Qed.

(** A new account with the identifier of the seed, which is accepted with it. *)
Definition seeded (id : AccountId) (seed : Word) (acct : Account) : Prop :=
  account_wf acct /\ acc_id acct = id /\ is_new acct = true /\ seed_accepted acct (Some seed).

Lemma new_account_seeded id seed s code : AccountId_valid id -> code_wf code -> storage_wf s -> Forall slot_type_u8 (layout s) ->
  AccountId_new seed (code_root code) (storage_root s) = Ok id -> seeded id seed (mkAccount id vault_default s code ZERO).
Proof.
  intros Hid Hcode Hs Hu8 Hnew. split; [split_and!; [done| |done|done|done]|].
  { intros k. left. apply Smt_get_new. }
  split; [done|]. unfold seed_accepted, is_new. cbn. by rewrite bool_decide_true.
Qed.

Lemma faucet_seeded (make : forall E : Type, Z -> Felt -> res E Account) code slot id seed t acct :
  code_wf code -> AccountId_valid id -> same_faucet make code slot ->
  (acct ← make Empty_set ACCOUNT_ID_REGULAR_ACCOUNT_UPDATABLE_CODE_ON_CHAIN ZERO; Ok (acct, t)) = Ok (acct, t : AccountType) ->
  AccountId_new seed (code_root (acc_code acct)) (storage_root (acc_storage acct)) = Ok id ->
  exists acct, make Empty_set (u64_of_id id) ZERO = Ok acct /\ seeded id seed acct.
Proof.
  intros Hcode Hval (s & Hswf & Hu8 & _ & Hmake) Hs Hnew.
  destruct (test_id_ok ACCOUNT_ID_REGULAR_ACCOUNT_UPDATABLE_CODE_ON_CHAIN) as [Hconst _]; [by vm_compute|].
  rewrite (Hmake _ _ _ _ Hconst) in Hs. injection Hs as <-. rewrite (Hmake _ _ _ _ (u64_of_id_back id Hval)).
  eexists. split; [done|]. by apply new_account_seeded.
Qed.

Lemma regular_seeded fuel id seed code acct : mock_account_code (E := Empty_set) kernel_assembler = Ok code -> AccountId_valid id ->
  existing_account (E := Empty_set) kernel_assembler = Ok acct ->
  generate_account_seed (E := Empty_set) fuel RegularAccountUpdatableCodeOffChain = Some (Ok (id, seed)) ->
  AccountId_new seed (code_root (acc_code acct)) (storage_root (acc_storage acct)) = Ok id ->
  exists acct, mock_new_account (E := Empty_set) fuel kernel_assembler = Some (Ok acct) /\ seeded id seed acct.
Proof.
  intros Hcode Hval Hacct Hgen Hnew. destruct (mock_code_wf kernel_assembler code Hcode) as [Hcwf _].
  unfold mock_new_account. rewrite Hgen. cbn [try_].
  destruct (mock_storage_ok (E := Empty_set)) as (s & Hst & Hswf & Hu8 & _). rewrite Hst. cbn [try_]. rewrite Hcode. cbn [try_].
  eexists. split; [done|]. apply new_account_seeded; try done. unfold existing_account in Hacct. rewrite Hcode in Hacct.
  cbn [mbind res_bind] in Hacct.
  destruct (mock_account_made (E := Empty_set) ACCOUNT_ID_REGULAR_ACCOUNT_UPDATABLE_CODE_OFF_CHAIN ONE code)
    as (acct' & Hacct' & _ & _ & _ & Hc & Hss & _); [by vm_compute|done|].
  rewrite Hacct' in Hacct. injection Hacct as ->. rewrite Hst in Hss. injection Hss as ->. by rewrite <- Hc.
Qed.

(** The account of the inputs is that of the seed, with the generated identifier. *)
Lemma generated_account fuel ty id seed code : mock_account_code (E := Empty_set) kernel_assembler = Ok code ->
  generate_account_seed (E := Empty_set) fuel ty = Some (Ok (id, seed)) ->
  exists acct, account_of_type (E := Empty_set) fuel (inputs_type ty id) kernel_assembler = Some (Ok acct) /\ seeded id seed acct.
Proof.
  intros Hcode Hgen. destruct (generated_good fuel ty id seed Hgen) as (acct & Hacct & Hid & _ & _).
  destruct (mock_code_wf kernel_assembler code Hcode) as [Hcwf _].
  assert (Hval : AccountId_valid id).
  { pose proof Hid as Hv. apply bind_ok in Hv as (? & _ & Hv). by apply try_from_felt_ok_iff in Hv as [_ Hv]. }
  assert (Hfaucet : forall make slot, same_faucet make code slot ->
    (acct ← make Empty_set ACCOUNT_ID_REGULAR_ACCOUNT_UPDATABLE_CODE_ON_CHAIN ZERO; Ok (acct, requested_type ty)) =
      Ok (acct, requested_type ty) ->
    exists acct, Some (make Empty_set (u64_of_id id) ZERO) = Some (Ok acct) /\ seeded id seed acct).
  { intros make slot Hsame Hs. destruct (faucet_seeded make code slot id seed (requested_type ty) acct) as (acct' & -> & Hok); [done..|].
    by exists acct'. }
  assert (Hregular : (account_code ← mock_account_code kernel_assembler;
      acct ← mock_account ACCOUNT_ID_REGULAR_ACCOUNT_UPDATABLE_CODE_OFF_CHAIN ONE account_code;
      Ok (acct, RegularAccountUpdatableCode)) = Ok (E := Empty_set) (acct, RegularAccountUpdatableCode) ->
    existing_account (E := Empty_set) kernel_assembler = Ok acct).
  { unfold existing_account. rewrite Hcode. cbn [mbind res_bind].
    destruct (mock_account _ _ _) as [x| |]; cbn [mbind res_bind]; [by intros [= ->]|done|done]. }
  destruct ty; cbn [inputs_type account_of_type seed_account requested_type] in *.
  - exact (Hfaucet _ _ (fungible_faucet_made kernel_assembler code false Hcode) Hacct).
  - exact (Hfaucet _ _ (fungible_faucet_made kernel_assembler code true Hcode) Hacct).
  - destruct (non_fungible_faucet_made kernel_assembler code false Hcode) as (t & _ & Hf). exact (Hfaucet _ _ Hf Hacct).
  - destruct (non_fungible_faucet_made kernel_assembler code true Hcode) as (t & _ & Hf). exact (Hfaucet _ _ Hf Hacct).
  - by apply (regular_seeded fuel id seed code acct); [..|apply Hregular| |].
  - by apply (regular_seeded fuel id seed code acct); [..|apply Hregular| |].
Qed.

(** What the inputs made for an account are: accepted by the constructor, with exactly
    the consumed notes, and the created notes announced in the arguments; or two of the
    consumed notes have a collision in their nullifiers. *)
Definition inputs_made (r : option (res Empty_set (TransactionInputs * TransactionArgs))) (acct : Account) (seed : option Word)
    (st : AssetPreservationStatus) : Prop :=
  exists consumed created, mock_notes (E := Empty_set) kernel_assembler st = Ok (consumed, PublicNote <$> created) /\
    (two_of consumed nullifiers_collide \/
     exists ti, r = Some (Ok (ti, extend_expected_output_notes created tx_args_default)) /\
       ti_account ti = acct /\ ti_account_seed ti = seed /\ in_note <$> is_notes (ti_input_notes ti) = consumed /\
       input_notes_wf (ti_input_notes ti) /\ block_num (ti_block_header ti) = 4 /\ chain_wf (ti_block_chain ti)).

Lemma inputs_made_for rand rand' acct st seed : note_scripts_compile kernel_assembler -> seed_accepted acct seed ->
  inputs_made (Some (inputs_of_account rand rand' kernel_assembler acct st seed)) acct seed st.
Proof.
  intros Hc Hs. destruct (inputs_of_account_ok rand rand' kernel_assembler acct st seed Hc) as [_ Hok].
  destruct (Hok Hs) as (consumed & created & Hm & [Hcol|(ti & Hr & Hti)]); exists consumed, created; (split; [done|]); [by left|right].
  exists ti. split; [by rewrite Hr|done].
Qed.

(** With too few inputs there is one note. *)
Lemma too_few_is_one a consumed created : note_scripts_compile a ->
  mock_notes (E := Empty_set) a TooFewInput = Ok (consumed, created) -> exists n, consumed = [n].
Proof.
  intros Hc Hm. destruct (mock_notes_made (E := Empty_set) a TooFewInput Hc) as (c1 & c2 & c3 & n1 & n2 & n3 & n4 & n5 & _ & Hm').
  exists n1. congruence.
Qed.

Lemma not_one : ONE <> ZERO.
Proof. intros Hz%(f_equal as_int). by rewrite as_int_ONE, as_int_ZERO in Hz. Qed.

(** The existing account, and the same account with the next nonce. *)
Lemma existing_account_made code : mock_account_code (E := Empty_set) kernel_assembler = Ok code ->
  exists acct, existing_account (E := Empty_set) kernel_assembler = Ok acct /\ account_wf acct /\ acc_nonce acct = ONE /\
    is_new acct = false /\ acc_code acct = code /\
    mock_account (E := Empty_set) ACCOUNT_ID_REGULAR_ACCOUNT_UPDATABLE_CODE_OFF_CHAIN (Felt_new 2) code =
      Ok (put_nonce (Felt_new 2) acct).
Proof.
  intros Hcode. destruct (mock_code_wf kernel_assembler code Hcode) as [Hcwf _].
  destruct (mock_account_made (E := Empty_set) ACCOUNT_ID_REGULAR_ACCOUNT_UPDATABLE_CODE_OFF_CHAIN ONE code)
    as (acct & Hacct & Hwf & Hid & Hn & Hc & Hst & Hvt); [by vm_compute|done|].
  destruct (mock_account_made (E := Empty_set) ACCOUNT_ID_REGULAR_ACCOUNT_UPDATABLE_CODE_OFF_CHAIN (Felt_new 2) code)
    as (final & Hfin & _ & Hid' & Hn' & Hc' & Hst' & Hvt'); [by vm_compute|done|].
  exists acct. unfold existing_account. rewrite Hcode. split; [done|]. split; [done|]. split; [done|]. split; [|split; [done|]].
  - apply bool_decide_eq_false. rewrite Hn. apply not_one.
  - rewrite Hfin. f_equal. rewrite Hst in Hst'. rewrite Hvt in Hvt'. injection Hst' as Hst'. injection Hvt' as Hvt'.
    destruct acct, final. cbn in *. unfold put_nonce. cbn. congruence.
Qed.

Lemma created_outputs created : Forall note_wf created -> length created = 3%nat ->
  NoDup ((fun n => nr_serial_num (note_recipient n)) <$> created) ->
  (exists ns, output_notes_new (PublicNote <$> created) = Ok ns /\ output_notes_wf ns /\ on_notes ns = PublicNote <$> created) \/
  two_of created merges_collide.
Proof.
  intros Hw Hlen Hnd. destruct (note_ids_distinct created Hw Hnd) as [Hdist|Hcol]; [left|by right].
  set (ns := mkOutputNotes (PublicNote <$> created) (build_output_notes_commitment (PublicNote <$> created))).
  assert (Hwf : output_notes_wf ns).
  { split; [|split; [|done]]; cbn [ns on_notes].
    - rewrite length_fmap, Hlen. by vm_compute.
    - rewrite <- list_fmap_compose. exact Hdist. }
  exists ns. split; [|by split]. by apply output_notes_new_ok.
Qed.

Lemma apply_default_delta a : apply_delta account_delta_default a = (a, Ok tt).
Proof. by destruct a. Qed.

(** The notes of a status: all of them are public notes of the sender, well-formed, and
    no two of them share a serial number; and the assets of the consumed notes are
    those of the created ones, with the surplus or the deficit the status names. *)
Theorem mock_notes_spec (a : Assembler) (st : AssetPreservationStatus) (Hscripts : note_scripts_compile a) :
  exists consumed created, mock_notes (E := Empty_set) a st = Ok (consumed, PublicNote <$> created) /\
    Forall note_wf (created ++ consumed) /\
    Forall (fun n => note_metadata n = mkNoteMetadata (test_id ACCOUNT_ID_SENDER) NotePublic (mkNoteTag 0) ZERO)
      (created ++ consumed) /\
    NoDup ((fun n => nr_serial_num (note_recipient n)) <$> created ++ consumed) /\
    assets_of consumed ++ deficit st = assets_of created ++ surplus nft_asset st.
Proof.
  destruct (mock_notes_outcome (E := Empty_set) a st Hscripts) as (consumed & created & Hm & Hw & Hw' & _ & _ & Hnd & Hmd & Has).
  exists consumed, created. split; [done|]. split; [by apply Forall_app|done].
Qed.

(** The inputs of the tests. For the existing account, which is well-formed, they are
    accepted without a seed, and refused with one; for a new account they are never
    made without one. An account made for a generated seed is an on-chain account of
    the type searched for, whatever the name of the seed type says, and its inputs are
    accepted with this seed. *)
Theorem mock_inputs_spec (fuel : nat) (rand : Z -> header_random) (rand' : header_random) (st : AssetPreservationStatus)
    (code : AccountCode) (Hcode : mock_account_code (E := Empty_set) kernel_assembler = Ok code)
    (Hscripts : note_scripts_compile kernel_assembler) :
  (exists acct, existing_account (E := Empty_set) kernel_assembler = Ok acct /\ account_wf acct /\ is_new acct = false /\
     inputs_made (mock_inputs fuel rand rand' StandardExisting st) acct None st /\
     forall seed, mock_inputs_with_account_seed (E := Empty_set) fuel rand rand' StandardExisting st (Some seed) = Some Panic) /\
  match mock_inputs (E := Empty_set) fuel rand rand' StandardNew st with None | Some Panic => True | _ => False end /\
  (forall ty id seed, generate_account_seed (E := Empty_set) fuel ty = Some (Ok (id, seed)) ->
     account_type (E := Empty_set) id = Ok (requested_type ty) /\ storage_type (E := Empty_set) id = Ok OnChain /\
     exists acct, account_wf acct /\ acc_id acct = id /\ is_new acct = true /\
       inputs_made (mock_inputs_with_account_seed fuel rand rand' (inputs_type ty id) st (Some seed)) acct (Some seed) st).
Proof.
  split; [|split].
  - destruct (existing_account_made code Hcode) as (acct & Hex & Hwf & _ & Hold & _).
    exists acct. unfold mock_inputs, mock_inputs_with_account_seed. cbn [account_of_type]. rewrite Hex. cbn [try_].
    split; [done|]. split; [done|]. split; [done|]. split.
    + apply inputs_made_for; [done|]. unfold seed_accepted. by rewrite Hold.
    + intros seed. f_equal. apply (inputs_of_account_ok rand rand' kernel_assembler acct st (Some seed) Hscripts).
      unfold seed_accepted. rewrite Hold. by intros [].
  - unfold mock_inputs, mock_inputs_with_account_seed. cbn [account_of_type].
    destruct (mock_new_account fuel kernel_assembler) as [[acct|[]|]|] eqn:Hnew; cbn [try_]; [|done|done].
    assert (Hn : is_new acct = true).
    { unfold mock_new_account in Hnew. destruct (generate_account_seed _ _) as [[[id seed]| |]|]; cbn [try_] in Hnew; [|done|done|done].
      destruct mock_account_storage as [s| |]; cbn [try_] in Hnew; [|done|done].
      destruct (mock_account_code _) as [c| |]; cbn [try_] in Hnew; [|done|done]. injection Hnew as <-. by apply bool_decide_eq_true. }
    rewrite (proj1 (inputs_of_account_ok rand rand' kernel_assembler acct st None Hscripts)); [done|].
    unfold seed_accepted. rewrite Hn. by intros [].
  - intros ty id seed Hgen. destruct (generated_good fuel ty id seed Hgen) as (_ & _ & _ & Hty & Hst).
    split; [done|]. split; [done|]. destruct (generated_account fuel ty id seed code Hcode Hgen) as (acct & Hacct & Hwf & Hid & Hn & Hs).
    exists acct. do 3 (split; [done|]). unfold mock_inputs_with_account_seed. rewrite Hacct. cbn [try_].
    by apply inputs_made_for.
Qed.

Lemma announce_public (notes : list Note) (args : TransactionArgs) :
  foldl (fun args note => match note with PublicNote note => add_expected_output_note note args | PrivateNote _ => args end)
    args (PublicNote <$> notes) = extend_expected_output_notes notes args.
Proof. revert args. induction notes as [|n notes IH]; intros args; [done|]. exact (IH _). Qed.

(** The executed transaction of the tests: made of the inputs of the existing account,
    with the created notes as its outputs and the account with the next nonce as its
    final account. The delta in it is empty: applied to the initial account it leaves
    the nonce, so it does not lead to the final account. *)
Theorem mock_executed_tx_spec (rand : Z -> header_random) (rand' : header_random) (st : AssetPreservationStatus)
    (code : AccountCode) (Hcode : mock_account_code (E := Empty_set) kernel_assembler = Ok code)
    (Hscripts : note_scripts_compile kernel_assembler) :
  exists consumed created, mock_notes (E := Empty_set) kernel_assembler st = Ok (consumed, PublicNote <$> created) /\
    (two_of consumed nullifiers_collide \/ two_of created merges_collide \/
     exists tx final, mock_executed_tx (E := Empty_set) rand rand' st = Ok tx /\
       let initial := ti_account (ex_inputs tx) in
       account_wf initial /\ acc_nonce initial = ONE /\ acc_nonce final = Felt_new 2 /\ final = put_nonce (Felt_new 2) initial /\
       to_account (ex_outputs tx) = stub_of_account final /\ output_notes_wf (to_output_notes (ex_outputs tx)) /\
       on_notes (to_output_notes (ex_outputs tx)) = PublicNote <$> created /\
       in_note <$> is_notes (ti_input_notes (ex_inputs tx)) = consumed /\
       apply_delta (ex_delta tx) initial = (initial, Ok tt) /\ stub_of_account initial <> to_account (ex_outputs tx)).
Proof.
  destruct (existing_account_made code Hcode) as (initial & Hini & Hwf & Hn & Hold & Hc & Hfin).
  destruct (inputs_of_account_ok rand rand' kernel_assembler initial st None Hscripts) as [_ Hok].
  destruct (Hok ltac:(unfold seed_accepted; by rewrite Hold)) as (consumed & created & Hm & Hcase).
  destruct (mock_notes_outcome (E := Empty_set) kernel_assembler st Hscripts) as (consumed' & created' & Hm' & _ & Hw & _ & Hlen & Hnd & _).
  rewrite Hm in Hm'. injection Hm' as <- Heq%(f_equal public_notes). rewrite !public_notes_all in Heq. subst created'.
  exists consumed, created. split; [done|]. destruct Hcase as [Hcol|(ti & Hti & Hacct & _ & Hnotes & _)]; [by left|right].
  rewrite fmap_app in Hnd. apply NoDup_app in Hnd as (Hnd & _ & _).
  destruct (created_outputs created Hw Hlen Hnd) as [(outs & Hon & Howf & Hons)|Hcol]; [right|by left].
  unfold inputs_of_account in Hti. rewrite Hm in Hti. cbn [mbind res_bind] in Hti.
  unfold mock_executed_tx. rewrite Hini. cbn [mbind res_bind]. rewrite Hc, Hfin. cbn [mbind res_bind].
  rewrite Hm. cbn [mbind res_bind].
  destruct (mock_chain_data rand consumed) as [[c recorded]| |]; cbn [mbind res_bind] in *; [|done|done].
  destruct (mock_block_header _ _ _ _ _) as [h| |]; cbn [mbind res_bind] in *; [|done|done].
  destruct (expect_ok (input_notes_new recorded)) as [ns| |]; cbn [mbind res_bind] in *; [|done|done].
  destruct (expect_ok (transaction_inputs_new _ _ _ _ _)) as [ti'| |]; cbn [mbind res_bind] in *; [|done|done].
  injection Hti as ->. rewrite announce_public, Hon. cbn [expect_ok mbind res_bind].
  unfold executed_new. rewrite Hacct, bool_decide_true by done. cbn [assert_ mbind res_bind].
  eexists _, (put_nonce (Felt_new 2) initial). split; [done|]. cbv zeta. cbn [ex_inputs ex_outputs ex_delta to_account to_output_notes].
  rewrite Hacct. split_and!; try done; [apply apply_default_delta|].
  intros Heq. apply (f_equal stub_nonce) in Heq. cbn in Heq. rewrite Hn in Heq.
  apply (f_equal as_int) in Heq. rewrite as_int_ONE, as_int_new_small in Heq by by vm_compute. lia.
Qed.
End properties.

(** ** Reference instances and witnesses

    Every text of a module is parsed to the module of the eight procedures, and every
    text of a program to a program. *)

Import RefInstances RefMachine RefMmrs.

Definition mast_word (text : string) : Word :=
  match digest_try_from_text text with Ok d => d | _ => EMPTY_WORD end.

Definition FixtureLib : MidenLib := {|
  P2ID_masb := P2ID_masb;
  P2IDR_masb := P2IDR_masb;
  SWAP_masb := SWAP_masb;
  get_module_ast := get_module_ast;
  ParsingError := unit;
  ModuleAst_parse _ := Ok (map mast_word MASTS);
  AssemblyError_from e := e;
  PublicKey := Word;
  word_of_public_key k := k;
  FeltRng := Z;
  draw_word := draw_word (MidenLib := RefMidenLib)
|}.

Definition FixtureParser : ProgramParser (ML := FixtureLib) := fun source =>
  Ok (map (fun c => Z.of_nat (Ascii.nat_of_ascii c)) (String.list_ascii_of_string source)).

Definition FixtureSpans : Spans := {|
  Operation := option Felt;
  Operation_Push x := Some x;
  Operation_Drop := None;
  new_span ops := ref_hash (omap id ops);
  Program_new b := (b, [])
|}.

Lemma fixture_code : exists code, mock_account_code (ML := FixtureLib) (E := Empty_set) kernel_assembler = Ok code.
Proof.
  assert (Hok : is_ok (mock_account_code (ML := FixtureLib) (E := Empty_set) kernel_assembler) = true) by (by vm_compute).
  destruct (mock_account_code _) as [code| |]; [by exists code|done|done].
Qed.

Lemma fixture_scripts : note_scripts_compile (ML := FixtureLib) (PP := FixtureParser) kernel_assembler.
Proof. unfold note_scripts_compile, compiles. split_and!; intros; by eexists _, _. Qed.

(** A single note has no other to collide with. *)
Lemma two_of_one n bad : ~ two_of [n] bad.
Proof. intros (i & j & m & m' & Hij & Hi & Hj & _). destruct i, j; done. Qed.

Lemma mock_notes_spec_witness :
  exists consumed created, mock_notes (ML := FixtureLib) (PP := FixtureParser) (E := Empty_set) kernel_assembler TooManyNonFungibleInput =
      Ok (consumed, PublicNote <$> created) /\ assets_of consumed = assets_of created ++ [nft_asset].
Proof.
  destruct (mock_notes_spec (ML := FixtureLib) (PP := FixtureParser) kernel_assembler TooManyNonFungibleInput fixture_scripts)
    as (consumed & created & Hm & _ & _ & _ & Has). exists consumed, created. split; [exact Hm|].
  cbn [deficit surplus] in Has. by rewrite app_nil_r in Has.
Defined.

(** The existing account and the inputs of one note. *)
Lemma mock_inputs_spec_witness :
  exists ti args, mock_inputs (ML := FixtureLib) (PP := FixtureParser) (E := Empty_set) 0 (fun _ => sample_random) sample_random
      StandardExisting TooFewInput = Some (Ok (ti, args)) /\ ti_account_seed ti = None /\ block_num (ti_block_header ti) = 4.
Proof.
  destruct fixture_code as (code & Hcode).
  destruct (mock_inputs_spec (ML := FixtureLib) (PP := FixtureParser) 0 (fun _ => sample_random) sample_random TooFewInput
    code Hcode fixture_scripts) as [(acct & _ & _ & _ & (consumed & created & Hm & [Hcol|(ti & Hti & _ & Hseed & _ & _ & Hnum & _)]) & _) _].
  - exfalso. destruct (too_few_is_one (ML := FixtureLib) (PP := FixtureParser) kernel_assembler _ _ fixture_scripts Hm) as (n & ->).
    exact (two_of_one _ _ Hcol).
  - exists ti, (extend_expected_output_notes created tx_args_default). split; [exact Hti|]. split; [exact Hseed|exact Hnum].
Defined.

(** Three created notes, whose identifiers the reference hash tells apart. *)
Lemma mock_executed_tx_spec_witness :
  exists consumed created, mock_notes (ML := FixtureLib) (PP := FixtureParser) (E := Empty_set) kernel_assembler TooFewInput =
      Ok (consumed, PublicNote <$> created) /\
    (two_of created merges_collide \/
     exists tx, mock_executed_tx (ML := FixtureLib) (PP := FixtureParser) (SP := FixtureSpans) (E := Empty_set)
       (fun _ => sample_random) sample_random TooFewInput = Ok tx).
Proof.
  destruct fixture_code as (code & Hcode).
  destruct (mock_executed_tx_spec (ML := FixtureLib) (PP := FixtureParser) (SP := FixtureSpans) (fun _ => sample_random) sample_random
    TooFewInput code Hcode fixture_scripts) as (consumed & created & Hm & [Hcol|[Hcol|(tx & final & Htx & _)]]);
    exists consumed, created; (split; [exact Hm|]).
  - exfalso. destruct (too_few_is_one (ML := FixtureLib) (PP := FixtureParser) kernel_assembler _ _ fixture_scripts Hm) as (n & ->).
    exact (two_of_one _ _ Hcol).
  - left. exact Hcol.
  - right. exists tx. exact Htx.
Defined.
