(* ===== verification/FileSystem.v ===== *)
(** Files and paths of the standard library ([std::fs], [std::path]) as the source
    uses them: a tree of directories and files as the state, the operations on it
    with what the operating system decides, and their lemmas. *)
From Stdlib Require Import Ascii String.
From stdpp Require Import gmap strings list.
From S2P Require Import Prelude Interfaces.
Local Open Scope Z_scope.

(** ** Text

    A string is its bytes. The bytes of a text are valid UTF-8. *)

Definition text_of (bs : list Z) : string := string_of_list_ascii (map (fun b => ascii_of_nat (Z.to_nat b)) bs).
Definition bytes_of_text (s : string) : list Z := map (fun c => Z.of_nat (nat_of_ascii c)) (list_ascii_of_string s).

(** [str::from_utf8]: the bytes that follow the first byte of a character. *)
Fixpoint utf8_valid (bs : list Z) : bool :=
  let within l h b := (l <=? b) && (b <=? h) in
  let cont := within 0x80 0xBF in
  match bs with
  | [] => true
  | b :: r1 =>
      if within 0 0x7F b then utf8_valid r1 else
      match r1 with
      | [] => false
      | c :: r2 =>
          if within 0xC2 0xDF b then cont c && utf8_valid r2 else
          match r2 with
          | [] => false
          | d :: r3 =>
              if within 0xE0 0xEF b
              then within (if b =? 0xE0 then 0xA0 else 0x80) (if b =? 0xED then 0x9F else 0xBF) c && cont d && utf8_valid r3
              else match r3 with
                   | [] => false
                   | e :: r4 =>
                       within 0xF0 0xF4 b && within (if b =? 0xF0 then 0x90 else 0x80) (if b =? 0xF4 then 0x8F else 0xBF) c &&
                       cont d && cont e && utf8_valid r4
                   end
          end
      end
  end.

(** ** Paths

    An absolute path is the list of its components. *)
Abbreviation Path := (list string).

(** The position of the last dot of a name, as the text before and after it. *)
Fixpoint rsplit_dot (s : string) : option (string * string) :=
  match s with
  | EmptyString => None
  | String c s' =>
      match rsplit_dot s' with
      | Some (l, r) => Some (String c l, r)
      | None => if decide (c = "."%char) then Some (EmptyString, s') else None
      end
  end.

(** [Path::file_stem] and [Path::extension]: a name that starts with its only dot has
    no extension. *)
Definition split_name (name : string) : string * option string :=
  match rsplit_dot name with
  | None | Some (EmptyString, _) => (name, None)
  | Some (l, r) => (l, Some r)
  end.
Definition file_stem (p : Path) : option string := (fun name => (split_name name).1) <$> last p.
Definition extension (p : Path) : option string := last p ≫= fun name => (split_name name).2.

(** [PathBuf::set_extension], with an extension that is not empty. *)
Definition set_extension (p : Path) (ext : string) : Path :=
  match last p with
  | None => p
  | Some name => removelast p ++ [String.append (split_name name).1 (String.append "." ext)]
  end.

Definition parent (p : Path) : Path := removelast p.
Fixpoint strip_prefix (prefix p : Path) : option Path :=
  match prefix, p with
  | [], _ => Some p
  | x :: prefix', y :: p' => if decide (x = y) then strip_prefix prefix' p' else None
  | _ :: _, [] => None
  end.

(** The components of a path written with slashes. *)
Fixpoint split_slash (acc : string) (s : string) : Path :=
  match s with
  | EmptyString => if decide (acc = EmptyString) then [] else [acc]
  | String c s' =>
      if decide (c = "/"%char)
      then (if decide (acc = EmptyString) then split_slash EmptyString s' else acc :: split_slash EmptyString s')
      else split_slash (String.append acc (String c EmptyString)) s'
  end.
Definition path_of (s : string) : Path := split_slash EmptyString s.

(** ** The file system

    A tree of directories and files without links; the root is always there. *)
Inductive Node := Dir | File (contents : list Z).
#[export] Instance Node_eq_dec : EqDecision Node.
Proof. solve_decision. Defined.
Abbreviation Fs := (gmap (list string) Node).

Definition fs_get (fs : Fs) (p : Path) : option Node := match p with [] => Some Dir | _ => fs !! p end.

Inductive IoError :=
| NotFound | NotADirectory | IsADirectory | AlreadyExists | InvalidData
| OsError (code : Z)
| OtherError (msg : string).

Inductive FsOp := OpStat | OpReadDir | OpEntry | OpRead | OpCreate | OpWrite | OpCreateDir | OpRemove | OpRename | OpCanonicalize.

(** What the operating system decides: which operations fail for a reason of its own,
    how much of the data a failed write has written, and the order in which a
    directory is listed. *)
Class Os := {
  os_fault : Fs -> FsOp -> Path -> option IoError;
  os_written : Fs -> Path -> nat;
  os_order : Fs -> list Path -> list Path
}.
Class OsLaws (OS : Os) : Prop := {
  os_order_permutes (fs : Fs) (ps : list Path) : os_order fs ps ≡ₚ ps
}.

Section fs.
Context {OS : Os}.

(** An operation that does nothing when the system refuses it. *)
Definition unless_fault {A} (op : FsOp) (p : Path) (m : mut Fs IoError A) : mut Fs IoError A :=
  fs ← read_self;
  match os_fault fs op p with Some e => lift (Err e) | None => m end.

(** [Path::exists], [Path::is_dir]: also [false] on an error. *)
Definition exists_ (fs : Fs) (p : Path) : bool := bool_decide (os_fault fs OpStat p = None /\ fs_get fs p <> None).
Definition is_dir (fs : Fs) (p : Path) : bool := bool_decide (os_fault fs OpStat p = None /\ fs_get fs p = Some Dir).

(** [Path::canonicalize]; there are no links. *)
Definition canonicalize (p : Path) : mut Fs IoError Path :=
  unless_fault OpCanonicalize p (fs ← read_self; if decide (fs_get fs p = None) then lift (Err NotFound) else mret p).

(** The entries of a directory, and [fs::read_dir] with what each entry gives. *)
Definition children (fs : Fs) (p : Path) : list Path :=
  filter (fun q => q <> [] /\ parent q = p) (map_to_list fs).*1.
Definition read_dir (p : Path) : mut Fs IoError (list (res IoError Path)) :=
  unless_fault OpReadDir p
    (fs ← read_self;
     match fs_get fs p with
     | Some Dir => mret (map (fun q => match os_fault fs OpEntry q with Some e => Err e | None => Ok q end)
                              (os_order fs (children fs p)))
     | Some (File _) => lift (Err NotADirectory)
     | None => lift (Err NotFound)
     end).

(** [fs::read], and [File::open] with [read_to_end]. *)
Definition fs_read (p : Path) : mut Fs IoError (list Z) :=
  unless_fault OpRead p
    (fs ← read_self;
     match fs_get fs p with
     | Some (File contents) => mret contents
     | Some Dir => lift (Err IsADirectory)
     | None => lift (Err NotFound)
     end).
Definition read_to_string (p : Path) : mut Fs IoError string :=
  contents ← fs_read p;
  if utf8_valid contents then mret (text_of contents) else lift (Err InvalidData).

(** [File::create]: an empty file, also where there was one. *)
Definition fs_create (p : Path) : mut Fs IoError unit :=
  unless_fault OpCreate p
    (fs ← read_self;
     if decide (fs_get fs p = Some Dir) then lift (Err IsADirectory)
     else match fs_get fs (parent p) with
          | Some Dir => write_self (<[p := File []]> fs)
          | Some (File _) => lift (Err NotADirectory)
          | None => lift (Err NotFound)
          end).

(** [Write::write_all] at the end of a file just made. *)
Definition write_all (p : Path) (data : list Z) : mut Fs IoError unit :=
  fs ← read_self;
  match fs_get fs p with
  | Some (File contents) =>
      match os_fault fs OpWrite p with
      | Some e => _ ← write_self (<[p := File (contents ++ take (os_written fs p) data)]> fs); lift (Err e)
      | None => write_self (<[p := File (contents ++ data)]> fs)
      end
  | _ => lift (Err NotFound)
  end.

(** [fs::write] and [fs::copy]. *)
Definition fs_write (p : Path) (data : list Z) : mut Fs IoError unit := _ ← fs_create p; write_all p data.
Definition fs_copy (p q : Path) : mut Fs IoError unit := data ← fs_read p; fs_write q data.

(** [fs::create_dir_all]: every directory on the way that is not there. *)
Definition ensure_dir (p q : Path) : mut Fs IoError unit :=
  fs ← read_self;
  match fs_get fs q with
  | Some Dir => mret tt
  | Some (File _) => lift (Err (if decide (q = p) then AlreadyExists else NotADirectory))
  | None => unless_fault OpCreateDir q (write_self (<[q := Dir]> fs))
  end.
Definition create_dir_all (p : Path) : mut Fs IoError unit := for_each (ensure_dir p) (map (fun n => take n p) (seq 0 (S (length p)))).

Definition remove_file (p : Path) : mut Fs IoError unit :=
  unless_fault OpRemove p
    (fs ← read_self;
     match fs_get fs p with
     | Some (File _) => write_self (delete p fs)
     | Some Dir => lift (Err IsADirectory)
     | None => lift (Err NotFound)
     end).

(** [fs::rename] of a file; the source renames no directories. *)
Definition rename_file (p q : Path) : mut Fs IoError unit :=
  unless_fault OpRename p
    (fs ← read_self;
     match fs_get fs p with
     | Some (File contents) =>
         if decide (fs_get fs q = Some Dir) then lift (Err IsADirectory)
         else match fs_get fs (parent q) with
              | Some Dir => write_self (<[q := File contents]> (delete p fs))
              | Some (File _) => lift (Err NotADirectory)
              | None => lift (Err NotFound)
              end
     | Some Dir => lift (Err IsADirectory)
     | None => lift (Err NotFound)
     end).
End fs.

(** ** Lemmas *)

Lemma fs_get_cons (fs : Fs) x p : fs_get fs (x :: p) = fs !! (x :: p).
Proof. done. Qed.

Lemma fs_get_insert (fs : Fs) p n q : p <> [] -> fs_get (<[p := n]> fs) q = if decide (q = p) then Some n else fs_get fs q.
Proof.
  intros Hp. destruct q as [|x q]; [by rewrite decide_False|]. rewrite !fs_get_cons. case_decide as Hq.
  - rewrite <- Hq. by rewrite lookup_insert_eq.
  - by rewrite lookup_insert_ne.
Qed.

Lemma fs_get_delete (fs : Fs) p q : p <> [] -> fs_get (delete p fs) q = if decide (q = p) then None else fs_get fs q.
Proof.
  intros Hp. destruct q as [|x q]; [by rewrite decide_False|]. rewrite !fs_get_cons. case_decide as Hq.
  - rewrite <- Hq. by rewrite lookup_delete_eq.
  - by rewrite lookup_delete_ne.
Qed.

(** What is not a directory is not the root. *)
Lemma not_root (fs : Fs) p : fs_get fs p <> Some Dir -> p <> [].
Proof. by destruct p. Qed.

(** What is there is in directories. *)
Definition fs_wf (fs : Fs) : Prop := fs !! [] = None /\ forall p n, fs_get fs p = Some n -> fs_get fs (parent p) = Some Dir.

Lemma fs_wf_insert (fs : Fs) p n : fs_wf fs -> fs_get fs (parent p) = Some Dir -> fs_get fs p <> Some Dir ->
  fs_wf (<[p := n]> fs).
Proof.
  intros [Hroot Hwf] Hparent Hp. pose proof (not_root _ _ Hp) as Hne. split.
  { by rewrite lookup_insert_ne. }
  intros q m Hq. rewrite fs_get_insert in Hq by done. rewrite fs_get_insert by done.
  assert (Hq' : fs_get fs (parent q) = Some Dir) by (case_decide as Heq; [by rewrite Heq|by eapply Hwf]).
  rewrite decide_False; [done|]. intros Heq. by rewrite Heq in Hq'.
Qed.

(** The ways to a path that is there are directories. *)
Lemma fs_wf_prefix (fs : Fs) p q n : fs_wf fs -> fs_get fs (p ++ q) = Some n -> q <> [] -> fs_get fs p = Some Dir.
Proof.
  intros [_ Hwf]. revert n. induction q as [|x q IH] using rev_ind; [done|]. intros n Hget _.
  rewrite app_assoc in Hget. apply Hwf in Hget. unfold parent in Hget. rewrite removelast_last in Hget.
  destruct q as [|y q]; [by rewrite app_nil_r in Hget|]. by apply (IH Dir).
Qed.

Lemma children_spec (fs : Fs) p q : fs !! [] = None ->
  q ∈ children fs p <-> fs_get fs q <> None /\ q <> [] /\ parent q = p.
Proof.
  intros Hroot. unfold children. rewrite list_elem_of_filter. split.
  - intros [[Hne Hp] ([q' n] & Heq & Hin)%list_elem_of_fmap]. cbn in Heq. subst q'. apply elem_of_map_to_list in Hin.
    split; [|done]. destruct q; [done|]. by rewrite fs_get_cons, Hin.
  - intros (Hget & Hne & Hp). split; [done|]. destruct (fs_get fs q) as [n|] eqn:Hn; [|done].
    apply list_elem_of_fmap. exists (q, n). split; [done|]. apply elem_of_map_to_list. by destruct q.
Qed.

Lemma children_nodup (fs : Fs) p : NoDup (children fs p).
Proof. apply NoDup_filter, NoDup_fst_map_to_list. Qed.

(** *** When the operating system refuses nothing *)

Definition calm {OS : Os} : Prop := forall fs op p, os_fault fs op p = None.

Section calm.
Context {OS : Os} (Hcalm : calm).
Implicit Types (p q : Path) (fs : Fs) (d : list Z).

Lemma unless_calm {A} (op : FsOp) p (m : mut Fs IoError A) fs : unless_fault op p m fs = m fs.
Proof. unfold unless_fault. run_mut. by rewrite Hcalm. Qed.

Lemma exists_calm fs p : exists_ fs p = bool_decide (fs_get fs p <> None).
Proof. apply bool_decide_ext. rewrite Hcalm. tauto. Qed.
Lemma is_dir_calm fs p : is_dir fs p = bool_decide (fs_get fs p = Some Dir).
Proof. apply bool_decide_ext. rewrite Hcalm. tauto. Qed.

Lemma canonicalize_calm fs p : fs_get fs p <> None -> canonicalize p fs = (fs, Ok p).
Proof. intros Hp. unfold canonicalize. rewrite unless_calm. run_mut. by rewrite decide_False. Qed.

Lemma read_dir_calm fs p : fs_get fs p = Some Dir -> read_dir p fs = (fs, Ok (map Ok (os_order fs (children fs p)))).
Proof.
  intros Hp. unfold read_dir. rewrite unless_calm. run_mut. rewrite Hp. do 2 f_equal. apply map_ext. intros q.
  by rewrite Hcalm.
Qed.

Lemma fs_read_calm fs p d : fs_get fs p = Some (File d) -> fs_read p fs = (fs, Ok d).
Proof. intros Hp. unfold fs_read. rewrite unless_calm. run_mut. by rewrite Hp. Qed.

Lemma fs_create_calm fs p : fs_get fs p <> Some Dir -> fs_get fs (parent p) = Some Dir ->
  fs_create p fs = (<[p := File []]> fs, Ok tt).
Proof. intros Hp Hd. unfold fs_create. rewrite unless_calm. run_mut. by rewrite decide_False, Hd. Qed.

Lemma write_all_calm fs p c d : fs_get fs p = Some (File c) -> write_all p d fs = (<[p := File (c ++ d)]> fs, Ok tt).
Proof. intros Hp. unfold write_all. run_mut. by rewrite Hp, Hcalm. Qed.

Lemma fs_write_calm fs p d : fs_get fs p <> Some Dir -> fs_get fs (parent p) = Some Dir ->
  fs_write p d fs = (<[p := File d]> fs, Ok tt).
Proof.
  intros Hp Hd. pose proof (not_root _ _ Hp) as Hne. unfold fs_write.
  erewrite mut_bind_ok by by apply fs_create_calm. rewrite (write_all_calm _ _ []).
  - cbn [app]. by rewrite insert_insert_eq.
  - by rewrite fs_get_insert, decide_True.
Qed.

Lemma fs_copy_calm fs p q d : fs_get fs p = Some (File d) -> fs_get fs q <> Some Dir -> fs_get fs (parent q) = Some Dir ->
  fs_copy p q fs = (<[q := File d]> fs, Ok tt).
Proof.
  intros Hp Hq Hd. unfold fs_copy. erewrite mut_bind_ok by by apply fs_read_calm. by apply fs_write_calm.
Qed.

(** Every directory on the way is there afterwards, and nothing else changed. *)
Lemma ensure_dirs_calm p (ps : list Path) fs : Forall (fun q => forall d, fs_get fs q <> Some (File d)) ps ->
  exists fs', for_each (ensure_dir p) ps fs = (fs', Ok tt) /\
    (forall q, fs_get fs' q = if decide (q ∈ ps /\ fs_get fs q = None) then Some Dir else fs_get fs q) /\ fs' !! [] = fs !! [].
Proof.
  revert fs. induction ps as [|q ps IH]; intros fs Hps.
  { exists fs. split; [done|]. split; [|done]. intros q. rewrite decide_False; [done|]. set_solver. }
  apply Forall_cons in Hps as [Hq Hps]. rewrite for_each_cons. unfold ensure_dir at 1. run_mut.
  destruct (fs_get fs q) as [[|d]|] eqn:Hget; [|by destruct (Hq d)|].
  - destruct (IH fs Hps) as (fs' & Hrun & Hfs' & Hroot). exists fs'. split; [exact Hrun|]. split; [|done]. intros r. rewrite Hfs'.
    destruct (decide (r = q)) as [->|Hr]; [rewrite Hget; by rewrite !decide_False by naive_solver|].
    apply decide_ext. set_solver.
  - assert (Hne : q <> []) by by intros ->. rewrite unless_calm. run_mut.
    destruct (IH (<[q := Dir]> fs)) as (fs' & Hrun & Hfs' & Hroot).
    { eapply Forall_impl; [exact Hps|]. intros r Hr d. rewrite fs_get_insert by done. case_decide; [done|apply Hr]. }
    exists fs'. split; [exact Hrun|]. split; [|rewrite Hroot; by rewrite lookup_insert_ne].
    intros r. rewrite Hfs', fs_get_insert by done.
    destruct (decide (r = q)) as [->|Hr].
    + rewrite decide_False by naive_solver. rewrite decide_True; [done|]. split; [left|done].
    + apply decide_ext. set_solver.
Qed.

Lemma create_dir_all_calm fs p : (forall q r, p = q ++ r -> forall d, fs_get fs q <> Some (File d)) ->
  exists fs', create_dir_all p fs = (fs', Ok tt) /\
    (forall q, fs_get fs' q = if decide (q `prefix_of` p /\ fs_get fs q = None) then Some Dir else fs_get fs q) /\
    fs' !! [] = fs !! [].
Proof.
  intros Hp. destruct (ensure_dirs_calm p (map (fun n => take n p) (seq 0 (S (length p)))) fs) as (fs' & Hrun & Hfs' & Hroot).
  { apply Forall_forall. intros q (n & -> & _)%list_elem_of_fmap. apply (Hp _ (drop n p)). by rewrite take_drop. }
  exists fs'. split; [exact Hrun|]. split; [|done]. intros q. rewrite Hfs'. apply decide_ext.
  assert (Hin : q ∈ map (fun n => take n p) (seq 0 (S (length p))) <-> q `prefix_of` p); [|by rewrite Hin].
  rewrite list_elem_of_fmap. split.
  - intros (n & -> & _). exists (drop n p). by rewrite take_drop.
  - intros [r ->]. exists (length q). split; [by rewrite take_app_length|]. apply elem_of_seq. rewrite length_app. lia.
Qed.

Lemma remove_file_calm fs p d : fs_get fs p = Some (File d) -> remove_file p fs = (delete p fs, Ok tt).
Proof. intros Hp. unfold remove_file. rewrite unless_calm. run_mut. by rewrite Hp. Qed.

Lemma rename_file_calm fs p q d : fs_get fs p = Some (File d) -> fs_get fs q <> Some Dir ->
  fs_get fs (parent q) = Some Dir -> rename_file p q fs = (<[q := File d]> (delete p fs), Ok tt).
Proof. intros Hp Hq Hd. unfold rename_file. rewrite unless_calm. run_mut. by rewrite Hp, decide_False, Hd. Qed.
End calm.

(** *** Whatever the operating system refuses *)

Section any_system.
Context {OS : Os}.
Implicit Types (fs : Fs) (p q : Path) (data d : list Z) (Q : Path -> Prop).

(** What a write that returns has done. *)
Lemma fs_write_done p data fs fs' : fs_write p data fs = (fs', Ok tt) ->
  fs_get fs p <> Some Dir /\ forall q, fs_get fs' q = if decide (q = p) then Some (File data) else fs_get fs q.
Proof.
  unfold fs_write, fs_create, write_all, unless_fault. run_mut.
  destruct (os_fault fs OpCreate p); [done|]. case_decide as Hp; [done|]. pose proof (not_root _ _ Hp) as Hne.
  destruct (fs_get fs (parent p)) as [[|]|]; [|done|done]. rewrite fs_get_insert, decide_True by done.
  destruct (os_fault _ OpWrite p); [done|]. intros [= <-]. split; [done|]. intros q.
  rewrite !fs_get_insert by done. by case_decide.
Qed.

(** Reading changes nothing. *)
Lemma fs_read_keeps p fs : (fs_read p fs).1 = fs.
Proof.
  unfold fs_read, unless_fault. run_mut. destruct (os_fault fs OpRead p); [done|]. by destruct (fs_get fs p) as [[|]|].
Qed.

Lemma fs_read_file p fs d : fs_get fs p = Some (File d) -> os_fault fs OpRead p = None -> fs_read p fs = (fs, Ok d).
Proof. intros Hp Hf. unfold fs_read, unless_fault. run_mut. by rewrite Hf, Hp. Qed.

(** An operation that leaves what is at certain paths, whatever it returns. *)
Definition leaves {E A} (Q : Path -> Prop) (m : mut Fs E A) : Prop :=
  forall fs q n, Q q -> fs_get fs q = Some n -> fs_get (m fs).1 q = Some n.

Lemma leaves_keeps {E A} Q (m : mut Fs E A) : (forall fs, (m fs).1 = fs) -> leaves Q m.
Proof. intros Hm fs q n _ Hq. by rewrite Hm. Qed.

Lemma leaves_bind {E A A' : Type} Q (m : mut Fs E A) (f : A -> mut Fs E A') :
  leaves Q m -> (forall a, leaves Q (f a)) -> leaves Q (m ≫= f).
Proof.
  intros Hm Hf fs q n HQ Hq. specialize (Hm fs q n HQ Hq). run_mut.
  destruct (m fs) as [fs' [a| |]]; [by apply Hf|done..].
Qed.

Lemma leaves_lift {E A} Q (r : res E A) : leaves Q (lift r).
Proof. by apply leaves_keeps. Qed.

Lemma leaves_for_each {E A} Q (body : A -> mut Fs E unit) xs : (forall x, x ∈ xs -> leaves Q (body x)) -> leaves Q (for_each body xs).
Proof.
  induction xs as [|x xs IH]; intros Hb; [by apply leaves_keeps|]. cbn [for_each].
  apply leaves_bind; [apply Hb; left|]. intros _. apply IH. intros y Hy. apply Hb. by right.
Qed.

Lemma ensure_dir_leaves p q Q : leaves Q (ensure_dir p q).
Proof.
  intros fs r n _ Hr. unfold ensure_dir, unless_fault. run_mut. destruct (fs_get fs q) as [[|]|] eqn:Hq; [done..|].
  destruct (os_fault fs OpCreateDir q); [done|]. cbn [fst]. rewrite fs_get_insert by by intros ->.
  rewrite decide_False; [done|]. intros ->. congruence.
Qed.

Lemma create_dir_all_leaves p Q : leaves Q (create_dir_all p).
Proof. apply leaves_for_each. intros q _. apply ensure_dir_leaves. Qed.

Lemma fs_write_leaves p data : leaves (fun q => q <> p) (fs_write p data).
Proof.
  intros fs q n Hqp Hq. unfold fs_write, fs_create, write_all, unless_fault. run_mut.
  destruct (os_fault fs OpCreate p); [done|]. case_decide as Hp; [done|]. pose proof (not_root _ _ Hp) as Hne.
  destruct (fs_get fs (parent p)) as [[|]|]; [|done|done]. rewrite fs_get_insert, decide_True by done.
  destruct (os_fault _ OpWrite p); cbn [fst]; by rewrite !fs_get_insert, !decide_False.
Qed.
End any_system.

(** A system that refuses nothing and lists directories in the order of the model. *)
Definition CalmOs : Os := {|
  os_fault _ _ _ := None; os_written _ _ := 0%nat; os_order _ ps := ps |}.

Lemma CalmOsLaws : OsLaws CalmOs.
Proof. by split. Qed.
