(* ===== verification/AccountFiles.v ===== *)
(** The files of accounts: [AccountData::write] and [AccountData::read] of
    src/objects/src/accounts/data.rs. *)
From S2P Require Import Prelude Interfaces Types Reference AccountIds Vault Storage Code Account FileSystem.
Local Open Scope Z_scope.

Section account_files.
Context `{F : Field} {C : Crypto} {AS : Assembly} {FE : Features} {D : Display} {B : Build} {IO : ByteIO} {OS : Os}.

(** The bytes are made before the file is opened. *)
Definition account_data_write (self : AccountData) (filepath : Path) : mut Fs IoError unit :=
  bytes ← lift (expect_ok (write_into account_data_codec self));
  fs_write filepath bytes.

Definition account_data_read (filepath : Path) : mut Fs IoError AccountData :=
  buffer ← fs_read filepath;
  lift (map_err (fun _ => InvalidData) (snd (read_from account_data_codec buffer))).
End account_files.

Section properties.
Context `{F : Field} {FL : FieldLaws F} {C : Crypto} {SL : SmtLaws C} {SSL : SimpleSmtLaws C} {AS : Assembly}
  {ASL : AssemblyLaws AS} {FE : Features} {D : Display} {B : Build} {IO : ByteIO} {IOL : ByteIOLaws IO} {OS : Os}.

(** C39: the data of a well-formed account, with code without debug information, slot
    types in the documented range, fewer than 2^32 assets and a key seed of 32 bytes, are
    written to a file and read back from it. When writing returns, the
    file has the data, no other file has changed, and reading gives, unless the system
    refuses it, the same seed and key and an account with the same identifier, vault,
    slots, code and nonce; the type of an empty slot is read as the default type, so the
    account is equal to the one that was written exactly when no slot with another type
    is empty. Writing does return if the system refuses nothing and the directory of the
    file is there. Reading changes no file. *)
Theorem account_data_file_round_trip (x : AccountData) (p : Path) (fs : Fs)
    (Hx : account_writable (ad_account x)) (Ha : auth_data_ok (ad_auth x)) :
  (forall fs', account_data_write x p fs = (fs', Ok tt) ->
     (forall q, q <> p -> fs_get fs' q = fs_get fs q) /\
     (os_fault fs' OpRead p = None -> exists x', account_data_read p fs' = (fs', Ok x') /\
        account_read_as (ad_account x) (ad_account x') /\
        (ad_account x ≡ ad_account x' <-> storage_typed_filled (acc_storage (ad_account x))) /\
        ad_account_seed x = ad_account_seed x' /\ ad_auth x = ad_auth x')) /\
  (calm -> fs_get fs p <> Some Dir -> fs_get fs (parent p) = Some Dir ->
     exists fs', account_data_write x p fs = (fs', Ok tt)) /\
  (account_data_read p fs).1 = fs.
Proof.
  destruct (account_data_codec_reads x (conj Hx Ha)) as (bs & Hw & Hr). unfold account_data_write.
  rewrite Hw. cbn [expect_ok]. split; [|split].
  - intros fs' [_ Hfs]%fs_write_done. split; [intros q Hq; by rewrite Hfs, decide_False|]. intros Hf.
    destruct (Hr []) as (x' & Hread & Has & Hrest). rewrite app_nil_r in Hread. exists x'.
    split; [|split; [exact Has|split; [by apply account_read_as_same|exact Hrest]]].
    unfold account_data_read. erewrite mut_bind_ok by (apply fs_read_file; [by rewrite Hfs, decide_True|done]).
    by rewrite Hread.
  - intros Hcalm Hp Hd. exists (<[p := File bs]> fs). by apply fs_write_calm.
  - unfold account_data_read. pose proof (fs_read_keeps p fs) as Hk. run_mut.
    by destruct (fs_read p fs) as [fs1 [d| |]].
Qed.
End properties.

(** ** The witness *)

Import RefInstances.

Definition sample_data (a : Account) : AccountData := mkAccountData a None (RpoFalcon512Seed (replicate 32 7)).

Lemma sample_auth_ok a : auth_data_ok (ad_auth (sample_data a)).
Proof. split; [reflexivity|]. apply Forall_replicate. lia. Qed.

(** An account with the default slots is read back equal, and one with an empty slot of
    another type is not. *)
Lemma account_data_file_round_trip_witness :
  (exists a fs' x', account_data_write (OS := CalmOs) (sample_data a) ["account"%string] ∅ = (fs', Ok tt) /\
     account_data_read (OS := CalmOs) ["account"%string] fs' = (fs', Ok x') /\ a ≡ ad_account x') /\
  (exists a fs' x', account_data_write (OS := CalmOs) (sample_data a) ["account"%string] ∅ = (fs', Ok tt) /\
     account_data_read (OS := CalmOs) ["account"%string] fs' = (fs', Ok x') /\ ~ a ≡ ad_account x').
Proof.
  destruct (sample_account ONE) as (a & _ & [Hw Hfill] & _). split.
  - destruct (account_data_file_round_trip (OS := CalmOs) (sample_data a) ["account"%string] ∅ Hw (sample_auth_ok a))
      as (Hread & Hwrite & _).
    destruct Hwrite as (fs' & Hrun); [done|done|done|]. destruct (Hread fs' Hrun) as [_ Hx].
    destruct (Hx eq_refl) as (x' & Hr & _ & Hiff & _). exists a, fs', x'. split; [exact Hrun|]. split; [exact Hr|].
    by apply Hiff.
  - destruct sample_typed_storage as (s & Hs & Hnot).
    set (b := mkAccount (acc_id a) (acc_vault a) s (acc_code a) (acc_nonce a)).
    assert (Hb : account_writable b) by (destruct Hw as (? & ? & _ & ?); by split_and!).
    destruct (account_data_file_round_trip (OS := CalmOs) (sample_data b) ["account"%string] ∅ Hb (sample_auth_ok b))
      as (Hread & Hwrite & _).
    destruct Hwrite as (fs' & Hrun); [done|done|done|]. destruct (Hread fs' Hrun) as [_ Hx].
    destruct (Hx eq_refl) as (x' & Hr & _ & Hiff & _). exists b, fs', x'. split; [exact Hrun|]. split; [exact Hr|].
    intros Heq. apply Hnot. by apply Hiff.
Defined.
