(* ===== verification/BuildScript.v ===== *)
(** src/miden-lib/build.rs: the build script of miden-lib, which copies the Miden
    assembly code to the build directory, reduces the work for account seeds in test
    builds, and compiles the library, the kernel and the note scripts. *)
From Stdlib Require Import Ascii String.
From stdpp Require Import gmap strings list.
From S2P Require Import Prelude Interfaces Types Reference AccountIds Machine NoteMeta NoteContents StandardNotes FileSystem.
Local Open Scope Z_scope.

(** ** What the script calls of the assembler *)

Class BuildTools `{ML : MidenLib} := {
  ProgramAst_parse : string -> res ParsingError ProgramAst;
  io_from_parsing : ParsingError -> IoError;                        (* From<ParsingError> for io::Error *)
  LibraryNamespace : Type;
  LibraryNamespace_try_from : string -> option LibraryNamespace;
  Version : Type;
  Version_try_from : string -> option Version;
  CARGO_PKG_VERSION : string;                                       (* env!, when the script is compiled *)
  namespace_name : LibraryNamespace -> string;
  MaslLibrary : Type;
  root_ns : MaslLibrary -> LibraryNamespace;
  masl_read_from_dir : Path -> LibraryNamespace -> bool -> Version -> mut Fs IoError MaslLibrary;
  masl_write_to_dir : MaslLibrary -> Path -> mut Fs IoError unit
}.

(** The bytes of a program that was parsed are those of a program without debug
    information. A library is read without a change, and written to the file of its
    namespace, in a directory that is made when it is not there. *)
Class BuildToolsLaws `(BT : BuildTools) : Prop := {
  parsed_to_bytes (source : string) (ast : ProgramAst) : ProgramAst_parse source = Ok ast ->
    exists bare, program_bare bare /\ program_to_bytes bare = program_to_bytes ast;
  LibraryNamespace_name (s : string) (ns : LibraryNamespace) : LibraryNamespace_try_from s = Some ns -> namespace_name ns = s;
  masl_read_keeps (dir : Path) (ns : LibraryNamespace) (deps : bool) (v : Version) (fs : Fs) :
    (masl_read_from_dir dir ns deps v fs).1 = fs;
  masl_read_ns (dir : Path) (ns : LibraryNamespace) (deps : bool) (v : Version) (fs fs' : Fs) (lib : MaslLibrary) :
    masl_read_from_dir dir ns deps v fs = (fs', Ok lib) -> root_ns lib = ns;
  masl_written (lib : MaslLibrary) (dir : Path) (fs fs' : Fs) :
    masl_write_to_dir lib dir fs = (fs', Ok tt) -> fs_wf fs ->
    fs_wf fs' /\ fs_get fs' dir = Some Dir /\
    forall q, ~ q `prefix_of` dir -> q <> dir ++ [String.append (namespace_name (root_ns lib)) ".masl"] ->
      fs_get fs' q = fs_get fs q
}.

(** What the script reads of its environment. *)
Record BuildEnv := mkBuildEnv {
  CARGO_MANIFEST_DIR : option string; OUT_DIR : option string; CARGO_FEATURE_TESTING : option string }.

Definition ASSETS_DIR : string := "assets".
Definition ASM_DIR : string := "asm".
Definition ASM_MIDEN_DIR : string := "miden".
Definition ASM_NOTE_SCRIPTS_DIR : string := "note_scripts".
Definition ASM_KERNELS_DIR : string := "kernels/transaction".

Section build.
Context `{F : Field} {C : Crypto} {AS : Assembly} {P : Programs} {L : Linker} {ML : MidenLib} {BT : BuildTools} {OS : Os}.

(** [unwrap] of what an operation gives. *)
Definition unwrapped {A} (m : mut Fs IoError A) : mut Fs IoError A := fun fs => let '(fs, r) := m fs in (fs, expect_ok r).

(** ** Copying the assembly code *)

(** One entry of a directory; [todo] is the stack of directories, its top first. *)
Definition copy_entry (prefix dst : Path) (todo : list Path) (entry : res IoError Path) : mut Fs IoError (list Path) :=
  path ← lift (expect_ok entry);
  fs ← read_self;
  if is_dir fs path then
    src_dir ← unwrapped (canonicalize path);
    rel ← lift (expect (strip_prefix prefix src_dir));
    let dst_dir := dst ++ rel in
    fs ← read_self;
    _ ← (if exists_ fs dst_dir then mret tt else unwrapped (create_dir_all dst_dir));
    mret (src_dir :: todo)
  else
    rel ← lift (expect (strip_prefix prefix path));
    let dst_file := dst ++ rel in
    _ ← unwrapped (fs_copy path dst_file);
    mret todo.

Fixpoint copy_entries (prefix dst : Path) (todo : list Path) (entries : list (res IoError Path)) : mut Fs IoError (list Path) :=
  match entries with
  | [] => mret todo
  | entry :: entries' => todo ← copy_entry prefix dst todo entry; copy_entries prefix dst todo entries'
  end.

(** The loop over the directories to do; [None] when [fuel] iterations did not end it. *)
Fixpoint copy_loop (fuel : nat) (prefix dst : Path) (todo : list Path) (fs : Fs) : option (Fs * res IoError unit) :=
  match fuel with
  | O => None
  | S fuel' =>
      match todo with
      | [] => Some (fs, Ok tt)
      | goal :: todo =>
          match (entries ← unwrapped (read_dir goal); copy_entries prefix dst todo entries) fs with
          | (fs, Ok todo) => copy_loop fuel' prefix dst todo fs
          | (fs, Err e) => Some (fs, Err e)
          | (fs, Panic) => Some (fs, Panic)
          end
      end
  end.

Definition prepare_copy (src dst : Path) : mut Fs IoError Path :=
  src_dir ← unwrapped (canonicalize src);
  let prefix := parent src_dir in
  let target_dir := dst ++ [ASM_DIR] in
  fs ← read_self;
  _ ← (if exists_ fs target_dir then mret tt else unwrapped (create_dir_all target_dir));
  mret prefix.

Definition copy_directory (fuel : nat) (src dst : Path) (fs : Fs) : option (Fs * res IoError unit) :=
  match prepare_copy src dst fs with
  | (fs, Ok prefix) => copy_loop fuel prefix dst [src] fs
  | (fs, Err e) => Some (fs, Err e)
  | (fs, Panic) => Some (fs, Panic)
  end.

(** ** The library *)

(** [BufRead::lines]: the lines of a file, each without its end. *)
Definition strip_cr (line : list Z) : list Z := if decide (last line = Some 13) then removelast line else line.
Fixpoint raw_lines (line bytes : list Z) : list (list Z) :=
  match bytes with
  | [] => if decide (line = []) then [] else [line]
  | b :: bytes' => if decide (b = 10) then strip_cr line :: raw_lines [] bytes' else raw_lines (line ++ [b]) bytes'
  end.
Definition lines (bytes : list Z) : list (res IoError (list Z)) :=
  map (fun l => if utf8_valid l then Ok l else Err InvalidData) (raw_lines [] bytes).

Definition starts_with (line : list Z) (s : string) : bool := bool_decide (bytes_of_text s `prefix_of` line).

Definition decrease_pow (line : res IoError (list Z)) : res IoError (list Z) :=
  line ← line;
  Ok (if starts_with line "const.REGULAR_ACCOUNT_SEED_DIGEST_MODULUS"
      then bytes_of_text "const.REGULAR_ACCOUNT_SEED_DIGEST_MODULUS=32 # reduced via build.rs"
      else if starts_with line "const.FAUCET_ACCOUNT_SEED_DIGEST_MODULUS"
      then bytes_of_text "const.FAUCET_ACCOUNT_SEED_DIGEST_MODULUS=64 # reduced via build.rs"
      else line).

Definition write_line (patched : Path) (line : res IoError (list Z)) : mut Fs IoError unit :=
  line ← lift (expect_ok line);
  _ ← unwrapped (write_all patched line);
  unwrapped (write_all patched [10]).

Definition patch_constants (source_dir : Path) : mut Fs IoError unit :=
  let constants := source_dir ++ path_of "kernels/tx/constants.masm" in
  let patched := source_dir ++ path_of "kernels/tx/constants.masm.patched" in
  read ← unwrapped (fs_read constants);
  _ ← unwrapped (fs_create patched);
  let modified := map decrease_pow (lines read) in
  _ ← for_each (write_line patched) modified;
  _ ← unwrapped (remove_file constants);
  unwrapped (rename_file patched constants).

Definition compile_miden_lib (env : BuildEnv) (source_dir target_dir : Path) : mut Fs IoError unit :=
  let source_dir := source_dir ++ [ASM_MIDEN_DIR] in
  _ ← (if decide (CARGO_FEATURE_TESTING env = Some "1"%string) then patch_constants source_dir else mret tt);
  ns ← lift (expect (LibraryNamespace_try_from "miden"));
  version ← lift (expect (Version_try_from CARGO_PKG_VERSION));
  miden_lib ← masl_read_from_dir source_dir ns true version;
  masl_write_to_dir miden_lib target_dir.

(** ** Note scripts and the kernel *)

Definition to_str (name : string) : option string := if utf8_valid (bytes_of_text name) then Some name else None.

(** [str::to_lowercase] maps no letter out of ASCII to one of "masm". *)
Definition ascii_lowercase (c : ascii) : ascii :=
  let n := nat_of_ascii c in if decide (65 <= n <= 90)%nat then ascii_of_nat (n + 32) else c.
Definition to_lowercase (s : string) : string := string_of_list_ascii (map ascii_lowercase (list_ascii_of_string s)).

Definition is_masm_file (path : Path) : res IoError bool :=
  match extension path with
  | Some ext =>
      ext ← ok_or (to_str ext) (OtherError "invalid UTF-8 filename");
      Ok (bool_decide (to_lowercase ext = "masm"%string))
  | None => Ok false
  end.

(** The loop over the entries; an entry that cannot be read is skipped. *)
Fixpoint masm_entries (files : list Path) (entries : list (res IoError Path)) : res IoError (list Path) :=
  match entries with
  | [] => Ok files
  | Ok file_path :: entries' =>
      masm ← is_masm_file file_path;
      masm_entries (if masm : bool then files ++ [file_path] else files) entries'
  | _ :: entries' => masm_entries files entries'
  end.

(** A directory that cannot be read has no files. *)
Definition list_masm_files (dir_path : Path) : mut Fs IoError (list Path) :=
  fun fs => match read_dir dir_path fs with
            | (fs, Ok entries) => (fs, masm_entries [] entries)
            | (fs, _) => (fs, Ok [])
            end.
Definition get_masm_files (dir_path : Path) : mut Fs IoError (list Path) :=
  fs ← read_self;
  if is_dir fs dir_path then list_masm_files dir_path else mret [].

(** [if let Err(e) = fs::create_dir_all(..) { println!(..) }] *)
Definition try_create_dir_all (p : Path) : mut Fs IoError unit := fun fs => ((create_dir_all p fs).1, Ok tt).

Definition compile_note_script (target_dir masm_file_path : Path) : mut Fs IoError unit :=
  source ← read_to_string masm_file_path;
  ast ← lift (map_err io_from_parsing (ProgramAst_parse source));
  let bytes := program_to_bytes ast in
  masb_file_name ← lift (expect (last masm_file_path ≫= to_str));
  let masb_file_path := set_extension (target_dir ++ [masb_file_name]) "masb" in
  fs_write masb_file_path bytes.

Definition compile_note_scripts (source_dir target_dir : Path) : mut Fs IoError unit :=
  _ ← try_create_dir_all target_dir;
  files ← get_masm_files source_dir;
  for_each (compile_note_script target_dir) files.

Definition compile_kernels (source_dir target_dir : Path) : mut Fs IoError unit :=
  source ← read_to_string (source_dir ++ ["main.masm"%string]);
  ast ← lift (map_err io_from_parsing (ProgramAst_parse source));
  let bytes := program_to_bytes ast in
  let masb_file_path := target_dir ++ ["transaction"%string] in
  _ ← try_create_dir_all masb_file_path;
  fs_write (set_extension masb_file_path "masb") bytes.

(** ** The script *)

(** What follows the copy. *)
Definition compile_all (env : BuildEnv) (source_dir target_dir : Path) : mut Fs IoError unit :=
  _ ← compile_miden_lib env source_dir target_dir;
  _ ← compile_kernels (source_dir ++ path_of ASM_KERNELS_DIR) (target_dir ++ ["kernels"%string]);
  compile_note_scripts (source_dir ++ [ASM_NOTE_SCRIPTS_DIR]) (target_dir ++ [ASM_NOTE_SCRIPTS_DIR]).

Definition build_main (fuel : nat) (env : BuildEnv) (fs : Fs) : option (Fs * res IoError unit) :=
  match CARGO_MANIFEST_DIR env, OUT_DIR env with
  | Some crate_dir, Some build_dir =>
      let src := path_of crate_dir ++ [ASM_DIR] in
      let dst := path_of build_dir in
      match copy_directory fuel src dst fs with
      | Some (fs, Ok _) => Some (compile_all env (dst ++ [ASM_DIR]) (path_of build_dir ++ [ASSETS_DIR]) fs)
      | r => r
      end
  | _, _ => Some (fs, Panic)
  end.

(** [TransactionKernel::main] (transaction/mod.rs), of the bytes [include_bytes!] takes
    from assets/kernels/transaction.masb. *)
Definition TransactionKernel_main (kernel_bytes : list Z) : res DeserializationError ProgramAst := program_from_bytes kernel_bytes.
End build.

(** ** Lemmas: copying *)

Lemma strip_prefix_app (p q : Path) : strip_prefix p (p ++ q) = Some q.
Proof. induction p as [|x p IH]; [done|]. cbn. by rewrite decide_True. Qed.

Lemma strip_prefix_some (p q r : Path) : strip_prefix p q = Some r <-> q = p ++ r.
Proof.
  split; [|intros ->; apply strip_prefix_app]. revert q. induction p as [|x p IH]; intros q; [by intros [= <-]|].
  destruct q as [|y q]; cbn; [done|]. case_decide as He; [|done]. intros H%IH. by rewrite He, H.
Qed.

(** One new directory in a directory. *)
Lemma create_one_dir `{OS : Os} (fs : Fs) p : calm -> fs_wf fs -> fs_get fs (parent p) = Some Dir -> fs_get fs p = None ->
  create_dir_all p fs = (<[p := Dir]> fs, Ok tt).
Proof.
  intros Hcalm Hwf Hd Hp. assert (Hne : p <> []) by by intros ->.
  assert (Hway : forall q r, p = q ++ r -> r <> [] -> fs_get fs q = Some Dir).
  { intros q r Heq Hr. destruct r as [|x r _] using rev_ind; [done|]. rewrite app_assoc in Heq.
    unfold parent in Hd. rewrite Heq, removelast_last in Hd. destruct r as [|y r]; [by rewrite app_nil_r in Hd|].
    by apply (fs_wf_prefix fs q (y :: r) Dir). }
  destruct (create_dir_all_calm Hcalm fs p) as (fs' & Hrun & Hfs' & Hroot).
  { intros q r Heq d Hq. destruct r as [|x r]; [|by rewrite (Hway q (x :: r)) in Hq].
    rewrite app_nil_r in Heq. by rewrite <- Heq, Hp in Hq. }
  rewrite Hrun. f_equal. apply map_eq. intros q. destruct q as [|x q].
  { rewrite Hroot. by rewrite lookup_insert_ne. }
  rewrite <- !fs_get_cons, Hfs', fs_get_insert by done. destruct (decide (x :: q = p)) as [Heq|Hq].
  - rewrite decide_True; [done|]. rewrite Heq. by split.
  - rewrite decide_False; [done|]. intros [[r Hr] Hnone]. rewrite (Hway (x :: q) r Hr) in Hnone; [done|].
    intros ->. by rewrite app_nil_r in Hr.
Qed.

Section copying.
Context {OS : Os} {OSL : OsLaws OS} (Hcalm : calm) (fs0 : Fs) (prefix dst : Path).
Local Abbreviation src := (prefix ++ [ASM_DIR]).
Local Abbreviation target := (dst ++ [ASM_DIR]).
Context (Hwf : fs_wf fs0) (Hsrc : fs_get fs0 src = Some Dir) (Hdst : fs_get fs0 dst = Some Dir).
Context (Hapart : forall rel rel', src ++ rel <> target ++ rel').
Context (Hkind : forall rel, fs_get fs0 (src ++ rel) = Some Dir -> forall d, fs_get fs0 (target ++ rel) <> Some (File d))
  (Hkind' : forall rel d, fs_get fs0 (src ++ rel) = Some (File d) -> fs_get fs0 (target ++ rel) <> Some Dir).

(** The file system when the paths [cp] of the source are copied. *)
Record copied (cp : Path -> Prop) (fs : Fs) : Prop := mkCopied {
  copied_wf : fs_wf fs;
  copied_outside q : (forall rel, q <> target ++ rel) -> fs_get fs q = fs_get fs0 q;
  copied_new rel : cp (src ++ rel) -> fs_get fs (target ++ rel) = fs_get fs0 (src ++ rel);
  copied_old rel : ~ cp (src ++ rel) -> fs_get fs (target ++ rel) = fs_get fs0 (target ++ rel) }.

Lemma copied_source cp fs rel : copied cp fs -> fs_get fs (src ++ rel) = fs_get fs0 (src ++ rel).
Proof. intros H. apply (copied_outside _ _ H). intros rel'. apply Hapart. Qed.

Lemma copied_ext cp cp' fs : (forall rel, cp (src ++ rel) <-> cp' (src ++ rel)) -> copied cp fs -> copied cp' fs.
Proof.
  intros He [Hw Ho Hn Hold]. split; [done|done| |]; intros rel H; [apply Hn|apply Hold]; by rewrite He.
Qed.

Lemma parent_app (p rel : Path) : rel <> [] -> parent (p ++ rel) = p ++ parent rel.
Proof. intros Hr. by apply removelast_app. Qed.

Lemma source_parent rel n : rel <> [] -> fs_get fs0 (src ++ rel) = Some n -> fs_get fs0 (src ++ parent rel) = Some Dir.
Proof. intros Hr Hn. apply (proj2 Hwf) in Hn. by rewrite parent_app in Hn. Qed.

(** The directory a path is copied to is there. *)
Lemma target_parent cp fs rel n : copied cp fs -> rel <> [] -> cp (src ++ parent rel) ->
  fs_get fs0 (src ++ rel) = Some n -> fs_get fs (parent (target ++ rel)) = Some Dir.
Proof.
  intros Hc Hr Hcp Hn. rewrite parent_app by done. rewrite (copied_new _ _ Hc) by done. by eapply source_parent.
Qed.

(** A path more is copied. *)
Lemma copied_insert cp fs rel n : copied cp fs -> rel <> [] -> cp (src ++ parent rel) ->
  fs_get fs0 (src ++ rel) = Some n -> fs_get fs (target ++ rel) <> Some Dir ->
  copied (fun q => cp q \/ q = src ++ rel) (<[target ++ rel := n]> fs).
Proof.
  intros Hc Hr Hcp Hn Ht. pose proof (target_parent _ _ _ _ Hc Hr Hcp Hn) as Hp.
  assert (Hne : target ++ rel <> []) by by apply (not_root fs).
  assert (Hinj : forall (p : Path) r r', p ++ r = p ++ r' -> r = r') by by intros p r r' ?%app_inv_head.
  split.
  - apply fs_wf_insert; [apply (copied_wf _ _ Hc)|done|done].
  - intros q Hq. rewrite fs_get_insert, decide_False by done. by apply (copied_outside _ _ Hc).
  - intros rel' [Hcp'|Heq]; rewrite fs_get_insert by done; case_decide as Hd.
    + by apply Hinj in Hd as ->.
    + by apply (copied_new _ _ Hc).
    + by apply Hinj in Heq as ->.
    + apply Hinj in Heq. by rewrite Heq in Hd.
  - intros rel' Hno. rewrite fs_get_insert by done. rewrite decide_False by (intros ->%Hinj; apply Hno; by right).
    apply (copied_old _ _ Hc). intros Hcp'. apply Hno. by left.
Qed.

(** A path that is there already. *)
Lemma copied_there cp fs rel : copied cp fs -> fs_get fs (target ++ rel) = fs_get fs0 (src ++ rel) ->
  copied (fun q => cp q \/ q = src ++ rel) fs.
Proof.
  intros [Hw Ho Hn Hold] Ht. split; [done|done| |].
  - intros rel' [Hcp|Heq%app_inv_head]; [by apply Hn|by subst].
  - intros rel' Hno. apply Hold. tauto.
Qed.

(** What is at the target of a path of the source is of its kind. *)
Lemma target_kind cp fs rel d : copied cp fs ->
  (fs_get fs0 (src ++ rel) = Some Dir -> fs_get fs (target ++ rel) <> Some (File d)) /\
  (fs_get fs0 (src ++ rel) = Some (File d) -> ~ cp (src ++ rel) -> fs_get fs (target ++ rel) <> Some Dir).
Proof.
  intros Hc. split; intros Hn.
  - intros Ht. assert (Hno : ~ cp (src ++ rel)) by (intros Hcp; rewrite (copied_new _ _ Hc), Hn in Ht by done; done).
    rewrite (copied_old _ _ Hc) in Ht by done. by apply (Hkind rel Hn d).
  - intros Hno. rewrite (copied_old _ _ Hc) by done. by apply (Hkind' rel d).
Qed.

(** The directories among some paths of the source. *)
Definition dirs_of (ps : list Path) : list Path := filter (fun p => fs_get fs0 p = Some Dir) ps.

Lemma copy_entry_ok cp fs todo rel n : copied cp fs -> rel <> [] -> cp (src ++ parent rel) -> ~ cp (src ++ rel) ->
  fs_get fs0 (src ++ rel) = Some n ->
  exists fs', copy_entry prefix dst todo (Ok (src ++ rel)) fs = (fs', Ok (dirs_of [src ++ rel] ++ todo)) /\
    copied (fun q => cp q \/ q = src ++ rel) fs'.
Proof.
  intros Hc Hr Hcp Hno Hn. pose proof (target_parent _ _ _ _ Hc Hr Hcp Hn) as Hp.
  pose proof (copied_source _ _ rel Hc) as Hs. rewrite Hn in Hs.
  assert (Hrel : strip_prefix prefix (src ++ rel) = Some (ASM_DIR :: rel))
    by (rewrite <- app_assoc; apply strip_prefix_app).
  assert (Htgt : dst ++ ASM_DIR :: rel = target ++ rel) by by rewrite <- app_assoc.
  unfold copy_entry, unwrapped, dirs_of. cbn [expect_ok filter list_filter]. run_mut.
  rewrite (is_dir_calm Hcalm), Hs, Hn. destruct n as [|d].
  - rewrite bool_decide_true by done. rewrite (canonicalize_calm Hcalm) by by rewrite Hs. cbn [expect_ok].
    rewrite Hrel. cbn [expect]. rewrite Htgt, (exists_calm Hcalm), decide_True by done.
    destruct (fs_get fs (target ++ rel)) as [[|d]|] eqn:Ht.
    + exists fs. split; [done|]. apply copied_there; [done|]. by rewrite Ht, Hn.
    + exfalso. by apply (proj1 (target_kind cp fs rel d Hc)).
    + exists (<[target ++ rel := Dir]> fs). rewrite bool_decide_false by tauto.
      rewrite (create_one_dir fs (target ++ rel) Hcalm) by (apply (copied_wf _ _ Hc) || done). split; [done|].
      apply copied_insert; try done. by rewrite Ht.
  - rewrite bool_decide_false by done. rewrite Hrel. cbn [expect]. rewrite Htgt, decide_False by done.
    exists (<[target ++ rel := File d]> fs). pose proof (proj2 (target_kind cp fs rel d Hc) Hn Hno) as Ht.
    rewrite (fs_copy_calm Hcalm fs (src ++ rel) (target ++ rel) d Hs Ht Hp). split; [done|].
    by apply copied_insert.
Qed.

(** The entries of a directory. *)
Lemma copy_entries_ok cp fs todo g (ps : list Path) : copied cp fs -> cp g -> NoDup ps ->
  Forall (fun p => ~ cp p /\ fs_get fs0 p <> None /\ exists rel, p = src ++ rel /\ rel <> [] /\ src ++ parent rel = g) ps ->
  exists fs', copy_entries prefix dst todo (map Ok ps) fs = (fs', Ok (rev (dirs_of ps) ++ todo)) /\
    copied (fun q => cp q \/ q ∈ ps) fs'.
Proof.
  revert cp fs todo. induction ps as [|p ps IH]; intros cp fs todo Hc Hg Hnd Hps.
  { exists fs. split; [done|]. eapply copied_ext; [|exact Hc]. intros rel. set_solver. }
  apply NoDup_cons in Hnd as [Hnin Hnd]. apply Forall_cons in Hps as [(Hno & Hn & rel & -> & Hr & Hpar) Hps].
  destruct (fs_get fs0 (src ++ rel)) as [n|] eqn:Hget; [|done].
  destruct (copy_entry_ok cp fs todo rel n Hc Hr) as (fs1 & Hrun & Hc1); [by rewrite Hpar|done|done|].
  destruct (IH _ fs1 (dirs_of [src ++ rel] ++ todo) Hc1) as (fs' & Hrun' & Hc'); [by left|done| |].
  { apply Forall_forall. intros q Hq. rewrite Forall_forall in Hps. destruct (Hps q Hq) as (Hq1 & Hq2 & Hq3).
    split; [|by split]. intros [Hq'|Heq]; [done|]. by rewrite <- Heq in Hnin. }
  exists fs'. cbn [copy_entries map]. run_mut. rewrite Hrun, Hrun'. split.
  - do 2 f_equal. unfold dirs_of. rewrite (filter_cons _ (src ++ rel) ps). cbn [filter list_filter].
    case_decide; [|done]. cbn [rev]. by rewrite <- (app_assoc (rev _)).
  - eapply copied_ext; [|exact Hc']. intros q. set_solver.
Qed.

(** The directories of the source, and the paths that are copied when some of them
    are expanded. *)
Definition source_dirs : list Path :=
  filter (fun p => src `prefix_of` p /\ fs_get fs0 p = Some Dir) (map_to_list fs0).*1.
Definition expanded (ex : list Path) (q : Path) : Prop := fs_get fs0 q <> None /\ (q = src \/ q <> [] /\ parent q ∈ ex).

Lemma source_dirs_spec d : d ∈ source_dirs <-> src `prefix_of` d /\ fs_get fs0 d = Some Dir.
Proof.
  unfold source_dirs. rewrite list_elem_of_filter. split; [tauto|]. intros [Hp Hd]. split; [done|].
  apply list_elem_of_fmap. exists (d, Dir). split; [done|]. apply elem_of_map_to_list. destruct d; [|done].
  apply prefix_nil_inv in Hp. by destruct prefix.
Qed.

Record loop_inv (ex todo : list Path) (fs : Fs) : Prop := mkLoopInv {
  li_copied : copied (expanded ex) fs;
  li_nodup : NoDup (todo ++ ex);
  li_dirs d : d ∈ todo ++ ex <-> d ∈ source_dirs /\ expanded ex d }.

(** The entries of a goal of the loop are new. *)
Lemma goal_children ex todo g fs : loop_inv ex (g :: todo) fs ->
  fs_get fs g = Some Dir /\ expanded ex g /\ NoDup (os_order fs (children fs g)) /\
  (forall p, p ∈ os_order fs (children fs g) <-> fs_get fs0 p <> None /\ p <> [] /\ parent p = g) /\
  Forall (fun p => ~ expanded ex p /\ fs_get fs0 p <> None /\ exists rel, p = src ++ rel /\ rel <> [] /\ src ++ parent rel = g)
    (os_order fs (children fs g)).
Proof.
  intros [Hc Hnd Hd]. destruct (proj1 (Hd g)) as [[[grel Hg] Hgd]%source_dirs_spec Hge]; [left|].
  assert (Hform : forall p, p <> [] -> parent p = g -> exists rel, p = src ++ rel /\ rel <> [] /\ src ++ parent rel = g).
  { intros p Hne Hp. destruct p as [|x p _] using rev_ind; [done|]. unfold parent in *. rewrite removelast_last in Hp.
    exists (grel ++ [x]). rewrite Hp, Hg, removelast_last. split; [by rewrite <- app_assoc|]. split; [by destruct grel|done]. }
  assert (Hsame : forall p, p <> [] -> parent p = g -> fs_get fs p = fs_get fs0 p).
  { intros p Hne Hp. destruct (Hform p Hne Hp) as (rel & -> & _). by apply (copied_source (expanded ex)). }
  assert (Hin : forall p, p ∈ os_order fs (children fs g) <-> fs_get fs0 p <> None /\ p <> [] /\ parent p = g).
  { intros p. rewrite os_order_permutes, children_spec by apply (copied_wf _ _ Hc). split; intros (Hp & Hne & Hpar).
    - by rewrite Hsame in Hp.
    - by rewrite Hsame. }
  split; [rewrite Hg; rewrite (copied_source _ _ _ Hc); by rewrite <- Hg|]. split; [done|].
  split; [rewrite os_order_permutes; apply children_nodup|]. split; [done|].
  apply Forall_forall. intros p Hp. apply Hin in Hp as (Hp & Hne & Hpar). destruct (Hform p Hne Hpar) as (rel & Heq & Hrel).
  split; [|split; [done|by exists rel]]. intros [_ [Hsrc'|[_ Hex]]].
  - destruct Hrel as [Hrel _]. rewrite Heq in Hsrc'. rewrite <- (app_nil_r src) in Hsrc' at 2. by apply app_inv_head in Hsrc'.
  - rewrite Hpar in Hex. apply NoDup_cons in Hnd as [Hnin _]. set_solver.
Qed.

Lemma loop_inv_step ex todo g fs fs' : let ps := os_order fs (children fs g) in loop_inv ex (g :: todo) fs ->
  copied (fun q => expanded ex q \/ q ∈ ps) fs' -> loop_inv (g :: ex) (rev (dirs_of ps) ++ todo) fs'.
Proof.
  intros ps Hinv Hc'. destruct (goal_children ex todo g fs Hinv) as (Hg & Hge & Hnd & Hin & Hnew). fold ps in Hnd, Hin, Hnew.
  assert (Hexp : forall q, expanded (g :: ex) q <-> expanded ex q \/ q ∈ ps).
  { intros q. rewrite Hin. unfold expanded. rewrite elem_of_cons. tauto. }
  rewrite Forall_forall in Hnew. destruct Hinv as [Hc Hnd' Hd].
  assert (Hdirs : forall d, d ∈ rev (dirs_of ps) <-> fs_get fs0 d = Some Dir /\ d ∈ ps).
  { intros d. rewrite <- (Permutation_rev (dirs_of ps)). unfold dirs_of. by rewrite list_elem_of_filter. }
  split.
  - eapply copied_ext; [|exact Hc']. intros rel. by rewrite Hexp.
  - rewrite <- app_assoc. apply NoDup_app. split; [|split].
    + rewrite <- Permutation_rev. by apply NoDup_filter.
    + intros d [_ Hdp]%Hdirs Hin'. destruct (Hnew d Hdp) as [Hno _]. apply Hno, (proj1 (Hd d)). set_solver.
    + rewrite <- Permutation_middle. exact Hnd'.
  - intros d. rewrite <- app_assoc, elem_of_app, Hdirs, <- Permutation_middle, app_comm_cons, Hd, Hexp, source_dirs_spec.
    split; [|tauto]. intros [[Hdir Hp]|[Hdir He]]; [|tauto]. split; [|by right]. split; [|done].
    destruct (Hnew d Hp) as (_ & _ & rel & -> & _). by exists rel.
Qed.

(** The loop ends: every round expands another directory of the source. *)
Lemma copy_loop_ok fuel ex todo fs : loop_inv ex todo fs -> (length source_dirs < fuel + length ex)%nat ->
  exists fs' ex', copy_loop fuel prefix dst todo fs = Some (fs', Ok tt) /\ loop_inv ex' [] fs'.
Proof.
  revert ex todo fs. induction fuel as [|fuel IH]; intros ex todo fs Hinv Hfuel.
  { exfalso. destruct Hinv as [_ Hnd Hd]. apply NoDup_app in Hnd as (_ & _ & Hnd).
    assert (Hsub : ex ⊆+ source_dirs) by (apply NoDup_submseteq; [done|]; intros d Hdex; apply Hd; set_solver).
    apply submseteq_length in Hsub. lia. }
  destruct todo as [|g todo]; [by exists fs, ex|]. cbn [copy_loop].
  destruct (goal_children ex todo g fs Hinv) as (Hg & Hge & Hnd & Hin & Hnew).
  destruct (copy_entries_ok (expanded ex) fs todo g _ (li_copied _ _ _ Hinv) Hge Hnd Hnew) as (fs1 & Hrun & Hc1).
  unfold unwrapped. run_mut. rewrite (read_dir_calm Hcalm fs g Hg). cbn [expect_ok]. rewrite Hrun.
  apply (IH (g :: ex)); [by apply (loop_inv_step ex todo g fs)|]. cbn [length]. lia.
Qed.

(** At the end every path of the source is copied. *)
Lemma all_expanded ex fs rel : loop_inv ex [] fs -> fs_get fs0 (src ++ rel) <> None -> expanded ex (src ++ rel).
Proof.
  intros [_ _ Hd]. induction rel as [|x rel IH] using rev_ind; intros Hn; [rewrite app_nil_r in *; split; [done|by left]|].
  split; [done|]. right. split; [by destruct prefix|]. rewrite app_assoc. unfold parent. rewrite removelast_last.
  destruct (fs_get fs0 (src ++ rel ++ [x])) as [n|] eqn:Hget; [|done]. rewrite app_assoc in Hget.
  apply (proj2 Hwf) in Hget. unfold parent in Hget. rewrite removelast_last in Hget.
  apply (Hd (src ++ rel)). split; [apply source_dirs_spec; by split; [exists rel|]|]. apply IH. by rewrite Hget.
Qed.

Lemma prepare_copy_ok : exists fs, prepare_copy src dst fs0 = (fs, Ok prefix) /\ loop_inv [] [src] fs.
Proof.
  unfold prepare_copy, unwrapped. run_mut. rewrite (canonicalize_calm Hcalm) by by rewrite Hsrc. cbn [expect_ok].
  unfold parent. rewrite removelast_last, (exists_calm Hcalm).
  assert (Hcp : forall fs, fs_wf fs -> (forall q, q <> target -> fs_get fs q = fs_get fs0 q) -> fs_get fs target = Some Dir ->
    loop_inv [] [src] fs).
  { intros fs Hw Ho Ht. assert (Hexp : forall q, expanded [] q <-> q = src).
    { intros q. unfold expanded. split; [set_solver|]. intros ->. split; [by rewrite Hsrc|by left]. }
    assert (Hnil : forall rel : Path, src ++ rel = src -> rel = []).
    { intros rel Heq. rewrite <- (app_nil_r src) in Heq at 2. by apply app_inv_head in Heq. }
    split; [split|apply NoDup_singleton|].
    - done.
    - intros q Hq. apply Ho. intros ->. apply (Hq []). by rewrite app_nil_r.
    - intros rel ->%Hexp%Hnil. by rewrite !app_nil_r, Hsrc.
    - intros rel Hno. apply Ho. intros Heq. apply Hno, Hexp. rewrite <- (app_nil_r target) in Heq at 2.
      apply app_inv_head in Heq as ->. by rewrite app_nil_r.
    - intros d. rewrite app_nil_r, list_elem_of_singleton, source_dirs_spec, Hexp. split; [|tauto]. intros ->. by split. }
  assert (Hnf : forall d, fs_get fs0 target <> Some (File d)).
  { intros d. rewrite <- (app_nil_r target). apply Hkind. by rewrite app_nil_r. }
  destruct (fs_get fs0 target) as [[|d]|] eqn:Ht; [|by destruct (Hnf d)|].
  - exists fs0. rewrite bool_decide_true by done. split; [done|]. by apply Hcp.
  - rewrite bool_decide_false by tauto. assert (Hpt : fs_get fs0 (parent target) = Some Dir) by (unfold parent; by rewrite removelast_last).
    rewrite (create_one_dir fs0 target Hcalm Hwf Hpt Ht). exists (<[target := Dir]> fs0). split; [done|].
    assert (Hne : target <> []) by by destruct dst. apply Hcp.
    + apply fs_wf_insert; [done|done|by rewrite Ht].
    + intros q Hq. by rewrite fs_get_insert, decide_False.
    + by rewrite fs_get_insert, decide_True.
Qed.

Lemma copy_directory_ok fuel : (length source_dirs < fuel)%nat ->
  exists fs', copy_directory fuel src dst fs0 = Some (fs', Ok tt) /\ fs_wf fs' /\
    forall q, fs_get fs' q = match strip_prefix target q with
                             | Some rel => match fs_get fs0 (src ++ rel) with Some n => Some n | None => fs_get fs0 q end
                             | None => fs_get fs0 q
                             end.
Proof.
  intros Hfuel. unfold copy_directory. destruct prepare_copy_ok as (fs1 & Hrun & Hinv). rewrite Hrun.
  destruct (copy_loop_ok fuel [] [src] fs1 Hinv) as (fs' & ex & Hloop & Hend); [cbn; lia|].
  exists fs'. split; [exact Hloop|]. pose proof (li_copied _ _ _ Hend) as Hc. split; [apply (copied_wf _ _ Hc)|].
  intros q. destruct (strip_prefix target q) as [rel|] eqn:Hs.
  - apply strip_prefix_some in Hs as ->. destruct (fs_get fs0 (src ++ rel)) as [n|] eqn:Hn.
    + rewrite (copied_new _ _ Hc); [done|]. apply (all_expanded ex fs'); [done|by rewrite Hn].
    + apply (copied_old _ _ Hc). intros [Hno _]. by rewrite Hn in Hno.
  - apply (copied_outside _ _ Hc). intros rel ->. by rewrite strip_prefix_app in Hs.
Qed.
End copying.

(** ** The work for account seeds in test builds *)

(** A line of the kernel's constants that defines the constant [name] as [v]. *)
Fixpoint parse_digits (acc : Z) (bs : list Z) : Z :=
  match bs with
  | b :: bs' => if (48 <=? b) && (b <=? 57) then parse_digits (10 * acc + (b - 48)) bs' else acc
  | [] => acc
  end.
Definition const_line (name : string) (line : list Z) (v : Z) : Prop :=
  exists rest, line = bytes_of_text (String.append "const." (String.append name "=")) ++ rest /\ v = parse_digits 0 rest.

(** What a line becomes. *)
Definition reduced (line : list Z) : list Z := match decrease_pow (Ok line) with Ok l => l | _ => line end.

(** The kernel takes the low half of the last element of the digest modulo the
    constant (asm/miden/kernels/tx/account.masm): it accepts what
    [validate_seed_digest] accepts of the accounts of a kind. *)
Definition modulus_accepts `{F : Field} {C : Crypto} {AS : Assembly} {FE : Features} (regular : bool) (v : Z) : Prop :=
  forall d : Digest, (type_bits (as_int (w0 d)) < 2 <-> regular = true) ->
    (validate_seed_digest d = Ok tt <-> (as_int (w3 d) mod 2 ^ 32) mod v = 0).

Lemma pos_trailing_zeros_divides (k : nat) (p : positive) : Zpos p mod 2 ^ Z.of_nat k = 0 <-> Z.of_nat k <= pos_trailing_zeros p.
Proof.
  revert p. induction k as [|k IH]; intros p.
  { rewrite Z.mod_1_r. split; [|done]. intros _. induction p; cbn; lia. }
  rewrite Nat2Z.inj_succ, Z.pow_succ_r by lia. destruct p as [p|p|]; cbn [pos_trailing_zeros].
  - split; [|lia]. intros H. apply Z.mod_divide in H as [q Hq]; lia.
  - rewrite Pos2Z.inj_xO, Z.mul_mod_distr_l by lia. specialize (IH p). lia.
  - split; [|lia]. intros H. apply Z.mod_divide in H as [q Hq]; lia.
Qed.

Lemma trailing_zeros_divides (k v : Z) : 0 <= k <= 64 -> 0 <= v -> v mod 2 ^ k = 0 <-> k <= trailing_zeros v.
Proof.
  intros Hk Hv. destruct v as [|p|]; [cbn; rewrite Z.mod_0_l by lia; lia| |lia].
  rewrite <- (Z2Nat.id k) by lia. apply pos_trailing_zeros_divides.
Qed.

Lemma modulus_of_bits `{F : Field} {FL : FieldLaws F} {C : Crypto} {AS : Assembly} {FE : Features} regular :
  modulus_accepts regular (2 ^ (if regular : bool then REGULAR_ACCOUNT_SEED_DIGEST_MIN_TRAILING_ZEROS
                                else FAUCET_SEED_DIGEST_MIN_TRAILING_ZEROS)).
Proof.
  intros d Hreg. rewrite validate_seed_digest_ok. unfold digest_pow. pose proof (as_int_range (w3 d)).
  set (k := if regular then _ else _).
  assert (Hk : (if decide (type_bits (as_int (w0 d)) < 2) then REGULAR_ACCOUNT_SEED_DIGEST_MIN_TRAILING_ZEROS
    else FAUCET_SEED_DIGEST_MIN_TRAILING_ZEROS) = k).
  { unfold k. destruct regular; [rewrite decide_True by tauto; done|]. rewrite decide_False; [done|]. intros Hlt%Hreg. done. }
  rewrite Hk. assert (Hr : 0 <= k <= 32).
  { unfold k, REGULAR_ACCOUNT_SEED_DIGEST_MIN_TRAILING_ZEROS, FAUCET_SEED_DIGEST_MIN_TRAILING_ZEROS.
    by destruct regular, testing. }
  rewrite <- trailing_zeros_divides by lia. replace 32 with (k + (32 - k)) by lia. rewrite Z.pow_add_r by lia.
  rewrite Z.rem_mul_r by lia. rewrite Z.mul_comm, Z.mod_add by lia. by rewrite Z.mod_mod by lia.
Qed.

Lemma decrease_pow_ok l : decrease_pow (Ok l) = Ok (reduced l).
Proof. done. Qed.


Definition REGULAR_MODULUS : string := "REGULAR_ACCOUNT_SEED_DIGEST_MODULUS".
Definition FAUCET_MODULUS : string := "FAUCET_ACCOUNT_SEED_DIGEST_MODULUS".

Lemma reduced_cases l :
  (starts_with l "const.REGULAR_ACCOUNT_SEED_DIGEST_MODULUS" = true /\
     reduced l = bytes_of_text "const.REGULAR_ACCOUNT_SEED_DIGEST_MODULUS=32 # reduced via build.rs") \/
  (starts_with l "const.FAUCET_ACCOUNT_SEED_DIGEST_MODULUS" = true /\
     reduced l = bytes_of_text "const.FAUCET_ACCOUNT_SEED_DIGEST_MODULUS=64 # reduced via build.rs") \/
  (starts_with l "const.REGULAR_ACCOUNT_SEED_DIGEST_MODULUS" = false /\
     starts_with l "const.FAUCET_ACCOUNT_SEED_DIGEST_MODULUS" = false /\ reduced l = l).
Proof.
  unfold reduced, decrease_pow. cbn [mbind res_bind].
  destruct (starts_with l "const.REGULAR_ACCOUNT_SEED_DIGEST_MODULUS"); [by left|right].
  destruct (starts_with l "const.FAUCET_ACCOUNT_SEED_DIGEST_MODULUS"); [by left|by right].
Qed.

Lemma starts_with_false l s rest : starts_with l s = false -> l <> bytes_of_text s ++ rest.
Proof. intros H%bool_decide_eq_false ->. apply H. by exists rest. Qed.

Lemma regular_reduced l v : const_line REGULAR_MODULUS (reduced l) v -> v = 32.
Proof.
  intros (rest & Hl & ->). destruct (reduced_cases l) as [[_ Hr]|[[_ Hr]|(Hno & _ & Hr)]]; rewrite Hr in Hl.
  - vm_compute in Hl. by injection Hl as <-.
  - vm_compute in Hl. discriminate.
  - exfalso. by apply (starts_with_false _ _ ([61] ++ rest) Hno).
Qed.

Lemma faucet_reduced l v : const_line FAUCET_MODULUS (reduced l) v -> v = 64.
Proof.
  intros (rest & Hl & ->). destruct (reduced_cases l) as [[_ Hr]|[[_ Hr]|(_ & Hno & Hr)]]; rewrite Hr in Hl.
  - vm_compute in Hl. discriminate.
  - vm_compute in Hl. by injection Hl as <-.
  - exfalso. by apply (starts_with_false _ _ ([61] ++ rest) Hno).
Qed.

(** Writing the lines. *)
Definition unlines (ls : list (list Z)) : list Z := concat (map (fun l => l ++ [10]) ls).

Lemma write_lines_calm `{OS : Os} (fs : Fs) p c (ls : list (list Z)) : calm -> fs_get fs p = Some (File c) ->
  for_each (write_line p) (map Ok ls) fs = (<[p := File (c ++ unlines ls)]> fs, Ok tt).
Proof.
  intros Hcalm. revert fs c. induction ls as [|l ls IH]; intros fs c Hp.
  { unfold unlines. cbn. rewrite app_nil_r. run_mut. f_equal. symmetry. apply insert_id. by destruct p. }
  assert (Hne : p <> []) by by intros ->. cbn [map]. rewrite for_each_cons. unfold write_line at 1, unwrapped. run_mut.
  cbn [expect_ok]. rewrite (write_all_calm Hcalm fs p c l Hp). cbn [expect_ok].
  rewrite (write_all_calm Hcalm _ p (c ++ l)) by by rewrite fs_get_insert, decide_True. cbn [expect_ok].
  rewrite (IH _ ((c ++ l) ++ [10])) by by rewrite fs_get_insert, decide_True. rewrite !insert_insert_eq.
  unfold unlines. cbn [map concat]. by rewrite <- !app_assoc.
Qed.

Lemma lines_valid bytes : Forall (fun l => utf8_valid l = true) (raw_lines [] bytes) -> lines bytes = map Ok (raw_lines [] bytes).
Proof.
  unfold lines. induction 1 as [|l ls Hl _ IH]; [done|]. cbn [map]. by rewrite Hl, IH.
Qed.

Section patching.
Context {OS : Os} (Hcalm : calm) (fs : Fs) (dir : Path) (bytes : list Z).
Local Abbreviation constants := (dir ++ path_of "kernels/tx/constants.masm").
Local Abbreviation patched := (dir ++ path_of "kernels/tx/constants.masm.patched").
Context (Hwf : fs_wf fs) (Hc : fs_get fs constants = Some (File bytes)) (Hp : fs_get fs patched <> Some Dir).
Context (Hutf : Forall (fun l => utf8_valid l = true) (raw_lines [] bytes)).

Lemma constants_paths : parent constants = parent patched /\ constants <> patched /\ constants <> [] /\ patched <> [] /\
  fs_get fs (parent patched) = Some Dir.
Proof.
  assert (Hpar : parent constants = parent patched) by (unfold parent; by rewrite !removelast_app).
  split; [done|]. split; [by intros ?%app_inv_head|]. split; [by destruct dir|]. split; [by destruct dir|].
  rewrite <- Hpar. by apply (proj2 Hwf) in Hc.
Qed.

Lemma patch_constants_ok : exists fs', patch_constants dir fs = (fs', Ok tt) /\ fs_wf fs' /\
  forall q, fs_get fs' q = if decide (q = constants) then Some (File (unlines (map reduced (raw_lines [] bytes))))
                           else if decide (q = patched) then None else fs_get fs q.
Proof.
  destruct constants_paths as (Hpar & Hne & Hcne & Hpne & Hd). set (new := unlines (map reduced (raw_lines [] bytes))).
  assert (Hget : forall q, fs_get (<[constants := File new]> (delete patched (delete constants (<[patched := File new]> fs)))) q =
    if decide (q = constants) then Some (File new) else if decide (q = patched) then None else fs_get fs q).
  { intros q. rewrite fs_get_insert by done. case_decide as Hq; [done|]. rewrite fs_get_delete by done.
    case_decide as Hq'; [done|]. rewrite fs_get_delete, decide_False by done. by rewrite fs_get_insert, decide_False. }
  eexists. split; [|split; [|exact Hget]].
  - unfold patch_constants, unwrapped. run_mut. rewrite (fs_read_calm Hcalm fs constants bytes Hc).
    cbn [expect_ok]. rewrite (fs_create_calm Hcalm fs patched Hp Hd). cbn [expect_ok].
    assert (Hmod : map decrease_pow (lines bytes) = map Ok (map reduced (raw_lines [] bytes))) by by rewrite lines_valid, !map_map.
    rewrite Hmod, (write_lines_calm _ patched [] _ Hcalm) by by rewrite fs_get_insert, decide_True. rewrite insert_insert_eq.
    rewrite (remove_file_calm Hcalm _ constants bytes) by by rewrite fs_get_insert, decide_False. cbn [expect_ok].
    rewrite (rename_file_calm Hcalm _ patched constants new); [reflexivity|..].
    + by rewrite fs_get_delete, decide_False, fs_get_insert, decide_True.
    + by rewrite fs_get_delete, decide_True.
    + rewrite fs_get_delete, decide_False by congruence. rewrite fs_get_insert, decide_False by congruence. congruence.
  - split; [rewrite lookup_insert_ne, !lookup_delete_ne, lookup_insert_ne by done; apply Hwf|]. intros q n.
    rewrite (Hget q), (Hget (parent q)). intros Hq.
    assert (Hdir : fs_get fs (parent q) = Some Dir).
    { case_decide as Hqc; [rewrite Hqc; congruence|]. case_decide as Hqp; [done|]. by apply (proj2 Hwf) in Hq. }
    rewrite !decide_False by congruence. done.
Qed.
End patching.

Section reducing.
Context `{F : Field} {FL : FieldLaws F} {C : Crypto} {AS : Assembly} {OS : Os}.

(** C38: in a test build the kernel asks of an account seed the work that the test build
    of the objects asks: the file of the kernel's constants is rewritten line by
    line, nothing else is changed, a line that does not define one of the two moduli
    stays as it is, and one that does defines the modulus that accepts exactly the
    digests [validate_seed_digest] accepts with the testing feature on. *)
Theorem test_build_reduces_pow (fs : Fs) (dir : Path) (bytes : list Z) (Hcalm : calm) (Hwf : fs_wf fs) :
  let constants := dir ++ path_of "kernels/tx/constants.masm" in
  let patched := dir ++ path_of "kernels/tx/constants.masm.patched" in
  let ls := raw_lines [] bytes in
  fs_get fs constants = Some (File bytes) -> fs_get fs patched <> Some Dir -> Forall (fun l => utf8_valid l = true) ls ->
  exists fs', patch_constants dir fs = (fs', Ok tt) /\
    (forall q, fs_get fs' q = if decide (q = constants) then Some (File (unlines (map reduced ls)))
                              else if decide (q = patched) then None else fs_get fs q) /\
    forall l, l ∈ ls ->
      (starts_with l (String.append "const." REGULAR_MODULUS) = false ->
       starts_with l (String.append "const." FAUCET_MODULUS) = false -> reduced l = l) /\
      (forall v, const_line REGULAR_MODULUS (reduced l) v -> modulus_accepts (FE := true) true v) /\
      (forall v, const_line FAUCET_MODULUS (reduced l) v -> modulus_accepts (FE := true) false v).
Proof.
  intros constants patched ls Hc Hp Hutf.
  destruct (patch_constants_ok Hcalm fs dir bytes Hwf Hc Hp Hutf) as (fs' & Hrun & _ & Hfs').
  exists fs'. split; [exact Hrun|]. split; [exact Hfs'|]. intros l _. split; [|split].
  - change (String.append "const." REGULAR_MODULUS) with "const.REGULAR_ACCOUNT_SEED_DIGEST_MODULUS"%string.
    change (String.append "const." FAUCET_MODULUS) with "const.FAUCET_ACCOUNT_SEED_DIGEST_MODULUS"%string.
    intros H1 H2. destruct (reduced_cases l) as [[Hs _]|[[Hs _]|(_ & _ & Hr)]]; congruence.
  - intros v ->%regular_reduced. exact (modulus_of_bits (FE := true) true).
  - intros v ->%faucet_reduced. exact (modulus_of_bits (FE := true) false).
Qed.
End reducing.

(** ** Note scripts *)

Section scripts.
Context `{F : Field} {C : Crypto} {AS : Assembly} {P : Programs} {PL : ProgramLaws P} {L : Linker} {ML : MidenLib}
  {BT : BuildTools} {BTL : BuildToolsLaws BT} {OS : Os} {OSL : OsLaws OS} (Hcalm : calm).

(** The path of a source file whose text is that of a program. *)
Definition script_of (fs : Fs) (p : Path) (ast : ProgramAst) : Prop :=
  exists d name, fs_get fs p = Some (File d) /\ utf8_valid d = true /\ ProgramAst_parse (text_of d) = Ok ast /\
    last p = Some name /\ utf8_valid (bytes_of_text name) = true.

(** Where the program of a source file goes. *)
Definition script_out (target p : Path) : Path := set_extension (target ++ [default EmptyString (last p)]) "masb".

(** The entries of a directory of sources: the programs among them can be read. *)
Definition sources_ok (fs : Fs) (source : Path) : Prop :=
  forall p, p ∈ children fs source -> exists masm, is_masm_file p = Ok masm /\
    (masm = true -> exists ast, script_of fs p ast).

Definition is_masm (p : Path) : bool := match is_masm_file p with Ok b => b | _ => false end.
Definition masm_children (fs : Fs) (source : Path) : list Path :=
  filter (fun p => is_masm p = true) (os_order fs (children fs source)).

Lemma script_out_parent target p : parent (script_out target p) = target /\ script_out target p <> [].
Proof.
  unfold script_out, set_extension, parent. rewrite last_snoc, !removelast_last. split; [done|]. by destruct target.
Qed.

Lemma script_out_not_prefix target p : ~ script_out target p `prefix_of` target.
Proof.
  intros Hp%prefix_length. unfold script_out, set_extension in Hp. rewrite last_snoc, removelast_last, length_app in Hp.
  cbn in Hp. lia.
Qed.

Lemma masm_entries_ok files ps : Forall (fun p => exists b, is_masm_file p = Ok b) ps ->
  masm_entries files (map Ok ps) = Ok (files ++ filter (fun p => is_masm p = true) ps).
Proof.
  intros Hps. revert files. induction Hps as [|p ps [b Hb] _ IH]; intros files; [cbn; by rewrite app_nil_r|].
  assert (Hm : is_masm p = b) by (unfold is_masm; by rewrite Hb).
  cbn [map masm_entries]. rewrite Hb. cbn [mbind res_bind]. rewrite IH, filter_cons.
  destruct b; [rewrite decide_True by done; by rewrite <- app_assoc|by rewrite decide_False by by rewrite Hm].
Qed.

Lemma get_masm_files_ok fs source : fs_get fs source = Some Dir -> sources_ok fs source ->
  get_masm_files source fs = (fs, Ok (masm_children fs source)).
Proof.
  intros Hd Hok. unfold get_masm_files, list_masm_files. run_mut. rewrite (is_dir_calm Hcalm), bool_decide_true by done.
  rewrite (read_dir_calm Hcalm fs source Hd), masm_entries_ok; [done|]. apply Forall_forall. intros p Hp.
  rewrite os_order_permutes in Hp. destruct (Hok p Hp) as (b & Hb & _). by exists b.
Qed.

Lemma compile_note_script_ok fs target p ast : script_of fs p ast -> fs_get fs target = Some Dir ->
  fs_get fs (script_out target p) <> Some Dir ->
  compile_note_script target p fs = (<[script_out target p := File (program_to_bytes ast)]> fs, Ok tt).
Proof.
  intros (d & name & Hp & Hutf & Hast & Hname & Hstr) Ht Hout. destruct (script_out_parent target p) as [Hpar _].
  unfold compile_note_script, read_to_string. run_mut. rewrite (fs_read_calm Hcalm fs p d Hp), Hutf, Hast.
  cbn [map_err]. rewrite Hname. cbn [option_bind]. unfold to_str. rewrite Hstr. cbn [expect].
  unfold script_out in *. rewrite Hname in *. cbn [default] in *. apply (fs_write_calm Hcalm); [done|by rewrite Hpar].
Qed.

(** The programs of all files, when no two go to the same path. *)
Lemma compile_each_ok fs target (files : list Path) : fs_get fs target = Some Dir ->
  NoDup (map (script_out target) files) ->
  Forall (fun p => parent p <> target /\ (exists ast, script_of fs p ast) /\ fs_get fs (script_out target p) <> Some Dir) files ->
  exists fs', for_each (compile_note_script target) files fs = (fs', Ok tt) /\
    (forall p ast, p ∈ files -> script_of fs p ast -> fs_get fs' (script_out target p) = Some (File (program_to_bytes ast))) /\
    forall q, q ∉ map (script_out target) files -> fs_get fs' q = fs_get fs q.
Proof.
  revert fs. induction files as [|p files IH]; intros fs Ht Hnd Hall; [exists fs; split; [done|]; split; [set_solver|done]|].
  cbn [map] in Hnd. apply NoDup_cons in Hnd as [Hnin Hnd]. apply Forall_cons in Hall as [(Hpp & (ast & Hast) & Hout) Hall].
  destruct (script_out_parent target p) as [Hpar Hne]. rewrite Forall_forall in Hall.
  set (fs1 := <[script_out target p := File (program_to_bytes ast)]> fs).
  assert (Hget : forall q, fs_get fs1 q = if decide (q = script_out target p) then Some (File (program_to_bytes ast)) else fs_get fs q)
    by (intros q; by apply fs_get_insert).
  assert (Hkeep : forall q, q <> script_out target p -> fs_get fs1 q = fs_get fs q) by (intros q Hq; by rewrite Hget, decide_False).
  assert (Hscript : forall q a, parent q <> target -> script_of fs1 q a <-> script_of fs q a).
  { intros q a Hq. unfold script_of. rewrite Hkeep; [done|]. intros ->. done. }
  destruct (IH fs1) as (fs' & Hrun & Hdone & Hothers); [|done| |].
  { rewrite Hkeep; [done|]. intros Heq. rewrite Heq in Ht. done. }
  { apply Forall_forall. intros q Hq. destruct (Hall q Hq) as (Hqp & (a & Ha) & Hqo). split; [done|]. split; [exists a; by apply Hscript|].
    rewrite Hkeep; [done|]. intros Heq. apply Hnin. rewrite <- Heq. by apply list_elem_of_fmap_2. }
  exists fs'. rewrite for_each_cons, (compile_note_script_ok fs target p ast Hast Ht Hout). split; [exact Hrun|]. split.
  - intros q a [->|Hq]%elem_of_cons Ha.
    + rewrite Hothers by done. rewrite Hget, decide_True by done.
      destruct Hast as (d & n & Hd & _ & Hp & _), Ha as (d' & n' & Hd' & _ & Hp' & _). congruence.
    + apply Hdone; [done|]. apply Hscript; [|done]. by destruct (Hall q Hq).
  - intros q Hq. cbn [map] in Hq. apply not_elem_of_cons in Hq as [Hq1 Hq2]. by rewrite Hothers, Hkeep.
Qed.

(** The bytes of a program that was parsed give the program back, without what its
    bytes leave out, and so a note script. *)
Lemma compiled_program_loads source ast : ProgramAst_parse source = Ok ast ->
  exists bare, program_to_bytes bare = program_to_bytes ast /\ program_from_bytes (program_to_bytes ast) = Ok bare.
Proof.
  intros (bare & Hbare & Hbytes)%parsed_to_bytes. exists bare. split; [done|].
  pose proof (program_bytes_round_trip bare [] Hbare) as Hrt. by rewrite app_nil_r, Hbytes in Hrt.
Qed.

Lemma compiled_script_loads source ast : ProgramAst_parse source = Ok ast ->
  exists bare, program_to_bytes bare = program_to_bytes ast /\
    build_note_script (program_to_bytes ast) = ('(note_script, _) ← note_script_new bare kernel_assembler; Ok note_script).
Proof.
  intros (bare & Hbytes & Hload)%compiled_program_loads. exists bare. split; [done|]. unfold build_note_script. by rewrite Hload.
Qed.

(** The trees under two paths are the same. *)
Definition same_tree (fs fs' : Fs) (p p' : Path) : Prop := forall rel, fs_get fs (p ++ rel) = fs_get fs' (p' ++ rel).

Lemma same_tree_children fs fs' p p' n : fs_wf fs -> fs_wf fs' -> same_tree fs fs' p p' ->
  p ++ [n] ∈ children fs p <-> p' ++ [n] ∈ children fs' p'.
Proof.
  intros Hw Hw' Hs. rewrite !children_spec by (apply Hw || apply Hw'). unfold parent. rewrite !removelast_last, (Hs [n]).
  assert (Hne : forall q : Path, q ++ [n] <> []) by by intros []. pose proof (Hne p). pose proof (Hne p'). tauto.
Qed.

Lemma child_form fs p q : fs_wf fs -> q ∈ children fs p -> exists n, q = p ++ [n].
Proof.
  intros Hw (_ & Hne & Hp)%children_spec; [|apply Hw]. destruct q as [|n q _] using rev_ind; [done|].
  unfold parent in Hp. rewrite removelast_last in Hp. exists n. by rewrite Hp.
Qed.

Lemma is_masm_file_last p p' n : is_masm_file (p ++ [n]) = is_masm_file (p' ++ [n]).
Proof. unfold is_masm_file, extension. by rewrite !last_snoc. Qed.

Lemma is_masm_last p p' n : is_masm (p ++ [n]) = is_masm (p' ++ [n]).
Proof. unfold is_masm. by rewrite (is_masm_file_last p p'). Qed.

Lemma script_of_same fs fs' p p' n ast : same_tree fs fs' p p' -> script_of fs (p ++ [n]) ast <-> script_of fs' (p' ++ [n]) ast.
Proof. intros Hs. unfold script_of. by rewrite (Hs [n]), !last_snoc. Qed.

Lemma script_out_last target p p' n : script_out target (p ++ [n]) = script_out target (p' ++ [n]).
Proof. unfold script_out. by rewrite !last_snoc. Qed.

Lemma masm_children_spec fs source p : p ∈ masm_children fs source <-> p ∈ children fs source /\ is_masm p = true.
Proof. unfold masm_children. rewrite list_elem_of_filter, os_order_permutes. tauto. Qed.

(** The note scripts, into a directory that is apart from theirs. *)
Lemma compile_note_scripts_ok fs source target : fs_wf fs -> fs_get fs source = Some Dir -> sources_ok fs source ->
  (forall p q, p ∈ masm_children fs source -> q ∈ masm_children fs source -> script_out target p = script_out target q -> p = q) ->
  (forall q r, target = q ++ r -> forall d, fs_get fs q <> Some (File d)) -> ~ source `prefix_of` target ->
  (forall p, p ∈ masm_children fs source -> fs_get fs (script_out target p) <> Some Dir) ->
  exists fs', compile_note_scripts source target fs = (fs', Ok tt) /\
    (forall p ast, p ∈ masm_children fs source -> script_of fs p ast ->
       fs_get fs' (script_out target p) = Some (File (program_to_bytes ast))) /\
    forall q, ~ q `prefix_of` target -> q ∉ map (script_out target) (masm_children fs source) -> fs_get fs' q = fs_get fs q.
Proof.
  intros Hw Hd Hok Hinj Hway Hap Hnd. destruct (create_dir_all_calm Hcalm fs target Hway) as (fs1 & Hrun1 & Hfs1 & Hroot).
  assert (Hkeep : forall q, ~ q `prefix_of` target -> fs_get fs1 q = fs_get fs q).
  { intros q Hq. rewrite Hfs1, decide_False; [done|]. by intros [? _]. }
  assert (Hunder : forall rel, fs_get fs1 (source ++ rel) = fs_get fs (source ++ rel)).
  { intros rel. apply Hkeep. intros Hp. apply Hap. etrans; [|exact Hp]. by exists rel. }
  assert (Hdir1 : fs_get fs1 target = Some Dir).
  { rewrite Hfs1. destruct (fs_get fs target) as [[|d]|] eqn:Ht; [by rewrite decide_False by naive_solver| |].
    - exfalso. apply (Hway target [] ltac:(by rewrite app_nil_r) d Ht).
    - by rewrite decide_True. }
  assert (Hchild : forall p, p ∈ children fs1 source <-> p ∈ children fs source).
  { intros p. rewrite !children_spec by (rewrite ?Hroot; apply Hw). split; intros (Hp & Hne & Hpar); (split; [|done]);
      destruct p as [|n p _] using rev_ind; try done; unfold parent in Hpar; rewrite removelast_last in Hpar; subst p;
      [by rewrite Hunder in Hp|by rewrite Hunder]. }
  assert (Hmasm : forall p, p ∈ masm_children fs1 source <-> p ∈ masm_children fs source).
  { intros p. by rewrite !masm_children_spec, Hchild. }
  assert (Hscript : forall p ast, p ∈ masm_children fs source -> script_of fs1 p ast <-> script_of fs p ast).
  { intros p ast [Hp _]%masm_children_spec. destruct (child_form _ _ _ Hw Hp) as [n ->]. by apply script_of_same. }
  assert (Hsrc1 : fs_get fs1 source = Some Dir) by (rewrite <- (app_nil_r source), Hunder, app_nil_r; done).
  assert (Hok1 : sources_ok fs1 source).
  { intros p Hp%Hchild. destruct (Hok p Hp) as (b & Hb & Hast). exists b. split; [done|]. intros ->.
    destruct (Hast eq_refl) as (ast & Ha). exists ast. apply Hscript; [|done]. apply masm_children_spec. split; [done|].
    unfold is_masm. by rewrite Hb. }
  unfold compile_note_scripts, try_create_dir_all. run_mut. rewrite Hrun1. cbn [fst].
  rewrite (get_masm_files_ok fs1 source Hsrc1 Hok1).
  destruct (compile_each_ok fs1 target (masm_children fs1 source) Hdir1) as (fs' & Hrun & Hdone & Hothers).
  - apply NoDup_fmap_2_strong; [|apply NoDup_filter; rewrite os_order_permutes; apply children_nodup].
    intros p q Hp%Hmasm Hq%Hmasm. by apply Hinj.
  - apply Forall_forall. intros p Hp%Hmasm. pose proof Hp as [Hpc Hpm]%masm_children_spec. split; [|split].
    + intros Hpar. apply children_spec in Hpc as (_ & _ & Hs); [|apply Hw]. apply Hap. rewrite <- Hs, Hpar. done.
    + destruct (Hok p Hpc) as (b & Hb & Hast). unfold is_masm in Hpm. rewrite Hb in Hpm. destruct (Hast Hpm) as (ast & Ha).
      exists ast. by apply Hscript.
    + rewrite Hkeep; [by apply Hnd|apply script_out_not_prefix].
  - exists fs'. split; [exact Hrun|]. split.
    + intros p ast Hp Ha. apply Hdone; [by apply Hmasm|by apply Hscript].
    + intros q Hq Hout. rewrite Hothers; [by apply Hkeep|]. intros (p & -> & Hp%Hmasm)%list_elem_of_fmap.
      apply Hout. by apply list_elem_of_fmap_2.
Qed.
End scripts.

(** ** The whole script *)

(** A build from a source tree to a directory without the results of an earlier one. *)
Record fresh_build (env : BuildEnv) (fs : Fs) (crate out : Path) : Prop := mkFreshBuild {
  fb_crate : path_of <$> CARGO_MANIFEST_DIR env = Some crate;
  fb_out : path_of <$> OUT_DIR env = Some out;
  fb_wf : fs_wf fs;
  fb_src : fs_get fs (crate ++ [ASM_DIR]) = Some Dir;
  fb_dst : fs_get fs out = Some Dir;
  fb_no_asm : fs_get fs (out ++ [ASM_DIR]) = None;
  fb_no_assets : fs_get fs (out ++ [ASSETS_DIR]) = None;
  fb_apart : ~ (crate ++ [ASM_DIR]) `prefix_of` out }.

Section whole.
Context `{F : Field} {C : Crypto} {AS : Assembly} {P : Programs} {PL : ProgramLaws P} {L : Linker} {ML : MidenLib}
  {BT : BuildTools} {BTL : BuildToolsLaws BT} {OS : Os} {OSL : OsLaws OS}.

Local Abbreviation notes_of asm := (asm ++ [ASM_NOTE_SCRIPTS_DIR]).
Local Abbreviation kernel_of asm := ((asm ++ path_of ASM_KERNELS_DIR) ++ ["main.masm"%string]).
Local Abbreviation constants_of asm := ((asm ++ [ASM_MIDEN_DIR]) ++ path_of "kernels/tx/constants.masm").
Local Abbreviation patched_of asm := ((asm ++ [ASM_MIDEN_DIR]) ++ path_of "kernels/tx/constants.masm.patched").

(** The sources the script expects in a directory: note scripts that are programs and
    have different names, the main program [kernel] of the kernel, the file of
    constants. *)
Record sources (fs : Fs) (asm : Path) (kernel : ProgramAst) : Prop := mkSources {
  so_notes : fs_get fs (notes_of asm) = Some Dir;
  so_scripts : sources_ok fs (notes_of asm);
  so_names p q : p ∈ masm_children fs (notes_of asm) -> q ∈ masm_children fs (notes_of asm) ->
    script_out [] p = script_out [] q -> p = q;
  so_kernel : exists d, fs_get fs (kernel_of asm) = Some (File d) /\ utf8_valid d = true /\
    ProgramAst_parse (text_of d) = Ok kernel;
  so_constants : exists bytes, fs_get fs (constants_of asm) = Some (File bytes) /\
    Forall (fun l => utf8_valid l = true) (raw_lines [] bytes);
  so_patched : fs_get fs (patched_of asm) <> Some Dir }.

Lemma script_out_under target p : script_out target p = target ++ script_out [] p.
Proof. unfold script_out, set_extension. by rewrite !last_snoc, !removelast_last. Qed.

(** The scripts of another directory with the same tree. *)
Lemma masm_same fs fs' p p' q : fs_wf fs -> fs_wf fs' -> same_tree fs fs' p p' -> q ∈ masm_children fs' p' ->
  exists n, q = p' ++ [n] /\ p ++ [n] ∈ masm_children fs p.
Proof.
  intros Hw Hw' Hs [Hq Hm]%masm_children_spec. destruct (child_form _ _ _ Hw' Hq) as [n ->]. exists n. split; [done|].
  apply masm_children_spec. rewrite (is_masm_last p p'). split; [|done].
  by rewrite (same_tree_children fs fs' _ _ n Hw Hw' Hs).
Qed.

Lemma sources_ok_same fs fs' p p' : fs_wf fs -> fs_wf fs' -> same_tree fs fs' p p' -> sources_ok fs p -> sources_ok fs' p'.
Proof.
  intros Hw Hw' Hs Hok q Hq. destruct (child_form _ _ _ Hw' Hq) as [n ->].
  rewrite <- (same_tree_children fs fs' _ _ n Hw Hw' Hs) in Hq. destruct (Hok _ Hq) as (b & Hb & Hast). exists b.
  split; [by rewrite (is_masm_file_last _ p)|]. intros Hbt. destruct (Hast Hbt) as (ast & Ha). exists ast.
  by apply (script_of_same fs fs' p p').
Qed.

Lemma names_same fs fs' p p' : fs_wf fs -> fs_wf fs' -> same_tree fs fs' p p' ->
  (forall q r, q ∈ masm_children fs p -> r ∈ masm_children fs p -> script_out [] q = script_out [] r -> q = r) ->
  forall q r, q ∈ masm_children fs' p' -> r ∈ masm_children fs' p' -> script_out [] q = script_out [] r -> q = r.
Proof.
  intros Hw Hw' Hs Hnames q r Hq Hr Heq. destruct (masm_same _ _ _ _ _ Hw Hw' Hs Hq) as (n & -> & Hn).
  destruct (masm_same _ _ _ _ _ Hw Hw' Hs Hr) as (m & -> & Hm). do 2 f_equal.
  rewrite (script_out_last [] p' p n), (script_out_last [] p' p m) in Heq. apply (Hnames _ _ Hn Hm) in Heq.
  by apply app_inj_tail in Heq as [_ ->].
Qed.

(** The sources are those of another directory with the same tree. *)
Lemma sources_same fs fs' asm asm' kernel : fs_wf fs -> fs_wf fs' -> same_tree fs fs' asm asm' ->
  sources fs asm kernel -> sources fs' asm' kernel.
Proof.
  intros Hw Hw' Hs [Hd Hok Hnames (d & Hk) (bytes & Hc) Hp].
  assert (Hsub : forall r, same_tree fs fs' (asm ++ r) (asm' ++ r)) by (intros r rel; rewrite <- !app_assoc; apply Hs).
  assert (Hat : forall r, fs_get fs' (asm' ++ r) = fs_get fs (asm ++ r)) by (intros r; by rewrite Hs).
  split.
  - by rewrite Hat.
  - exact (sources_ok_same _ _ _ _ Hw Hw' (Hsub _) Hok).
  - exact (names_same _ _ _ _ Hw Hw' (Hsub _) Hnames).
  - exists d. rewrite <- app_assoc in *. by rewrite Hat.
  - exists bytes. rewrite <- app_assoc in *. by rewrite Hat.
  - rewrite <- app_assoc in *. by rewrite Hat.
Qed.

Lemma create_dir_all_wf fs p fs' : fs_wf fs -> (forall q r, p = q ++ r -> forall d, fs_get fs q <> Some (File d)) ->
  fs' !! [] = fs !! [] ->
  (forall q, fs_get fs' q = if decide (q `prefix_of` p /\ fs_get fs q = None) then Some Dir else fs_get fs q) -> fs_wf fs'.
Proof.
  intros Hw Hway Hroot Hfs'. split; [rewrite Hroot; apply Hw|]. intros q n Hq. rewrite Hfs' in Hq. rewrite Hfs'.
  destruct (decide (parent q `prefix_of` p /\ fs_get fs (parent q) = None)) as [|Hpar]; [done|].
  destruct (decide (q `prefix_of` p /\ fs_get fs q = None)) as [[[r Hr] _]|_]; [|by apply (proj2 Hw) in Hq].
  assert (Hpre : exists r', p = parent q ++ r').
  { destruct q as [|x q _] using rev_ind; [by exists p|]. exists ([x] ++ r). unfold parent. by rewrite removelast_last, app_assoc. }
  destruct Hpre as [r' Hr']. destruct (fs_get fs (parent q)) as [[|d]|] eqn:Hget; [done|by destruct (Hway _ _ Hr' d)|].
  exfalso. apply Hpar. split; [by exists r'|done].
Qed.

(** What compiling the library changes, when it returns. *)
Lemma compile_miden_lib_frame env fs fs' asm assets kernel : calm -> fs_wf fs -> sources fs asm kernel ->
  compile_miden_lib env asm assets fs = (fs', Ok tt) ->
  fs_wf fs' /\ fs_get fs' assets = Some Dir /\
  forall q, ~ q `prefix_of` assets -> q <> assets ++ ["miden.masl"%string] -> q <> constants_of asm -> q <> patched_of asm ->
    fs_get fs' q = fs_get fs q.
Proof.
  intros Hcalm Hw Hs. destruct (so_constants _ _ _ Hs) as (bytes & Hc & Hutf).
  destruct (patch_constants_ok Hcalm fs (asm ++ [ASM_MIDEN_DIR]) bytes Hw Hc (so_patched _ _ _ Hs) Hutf) as (fsp & Hrunp & Hwp & Hfsp).
  set (stage := if decide (CARGO_FEATURE_TESTING env = Some "1"%string) then patch_constants (asm ++ [ASM_MIDEN_DIR]) else mret tt).
  assert (Hstage : exists fs1, stage fs = (fs1, Ok tt) /\ fs_wf fs1 /\
    forall q, q <> constants_of asm -> q <> patched_of asm -> fs_get fs1 q = fs_get fs q).
  { unfold stage. case_decide; [|by exists fs]. exists fsp. split; [done|]. split; [done|]. intros q H1 H2.
    by rewrite Hfsp, !decide_False. }
  destruct Hstage as (fs1 & Hrun1 & Hw1 & Hkeep1). unfold compile_miden_lib. fold stage. run_mut. rewrite Hrun1.
  destruct (LibraryNamespace_try_from "miden") as [ns|] eqn:Hns; cbn [expect]; [|done].
  destruct (Version_try_from CARGO_PKG_VERSION) as [v|]; cbn [expect]; [|done].
  pose proof (masl_read_keeps (asm ++ [ASM_MIDEN_DIR]) ns true v fs1) as Hread.
  destruct (masl_read_from_dir _ _ _ _ fs1) as [fs2 [lib| |]] eqn:Hlib; cbn [fst] in Hread; [|done|done]. subst fs2.
  intros Hwrite. destruct (masl_written lib assets fs1 fs' Hwrite Hw1) as (Hw' & Hd & Hothers). split; [done|]. split; [done|].
  intros q Hq Hm H1 H2. rewrite Hothers; [by apply Hkeep1|done|].
  rewrite (masl_read_ns _ _ _ _ _ _ _ Hlib), (LibraryNamespace_name _ _ Hns). exact Hm.
Qed.

(** The kernel. *)
Lemma compile_kernels_ok fs source target kernel d : calm -> fs_wf fs ->
  fs_get fs (source ++ ["main.masm"%string]) = Some (File d) -> utf8_valid d = true -> ProgramAst_parse (text_of d) = Ok kernel ->
  (forall q r, target ++ ["transaction"%string] = q ++ r -> forall d, fs_get fs q <> Some (File d)) ->
  fs_get fs (target ++ ["transaction.masb"%string]) <> Some Dir ->
  exists fs', compile_kernels source target fs = (fs', Ok tt) /\ fs_wf fs' /\
    fs_get fs' (target ++ ["transaction.masb"%string]) = Some (File (program_to_bytes kernel)) /\
    forall q, ~ q `prefix_of` (target ++ ["transaction"%string]) -> q <> target ++ ["transaction.masb"%string] ->
      fs_get fs' q = fs_get fs q.
Proof.
  intros Hcalm Hw Hd Hutf Hk Hway Hout.
  destruct (create_dir_all_calm Hcalm fs _ Hway) as (fs1 & Hrun1 & Hfs1 & Hroot).
  pose proof (create_dir_all_wf fs _ fs1 Hw Hway Hroot Hfs1) as Hw1.
  set (o := target ++ ["transaction.masb"%string]) in *.
  assert (Hnp : ~ o `prefix_of` (target ++ ["transaction"%string])).
  { intros [r Hr]. unfold o in Hr. rewrite <- app_assoc in Hr. by apply app_inv_head in Hr. }
  assert (Hkeep : forall q, ~ q `prefix_of` (target ++ ["transaction"%string]) -> fs_get fs1 q = fs_get fs q).
  { intros q Hq. rewrite Hfs1, decide_False; [done|]. by intros [? _]. }
  assert (Hpar : fs_get fs1 (parent o) = Some Dir).
  { unfold o, parent. rewrite removelast_last, Hfs1. destruct (fs_get fs target) as [[|f]|] eqn:Ht.
    - by rewrite decide_False by naive_solver.
    - by destruct (Hway target _ eq_refl f).
    - rewrite decide_True; [done|]. split; [by eexists|done]. }
  exists (<[o := File (program_to_bytes kernel)]> fs1).
  assert (Hone : o <> []) by by destruct target. split; [|split; [|split]].
  - unfold compile_kernels, read_to_string, try_create_dir_all. run_mut. rewrite (fs_read_calm Hcalm fs _ d Hd), Hutf, Hk.
    cbn [map_err]. rewrite Hrun1. cbn [fst].
    assert (Hext : set_extension (target ++ ["transaction"%string]) "masb" = o).
    { unfold set_extension. by rewrite last_snoc, removelast_last. }
    rewrite Hext. apply (fs_write_calm Hcalm); [by rewrite Hkeep|done].
  - apply fs_wf_insert; [done|done|by rewrite Hkeep].
  - by rewrite fs_get_insert, decide_True.
  - intros q Hq Hqo. rewrite fs_get_insert, decide_False by done. by apply Hkeep.
Qed.

Lemma path_kernels : path_of ASM_KERNELS_DIR = ["kernels"; "transaction"]%string.
Proof. by vm_compute. Qed.
Lemma path_constants : path_of "kernels/tx/constants.masm" = ["kernels"; "tx"; "constants.masm"]%string.
Proof. by vm_compute. Qed.
Lemma path_patched : path_of "kernels/tx/constants.masm.patched" = ["kernels"; "tx"; "constants.masm.patched"]%string.
Proof. by vm_compute. Qed.

(** Two paths below a directory differ where their components do. *)
Ltac apart :=
  let H := fresh in
  first [intros [? H] | intros H]; rewrite ?path_kernels, ?path_constants, ?path_patched, <- ?app_assoc in H;
  apply app_inv_head in H; unfold ASM_DIR, ASSETS_DIR, ASM_MIDEN_DIR, ASM_NOTE_SCRIPTS_DIR in H; cbn [app] in H; discriminate H.

(** The copy of a fresh build: the sources are in the new directory, and nothing else
    is there. *)
Lemma fresh_copy env fs crate out kernel fuel : calm -> fresh_build env fs crate out -> sources fs (crate ++ [ASM_DIR]) kernel ->
  (length (source_dirs fs crate) < fuel)%nat ->
  exists fs1, copy_directory fuel (crate ++ [ASM_DIR]) out fs = Some (fs1, Ok tt) /\ fs_wf fs1 /\
    same_tree fs fs1 (crate ++ [ASM_DIR]) (out ++ [ASM_DIR]) /\ sources fs1 (out ++ [ASM_DIR]) kernel /\
    fs_get fs1 out = Some Dir /\ forall rel, fs_get fs1 ((out ++ [ASSETS_DIR]) ++ rel) = None.
Proof.
  intros Hcalm [_ _ Hw Hsrc Hdst Hasm Hassets Hap] Hs Hfuel.
  assert (Hbelow : forall p rel, fs_get fs p = None -> fs_get fs (p ++ rel) = None).
  { intros p rel Hp. destruct rel as [|x rel]; [by rewrite app_nil_r|].
    destruct (fs_get fs (p ++ x :: rel)) as [n|] eqn:Hn; [|done].
    pose proof (fs_wf_prefix fs p (x :: rel) n Hw Hn ltac:(done)). congruence. }
  assert (Hapart : forall rel rel', (crate ++ [ASM_DIR]) ++ rel <> (out ++ [ASM_DIR]) ++ rel').
  { intros rel rel' Heq. assert (H1 : (crate ++ [ASM_DIR]) `prefix_of` ((out ++ [ASM_DIR]) ++ rel')) by by exists rel.
    assert (H2 : (out ++ [ASM_DIR]) `prefix_of` ((out ++ [ASM_DIR]) ++ rel')) by by exists rel'.
    destruct (prefix_weak_total _ _ _ H1 H2) as [[r Hr]|[r Hr]].
    - destruct r as [|x r _] using rev_ind; [rewrite app_nil_r in Hr; by rewrite Hr, Hsrc in Hasm|].
      rewrite app_assoc in Hr. apply app_inj_tail in Hr as [Hr _]. apply Hap. by exists r.
    - rewrite Hr, Hbelow in Hsrc by done. done. }
  destruct (copy_directory_ok Hcalm fs crate out Hw Hsrc Hdst Hapart) with (fuel := fuel) as (fs1 & Hrun & Hw1 & Hfs1).
  { intros rel _ d. by rewrite Hbelow. } { intros rel d _. by rewrite Hbelow. } { done. }
  assert (Hsame : same_tree fs fs1 (crate ++ [ASM_DIR]) (out ++ [ASM_DIR])).
  { intros rel. rewrite Hfs1, strip_prefix_app. destruct (fs_get fs ((crate ++ [ASM_DIR]) ++ rel)); [done|by rewrite Hbelow]. }
  assert (Hout : forall q, ~ (out ++ [ASM_DIR]) `prefix_of` q -> fs_get fs1 q = fs_get fs q).
  { intros q Hq. rewrite Hfs1. destruct (strip_prefix _ q) as [rel|] eqn:Hp; [|done]. apply strip_prefix_some in Hp.
    exfalso. apply Hq. by exists rel. }
  exists fs1. split; [exact Hrun|]. split; [done|]. split; [exact Hsame|]. split; [exact (sources_same _ _ _ _ _ Hw Hw1 Hsame Hs)|]. split.
  - rewrite Hout; [done|]. intros Hp%prefix_length. rewrite length_app in Hp. cbn in Hp. lia.
  - intros rel. rewrite Hout; [by apply Hbelow|]. apart.
Qed.

(** The way below a directory where nothing is yet. *)
Lemma way_clear fs p l : fs_wf fs -> fs_get fs p = Some Dir ->
  (forall l1 l2, l = l1 ++ l2 -> l1 <> [] -> fs_get fs (p ++ l1) = None) ->
  forall q r, p ++ l = q ++ r -> forall f, fs_get fs q <> Some (File f).
Proof.
  intros Hw Hp Hnone q r Heq f Hq.
  destruct (prefix_weak_total q p (p ++ l)) as [[r' Hr]|[l1 Hr]]; [by exists r|by exists l| |].
  - rewrite Hr in Hp. destruct r' as [|x r']; [rewrite app_nil_r in Hp; congruence|].
    pose proof (fs_wf_prefix fs q (x :: r') Dir Hw Hp ltac:(done)). congruence.
  - rewrite Hr, <- app_assoc in Heq. apply app_inv_head in Heq. rewrite Hr in Hq. destruct l1 as [|x l1].
    + rewrite app_nil_r in Hq. congruence.
    + rewrite (Hnone (x :: l1) r Heq) in Hq by done. done.
Qed.

(** The kernel, after the library in a fresh build. *)
Lemma compile_rest_kernel env fs1 fs2 out kernel : calm -> fs_wf fs1 -> sources fs1 (out ++ [ASM_DIR]) kernel ->
  (forall rel, fs_get fs1 ((out ++ [ASSETS_DIR]) ++ rel) = None) ->
  compile_miden_lib env (out ++ [ASM_DIR]) (out ++ [ASSETS_DIR]) fs1 = (fs2, Ok tt) ->
  exists fs3, compile_kernels ((out ++ [ASM_DIR]) ++ path_of ASM_KERNELS_DIR) ((out ++ [ASSETS_DIR]) ++ ["kernels"%string]) fs2 =
      (fs3, Ok tt) /\ fs_wf fs3 /\ fs_get fs3 (out ++ [ASSETS_DIR]) = Some Dir /\
    fs_get fs3 ((out ++ [ASSETS_DIR]) ++ ["kernels"; "transaction.masb"]%string) = Some (File (program_to_bytes kernel)) /\
    same_tree fs1 fs3 (notes_of (out ++ [ASM_DIR])) (notes_of (out ++ [ASM_DIR])) /\
    forall rel, fs_get fs3 ((out ++ [ASSETS_DIR]) ++ ASM_NOTE_SCRIPTS_DIR :: rel) = None.
Proof.
  intros Hcalm Hw1 Hs Hnew Hlib.
  destruct (compile_miden_lib_frame _ _ _ _ _ _ Hcalm Hw1 Hs Hlib) as (Hw2 & Hd2 & Hkeep2).
  assert (Hnew2 : forall x rel, x <> "miden.masl"%string -> fs_get fs2 ((out ++ [ASSETS_DIR]) ++ x :: rel) = None).
  { intros x rel Hx. rewrite Hkeep2; [apply Hnew| | |apart|apart].
    - intros Hr%prefix_length. rewrite (length_app (out ++ _)) in Hr. cbn in Hr. lia.
    - intros Hr%app_inv_head. by injection Hr as ->. }
  destruct (so_kernel _ _ _ Hs) as (d & Hk & Hutf & Hparse).
  destruct (compile_kernels_ok fs2 ((out ++ [ASM_DIR]) ++ path_of ASM_KERNELS_DIR) ((out ++ [ASSETS_DIR]) ++ ["kernels"%string])
    kernel d Hcalm Hw2) as (fs3 & Hrun3 & Hw3 & Hker3 & Hkeep3); [|done|done| | |].
  { rewrite Hkeep2; [done|apart..]. }
  { rewrite <- app_assoc. apply (way_clear fs2); [done|done|]. intros l1 l2 Hl Hne. destruct l1 as [|x l1]; [done|].
    injection Hl as <- _. by apply Hnew2. }
  { rewrite <- app_assoc. cbn [app]. by rewrite Hnew2. }
  rewrite <- app_assoc in Hker3. exists fs3. split; [exact Hrun3|]. split; [done|]. split; [|split; [exact Hker3|split]].
  - by apply (fs_wf_prefix fs3 _ ["kernels"; "transaction.masb"]%string (File (program_to_bytes kernel)) Hw3).
  - intros rel. rewrite Hkeep3; [|apart|apart]. symmetry. apply Hkeep2; apart.
  - intros rel. rewrite Hkeep3; [by apply Hnew2|apart|apart].
Qed.

(** What follows the library in a fresh build. *)
Lemma compile_rest env fs1 fs2 out kernel : calm -> fs_wf fs1 -> sources fs1 (out ++ [ASM_DIR]) kernel ->
  (forall rel, fs_get fs1 ((out ++ [ASSETS_DIR]) ++ rel) = None) ->
  compile_miden_lib env (out ++ [ASM_DIR]) (out ++ [ASSETS_DIR]) fs1 = (fs2, Ok tt) ->
  exists fs', compile_all env (out ++ [ASM_DIR]) (out ++ [ASSETS_DIR]) fs1 = (fs', Ok tt) /\
    fs_get fs' (out ++ path_of "assets/kernels/transaction.masb") = Some (File (program_to_bytes kernel)) /\
    forall p ast, p ∈ masm_children fs1 (notes_of (out ++ [ASM_DIR])) -> script_of fs1 p ast ->
      fs_get fs' (script_out (out ++ path_of "assets/note_scripts") p) = Some (File (program_to_bytes ast)).
Proof.
  intros Hcalm Hw1 Hs Hnew Hlib.
  destruct (compile_rest_kernel env fs1 fs2 out kernel Hcalm Hw1 Hs Hnew Hlib) as (fs3 & Hrun3 & Hw3 & Hd3 & Hker3 & Hsame & Hnew3).
  destruct (compile_note_scripts_ok Hcalm fs3 (notes_of (out ++ [ASM_DIR])) ((out ++ [ASSETS_DIR]) ++ [ASM_NOTE_SCRIPTS_DIR]))
    as (fs' & Hrun & Hdone & Hothers).
  - done.
  - rewrite <- (app_nil_r (notes_of _)), <- Hsame, app_nil_r. apply (so_notes _ _ _ Hs).
  - exact (sources_ok_same _ _ _ _ Hw1 Hw3 Hsame (so_scripts _ _ _ Hs)).
  - intros p q Hp Hq Heq. apply (names_same _ _ _ _ Hw1 Hw3 Hsame (so_names _ _ _ Hs)); [done|done|].
    rewrite (script_out_under _ p), (script_out_under _ q) in Heq. by apply app_inv_head in Heq.
  - apply (way_clear fs3); [done|done|]. intros l1 l2 Hl Hne. destruct l1 as [|x l1]; [done|].
    injection Hl as <- _. by rewrite Hnew3.
  - apart.
  - intros p _. rewrite script_out_under, <- app_assoc. cbn [app]. by rewrite Hnew3.
  - exists fs'. split; [|split].
    + unfold compile_all. run_mut. by rewrite Hlib, Hrun3, Hrun.
    + change (path_of "assets/kernels/transaction.masb") with ([ASSETS_DIR] ++ ["kernels"; "transaction.masb"]%string).
      rewrite app_assoc, Hothers; [exact Hker3|apart|].
      intros (p & Hp & _)%list_elem_of_fmap. rewrite script_out_under in Hp. revert Hp. apart.
    + intros p ast Hp Ha. change (path_of "assets/note_scripts") with ([ASSETS_DIR] ++ [ASM_NOTE_SCRIPTS_DIR]).
      rewrite app_assoc. pose proof Hp as [Hpc Hpm]%masm_children_spec. destruct (child_form _ _ _ Hw1 Hpc) as [n ->].
      apply Hdone; [|by apply (script_of_same _ _ _ _ _ _ Hsame)]. apply masm_children_spec. split; [|done].
      by apply (same_tree_children _ _ _ _ _ Hw1 Hw3 Hsame).
Qed.

(** C24: what [include_bytes!] takes from a fresh build. The assembly code of the crate is
    copied whole to the build directory; when the library compiles, the build
    returns, the main program of the kernel and every note script of the sources are
    at their places under assets as the bytes of the programs their texts parse to,
    and these bytes make the note script [build_note_script] is asked for; when the
    library does not compile the build ends as it does. *)
Theorem build_from_sources env fs crate out kernel fuel (Hcalm : calm) (Hfresh : fresh_build env fs crate out)
    (Hs : sources fs (crate ++ [ASM_DIR]) kernel) (Hfuel : (length (source_dirs fs crate) < fuel)%nat) :
  exists fs1, copy_directory fuel (crate ++ [ASM_DIR]) out fs = Some (fs1, Ok tt) /\
    same_tree fs fs1 (crate ++ [ASM_DIR]) (out ++ [ASM_DIR]) /\
    forall fs2 r, compile_miden_lib env (out ++ [ASM_DIR]) (out ++ [ASSETS_DIR]) fs1 = (fs2, r) ->
      if is_ok r then exists fs', build_main fuel env fs = Some (fs', Ok tt) /\
        fs_get fs' (out ++ path_of "assets/kernels/transaction.masb") = Some (File (program_to_bytes kernel)) /\
        (exists main, program_to_bytes main = program_to_bytes kernel /\
           TransactionKernel_main (program_to_bytes kernel) = Ok main) /\
        forall p ast, p ∈ children fs (notes_of (crate ++ [ASM_DIR])) -> is_masm_file p = Ok true -> script_of fs p ast ->
          exists bare, program_to_bytes bare = program_to_bytes ast /\
            fs_get fs' (script_out (out ++ path_of "assets/note_scripts") p) = Some (File (program_to_bytes ast)) /\
            build_note_script (program_to_bytes ast) =
              ('(note_script, _) ← note_script_new bare kernel_assembler; Ok note_script)
      else build_main fuel env fs = Some (fs2, r).
Proof.
  destruct (fresh_copy env fs crate out kernel fuel Hcalm Hfresh Hs Hfuel) as (fs1 & Hcopy & Hw1 & Hsame & Hs1 & Hout & Hnew).
  exists fs1. split; [exact Hcopy|]. split; [exact Hsame|]. intros fs2 r Hlib.
  assert (Hmain : build_main fuel env fs = Some (compile_all env (out ++ [ASM_DIR]) (out ++ [ASSETS_DIR]) fs1)).
  { unfold build_main. pose proof (fb_crate _ _ _ _ Hfresh) as Hc. pose proof (fb_out _ _ _ _ Hfresh) as Ho.
    destruct (CARGO_MANIFEST_DIR env) as [c|]; [|done]. destruct (OUT_DIR env) as [b|]; [|done].
    apply Some_inj in Hc as Hc'. apply Some_inj in Ho as Ho'. rewrite Hc', Ho', Hcopy. done. }
  rewrite Hmain. destruct r as [[]|e|]; cbn [is_ok].
  - destruct (compile_rest env fs1 fs2 out kernel Hcalm Hw1 Hs1 Hnew Hlib) as (fs' & Hrun & Hker & Hnotes).
    exists fs'. rewrite Hrun. split; [done|]. split; [exact Hker|]. split.
    { destruct (so_kernel _ _ _ Hs) as (d & _ & _ & Hparse). by apply compiled_program_loads in Hparse. }
    intros p ast Hp Hm Ha.
    pose proof Ha as (d & n & _ & _ & Hparse & _). destruct (compiled_script_loads _ _ Hparse) as (bare & Hbytes & Hload).
    exists bare. split; [exact Hbytes|]. split; [|exact Hload]. pose proof (fb_wf _ _ _ _ Hfresh) as Hw.
    destruct (child_form _ _ _ Hw Hp) as [m ->].
    assert (Hsub : same_tree fs fs1 (notes_of (crate ++ [ASM_DIR])) (notes_of (out ++ [ASM_DIR])))
      by (intros rel; rewrite <- !(app_assoc (_ ++ [ASM_DIR])); apply Hsame).
    rewrite (script_out_last _ _ (notes_of (out ++ [ASM_DIR])) m). apply Hnotes; [|by apply (script_of_same _ _ _ _ _ _ Hsub)].
    apply masm_children_spec. split; [by apply (same_tree_children _ _ _ _ _ Hw Hw1 Hsub)|].
    rewrite (is_masm_last _ (notes_of (crate ++ [ASM_DIR]))). unfold is_masm. by rewrite Hm.
  - unfold compile_all. run_mut. by rewrite Hlib.
  - unfold compile_all. run_mut. by rewrite Hlib.
Qed.
End whole.

(** ** A small source tree, and the witnesses *)

Import RefInstances RefMachine.

(** Programs are their texts, libraries are their namespaces, and a library is
    written to a directory made for it. *)
Definition ref_write_library (ns : string) (dir : Path) : mut Fs IoError unit := fun fs =>
  if decide (fs_get fs dir = None /\ fs_get fs (parent dir) = Some Dir)
  then (<[dir ++ [String.append ns ".masl"] := File []]> (<[dir := Dir]> fs), Ok tt) else (fs, Err AlreadyExists).

#[local] Instance RefBuildTools : BuildTools := {
  ProgramAst_parse s := let p := bytes_of_text s in if decide (Z.of_nat (length p) < 2 ^ 32) then Ok p else Err tt;
  io_from_parsing _ := InvalidData;
  LibraryNamespace := string;
  LibraryNamespace_try_from s := Some s;
  Version := unit;
  Version_try_from _ := Some tt;
  CARGO_PKG_VERSION := "0.2.0";
  namespace_name ns := ns;
  MaslLibrary := string;
  root_ns lib := lib;
  masl_read_from_dir _ ns _ _ := mret ns;
  masl_write_to_dir := ref_write_library
}.

Lemma bytes_of_text_range s : Forall is_byte (bytes_of_text s).
Proof.
  apply Forall_forall. intros b (c & -> & _)%list_elem_of_fmap. unfold is_byte. pose proof (nat_ascii_bounded c). lia.
Qed.

#[local] Instance RefBuildToolsLaws : BuildToolsLaws RefBuildTools.
Proof.
  split.
  - intros s ast. cbn [ProgramAst_parse RefBuildTools]. case_decide as Hlen; [|done]. intros [= <-].
    exists (bytes_of_text s). split; [|done]. split; [apply bytes_of_text_range|done].
  - by intros s ns [= <-].
  - done.
  - intros dir ns deps v fs fs' lib Hrun. cbn in Hrun. unfold mret, mut_ret in Hrun. by injection Hrun as _ <-.
  - intros lib dir fs fs' Hrun Hw. cbn [masl_write_to_dir RefBuildTools root_ns namespace_name] in *.
    unfold ref_write_library in Hrun. case_decide as Hd; [|done]. injection Hrun as <-. destruct Hd as [Hnone Hpar].
    assert (Hne : dir <> []) by by intros ->. set (p := dir ++ [String.append lib ".masl"]).
    assert (Hw1 : fs_wf (<[dir := Dir]> fs)) by (apply fs_wf_insert; [done|done|by rewrite Hnone]).
    assert (Hpne : p <> []) by by destruct dir. assert (Hpd : dir <> p).
    { intros Heq%(f_equal length). unfold p in Heq. rewrite length_app in Heq. cbn in Heq. lia. }
    assert (Hp : fs_get (<[dir := Dir]> fs) p = None).
    { rewrite fs_get_insert, decide_False by congruence. destruct (fs_get fs p) as [n|] eqn:Hn; [|done].
      apply (proj2 Hw) in Hn. unfold p, parent in Hn. rewrite removelast_last in Hn. congruence. }
    split; [|split].
    + apply fs_wf_insert; [done| |by rewrite Hp]. unfold p, parent. by rewrite removelast_last, fs_get_insert, decide_True.
    + rewrite fs_get_insert, decide_False by done. by rewrite fs_get_insert, decide_True.
    + intros q Hq Hqp. rewrite fs_get_insert, decide_False by done. rewrite fs_get_insert, decide_False; [done| |done].
      intros ->. by apply Hq.
Qed.

Definition sample_constants : list Z :=
  bytes_of_text "# CONSTANTS" ++ [13; 10] ++ bytes_of_text "const.REGULAR_ACCOUNT_SEED_DIGEST_MODULUS=8388608" ++ [10] ++
  bytes_of_text "const.FAUCET_ACCOUNT_SEED_DIGEST_MODULUS=2147483648".
Definition sample_masm : list Z := bytes_of_text "begin end".

Definition sample_fs : Fs := list_to_map [
  (["out"], Dir); (["crate"], Dir); (["crate"; "asm"], Dir);
  (["crate"; "asm"; "note_scripts"], Dir);
  (["crate"; "asm"; "note_scripts"; "P2ID.masm"], File sample_masm);
  (["crate"; "asm"; "note_scripts"; "README.md"], File [0xFF]);
  (["crate"; "asm"; "kernels"], Dir); (["crate"; "asm"; "kernels"; "transaction"], Dir);
  (["crate"; "asm"; "kernels"; "transaction"; "main.masm"], File sample_masm);
  (["crate"; "asm"; "miden"], Dir); (["crate"; "asm"; "miden"; "kernels"], Dir);
  (["crate"; "asm"; "miden"; "kernels"; "tx"], Dir);
  (["crate"; "asm"; "miden"; "kernels"; "tx"; "constants.masm"], File sample_constants)]%string.

(** [fs_wf], decided. *)
Definition fs_wf_check (fs : Fs) : bool :=
  bool_decide (fs !! [] = None) && forallb (fun pn => bool_decide (fs_get fs (parent pn.1) = Some Dir)) (map_to_list fs).

Lemma fs_wf_check_ok fs : fs_wf_check fs = true -> fs_wf fs.
Proof.
  intros [Hroot%bool_decide_eq_true Hall]%andb_true_iff. split; [done|]. intros p n Hp. destruct p as [|x p]; [done|].
  rewrite forallb_forall in Hall. specialize (Hall (x :: p, n)). rewrite bool_decide_eq_true in Hall. apply Hall.
  by apply list_elem_of_In, elem_of_map_to_list.
Qed.

Lemma sample_fs_wf : fs_wf sample_fs.
Proof. apply fs_wf_check_ok. by vm_compute. Qed.

Lemma test_build_reduces_pow_witness : exists fs',
  patch_constants (OS := CalmOs) ["crate"; "asm"; "miden"]%string sample_fs = (fs', Ok tt) /\
  (exists l v, const_line REGULAR_MODULUS (reduced l) v /\ modulus_accepts (FE := true) true v).
Proof.
  destruct (test_build_reduces_pow (OS := CalmOs) sample_fs ["crate"; "asm"; "miden"]%string sample_constants)
    as (fs' & Hrun & _ & Hls); [done|exact sample_fs_wf|by vm_compute|by vm_compute| |].
  - apply Forall_fold_right. vm_compute. tauto.
  - exists fs'. split; [exact Hrun|].
    exists (bytes_of_text "const.REGULAR_ACCOUNT_SEED_DIGEST_MODULUS=8388608"), 32.
    assert (Hline : const_line REGULAR_MODULUS (reduced (bytes_of_text "const.REGULAR_ACCOUNT_SEED_DIGEST_MODULUS=8388608")) 32).
    { exists (bytes_of_text "32 # reduced via build.rs"). split; by vm_compute. }
    split; [exact Hline|]. destruct (Hls (bytes_of_text "const.REGULAR_ACCOUNT_SEED_DIGEST_MODULUS=8388608")) as (_ & Hreg & _).
    + assert (Hin : forall (x : list Z) (xs : list (list Z)), bool_decide (x ∈ xs) = true -> x ∈ xs) by (intros x xs; apply bool_decide_eq_true).
      apply Hin. by vm_compute.
    + by apply Hreg.
Defined.

Definition sample_env : BuildEnv := mkBuildEnv (Some "/crate") (Some "/out") (Some "1")%string.

Lemma sample_notes_forall (Q : Path -> Prop) :
  Q ["crate"; "asm"; "note_scripts"; "P2ID.masm"]%string -> Q ["crate"; "asm"; "note_scripts"; "README.md"]%string ->
  Forall Q (children sample_fs ["crate"; "asm"; "note_scripts"]%string).
Proof.
  intros H1 H2. set (ps := children _ _). vm_compute in ps. unfold ps. repeat constructor; assumption.
Qed.

Lemma sample_sources : sources (OS := CalmOs) sample_fs (["crate"]%string ++ [ASM_DIR]) sample_masm.
Proof.
  assert (Hmasm : forall p, p ∈ masm_children (OS := CalmOs) sample_fs ["crate"; "asm"; "note_scripts"]%string ->
    p = ["crate"; "asm"; "note_scripts"; "P2ID.masm"]%string).
  { apply Forall_forall. set (ps := masm_children (OS := CalmOs) _ _). vm_compute in ps. unfold ps. by constructor. }
  split.
  - by vm_compute.
  - intros p. revert p. apply Forall_forall, sample_notes_forall.
    + exists true. split; [by vm_compute|]. intros _. exists sample_masm, sample_masm, "P2ID.masm"%string. by vm_compute.
    + exists false. split; [by vm_compute|done].
  - intros p q ->%Hmasm ->%Hmasm _. done.
  - exists sample_masm. by vm_compute.
  - exists sample_constants. split; [by vm_compute|]. apply Forall_fold_right. vm_compute. tauto.
  - by vm_compute.
Qed.

Lemma build_from_sources_witness : exists fs' : Fs,
  build_main (OS := CalmOs) 20 sample_env sample_fs = Some (fs', Ok tt) /\
  fs_get fs' ["out"; "assets"; "kernels"; "transaction.masb"]%string = Some (File (program_to_bytes (Programs := RefPrograms) sample_masm)) /\
  fs_get fs' ["out"; "assets"; "note_scripts"; "P2ID.masb"]%string = Some (File (program_to_bytes (Programs := RefPrograms) sample_masm)).
Proof.
  destruct (build_from_sources (P := RefPrograms) (OS := CalmOs) (OSL := CalmOsLaws) sample_env sample_fs ["crate"%string] ["out"%string] sample_masm 20)
    as (fs1 & Hcopy & _ & Hrest).
  - done.
  - split; [by vm_compute|by vm_compute|exact sample_fs_wf|by vm_compute..|].
    intros [r Hr]. discriminate Hr.
  - exact sample_sources.
  - apply Nat.ltb_lt. by vm_compute.
  - assert (Hlib : match copy_directory (OS := CalmOs) 20 (["crate"%string] ++ [ASM_DIR]) ["out"%string] sample_fs with
                   | Some (fs, _) => is_ok (compile_miden_lib (OS := CalmOs) sample_env (["out"%string] ++ [ASM_DIR])
                                              (["out"%string] ++ [ASSETS_DIR]) fs).2
                   | None => false
                   end = true) by by vm_compute.
    rewrite Hcopy in Hlib. specialize (Hrest _ _ (surjective_pairing _)). rewrite Hlib in Hrest.
    destruct Hrest as (fs' & Hrun & Hker & _ & Hnotes).
    exists fs'. split; [exact Hrun|]. split; [exact Hker|]. clear Hcopy Hlib Hrun Hker.
    destruct (Hnotes ["crate"; "asm"; "note_scripts"; "P2ID.masm"]%string sample_masm) as (bare & _ & Hget & _); [|by vm_compute| |].
    + apply children_spec; [apply sample_fs_wf|]. by vm_compute.
    + exists sample_masm, "P2ID.masm"%string. by vm_compute.
    + exact Hget.
Defined.
