(* ===== verification/BuildFaults.v ===== *)
(** src/miden-lib/build.rs when the operating system refuses operations: what a build
    that returns has done, and what it has left out. *)
From Stdlib Require Import String.
From stdpp Require Import gmap strings list.
From S2P Require Import Prelude Interfaces Types Reference Machine NoteMeta NoteContents StandardNotes FileSystem BuildScript.
Local Open Scope Z_scope.

Section faults.
Context `{F : Field} {C : Crypto} {AS : Assembly} {P : Programs} {PL : ProgramLaws P} {L : Linker} {ML : MidenLib}
  {BT : BuildTools} {BTL : BuildToolsLaws BT} {OS : Os}.
Implicit Types (fs : Fs) (p q source target : Path).

(** ** Specification *)

(** The text of a source file is that of a program. *)
Definition source_of fs p (ast : ProgramAst) : Prop :=
  exists d, fs_get fs p = Some (File d) /\ utf8_valid d = true /\ ProgramAst_parse (text_of d) = Ok ast.

(** The source files the script finds: none in a directory the system does not let it
    read, and none of the entries it cannot read. *)
Definition listed fs source : list Path :=
  if is_dir fs source then
    match os_fault fs OpReadDir source with
    | Some _ => []
    | None => filter (fun p => os_fault fs OpEntry p = None /\ is_masm p = true) (os_order fs (children fs source))
    end
  else [].

(** ** Lemmas *)

Lemma read_to_string_done p fs fs' s : read_to_string p fs = (fs', Ok s) ->
  fs' = fs /\ exists d, fs_get fs p = Some (File d) /\ utf8_valid d = true /\ s = text_of d.
Proof.
  unfold read_to_string, fs_read, unless_fault. run_mut. destruct (os_fault fs OpRead p); [done|].
  destruct (fs_get fs p) as [[|d]|]; [done| |done]. destruct (utf8_valid d) eqn:Hutf; [|done].
  intros [= <- <-]. split; [done|]. by exists d.
Qed.

Lemma read_to_string_keeps p fs : (read_to_string p fs).1 = fs.
Proof.
  unfold read_to_string. pose proof (fs_read_keeps p fs) as Hk. run_mut.
  destruct (fs_read p fs) as [fs' [d| |]]; cbn in *; subst; [by destruct (utf8_valid d)|done..].
Qed.

(** Where the program of a source file goes, from the name of the file. *)
Lemma script_out_name target p name : last p ≫= to_str = Some name ->
  set_extension (target ++ [name]) "masb" = script_out target p.
Proof.
  unfold script_out, to_str. destruct (last p) as [n|]; [|done]. cbn. destruct (utf8_valid (bytes_of_text n)); [|done]. by intros [= ->].
Qed.

Lemma compile_note_script_done target p fs fs' : compile_note_script target p fs = (fs', Ok tt) ->
  exists ast, source_of fs p ast /\ fs_get fs' (script_out target p) = Some (File (program_to_bytes ast)).
Proof.
  unfold compile_note_script. intros (fs1 & s & (-> & d & Hp & Hutf & ->)%read_to_string_done & Hrun)%mut_bind_inv.
  apply lift_bind_inv in Hrun as (ast & Hast & Hrun). apply map_err_ok in Hast.
  apply lift_bind_inv in Hrun as (name & Hname & [_ Hw]%fs_write_done). exists ast. split; [by exists d|].
  destruct (last p ≫= to_str) as [n|] eqn:Hn; [|done]. injection Hname as <-.
  rewrite <- (script_out_name _ _ _ Hn), Hw. by rewrite decide_True.
Qed.

Lemma compile_note_script_leaves target p : leaves (fun q => q <> script_out target p) (compile_note_script target p).
Proof.
  unfold compile_note_script. apply leaves_bind; [apply leaves_keeps, read_to_string_keeps|]. intros s.
  apply leaves_bind; [apply leaves_lift|]. intros ast. destruct (last p ≫= to_str) as [name|] eqn:Hn; [|by apply leaves_keeps].
  rewrite <- (script_out_name _ _ _ Hn). intros fs q n Hq. by apply fs_write_leaves.
Qed.

Lemma compile_each_leaves target files :
  leaves (fun q => q ∉ map (script_out target) files) (for_each (compile_note_script target) files).
Proof.
  apply leaves_for_each. intros p Hp fs q n Hq. apply compile_note_script_leaves. intros ->. apply Hq. by apply list_elem_of_fmap_2.
Qed.

(** Sources that an operation leaves are read as they were. *)
Lemma source_of_before {E A : Type} (Q : Path -> Prop) (m : mut Fs E A) fs p (ast : ProgramAst) : leaves Q m -> Q p -> fs_get fs p <> None ->
  source_of (m fs).1 p ast -> source_of fs p ast.
Proof.
  intros Hm HQ Hp (d & Hd & Hast). destruct (fs_get fs p) as [n|] eqn:Hn; [|done]. exists d. split; [|done].
  pose proof (Hm fs p n HQ Hn) as Hn'. rewrite Hd in Hn'. by rewrite Hn, Hn'.
Qed.

Lemma compile_each_done target files fs fs' : for_each (compile_note_script target) files fs = (fs', Ok tt) ->
  NoDup (map (script_out target) files) -> Forall (fun p => parent p <> target /\ fs_get fs p <> None) files ->
  Forall (fun p => exists ast, source_of fs p ast /\ fs_get fs' (script_out target p) = Some (File (program_to_bytes ast))) files.
Proof.
  revert fs. induction files as [|p files IH]; intros fs Hrun Hnd Hfs; [constructor|].
  apply mut_bind_inv in Hrun as (fs1 & [] & Hp & Hrun).
  change (for_each (compile_note_script target) files fs1 = (fs', Ok tt)) in Hrun. cbn [map] in Hnd. apply NoDup_cons in Hnd as [Hnin Hnd].
  apply Forall_cons in Hfs as [_ Hfs]. pose proof (compile_note_script_leaves target p) as Hl.
  assert (Hne : forall q, parent q <> target -> q <> script_out target p)
    by (intros q Hq ->; by destruct (script_out_parent target p)).
  assert (Hfs1 : fs1 = (compile_note_script target p fs).1) by by rewrite Hp.
  constructor.
  - apply compile_note_script_done in Hp as (ast & Hast & Hout). exists ast. split; [done|].
    pose proof (compile_each_leaves target files fs1 _ _ Hnin Hout) as Hk. by rewrite Hrun in Hk.
  - assert (Hfs' : Forall (fun q => parent q <> target /\ fs_get fs1 q <> None) files).
    { eapply Forall_impl; [exact Hfs|]. intros q [Hq Hn]. split; [done|]. destruct (fs_get fs q) as [n|] eqn:Hnq; [|done].
      rewrite Hfs1, (Hl fs q n); [done|by apply Hne|done]. }
    specialize (IH fs1 Hrun Hnd Hfs'). rewrite Forall_forall in IH, Hfs |- *. intros q Hq.
    destruct (IH q Hq) as (ast & Hast & Hout), (Hfs q Hq) as [Hpar Hn]. exists ast. split; [|done]. rewrite Hfs1 in Hast.
    by apply (source_of_before _ _ fs q ast Hl); [apply Hne|..].
Qed.

(** What is listed. *)
Lemma masm_entries_listed fs files ps r :
  masm_entries files (map (fun q => match os_fault fs OpEntry q with Some e => Err e | None => Ok q end) ps) = Ok r ->
  r = files ++ filter (fun p => os_fault fs OpEntry p = None /\ is_masm p = true) ps.
Proof.
  revert files. induction ps as [|p ps IH]; intros files; cbn [map masm_entries]; [intros [= <-]; by rewrite app_nil_r|].
  rewrite filter_cons. destruct (os_fault fs OpEntry p); [rewrite decide_False by naive_solver; apply IH|].
  intros (b & Hb & Hr)%bind_ok. apply IH in Hr as ->. assert (Hm : is_masm p = b) by (unfold is_masm; by rewrite Hb).
  rewrite Hm. destruct b; [rewrite decide_True by done; by rewrite <- app_assoc|by rewrite decide_False by naive_solver].
Qed.

Lemma get_masm_files_listed source fs fs' files : get_masm_files source fs = (fs', Ok files) -> fs' = fs /\ files = listed fs source.
Proof.
  unfold get_masm_files, listed. run_mut. destruct (is_dir fs source) eqn:Hd; [|by intros [= <- <-]].
  apply bool_decide_eq_true in Hd as [_ Hd]. unfold list_masm_files, read_dir, unless_fault. run_mut.
  destruct (os_fault fs OpReadDir source); [by intros [= <- <-]|]. rewrite Hd. intros [= <- Hr]. split; [done|].
  by apply masm_entries_listed in Hr.
Qed.

Lemma listed_there {OSL : OsLaws OS} fs source p : p ∈ listed fs source -> fs_get fs p <> None /\ parent p = source.
Proof.
  unfold listed. destruct (is_dir fs source); [|set_solver]. destruct (os_fault fs OpReadDir source); [set_solver|].
  intros [_ Hp]%list_elem_of_filter. rewrite os_order_permutes in Hp. unfold children in Hp.
  apply list_elem_of_filter in Hp as [[Hne Hpar] ([q n] & -> & Hin)%list_elem_of_fmap]. split; [|done].
  apply elem_of_map_to_list in Hin. cbn in *. destruct q; [done|]. by rewrite fs_get_cons, Hin.
Qed.

(** ** The stages *)

Lemma compile_kernels_done source target fs fs' : compile_kernels source target fs = (fs', Ok tt) ->
  exists ast, source_of fs (source ++ ["main.masm"%string]) ast /\
    fs_get fs' (target ++ ["transaction.masb"%string]) = Some (File (program_to_bytes ast)).
Proof.
  unfold compile_kernels. intros (fs1 & s & (-> & d & Hp & Hutf & ->)%read_to_string_done & Hrun)%mut_bind_inv.
  apply lift_bind_inv in Hrun as (ast & Hast & Hrun). apply map_err_ok in Hast.
  apply mut_bind_inv in Hrun as (fs2 & [] & _ & [_ Hw]%fs_write_done). exists ast. split; [by exists d|].
  rewrite Hw, decide_True; [done|]. unfold set_extension. by rewrite last_snoc, removelast_last.
Qed.

Lemma compile_note_scripts_leaves source target : leaves (fun q => parent q <> target) (compile_note_scripts source target).
Proof.
  unfold compile_note_scripts. apply leaves_bind; [|intros _; apply leaves_bind].
  - intros fs q n _. by apply (create_dir_all_leaves target (fun _ => True)).
  - intros fs q n _ Hq. unfold get_masm_files, list_masm_files. run_mut. destruct (is_dir fs source); [|done].
    unfold read_dir, unless_fault. run_mut. destruct (os_fault fs OpReadDir source); [done|]. by destruct (fs_get fs source) as [[|]|].
  - intros files fs q n Hq. apply compile_each_leaves. intros (p & -> & _)%list_elem_of_fmap. by destruct (script_out_parent target p).
Qed.

Lemma compile_note_scripts_done {OSL : OsLaws OS} source target fs fs' :
  compile_note_scripts source target fs = (fs', Ok tt) -> source <> target ->
  let fs1 := (create_dir_all target fs).1 in let scripts := listed fs1 source in
  NoDup (map (script_out target) scripts) ->
  Forall (fun p => exists ast, source_of fs1 p ast /\ fs_get fs' (script_out target p) = Some (File (program_to_bytes ast))) scripts.
Proof.
  unfold compile_note_scripts, try_create_dir_all. intros (fs1 & [] & [= Hfs1] & Hrun)%mut_bind_inv Hne. rewrite Hfs1.
  apply mut_bind_inv in Hrun as (fs2 & files & [-> ->]%get_masm_files_listed & Hrun). intros Hnd.
  apply (compile_each_done _ _ _ _ Hrun Hnd), Forall_forall. intros p [Hp Hpar]%listed_there. split; [congruence|done].
Qed.

(** C25: a build that returns has done its work, whatever the system refused on the way:
    the sources were copied, the library compiled, and the kernel is at its place as
    the bytes of the program its source parses to, from which
    [TransactionKernel::main] reads it; and so is every note script that was listed,
    if no two go to one file. But what could not be listed is not reported: when the
    directory of the note scripts cannot be read, the build returns without any. *)
Theorem build_reports_failures {OSL : OsLaws OS} env fs fs' fuel (Hmain : build_main fuel env fs = Some (fs', Ok tt)) :
  exists crate out fs1 fs2 fs3 kernel main,
    path_of <$> CARGO_MANIFEST_DIR env = Some crate /\ path_of <$> OUT_DIR env = Some out /\
    let asm := out ++ [ASM_DIR] in let assets := out ++ [ASSETS_DIR] in
    copy_directory fuel (crate ++ [ASM_DIR]) out fs = Some (fs1, Ok tt) /\ compile_miden_lib env asm assets fs1 = (fs2, Ok tt) /\
    compile_kernels (asm ++ path_of ASM_KERNELS_DIR) (assets ++ ["kernels"%string]) fs2 = (fs3, Ok tt) /\
    source_of fs2 ((asm ++ path_of ASM_KERNELS_DIR) ++ ["main.masm"%string]) kernel /\
    fs_get fs' (out ++ path_of "assets/kernels/transaction.masb") = Some (File (program_to_bytes kernel)) /\
    TransactionKernel_main (program_to_bytes kernel) = Ok main /\ program_to_bytes main = program_to_bytes kernel /\
    let source := asm ++ [ASM_NOTE_SCRIPTS_DIR] in let target := assets ++ [ASM_NOTE_SCRIPTS_DIR] in
    let fs4 := (create_dir_all target fs3).1 in let scripts := listed fs4 source in
    (NoDup (map (script_out target) scripts) ->
       Forall (fun p => exists ast, source_of fs4 p ast /\
         fs_get fs' (script_out target p) = Some (File (program_to_bytes ast))) scripts) /\
    (os_fault fs4 OpReadDir source <> None -> scripts = [] /\ fs' = fs4).
Proof.
  unfold build_main in Hmain. destruct (CARGO_MANIFEST_DIR env) as [c|]; [|done]. destruct (OUT_DIR env) as [o|]; [|done].
  destruct (copy_directory _ _ _ fs) as [[fs1 [[]|e|]]|] eqn:Hcopy; [|done..]. apply Some_inj in Hmain.
  unfold compile_all in Hmain. apply mut_bind_inv in Hmain as (fs2 & [] & Hlib & Hmain).
  apply mut_bind_inv in Hmain as (fs3 & [] & Hker & Hmain).
  destruct (compile_kernels_done _ _ _ _ Hker) as (kernel & Hsrc & Hout). pose proof Hsrc as (d & _ & _ & Hparse).
  destruct (compiled_program_loads _ _ Hparse) as (main & Hbytes & Hload).
  exists (path_of c), (path_of o), fs1, fs2, fs3, kernel, main. do 2 (split; [done|]). intros asm assets.
  do 4 (split; [done|]). split; [|do 2 (split; [done|]); intros source target fs4 scripts; split].
  - change (path_of "assets/kernels/transaction.masb") with ([ASSETS_DIR] ++ ["kernels"; "transaction.masb"]%string).
    pose proof (compile_note_scripts_leaves (asm ++ [ASM_NOTE_SCRIPTS_DIR]) (assets ++ [ASM_NOTE_SCRIPTS_DIR]) fs3) as Hl.
    fold asm assets in Hmain. rewrite Hmain in Hl. rewrite app_assoc. fold assets. rewrite <- app_assoc in Hout. apply Hl; [|exact Hout].
    change ["kernels"; "transaction.masb"]%string with (["kernels"%string] ++ ["transaction.masb"%string]).
    unfold parent. rewrite app_assoc, removelast_last. by intros [_ ?]%app_inj_tail.
  - intros Hnd. apply (compile_note_scripts_done source target fs3 fs' Hmain); [|done].
    unfold source, target, asm, assets. intros [Heq _]%app_inj_tail. by apply app_inj_tail in Heq as [_ ?].
  - intros Hfault. assert (Hno : scripts = []).
    { unfold scripts, listed. destruct (is_dir fs4 source); [|done]. by destruct (os_fault fs4 OpReadDir source). }
    split; [done|]. revert Hmain. unfold compile_note_scripts, try_create_dir_all.
    intros (fs5 & [] & [= <-] & Hmain)%mut_bind_inv.
    apply mut_bind_inv in Hmain as (fs6 & files & [-> ->]%get_masm_files_listed & Hmain). fold asm assets source target fs4 in Hmain.
    fold scripts in Hmain. rewrite Hno in Hmain. by injection Hmain as <-.
Qed.
End faults.

(** ** The witness: a directory of note scripts that cannot be read *)

Import RefInstances RefMachine.

Definition LockedOs : Os := {|
  os_fault _ op p := match op with
    | OpReadDir => if decide (p = ["out"; "asm"; "note_scripts"]%string) then Some (OsError 13) else None
    | _ => None
    end;
  os_written _ _ := 0%nat; os_order _ ps := ps |}.
Lemma LockedOsLaws : OsLaws LockedOs.
Proof. by split. Qed.

Lemma build_reports_failures_witness : exists fs' kernel,
  build_main (BT := RefBuildTools) (OS := LockedOs) 20 sample_env sample_fs = Some (fs', Ok tt) /\
  fs_get fs' ["out"; "assets"; "kernels"; "transaction.masb"]%string = Some (File (program_to_bytes (Programs := RefPrograms) kernel)) /\
  fs_get fs' ["out"; "assets"; "note_scripts"; "P2ID.masb"]%string = None.
Proof.
  assert (Hb : match build_main (BT := RefBuildTools) (OS := LockedOs) 20 sample_env sample_fs with
               | Some (fs', Ok _) => bool_decide (fs_get fs' ["out"; "assets"; "note_scripts"; "P2ID.masb"]%string = None)
               | _ => false
               end = true) by by vm_compute.
  destruct (build_main (BT := RefBuildTools) (OS := LockedOs) 20 sample_env sample_fs) as [[fs' [[]| |]]|] eqn:Hmain;
    try discriminate Hb.
  destruct (build_reports_failures (BT := RefBuildTools) (BTL := RefBuildToolsLaws) (OS := LockedOs) (OSL := LockedOsLaws) _ _ _ _ Hmain)
    as (crate & out & fs1 & fs2 & fs3 & kernel & main & _ & Hout & _ & _ & _ & _ & Hker & _).
  injection Hout as <-. exists fs', kernel. split; [done|]. split; [exact Hker|]. by apply bool_decide_eq_true in Hb.
Defined.
