(* ===== verification/UnitTests.v ===== *)
(** The unit tests inside the files of src/objects/src, as functions of the definitions that
    model those files: a test is the results of its calls, [Panic] when an assertion or an
    [unwrap] fails. The theorems say which tests pass for every implementation of the crates
    outside the repository that has the documented laws; those that depend on values of the
    hash function are evaluated on the reference instances. *)
From Stdlib Require Import Ascii String.
From stdpp Require Import gmap.
From S2P Require Import Prelude Interfaces Types Reference BTree AccountIds Seed Assets TokenSymbols NoteMeta NoteContents Notes Blocks Chain.
From S2P Require Import Vault Storage Delta Code Account Inputs Machine Transactions Identifiers MockInputs MockFixtures FileSystem AccountFiles.
Local Open Scope Z_scope.

(** ** What the tests use of other crates *)

(** The derived [PartialEq] of the trees. *)
Class TreeEq `{C : Crypto} := {
  Smt_eqb : Smt -> Smt -> bool;
  SimpleSmt_eqb {d : Z} : SimpleSmt d -> SimpleSmt d -> bool
}.

(** Trees with the same leaves are equal. *)
Class TreeEqLaws `(TE : TreeEq) : Prop := {
  Smt_eqb_ok (t t' : Smt) : (forall k, Smt_get_value t k = Smt_get_value t' k) -> Smt_eqb t t' = true;
  SimpleSmt_eqb_ok (d : Z) (t t' : SimpleSmt d) :
    (forall i, 0 <= i < 2 ^ d -> SimpleSmt_get t i = SimpleSmt_get t' i) -> SimpleSmt_eqb t t' = true
}.

(** An assembler without libraries, and the parts of a module that are not serialized. *)
Class ModuleTools `{AS : Assembly} := {
  clear_locations : ModuleAst -> ModuleAst;
  clear_imports : ModuleAst -> ModuleAst;
  Assembler_default : Assembler
}.
Class ModuleToolsLaws `(MT : ModuleTools) : Prop := {
  cleared_bare (m : ModuleAst) : module_bare (clear_imports (clear_locations m)) /\ module_bare (clear_locations (clear_imports m))
}.

(** The path a partial range has for one of its leaves. *)
Class PartialOpen `{FM : FullMmr} := partial_open : PartialMmr -> Z -> res MmrError (option (list Digest)).

(** A partial range of a full one, with as many leaves and the same peaks, stays one when both
    get a leaf, and opens the leaves it tracks as the full range does. *)
Class PartialOpenLaws `(PO : PartialOpen) : Prop := {
  Mmr_peaks_added (m : Mmr) (pm : PartialMmr) (d : Digest) (track : bool) :
    mmr_forest pm = Mmr_forest m -> Mmr_peaks m (Mmr_forest m) = Ok (mmr_peaks pm) ->
    Mmr_peaks (Mmr_add m d) (Mmr_forest (Mmr_add m d)) = Ok (mmr_peaks (mmr_add pm d track));
  mmr_added_tracked (pm : PartialMmr) (d : Digest) : mmr_is_tracked (mmr_add pm d true) (mmr_forest pm) = true;
  partial_open_ok (m : Mmr) (pm : PartialMmr) (i : Z) :
    mmr_forest pm = Mmr_forest m -> Mmr_peaks m (Mmr_forest m) = Ok (mmr_peaks pm) ->
    0 <= i < Mmr_forest m -> mmr_is_tracked pm i = true ->
    exists path, Mmr_open m i (Mmr_forest m) = Ok path /\ partial_open pm i = Ok (Some path)
}.

(** ** Assertions *)

Definition assert_eq {E A} `{EqDecision A} (left right : A) : res E unit := assert_ (bool_decide (left = right)).
Definition assert_ne {E A} `{EqDecision A} (left right : A) : res E unit := assert_ (bool_decide (left <> right)).
Definition is_err {E A} (r : res E A) : bool := match r with Err _ => true | _ => false end.

(** [assert!(f(..).is_ok())] and [is_err]: also a panic of the call fails the test. *)
Definition assert_is_ok {E E' A} (r : res E' A) : res E unit := assert_ (is_ok r).
Definition assert_is_err {E E' A} (r : res E' A) : res E unit := assert_ (is_err r).

(** [Serializable::to_bytes] and [Deserializable::read_from_bytes]. *)
Definition to_bytes {E A} (c : Codec A) (a : A) : res E (list Z) := expect_ok (write_into c a).
Definition read_from_bytes {A} (c : Codec A) (bytes : list Z) : res DeserializationError A := snd (read_from c bytes).

(** [assert_eq!(a, T::read_from_bytes(&a.to_bytes()).unwrap())], where the type has [eqb] as
    its equality. *)
Definition assert_reads_back {E A} (c : Codec A) (eqb : A -> A -> bool) (a : A) : res E unit :=
  bytes ← to_bytes c a;
  read ← expect_ok (read_from_bytes c bytes);
  assert_ (eqb a read).
Definition same {A} `{EqDecision A} (a b : A) : bool := bool_decide (a = b).

(** [for x in xs { .. }] over assertions. *)
Fixpoint assert_all {E A} (test : A -> res E unit) (xs : list A) : res E unit :=
  match xs with
  | [] => Ok tt
  | x :: xs' => _ ← test x; assert_all test xs'
  end.
Definition assert_both {E} (t t' : res E unit) : res E unit := _ ← t; t'.
Infix "+t+" := assert_both (at level 60, right associativity).

Section tests.
Context `{F : Field} {C : Crypto} {AS : Assembly} {FE : Features} {D : Display} {B : Build} {IO : ByteIO}.

(** ** Identifiers of accounts (accounts/account_id.rs, accounts/mod.rs) *)

Definition test_account_id_from_hex_and_back {E} : res E unit :=
  assert_all (fun account_id =>
    acc ← expect_ok (try_from_u64 account_id);
    back ← expect_ok (from_hex (to_hex acc));
    assert_eq acc back)
    [ACCOUNT_ID_REGULAR_ACCOUNT_IMMUTABLE_CODE_ON_CHAIN; ACCOUNT_ID_REGULAR_ACCOUNT_UPDATABLE_CODE_OFF_CHAIN;
     ACCOUNT_ID_FUNGIBLE_FAUCET_ON_CHAIN].

(** The four identifiers the other tests go through. *)
Definition id_reads_back {E} (account_id : Z) : res E unit :=
  account_id ← expect_ok (try_from_u64 account_id);
  assert_reads_back account_id_codec same account_id.
Definition test_account_id_serde {E} : res E unit :=
  id_reads_back ACCOUNT_ID_REGULAR_ACCOUNT_IMMUTABLE_CODE_ON_CHAIN +t+
  id_reads_back ACCOUNT_ID_REGULAR_ACCOUNT_UPDATABLE_CODE_OFF_CHAIN +t+
  id_reads_back ACCOUNT_ID_FUNGIBLE_FAUCET_ON_CHAIN +t+
  id_reads_back ACCOUNT_ID_NON_FUNGIBLE_FAUCET_OFF_CHAIN.

Definition same_account_type {E} (value : Z) : res E unit :=
  account_id ← expect_ok (try_from_u64 value);
  account_type_ ← AccountType_from value;
  of_id ← account_type account_id;
  assert_eq account_type_ of_id.
Definition test_account_id_account_type {E} : res E unit :=
  same_account_type ACCOUNT_ID_REGULAR_ACCOUNT_IMMUTABLE_CODE_ON_CHAIN +t+
  same_account_type ACCOUNT_ID_REGULAR_ACCOUNT_UPDATABLE_CODE_OFF_CHAIN +t+
  same_account_type ACCOUNT_ID_FUNGIBLE_FAUCET_ON_CHAIN +t+
  same_account_type ACCOUNT_ID_NON_FUNGIBLE_FAUCET_OFF_CHAIN.

Definition has_tags {E} (value : Z) (regular : bool) (expected : AccountType) (on_chain : bool) : res E unit :=
  account_id ← expect_ok (try_from_u64 value);
  tagged ← (if regular then is_regular_account account_id else is_faucet account_id);
  _ ← assert_ tagged;
  type ← account_type account_id;
  _ ← assert_eq type expected;
  public ← is_on_chain account_id;
  assert_ (if on_chain then public else negb public).
Definition test_account_id_tag_identifiers {E} : res E unit :=
  has_tags ACCOUNT_ID_REGULAR_ACCOUNT_IMMUTABLE_CODE_ON_CHAIN true RegularAccountImmutableCode true +t+
  has_tags ACCOUNT_ID_REGULAR_ACCOUNT_UPDATABLE_CODE_OFF_CHAIN true RegularAccountUpdatableCode false +t+
  has_tags ACCOUNT_ID_FUNGIBLE_FAUCET_ON_CHAIN false FungibleFaucet true +t+
  has_tags ACCOUNT_ID_NON_FUNGIBLE_FAUCET_OFF_CHAIN false NonFungibleFaucet false.

Definition test_account_id_faucet_bit {E} : res E unit :=
  let masked type := Z.land (Z.shiftl type ACCOUNT_TYPE_MASK_SHIFT mod 2 ^ 64) ACCOUNT_ISFAUCET_MASK in
  assert_ne (masked AccountIds.FUNGIBLE_FAUCET) 0 +t+
  assert_ne (masked AccountIds.NON_FUNGIBLE_FAUCET) 0 +t+
  assert_eq (masked AccountIds.REGULAR_ACCOUNT_IMMUTABLE_CODE) 0 +t+
  assert_eq (masked AccountIds.REGULAR_ACCOUNT_UPDATABLE_CODE) 0.

Definition test_account_id {E} : res E unit :=
  assert_all (fun account_type_ =>
    assert_all (fun storage_type_ =>
      acc ← expect_ok (try_from_u64 (testing_account_id account_type_ storage_type_ 255));
      type ← account_type acc;
      _ ← assert_eq type account_type_;
      storage ← storage_type acc;
      assert_eq storage storage_type_) [OnChain; OffChain])
    [RegularAccountImmutableCode; RegularAccountUpdatableCode; NonFungibleFaucet; FungibleFaucet].

(** ** Assets (assets/mod.rs, assets/token_symbol.rs) *)

Definition FUNGIBLE_TEST_IDS : list Z :=
  [ACCOUNT_ID_FUNGIBLE_FAUCET_OFF_CHAIN; ACCOUNT_ID_FUNGIBLE_FAUCET_ON_CHAIN; ACCOUNT_ID_FUNGIBLE_FAUCET_ON_CHAIN_1;
   ACCOUNT_ID_FUNGIBLE_FAUCET_ON_CHAIN_2; ACCOUNT_ID_FUNGIBLE_FAUCET_ON_CHAIN_3].
Definition NON_FUNGIBLE_TEST_IDS : list Z :=
  [ACCOUNT_ID_NON_FUNGIBLE_FAUCET_OFF_CHAIN; ACCOUNT_ID_NON_FUNGIBLE_FAUCET_ON_CHAIN; ACCOUNT_ID_NON_FUNGIBLE_FAUCET_ON_CHAIN_1].

Definition fungible_of {E} (faucet_id : AccountId) (amount : Z) : res E Asset :=
  asset ← expect_ok (fungible_new faucet_id amount);
  Ok (Fungible asset).
Definition non_fungible_of {E} (faucet_id : AccountId) (data : list Z) : res E Asset :=
  details ← expect_ok (details_new faucet_id data);
  asset ← expect_ok (non_fungible_new details);
  Ok (NonFungible asset).

Definition test_asset_serde {E} : res E unit :=
  assert_all (fun fungible_account_id =>
    account_id ← expect_ok (try_from_u64 fungible_account_id);
    fungible_asset ← fungible_of account_id 10;
    assert_reads_back asset_codec same fungible_asset) FUNGIBLE_TEST_IDS +t+
  assert_all (fun non_fungible_account_id =>
    account_id ← expect_ok (try_from_u64 non_fungible_account_id);
    non_fungible_asset ← non_fungible_of account_id [1; 2; 3];
    assert_reads_back asset_codec same non_fungible_asset) NON_FUNGIBLE_TEST_IDS.

Definition unchecked_reads_back {E} (asset : Asset) : res E unit :=
  word ← word_of_asset asset;
  assert_eq asset (asset_new_unchecked word).
Definition test_new_unchecked {E} : res E unit :=
  assert_all (fun fungible_account_id =>
    account_id ← expect_ok (try_from_u64 fungible_account_id);
    fungible_asset ← fungible_of account_id 10;
    unchecked_reads_back fungible_asset) FUNGIBLE_TEST_IDS +t+
  assert_all (fun non_fungible_account_id =>
    account_id ← expect_ok (try_from_u64 non_fungible_account_id);
    non_fungible_asset ← non_fungible_of account_id [1; 2; 3];
    unchecked_reads_back non_fungible_asset) NON_FUNGIBLE_TEST_IDS.

Definition test_token_symbol_decoding_encoding {E} : res E unit :=
  assert_all (fun symbol =>
    token_symbol ← expect_ok (token_symbol_new symbol);
    decoded_symbol ← to_str token_symbol;
    assert_eq symbol decoded_symbol) ["AAAAAA"; "AAAAAB"; "AAAAAC"; "AAAAAD"; "AAAAAE"; "AAAAAF"; "AAAAAG"]%string +t+
  assert_is_err (encode_symbol_to_felt "") +t+
  assert_is_err (encode_symbol_to_felt "ABCDEFG") +t+
  assert_is_err (encode_symbol_to_felt "$$$") +t+
  (let token_symbol := token_symbol_new "ABCDEF" in
   _ ← assert_is_ok token_symbol;
   token_symbol ← expect_ok token_symbol;
   encoded ← expect_ok (encode_symbol_to_felt "ABCDEF");
   assert_eq (ts_felt token_symbol) encoded).
End tests.

(** The derived equalities of the types with trees. *)
Section equality.
Context `{F : Field} {C : Crypto} {AS : Assembly} {TE : TreeEq}.

Definition vault_eqb (a b : AssetVault) : bool := Smt_eqb (asset_tree a) (asset_tree b).
Definition storage_eqb (a b : AccountStorage) : bool :=
  SimpleSmt_eqb (slots a) (slots b) && same (layout a) (layout b).
Definition account_eqb (a b : Account) : bool :=
  same (acc_id a) (acc_id b) && vault_eqb (acc_vault a) (acc_vault b) && storage_eqb (acc_storage a) (acc_storage b) &&
  code_eq (acc_code a) (acc_code b) && same (acc_nonce a) (acc_nonce b).
Definition auth_data_eqb (a b : AuthData) : bool :=
  match a, b with RpoFalcon512Seed seed, RpoFalcon512Seed seed' => same seed seed' end.
Definition account_data_eqb (a b : AccountData) : bool :=
  account_eqb (ad_account a) (ad_account b) && same (ad_account_seed a) (ad_account_seed b) &&
  auth_data_eqb (ad_auth a) (ad_auth b).
End equality.

Section account_tests.
Context `{F : Field} {C : Crypto} {AS : Assembly} {FE : Features} {D : Display} {B : Build} {IO : ByteIO}
  {P : Programs} {L : Linker} {ML : MidenLib} {TE : TreeEq} {MT : ModuleTools}.

(** ** Storage, code and deltas (accounts/storage/mod.rs, accounts/code.rs, accounts/delta/*.rs) *)

Definition storage_reads_back {E} (items : list SlotItem) : res E unit :=
  storage ← expect_ok (storage_new items);
  assert_reads_back storage_codec storage_eqb storage.
Definition account_storage_serialization {E} : res E unit :=
  storage_reads_back [] +t+
  storage_reads_back
    [mkSlotItem 0 (mkStorageSlot DEFAULT_SLOT_TYPE (mkWord ONE ONE ONE ONE));
     mkSlotItem 2 (mkStorageSlot DEFAULT_SLOT_TYPE (mkWord ONE ONE ONE ZERO))] +t+
  storage_reads_back
    [mkSlotItem 0 (mkStorageSlot (SlotValue 1) (mkWord ONE ONE ONE ONE));
     mkSlotItem 1 (new_value (mkWord ONE ONE ONE ZERO));
     mkSlotItem 2 (mkStorageSlot (SlotMap 2) (mkWord ONE ONE ZERO ZERO));
     mkSlotItem 3 (mkStorageSlot (SlotArray 4 3) (mkWord ONE ZERO ZERO ZERO))].

Definition code_test_source : string := "
            export.foo
                push.1 push.2 mul
            end

            export.bar
                push.1 push.2 add
            end
        ".
Definition serialize_code {E} : res E unit :=
  module ← expect_ok (ModuleAst_parse code_test_source);
  let module := clear_imports module in
  let module := clear_locations module in
  code1 ← expect_ok (code_new module Assembler_default);
  bytes ← to_bytes code_codec code1;
  code2 ← expect_ok (read_from_bytes code_codec bytes);
  assert_ (code_eq code1 code2).

Definition ones (n : nat) : Word := mkWord ONE (if (2 <=? n)%nat then ONE else ZERO) (if (3 <=? n)%nat then ONE else ZERO)
  (if (4 <=? n)%nat then ONE else ZERO).

(** The control case, and a delta that is refused also when it is read. *)
Definition storage_delta_accepted {E} (delta : AccountStorageDelta) : res E unit :=
  _ ← assert_is_ok (storage_delta_validate delta);
  bytes ← to_bytes storage_delta_codec delta;
  read ← expect_ok (read_from_bytes storage_delta_codec bytes);
  assert_ (same (cleared_items read) (cleared_items delta) && same (updated_items read) (updated_items delta)).
Definition storage_delta_refused {E} (delta : AccountStorageDelta) : res E unit :=
  _ ← assert_is_err (storage_delta_validate delta);
  bytes ← to_bytes storage_delta_codec delta;
  assert_is_err (read_from_bytes storage_delta_codec bytes).
Definition account_storage_delta_validation {E} : res E unit :=
  storage_delta_accepted (mkAccountStorageDelta [1; 2; 3] [(4, ones 4); (5, ones 3)]) +t+
  storage_delta_refused (mkAccountStorageDelta [1; 2; 255] []) +t+
  storage_delta_refused (mkAccountStorageDelta [1; 2; 1] []) +t+
  storage_delta_refused (mkAccountStorageDelta [] [(4, ones 4); (255, ones 3)]) +t+
  storage_delta_refused (mkAccountStorageDelta [] [(4, ones 4); (5, ones 3); (4, ones 2)]) +t+
  storage_delta_refused (mkAccountStorageDelta [1; 2; 3] [(2, ones 4); (5, ones 3)]).

Definition vault_delta_accepted {E} (delta : AccountVaultDelta) : res E unit :=
  _ ← assert_is_ok (vault_delta_validate delta);
  bytes ← to_bytes vault_delta_codec delta;
  read ← expect_ok (read_from_bytes vault_delta_codec bytes);
  assert_ (same (added_assets read) (added_assets delta) && same (removed_assets read) (removed_assets delta)).
Definition vault_delta_refused {E} (delta : AccountVaultDelta) : res E unit :=
  _ ← assert_is_err (vault_delta_validate delta);
  bytes ← to_bytes vault_delta_codec delta;
  assert_is_err (read_from_bytes vault_delta_codec bytes).
Definition account_vault_delta_assets {E} (ffid1 ffid2 nffid1 nffid2 : AccountId) : res E unit :=
  asset1 ← fungible_of ffid1 10;
  asset2 ← fungible_of ffid1 30;
  asset3 ← fungible_of ffid2 20;
  asset4 ← non_fungible_of nffid1 [1; 2; 3];
  asset5 ← non_fungible_of nffid1 [4; 5; 6];
  asset6 ← non_fungible_of nffid2 [7; 8; 9];
  assert_reads_back asset_codec same asset5 +t+
  vault_delta_accepted (mkAccountVaultDelta [asset1; asset4; asset5] [asset3; asset6]) +t+
  vault_delta_refused (mkAccountVaultDelta [asset1; asset4; asset5; asset2] []) +t+
  vault_delta_refused (mkAccountVaultDelta [] [asset1; asset4; asset5; asset2]) +t+
  vault_delta_refused (mkAccountVaultDelta [asset1; asset3] [asset4; asset5; asset2]).

(** The searches for the identifiers have fuel. *)
Definition account_vault_delta_validation {E} (fuel : nat) : option (res E unit) :=
  ffid1 ← new_dummy fuel (replicate 32 0) FungibleFaucet;
  ffid2 ← new_dummy fuel (replicate 32 1) FungibleFaucet;
  nffid1 ← new_dummy fuel (replicate 32 0) NonFungibleFaucet;
  nffid2 ← new_dummy fuel (replicate 32 1) NonFungibleFaucet;
  Some (ffid1 ← ffid1; ffid2 ← ffid2; nffid1 ← nffid1; nffid2 ← nffid2;
        account_vault_delta_assets ffid1 ffid2 nffid1 nffid2).

Definition account_delta_nonce_validation {E} : res E unit :=
  let storage_delta := mkAccountStorageDelta [] [] in
  let vault_delta := mkAccountVaultDelta [] [] in
  assert_is_ok (account_delta_new storage_delta vault_delta None) +t+
  assert_is_err (account_delta_new storage_delta vault_delta (Some ONE)) +t+
  (let storage_delta := mkAccountStorageDelta [1] [] in
   assert_is_err (account_delta_new storage_delta vault_delta None) +t+
   assert_is_err (account_delta_new storage_delta vault_delta (Some ZERO)) +t+
   assert_is_ok (account_delta_new storage_delta vault_delta (Some ONE))).

(** ** Accounts (accounts/mod.rs) *)

Definition account_test_source : string := "
            export.foo
                push.1 push.2 mul
            end
            export.bar
                push.1 push.2 add
            end
        ".
Definition build_account {E} (assets : list Asset) (nonce : Felt) (storage_items : list Word) : res E Account :=
  module ← expect_ok (ModuleAst_parse account_test_source);
  code ← expect_ok (code_new module Assembler_default);
  vault ← expect_ok (vault_new assets);
  let slot_type := SlotValue 0 in
  let slot_items := map (fun e => mkSlotItem (e.1 mod 2 ^ 8) (mkStorageSlot slot_type e.2)) (enumerate storage_items) in
  storage ← expect_ok (storage_new slot_items);
  id ← expect_ok (try_from_u64 ACCOUNT_ID_REGULAR_ACCOUNT_IMMUTABLE_CODE_ON_CHAIN);
  Ok (mkAccount id vault storage code nonce).

Definition test_word : Word := mkWord (Felt_new 1) (Felt_new 2) (Felt_new 3) (Felt_new 4).
Definition build_account_delta {E} (added_assets removed_assets : list Asset) (nonce : Felt) : res E AccountDelta :=
  let storage_delta := mkAccountStorageDelta [0] [(1, test_word)] in
  let vault_delta := mkAccountVaultDelta added_assets removed_assets in
  expect_ok (account_delta_new storage_delta vault_delta (Some nonce)).

Definition build_assets {E} : res E (Asset * Asset) :=
  faucet_id_0 ← expect_ok (try_from_u64 ACCOUNT_ID_FUNGIBLE_FAUCET_ON_CHAIN);
  asset_0 ← fungible_of faucet_id_0 123;
  faucet_id_1 ← expect_ok (try_from_u64 ACCOUNT_ID_FUNGIBLE_FAUCET_ON_CHAIN_2);
  asset_1 ← fungible_of faucet_id_1 345;
  Ok (asset_0, asset_1).

(** [account.apply_delta(&delta).unwrap()]. *)
Definition apply_unwrap {E} (delta : AccountDelta) (account : Account) : res E Account :=
  let '(account, r) := apply_delta delta account in
  _ ← expect_ok r; Ok account.

Definition valid_account_delta_is_correctly_applied {E} : res E unit :=
  let init_nonce := Felt_new 1 in
  '(asset_0, asset_1) ← build_assets;
  account ← build_account [asset_0] init_nonce [test_word];
  let final_nonce := Felt_new 2 in
  account_delta ← build_account_delta [asset_1] [asset_0] final_nonce;
  account ← apply_unwrap account_delta account;
  final_account ← build_account [asset_1] final_nonce [EMPTY_WORD; test_word];
  assert_ (account_eqb account final_account).

Definition valid_account_delta_with_unchanged_nonce {E} : res E unit :=
  let init_nonce := Felt_new 1 in
  '(asset, _) ← build_assets;
  account ← build_account [asset] init_nonce [EMPTY_WORD];
  account_delta ← build_account_delta [] [asset] init_nonce;
  _ ← apply_unwrap account_delta account; Ok tt.

Definition valid_account_delta_with_decremented_nonce {E} : res E unit :=
  let init_nonce := Felt_new 2 in
  '(asset, _) ← build_assets;
  account ← build_account [asset] init_nonce [EMPTY_WORD];
  let final_nonce := Felt_new 1 in
  account_delta ← build_account_delta [] [asset] final_nonce;
  _ ← apply_unwrap account_delta account; Ok tt.

Definition empty_account_delta_with_incremented_nonce {E} : res E unit :=
  let init_nonce := Felt_new 1 in
  account ← build_account [] init_nonce [test_word];
  let final_nonce := Felt_new 2 in
  account_delta ← expect_ok (account_delta_new (mkAccountStorageDelta [] []) (mkAccountVaultDelta [] []) (Some final_nonce));
  _ ← apply_unwrap account_delta account; Ok tt.

(** ** Files of accounts (accounts/data.rs) *)

Definition build_account_data {E} : res E AccountData :=
  id ← expect_ok (try_from_u64 ACCOUNT_ID_REGULAR_ACCOUNT_IMMUTABLE_CODE_ON_CHAIN);
  module ← expect_ok (ModuleAst_parse code_test_source);
  let module := clear_locations module in
  let module := clear_imports module in
  code ← expect_ok (code_new module Assembler_default);
  vault ← expect_ok (vault_new []);
  storage ← expect_ok (storage_new []);
  let nonce := Felt_new 0 in
  let account := mkAccount id vault storage code nonce in
  let account_seed := Some EMPTY_WORD in
  let auth_seed := replicate 32 0 in
  let auth := RpoFalcon512Seed auth_seed in
  Ok (mkAccountData account account_seed auth).

Definition account_data_correctly_serialises_and_deserialises {E} : res E unit :=
  account_data ← build_account_data;
  assert_reads_back account_data_codec account_data_eqb account_data.

(** In the directory [tempdir] has made. *)
Definition account_data_is_correctly_writen_and_read_to_and_from_file {OS : Os} (dir : Path) : mut Fs IoError unit :=
  let filepath := dir ++ ["account_data.mac"%string] in
  account_data ← lift build_account_data;
  written ← (fun fs => let '(fs, r) := account_data_write account_data filepath fs in (fs, expect_ok r));
  account_data_2 ← (fun fs => let '(fs, r) := account_data_read filepath fs in (fs, expect_ok r));
  lift (assert_ (account_data_eqb account_data account_data_2)).
End account_tests.

Section note_tests.
Context `{F : Field} {C : Crypto} {AS : Assembly} {FE : Features} {D : Display} {B : Build} {IO : ByteIO}
  {MK : Merkle} {FM : FullMmr} {DT : DigestText} {TE : TreeEq} {PO : PartialOpen}.

(** ** Notes (notes/note_id.rs, notes/nullifier.rs, notes/inputs.rs) *)

Definition note_id_hex : string := "0xc9d31c82c098e060c9b6e3af2710b3fc5009a1a6f82ef9465f8f35d1f5ba4a80".
Definition note_id_try_from_hex_test {E} : res E unit :=
  note_id ← expect_ok (note_id_try_from_hex note_id_hex);
  assert_eq (digest_to_hex (note_id_inner note_id)) note_id_hex.

Definition nullifier_hex : string := "0x41e7dbbc8ce63ec25cf2d76d76162f16ef8fd1195288171f5e5a3e178222f6d2".
Definition test_from_hex_and_back {E} : res E unit :=
  nullifier ← expect_ok (nullifier_from_hex nullifier_hex);
  assert_eq nullifier_hex (nullifier_to_hex nullifier).

Definition test_input_ordering {E} : res E unit :=
  let inputs := [Felt_new 1; Felt_new 2; Felt_new 3] in
  let expected_ordering := [Felt_new 1; Felt_new 2; Felt_new 3] in
  note_inputs ← expect_ok (note_inputs_new inputs);
  assert_eq expected_ordering (ni_values note_inputs).

(** Inputs are equal when their values are. *)
Definition test_input_serialization {E} : res E unit :=
  let inputs := [Felt_new 1; Felt_new 2; Felt_new 3] in
  note_inputs ← expect_ok (note_inputs_new inputs);
  assert_reads_back note_inputs_codec (fun a b => same (ni_values a) (ni_values b)) note_inputs.

(** ** Blocks (block/note_tree.rs, transaction/chain_mmr.rs) *)

Definition block_note_tree_test {E} : res E unit :=
  let data := map (fun idx => (idx, mkWord ONE ZERO ONE (Felt_new idx))) (seqZ 0 100) in
  initial_tree ← expect_ok (SimpleSmt_with_leaves BLOCK_OUTPUT_NOTES_TREE_DEPTH data);
  bytes ← to_bytes block_note_tree_codec initial_tree;
  deserialized_tree ← expect_ok (read_from_bytes block_note_tree_codec bytes);
  assert_ (SimpleSmt_eqb deserialized_tree initial_tree).

Definition int_to_block_header (block_num : Z) : BlockHeader :=
  block_header_new EMPTY_WORD block_num EMPTY_WORD EMPTY_WORD EMPTY_WORD EMPTY_WORD EMPTY_WORD EMPTY_WORD ZERO ZERO.

(** A new block in both ranges, and its openings. *)
Definition add_and_open {E} (block_num : Z) (st : Mmr * ChainMmr) : res E (Mmr * ChainMmr) :=
  let '(mmr, chain_mmr) := st in
  let block_header := int_to_block_header block_num in
  let mmr := Mmr_add mmr (block_hash block_header) in
  let '(chain_mmr, r) := add_block block_header true chain_mmr in
  _ ← r;
  expected ← expect_ok (Mmr_open mmr block_num (Mmr_forest mmr));
  opened ← expect_ok (partial_open (cm_mmr chain_mmr) block_num);
  opened ← expect opened;
  _ ← assert_eq expected opened;
  Ok (mmr, chain_mmr).
Definition test_chain_mmr_add {E} : res E unit :=
  let mmr := foldl (fun mmr i => Mmr_add mmr (block_hash (int_to_block_header i))) Mmr_default (seqZ 0 3) in
  peaks ← expect_ok (Mmr_peaks mmr (Mmr_forest mmr));
  let partial_mmr := from_peaks peaks in
  chain_mmr ← expect_ok (chain_mmr_new partial_mmr []);
  st ← add_and_open 3 (mmr, chain_mmr);
  st ← add_and_open 4 st;
  _ ← add_and_open 5 st;
  Ok tt.
End note_tests.

(** ** Lemmas *)

Section lemmas.
Context `{F : Field} {FL : FieldLaws F} {C : Crypto} {SML : SmtLaws C} {SSL : SimpleSmtLaws C} {HL : HexLaws C}
  {AS : Assembly} {FE : Features} {D : Display} {B : Build} {IO : ByteIO} {IOL : ByteIOLaws IO}.

Lemma same_refl {A} `{EqDecision A} (a : A) : same a a = true.
Proof. by apply bool_decide_eq_true. Qed.
Lemma assert_eq_refl {E A} `{EqDecision A} (a : A) : assert_eq (E := E) a a = Ok tt.
Proof. unfold assert_eq. by rewrite bool_decide_true. Qed.

Lemma assert_both_ok {E} (t t' : res E unit) : t = Ok tt -> t' = Ok tt -> (t +t+ t') = Ok tt.
Proof. by intros -> ->. Qed.
Lemma assert_all_ok {E A} (test : A -> res E unit) xs : Forall (fun x => test x = Ok tt) xs -> assert_all test xs = Ok tt.
Proof. induction 1 as [|x xs Hx _ IH]; [done|]. cbn. by rewrite Hx. Qed.

(** A value whose codec round trips up to the equality of its type passes. *)
Lemma reads_back_ok {E A} (c : Codec A) (P : A -> Prop) (R : A -> A -> Prop) eqb a :
  round_trips_upto c P R -> P a -> (forall a', R a a' -> eqb a a' = true) -> assert_reads_back (E := E) c eqb a = Ok tt.
Proof.
  intros Hc Ha Heq. destruct (Hc a Ha) as (bs & Hw & Hr). destruct (Hr []) as (a' & Hread & Hrel).
  rewrite app_nil_r in Hread. unfold assert_reads_back, to_bytes, read_from_bytes. rewrite Hw. cbn [expect_ok mbind res_bind].
  rewrite Hread. cbn [snd expect_ok mbind res_bind]. by rewrite Heq.
Qed.
Lemma reads_back_same {E A} `{EqDecision A} (c : Codec A) (P : A -> Prop) a :
  round_trips c P -> P a -> assert_reads_back (E := E) c same a = Ok tt.
Proof. intros Hc Ha. apply (reads_back_ok c P eq); [done|done|]. intros a' <-. apply same_refl. Qed.

Lemma test_asset_ok v amount : id_accepted v = true -> type_of_bits (type_bits v) = FungibleFaucet -> 0 <= amount <= MAX_AMOUNT ->
  exists id, try_from_u64 v = Ok id /\ forall E, fungible_of (E := E) id amount = Ok (consumed_asset v amount) /\
    asset_valid (consumed_asset v amount).
Proof.
  intros Hv Ht Ha. exists (test_id v). destruct (test_id_ok v Hv) as (Hid & _). split; [done|]. intros E.
  destruct (fungible_asset_of_ok (E := E) v amount Hv Ht Ha) as [Hok Hval]. split; [|done].
  unfold fungible_asset_of in Hok. rewrite Hid in Hok. exact Hok.
Qed.
Lemma test_nft_ok v data : id_accepted v = true -> type_of_bits (type_bits v) = NonFungibleFaucet ->
  exists id, try_from_u64 v = Ok id /\ forall E, non_fungible_of (E := E) id data = Ok (nft_of v data) /\ asset_valid (nft_of v data).
Proof.
  intros Hv Ht. exists (test_id v). destruct (test_id_ok v Hv) as (Hid & _). split; [done|]. intros E.
  destruct (nft_made (E := E) v data Hv Ht) as [Hok Hval]. split; [|done]. rewrite Hid in Hok. exact Hok.
Qed.
End lemmas.

(** One goal for each assertion of a test, or for each constant of a loop of a test. *)
Ltac each_part := lazymatch goal with |- assert_both _ _ = _ => apply assert_both_ok; [|each_part] | _ => idtac end.
Ltac each_constant := repeat (apply Forall_cons; split); try (by apply Forall_nil).

(** ** Properties *)

Section properties.
Context `{F : Field} {FL : FieldLaws F} {C : Crypto} {SML : SmtLaws C} {SSL : SimpleSmtLaws C} {HL : HexLaws C}
  {AS : Assembly} {FE : Features} {D : Display} {B : Build} {IO : ByteIO} {IOL : ByteIOLaws IO}.

(** The tests of account identifiers pass. *)
Theorem account_id_tests_pass {E} :
  test_account_id_from_hex_and_back (E := E) = Ok tt /\ test_account_id_serde (E := E) = Ok tt /\
  test_account_id_account_type (E := E) = Ok tt /\ test_account_id_tag_identifiers (E := E) = Ok tt /\
  test_account_id_faucet_bit (E := E) = Ok tt /\ test_account_id (E := E) = Ok tt.
Proof.
  assert (Hback : forall v, id_accepted v = true -> id_reads_back (E := E) v = Ok tt).
  { intros v Hv. destruct (test_id_ok v Hv) as (Hid & Hval & _). unfold id_reads_back. rewrite Hid.
    by apply (reads_back_same _ AccountId_valid); [apply account_id_codec_round_trips|]. }
  assert (Htype : forall v, id_accepted v = true -> same_account_type (E := E) v = Ok tt).
  { intros v Hv. destruct (test_id_ok v Hv) as (Hid & Hval & Ht & _). unfold same_account_type. rewrite Hid.
    cbn [expect_ok mbind res_bind]. rewrite AccountType_from_total, account_type_total, Ht. apply assert_eq_refl. }
  split_and!.
  - apply assert_all_ok. each_constant;
      match goal with |- context [try_from_u64 ?v] => destruct (test_id_ok v eq_refl) as (Hid & Hval & _) end;
      rewrite Hid; cbn [expect_ok mbind res_bind];
      rewrite (proj1 (proj2 (proj2 (proj2 (account_id_conversions_round_trip _ Hval))))); apply assert_eq_refl.
  - unfold test_account_id_serde. each_part; by apply Hback.
  - unfold test_account_id_account_type. each_part; by apply Htype.
  - unfold test_account_id_tag_identifiers. each_part;
      match goal with |- has_tags ?v _ _ _ = _ => destruct (test_id_ok v eq_refl) as (Hid & _ & _ & Hint) end;
      unfold has_tags; rewrite Hid; cbn [expect_ok mbind res_bind];
      unfold is_regular_account, is_faucet, is_on_chain, account_type, storage_type; rewrite !Hint; reflexivity.
  - reflexivity.
  - apply assert_all_ok. each_constant;
      apply assert_all_ok; each_constant;
      match goal with |- context [try_from_u64 ?v] => destruct (test_id_ok v eq_refl) as (Hid & _ & _ & Hint) end;
      rewrite Hid; cbn [expect_ok mbind res_bind]; unfold account_type, storage_type; rewrite !Hint; reflexivity.
Qed.

(** The tests of assets pass. *)
Theorem asset_tests_pass {E} :
  test_asset_serde (E := E) = Ok tt /\ test_new_unchecked (E := E) = Ok tt /\
  test_token_symbol_decoding_encoding (E := E) = Ok tt.
Proof.
  assert (Hf : Forall (fun v => exists id a, try_from_u64 v = Ok id /\ fungible_of (E := E) id 10 = Ok a /\ asset_valid a) FUNGIBLE_TEST_IDS).
  { each_constant;
      match goal with |- exists id a, try_from_u64 ?v = _ /\ _ =>
        destruct (test_asset_ok v 10 eq_refl eq_refl) as (id & Hid & Ha); [by vm_compute|];
        destruct (Ha E) as [Hok Hval]; by exists id, (consumed_asset v 10) end. }
  assert (Hn : Forall (fun v => exists id a, try_from_u64 v = Ok id /\ non_fungible_of (E := E) id [1; 2; 3] = Ok a /\ asset_valid a)
    NON_FUNGIBLE_TEST_IDS).
  { each_constant;
      match goal with |- exists id a, try_from_u64 ?v = _ /\ _ =>
        destruct (test_nft_ok v [1; 2; 3] eq_refl eq_refl) as (id & Hid & Ha);
        destruct (Ha E) as [Hok Hval]; by exists id, (nft_of v [1; 2; 3]) end. }
  split_and!.
  - apply assert_both_ok; apply assert_all_ok; eapply Forall_impl; try exact Hf; try exact Hn; intros v (id & a & Hid & Ha & Hval);
      rewrite Hid; cbn [expect_ok mbind res_bind]; rewrite Ha; cbn [mbind res_bind];
      by apply (reads_back_same _ asset_valid); [apply asset_codec_round_trips|].
  - apply assert_both_ok; apply assert_all_ok; eapply Forall_impl; try exact Hf; try exact Hn; intros v (id & a & Hid & Ha & Hval);
      rewrite Hid; cbn [expect_ok mbind res_bind]; rewrite Ha; cbn [mbind res_bind];
      unfold unchecked_reads_back; rewrite word_of_asset_valid by done; cbn [mbind res_bind];
      rewrite asset_new_unchecked_word by done; apply assert_eq_refl.
  - unfold test_token_symbol_decoding_encoding. each_part.
    + assert (Hsym : forall s, is_symbol (list_ascii_of_string s) -> List.length (list_ascii_of_string s) = 6%nat ->
        (token_symbol ← expect_ok (token_symbol_new s); decoded_symbol ← to_str token_symbol; assert_eq s decoded_symbol) = Ok (E := E) tt).
      { intros s Hs Hlen. unfold token_symbol_new. rewrite encode_symbol_ok by done. cbn [expect_ok mbind res_bind].
        unfold to_str. cbn [ts_felt]. rewrite decode_encode by done. rewrite Hlen. cbn [mbind res_bind replicate Nat.sub app].
        rewrite string_of_list_ascii_of_string. apply assert_eq_refl. }
      apply assert_all_ok. each_constant;
        (apply Hsym; [split; [cbn; lia|by repeat constructor]|done]).
    + reflexivity.
    + reflexivity.
    + reflexivity.
    + unfold token_symbol_new. rewrite encode_symbol_ok by (split; [cbn; lia|by repeat constructor]). apply assert_eq_refl.
Qed.
End properties.

(** ** Storage, code and deltas *)

Section state_lemmas.
Context `{F : Field} {FL : FieldLaws F} {C : Crypto} {SML : SmtLaws C} {SSL : SimpleSmtLaws C} {AS : Assembly} {ASL : AssemblyLaws AS}
  {FE : Features} {D : Display} {B : Build} {IO : ByteIO} {IOL : ByteIOLaws IO} {TE : TreeEq} {TEL : TreeEqLaws TE}.

Lemma vault_eqb_ok v v' : v ≡ v' -> vault_eqb v v' = true.
Proof. apply Smt_eqb_ok. Qed.
Lemma storage_eqb_ok s s' : s ≡ s' -> storage_eqb s s' = true.
Proof. intros [Hl Hs]. unfold storage_eqb. rewrite (SimpleSmt_eqb_ok _ _ _ Hs), Hl. apply same_refl. Qed.
Lemma account_eqb_ok a a' : a ≡ a' -> account_eqb a a' = true.
Proof.
  intros (Hid & Hv & Hs & Hc & Hn). unfold account_eqb, code_eq.
  rewrite Hid, (vault_eqb_ok _ _ Hv), (storage_eqb_ok _ _ Hs), Hc, Hn, !same_refl, !bool_decide_true by done. done.
Qed.

(** Items whose storage is read back as it was. *)
Definition items_kept (items : list SlotItem) : Prop :=
  items_ok items /\ Forall (fun it => slot_type_readable (slot_type (item_slot it)) /\
    (slot_value (item_slot it) = EMPTY_WORD -> slot_type (item_slot it) = DEFAULT_SLOT_TYPE)) items.

Lemma items_kept_at items i : items_kept items ->
  slot_type_readable (slot_type (slot_at items i)) /\
  (slot_value (slot_at items i) = EMPTY_WORD -> slot_type (slot_at items i) = DEFAULT_SLOT_TYPE).
Proof.
  intros [_ Hall]. unfold slot_at. destruct (entry_or_cases (item_pair <$> items) i empty_slot) as [[_ ->]|Hin].
  - split; [cbn; unfold MAX_VALUE_ARITY; lia|done].
  - apply list_elem_of_fmap in Hin as (it & Heq & Hin). rewrite Forall_forall in Hall.
    specialize (Hall it Hin). injection Heq as _ ->. exact Hall.
Qed.

Lemma storage_reads_back_ok {E} items : items_kept items -> storage_reads_back (E := E) items = Ok tt.
Proof.
  intros Hk. pose proof Hk as [Hok _]. destruct (storage_new_ok items Hok) as (s & Hs & Hwf & Hslots).
  unfold storage_reads_back. rewrite Hs. cbn [expect_ok mbind res_bind].
  apply (reads_back_ok _ (fun s => storage_encodable s /\ storage_typed_filled s) (≡)).
  - apply storage_codec_round_trips.
  - split; [split; [done|]|].
    + intros i t Hi Ht. destruct (Hslots i Hi) as [Hl _]. rewrite Hl in Ht. injection Ht as <-. by apply items_kept_at.
    + intros i Hi He. destruct (Hslots i Hi) as [Hl Hg]. rewrite Hl. f_equal.
      apply (items_kept_at items i Hk). congruence.
  - intros s'. apply storage_eqb_ok.
Qed.

Lemma storage_delta_accepted_ok {E} d : storage_delta_u8 d -> storage_delta_valid d -> storage_delta_accepted (E := E) d = Ok tt.
Proof.
  intros Hu8 Hv. pose proof Hv as (Hlc & Hlu & Hch). rewrite <- storage_delta_chained_spec in Hch.
  destruct (storage_delta_codec_effect d Hu8 Hlc Hlu) as (bs & Hw & Hr). destruct (Hr []) as [Hread _].
  rewrite app_nil_r in Hread. unfold storage_delta_accepted, assert_is_ok, to_bytes, read_from_bytes.
  rewrite (proj2 (storage_delta_validate_spec d) Hv). cbn [is_ok assert_ mbind res_bind]. rewrite Hw. cbn [expect_ok mbind res_bind].
  rewrite Hread by done. cbn [snd expect_ok mbind res_bind]. by rewrite !same_refl.
Qed.
Lemma storage_delta_refused_ok {E} d : storage_delta_u8 d ->
  (length (cleared_items d) <= 255)%nat -> (length (updated_items d) <= 255)%nat ->
  is_err (storage_delta_validate d) = true -> storage_delta_refused (E := E) d = Ok tt.
Proof.
  intros Hu8 Hlc Hlu Herr. destruct (storage_delta_codec_effect d Hu8 Hlc Hlu) as (bs & Hw & Hr).
  assert (Hch : ~ storage_delta_chained d).
  { rewrite storage_delta_chained_spec. intros Hch. assert (Hv : storage_delta_valid d) by (unfold storage_delta_valid; tauto).
    apply storage_delta_validate_spec in Hv. by rewrite Hv in Herr. }
  destruct (Hr []) as [_ Hread]. destruct (Hread Hch) as (rest & e & He). rewrite app_nil_r in He.
  unfold storage_delta_refused, assert_is_err, to_bytes, read_from_bytes. rewrite Herr. cbn [assert_ mbind res_bind].
  rewrite Hw. cbn [expect_ok mbind res_bind]. by rewrite He.
Qed.

Lemma check_each_total {E A} (check : list A -> A -> res E unit) before xs :
  (forall l x, check l x <> Panic) -> check_each check before xs <> Panic.
Proof.
  intros Hc. revert before. induction xs as [|x xs IH]; intros before; [done|]. cbn.
  pose proof (Hc before x). destruct (check before x) as [[]| |]; cbn; [apply IH|done|done].
Qed.
Lemma vault_delta_validate_total d : vault_delta_validate d <> Panic.
Proof.
  unfold vault_delta_validate. repeat case_decide; [done|done|].
  pose proof (check_each_total check_added_asset [] (added_assets d)) as Ha.
  destruct (check_each check_added_asset [] (added_assets d)) as [[]| |]; cbn [mbind res_bind];
    [|done|apply Ha; intros l x; unfold check_added_asset; by destruct (any_same l x)].
  apply check_each_total. intros l x. unfold check_removed_asset. by destruct (any_same l x), (any_same (added_assets d) x).
Qed.

Lemma vault_delta_accepted_ok {E} d : vault_delta_assets_valid d -> vault_delta_valid d -> vault_delta_accepted (E := E) d = Ok tt.
Proof.
  intros Ha Hv. pose proof Hv as (Hla & Hlr & Hch). rewrite <- vault_delta_chained_spec in Hch by done.
  destruct (vault_delta_codec_effect d Ha Hla Hlr) as (bs & Hw & Hr). destruct (Hr []) as [Hread _].
  rewrite app_nil_r in Hread. unfold vault_delta_accepted, assert_is_ok, to_bytes, read_from_bytes.
  rewrite (proj2 (vault_delta_validate_spec d Ha) Hv). cbn [is_ok assert_ mbind res_bind]. rewrite Hw. cbn [expect_ok mbind res_bind].
  rewrite Hread by done. cbn [snd expect_ok mbind res_bind]. by rewrite !same_refl.
Qed.
Lemma vault_delta_refused_ok {E} d : vault_delta_assets_valid d ->
  Z.of_nat (length (added_assets d)) <= 65535 -> Z.of_nat (length (removed_assets d)) <= 65535 ->
  ~ NoDup (vault_key <$> (added_assets d ++ removed_assets d)) -> vault_delta_refused (E := E) d = Ok tt.
Proof.
  intros Ha Hla Hlr Hdup. destruct (vault_delta_codec_effect d Ha Hla Hlr) as (bs & Hw & Hr).
  destruct (Hr []) as [_ Hread]. rewrite <- vault_delta_chained_spec in Hdup by done.
  destruct (Hread Hdup) as (rest & e & He). rewrite app_nil_r in He.
  unfold vault_delta_refused, assert_is_err, to_bytes, read_from_bytes.
  assert (Herr : is_err (vault_delta_validate d) = true).
  { pose proof (vault_delta_validate_total d). destruct (vault_delta_validate d) as [[]| |] eqn:Hv; [|done|done].
    exfalso. apply Hdup. rewrite vault_delta_chained_spec by done. by apply vault_delta_validate_spec. }
  rewrite Herr. cbn [assert_ mbind res_bind]. rewrite Hw. cbn [expect_ok mbind res_bind]. by rewrite He.
Qed.
End state_lemmas.

Section state_properties.
Context `{F : Field} {FL : FieldLaws F} {C : Crypto} {SML : SmtLaws C} {SSL : SimpleSmtLaws C} {AS : Assembly} {ASL : AssemblyLaws AS}
  {FE : Features} {D : Display} {B : Build} {IO : ByteIO} {IOL : ByteIOLaws IO} {TE : TreeEq} {TEL : TreeEqLaws TE}
  {P : Programs} {L : Linker} {ML : MidenLib} {MT : ModuleTools} {MTL : ModuleToolsLaws MT}.

(** The tests of storages and of deltas pass. *)
Theorem storage_and_delta_tests_pass {E} :
  account_storage_serialization (E := E) = Ok tt /\ account_storage_delta_validation (E := E) = Ok tt /\
  account_delta_nonce_validation (E := E) = Ok tt.
Proof.
  assert (H1 : ONE <> ZERO :> Felt) by apply not_one.
  assert (Hw : forall a b c, mkWord ONE a b c <> EMPTY_WORD) by (intros a b c Heq; by injection Heq).
  split_and!.
  - unfold account_storage_serialization. each_part; apply storage_reads_back_ok; (split; [split|]);
      try (apply (bool_decide_unpack _); by vm_compute); each_constant;
      try (cbn; lia); try (split; [cbn; unfold MAX_VALUE_ARITY, MIN_ARRAY_DEPTH, MAX_ARRAY_DEPTH; lia|by intros ?%Hw]).
  - unfold account_storage_delta_validation. each_part.
    + apply storage_delta_accepted_ok; [each_constant; cbn; lia|].
      split_and!; [cbn; lia|cbn; lia|each_constant; cbn; unfold MAX_MUTABLE_STORAGE_SLOT_IDX; lia|].
      apply (bool_decide_unpack _). by vm_compute.
    + apply storage_delta_refused_ok; [each_constant; cbn; lia|cbn; lia|cbn; lia|reflexivity].
    + apply storage_delta_refused_ok; [each_constant; cbn; lia|cbn; lia|cbn; lia|reflexivity].
    + apply storage_delta_refused_ok; [each_constant; cbn; lia|cbn; lia|cbn; lia|reflexivity].
    + apply storage_delta_refused_ok; [each_constant; cbn; lia|cbn; lia|cbn; lia|reflexivity].
    + apply storage_delta_refused_ok; [each_constant; cbn; lia|cbn; lia|cbn; lia|reflexivity].
  - unfold account_delta_nonce_validation, assert_is_ok, assert_is_err, account_delta_new, validate_nonce. each_part; cbn;
      try reflexivity; try (by rewrite decide_False by done); by rewrite decide_True by done.
Qed.
End state_properties.

(** ** Code, accounts and their files *)

Section account_properties.
Context `{F : Field} {FL : FieldLaws F} {C : Crypto} {SML : SmtLaws C} {SSL : SimpleSmtLaws C} {AS : Assembly} {ASL : AssemblyLaws AS}
  {FE : Features} {D : Display} {B : Build} {IO : ByteIO} {IOL : ByteIOLaws IO} {TE : TreeEq} {TEL : TreeEqLaws TE}
  {P : Programs} {L : Linker} {ML : MidenLib} {MT : ModuleTools} {MTL : ModuleToolsLaws MT}.

(** The test of account code passes if its module can be compiled. *)
Theorem code_test_passes {E} (m : ModuleAst) (c : AccountCode) (Hm : ModuleAst_parse code_test_source = Ok m)
    (Hc : code_new (clear_locations (clear_imports m)) Assembler_default = Ok c) :
  serialize_code (E := E) = Ok tt.
Proof.
  pose proof Hc as (_ & Hmod & Hwf)%code_new_ok.
  destruct (round_trip_elim _ _ c code_codec_round_trips) as (bs & Hw & Hr).
  { split; [done|]. rewrite Hmod. apply cleared_bare. }
  specialize (Hr []). rewrite app_nil_r in Hr. unfold serialize_code, to_bytes, read_from_bytes. rewrite Hm.
  cbn [expect_ok mbind res_bind]. rewrite Hc. cbn [expect_ok mbind res_bind]. rewrite Hw. cbn [expect_ok mbind res_bind].
  rewrite Hr. cbn [snd expect_ok mbind res_bind]. unfold code_eq. by rewrite !bool_decide_true.
Qed.

(** The test of vault deltas passes for faucets with different identifiers whose
    non-fungible assets have different keys, however the searches find them. *)
Theorem vault_delta_test_passes {E} (f1 f2 n1 n2 : Z)
    (Hids : Forall (fun v => id_accepted v = true) [f1; f2; n1; n2])
    (Hf : Forall (fun v => type_of_bits (type_bits v) = FungibleFaucet) [f1; f2])
    (Hn : Forall (fun v => type_of_bits (type_bits v) = NonFungibleFaucet) [n1; n2])
    (Hne : f1 <> f2) (Hkeys : NoDup (vault_key <$> [nft_of n1 [1; 2; 3]; nft_of n1 [4; 5; 6]; nft_of n2 [7; 8; 9]])) :
  account_vault_delta_assets (E := E) (test_id f1) (test_id f2) (test_id n1) (test_id n2) = Ok tt /\
  forall fuel, new_dummy (E := E) fuel (replicate 32 0) FungibleFaucet = Some (Ok (test_id f1)) ->
    new_dummy (E := E) fuel (replicate 32 1) FungibleFaucet = Some (Ok (test_id f2)) ->
    new_dummy (E := E) fuel (replicate 32 0) NonFungibleFaucet = Some (Ok (test_id n1)) ->
    new_dummy (E := E) fuel (replicate 32 1) NonFungibleFaucet = Some (Ok (test_id n2)) ->
    account_vault_delta_validation (E := E) fuel = Some (Ok tt).
Proof.
  assert (Hpass : account_vault_delta_assets (E := E) (test_id f1) (test_id f2) (test_id n1) (test_id n2) = Ok tt).
  2: { split; [exact Hpass|]. intros fuel H1 H2 H3 H4. unfold account_vault_delta_validation. rewrite H1, H2, H3, H4.
       cbn [mbind option_bind res_bind]. by rewrite Hpass. }
  rewrite !Forall_cons in Hids. rewrite !Forall_cons in Hf. rewrite !Forall_cons in Hn.
  destruct Hids as (Hf1 & Hf2 & Hn1 & Hn2 & _), Hf as (Htf1 & Htf2 & _), Hn as (Htn1 & Htn2 & _).
  assert (Hfung : forall v a, id_accepted v = true -> type_of_bits (type_bits v) = FungibleFaucet -> 0 <= a <= MAX_AMOUNT ->
    fungible_of (E := E) (test_id v) a = Ok (consumed_asset v a) /\ asset_valid (consumed_asset v a)).
  { intros v a Hv Ht Ha. destruct (test_asset_ok v a Hv Ht Ha) as (id & Hid & Ho). destruct (test_id_ok v Hv) as (Hid' & _).
    assert (id = test_id v) as -> by congruence. apply Ho. }
  assert (Hnft : forall v data, id_accepted v = true -> type_of_bits (type_bits v) = NonFungibleFaucet ->
    non_fungible_of (E := E) (test_id v) data = Ok (nft_of v data) /\ asset_valid (nft_of v data)).
  { intros v data Hv Ht. destruct (test_nft_ok v data Hv Ht) as (id & Hid & Ho). destruct (test_id_ok v Hv) as (Hid' & _).
    assert (id = test_id v) as -> by congruence. apply Ho. }
  destruct (Hfung f1 10) as [Ha1 Hv1]; [done|done|by vm_compute|]. destruct (Hfung f1 30) as [Ha2 Hv2]; [done|done|by vm_compute|].
  destruct (Hfung f2 20) as [Ha3 Hv3]; [done|done|by vm_compute|]. destruct (Hnft n1 [1; 2; 3]) as [Ha4 Hv4]; [done|done|].
  destruct (Hnft n1 [4; 5; 6]) as [Ha5 Hv5]; [done|done|]. destruct (Hnft n2 [7; 8; 9]) as [Ha6 Hv6]; [done|done|].
  unfold account_vault_delta_assets. rewrite Ha1, Ha2, Ha3, Ha4, Ha5, Ha6. cbn [mbind res_bind].
  assert (Hk12 : vault_key (consumed_asset f1 10) = vault_key (consumed_asset f1 30)) by done.
  assert (Hk13 : vault_key (consumed_asset f1 10) <> vault_key (consumed_asset f2 20)) by (by intros ?%fungible_key_inj).
  assert (Hfresh : forall n data f a, id_accepted n = true -> vault_key (nft_of n data) <> vault_key (consumed_asset f a))
    by (intros; by apply nft_key_fresh).
  each_part.
  - by apply (reads_back_same _ asset_valid); [apply asset_codec_round_trips|].
  - apply vault_delta_accepted_ok; [by each_constant|]. split; [cbn; lia|]. split; [cbn; lia|].
    cbn [added_assets removed_assets app fmap list_fmap] in *.
    rewrite !NoDup_cons, !not_elem_of_cons in Hkeys. rewrite !NoDup_cons, !not_elem_of_cons.
    pose proof (Hfresh n1 [1; 2; 3] f1 10 Hn1). pose proof (Hfresh n1 [4; 5; 6] f1 10 Hn1). pose proof (Hfresh n2 [7; 8; 9] f1 10 Hn2).
    pose proof (Hfresh n1 [1; 2; 3] f2 20 Hn1). pose proof (Hfresh n1 [4; 5; 6] f2 20 Hn1). pose proof (Hfresh n2 [7; 8; 9] f2 20 Hn2).
    destruct Hkeys as ((H46 & H45 & ?) & (H56 & ?) & ? & _). split_and!; try done; try (apply not_elem_of_nil); try apply NoDup_nil_2; congruence.
  - apply vault_delta_refused_ok; [by each_constant|cbn; lia|cbn; lia|]. intros [Hin _]%NoDup_cons. apply Hin. set_solver.
  - apply vault_delta_refused_ok; [by each_constant|cbn; lia|cbn; lia|]. intros [Hin _]%NoDup_cons. apply Hin. set_solver.
  - apply vault_delta_refused_ok; [by each_constant|cbn; lia|cbn; lia|]. intros [Hin _]%NoDup_cons. apply Hin. set_solver.
Qed.
End account_properties.

Section build_account.
Context `{F : Field} {FL : FieldLaws F} {C : Crypto} {SML : SmtLaws C} {SSL : SimpleSmtLaws C} {AS : Assembly} {ASL : AssemblyLaws AS}
  {FE : Features} {D : Display} {B : Build} {IO : ByteIO} {IOL : ByteIOLaws IO} {TE : TreeEq} {TEL : TreeEqLaws TE}
  {P : Programs} {L : Linker} {ML : MidenLib} {MT : ModuleTools}.
Context (m : ModuleAst) (c : AccountCode) (Hm : ModuleAst_parse account_test_source = Ok m) (Hc : code_new m Assembler_default = Ok c).

Definition test_items (ws : list Word) : list SlotItem :=
  map (fun e => mkSlotItem (e.1 mod 2 ^ 8) (mkStorageSlot (SlotValue 0) e.2)) (enumerate ws).

(** An account made for a test: the assets it holds and the words in its slots. *)
Definition built (assets : list Asset) (nonce : Felt) (ws : list Word) (a : Account) : Prop :=
  account_wf a /\ acc_id a = test_id ACCOUNT_ID_REGULAR_ACCOUNT_IMMUTABLE_CODE_ON_CHAIN /\ acc_code a = c /\ acc_nonce a = nonce /\
  (forall k h, view (acc_vault a) k = Some h <-> h ∈ assets /\ k = vault_key h) /\
  forall i, 0 <= i < SLOT_LAYOUT_COMMITMENT_INDEX -> layout (acc_storage a) !! Z.to_nat i = Some (SlotValue 0) /\
    SimpleSmt_get (slots (acc_storage a)) i = slot_value (slot_at (test_items ws) i).

Lemma build_account_ok {E} assets nonce ws : Forall asset_valid assets -> NoDup (vault_key <$> assets) -> items_ok (test_items ws) ->
  exists a, build_account (E := E) assets nonce ws = Ok a /\ built assets nonce ws a.
Proof.
  intros Ha Hk Hi. destruct (vault_new_spec assets Ha) as [Hv _]. destruct (Hv Hk) as (v & Hnew & Hvwf & Hview).
  destruct (storage_new_ok (test_items ws) Hi) as (s & Hs & Hswf & Hslots).
  destruct (test_id_ok ACCOUNT_ID_REGULAR_ACCOUNT_IMMUTABLE_CODE_ON_CHAIN eq_refl) as (Hid & Hval & _).
  pose proof Hc as (_ & _ & Hcwf)%code_new_ok.
  assert (Hdef : forall i, slot_type (slot_at (test_items ws) i) = SlotValue 0).
  { intros i. unfold slot_at. destruct (entry_or_cases (item_pair <$> test_items ws) i empty_slot) as [[_ ->]|Hin]; [done|].
    apply list_elem_of_fmap in Hin as (it & Heq & Hin). injection Heq as _ ->.
    unfold test_items in Hin. apply list_elem_of_fmap in Hin as (e & -> & _). done. }
  exists (mkAccount (test_id ACCOUNT_ID_REGULAR_ACCOUNT_IMMUTABLE_CODE_ON_CHAIN) v s c nonce). split.
  - unfold build_account. rewrite Hm. cbn [expect_ok mbind res_bind]. rewrite Hc, Hnew. cbn [expect_ok mbind res_bind].
    fold (test_items ws). rewrite Hs, Hid. done.
  - assert (Hlay : forall i, 0 <= i < SLOT_LAYOUT_COMMITMENT_INDEX -> layout s !! Z.to_nat i = Some (SlotValue 0)
      /\ SimpleSmt_get (slots s) i = slot_value (slot_at (test_items ws) i)).
    { intros i Hir. destruct (Hslots i Hir) as [-> ->]. by rewrite Hdef. }
    split_and!; try done. split_and!; try done. apply slot_types_u8; [done|]. intros i Hir. by apply Hlay.
Qed.

Lemma test_assets_ok {E} : exists a0 a1, build_assets (E := E) = Ok (Fungible a0, Fungible a1) /\
  asset_valid (Fungible a0) /\ asset_valid (Fungible a1) /\ vault_key (Fungible a0) <> vault_key (Fungible a1).
Proof.
  destruct (test_asset_ok ACCOUNT_ID_FUNGIBLE_FAUCET_ON_CHAIN 123 eq_refl eq_refl) as (id & Hid & Ha); [by vm_compute|].
  destruct (test_asset_ok ACCOUNT_ID_FUNGIBLE_FAUCET_ON_CHAIN_2 345 eq_refl eq_refl) as (id' & Hid' & Ha'); [by vm_compute|].
  destruct (Ha E) as [Hok Hv]. destruct (Ha' E) as [Hok' Hv']. do 2 eexists. unfold build_assets.
  rewrite Hid. cbn [expect_ok mbind res_bind]. rewrite Hok, Hid'. cbn [expect_ok mbind res_bind]. rewrite Hok'.
  split; [reflexivity|]. split; [exact Hv|]. split; [exact Hv'|]. by intros ?%fungible_key_inj.
Qed.

(** The deltas of the tests are valid for the accounts they are applied to. *)
Lemma build_account_delta_ok {E} added removed nonce : Forall asset_valid (added ++ removed) ->
  NoDup (vault_key <$> added ++ removed) -> Z.of_nat (length added) <= 65535 -> Z.of_nat (length removed) <= 65535 -> nonce <> ZERO ->
  let d := mkAccountDelta (mkAccountStorageDelta [0] [(1, test_word)]) (mkAccountVaultDelta added removed) (Some nonce) in
  build_account_delta (E := E) added removed nonce = Ok d /\ account_delta_typed d /\ account_delta_valid d.
Proof.
  intros Ha Hk Hla Hlr Hn d.
  assert (Hd : account_delta_valid d).
  { split; [|split].
    - split; [cbn; lia|]. split; [cbn; lia|]. split; [each_constant; cbn; unfold MAX_MUTABLE_STORAGE_SLOT_IDX; lia|].
      apply (bool_decide_unpack _). by vm_compute.
    - by split_and!.
    - cbn. split; [exact Hn|]. by left. }
  split; [|split; [|exact Hd]].
  - unfold build_account_delta. rewrite (proj2 (account_delta_new_spec _ (mkAccountVaultDelta added removed) _ d Ha) (conj eq_refl Hd)). done.
  - split; [|exact Ha]. each_constant; cbn; lia.
Qed.

Lemma built_unique assets nonce ws (a a' : Account) : built assets nonce ws a -> built assets nonce ws a' -> a ≡ a'.
Proof.
  intros ((_ & Hv & Hs & _) & Hid & Hco & Hn & Hview & Hst) ((_ & Hv' & Hs' & _) & Hid' & Hco' & Hn' & Hview' & Hst').
  destruct Hs as (Hlen & H255 & Hcom), Hs' as (Hlen' & H255' & Hcom').
  assert (Hlay : layout (acc_storage a) = layout (acc_storage a')).
  { apply list_eq. intros n. destruct (decide (n < 255)%nat) as [Hlt|Hge].
    - destruct (Hst (Z.of_nat n)) as [Hl _]; [unfold SLOT_LAYOUT_COMMITMENT_INDEX; lia|].
      destruct (Hst' (Z.of_nat n)) as [Hl' _]; [unfold SLOT_LAYOUT_COMMITMENT_INDEX; lia|]. rewrite Nat2Z.id in Hl, Hl'. congruence.
    - unfold NUM_STORAGE_SLOTS in *. destruct (decide (n = 255%nat)) as [->|Hne].
      + change 255%nat with (Z.to_nat SLOT_LAYOUT_COMMITMENT_INDEX). congruence.
      + by rewrite !lookup_ge_None_2 by lia. }
  split; [congruence|]. split; [|split; [|split; congruence]].
  - apply view_equiv; [done|done|]. intros k. apply option_eq. intros h. by rewrite Hview, Hview'.
  - split; [exact Hlay|]. intros i Hi. unfold STORAGE_TREE_DEPTH in Hi.
    destruct (decide (i = SLOT_LAYOUT_COMMITMENT_INDEX)) as [->|Hne]; [congruence|].
    destruct (Hst i) as [_ ->]; [unfold SLOT_LAYOUT_COMMITMENT_INDEX in *; lia|].
    destruct (Hst' i) as [_ ->]; [unfold SLOT_LAYOUT_COMMITMENT_INDEX in *; lia|]. done.
Qed.

(** An account with one asset, and a delta that takes it. *)
Lemma spec_remove_all (x : FungibleAsset) (h : holdings) : h (vault_key (Fungible x)) = Some (Fungible x) ->
  spec_remove h (Fungible x) = Some (update h (vault_key (Fungible x)) None, Fungible x).
Proof.
  intros Hx. cbn [spec_remove]. rewrite Hx. rewrite decide_True by lia. cbn [fa_amount].
  by rewrite decide_True by lia.
Qed.

Lemma built_vault_at assets nonce ws (a : Account) x : built assets nonce ws a -> x ∈ assets ->
  view (acc_vault a) (vault_key x) = Some x.
Proof. intros (_ & _ & _ & _ & Hview & _) Hx. by apply Hview. Qed.
Lemma built_vault_none assets nonce ws (a : Account) k : built assets nonce ws a -> k ∉ vault_key <$> assets ->
  view (acc_vault a) k = None.
Proof.
  intros (_ & _ & _ & _ & Hview & _) Hk. destruct (view (acc_vault a) k) as [h|] eqn:Hh; [|done]. exfalso.
  apply Hview in Hh as [Hin ->]. apply Hk, list_elem_of_fmap. by exists h.
Qed.
Lemma built_writable assets nonce ws (a : Account) : built assets nonce ws a ->
  storage_writable (acc_storage a) (mkAccountStorageDelta [0] [(1, test_word)]).
Proof. intros (_ & _ & _ & _ & _ & Hst). each_constant; cbn; apply Hst; unfold SLOT_LAYOUT_COMMITMENT_INDEX; lia. Qed.
End build_account.

Ltac items_are_ok := split; apply (bool_decide_unpack _); by vm_compute.

Section delta_properties.
Context `{F : Field} {FL : FieldLaws F} {C : Crypto} {SML : SmtLaws C} {SSL : SimpleSmtLaws C} {AS : Assembly} {ASL : AssemblyLaws AS}
  {FE : Features} {D : Display} {B : Build} {IO : ByteIO} {IOL : ByteIOLaws IO} {TE : TreeEq} {TEL : TreeEqLaws TE}
  {P : Programs} {L : Linker} {ML : MidenLib} {MT : ModuleTools}.
Context (m : ModuleAst) (c : AccountCode) (Hm : ModuleAst_parse account_test_source = Ok m) (Hc : code_new m Assembler_default = Ok c).

Lemma small_felt v : 0 <= v < 10 -> as_int (Felt_new v) = v.
Proof. intros Hv. apply as_int_new_small. unfold MODULUS. lia. Qed.
Lemma small_felt_nonzero v : 0 < v < 10 -> Felt_new v <> ZERO.
Proof. intros Hv Heq. apply (f_equal as_int) in Heq. unfold ZERO in Heq. rewrite !small_felt in Heq by lia. lia. Qed.

(** A delta that takes the only asset, on an account with the same or a later nonce: the
    account is made, the delta too, and applying it is refused for its nonce. *)
Lemma nonce_refused {E} (n n' : Z) (a0 : FungibleAsset) : 0 < n < 10 -> 0 < n' < 10 -> n' <= n -> asset_valid (Fungible a0) ->
  exists a d, build_account (E := E) [Fungible a0] (Felt_new n) [EMPTY_WORD] = Ok a /\
    build_account_delta (E := E) [] [Fungible a0] (Felt_new n') = Ok d /\
    (apply_delta d a).2 = Err (NonceNotMonotonicallyIncreasing n n').
Proof.
  intros Hn Hn' Hle Ha0.
  destruct (build_account_ok (E := E) m c Hm Hc [Fungible a0] (Felt_new n) [EMPTY_WORD]) as (a & Ha & Hb).
  { by each_constant. } { apply NoDup_singleton. } { items_are_ok. }
  destruct (build_account_delta_ok (E := E) [] [Fungible a0] (Felt_new n')) as (Hd & Hty & Hval);
    [by each_constant|apply NoDup_singleton|cbn; lia|cbn; lia|by apply small_felt_nonzero|].
  eexists a, _. split; [exact Ha|]. split; [exact Hd|].
  pose proof Hb as (Hwf & _ & _ & Hnon & _).
  edestruct (account_apply_delta_not_atomic a _ (Felt_new n') (update (view (acc_vault a)) (vault_key (Fungible a0)) None) Hwf Hty Hval)
    as (a' & Hap & _).
  - unfold vault_after. cbn [delta_vault added_assets removed_assets spec_each mbind option_bind].
    by rewrite spec_remove_all by (eapply built_vault_at; [exact Hb|by left]).
  - eapply built_writable. exact Hb.
  - done.
  - rewrite Hnon, !small_felt by lia. exact Hle.
  - rewrite Hap, Hnon, !small_felt by lia. done.
Qed.

Lemma valid_delta_applied {E} (a0 a1 : FungibleAsset) : asset_valid (Fungible a0) -> asset_valid (Fungible a1) ->
  vault_key (Fungible a0) <> vault_key (Fungible a1) ->
  exists a d a', build_account (E := E) [Fungible a0] (Felt_new 1) [test_word] = Ok a /\
    build_account_delta (E := E) [Fungible a1] [Fungible a0] (Felt_new 2) = Ok d /\ apply_delta d a = (a', Ok tt) /\
    built c [Fungible a1] (Felt_new 2) [EMPTY_WORD; test_word] a'.
Proof.
  intros Hv0 Hv1 Hne.
  destruct (build_account_ok (E := E) m c Hm Hc [Fungible a0] (Felt_new 1) [test_word]) as (a & Ha & Hb);
    [by each_constant|apply NoDup_singleton|items_are_ok|].
  destruct (build_account_delta_ok (E := E) [Fungible a1] [Fungible a0] (Felt_new 2)) as (Hd & Hty & Hval);
    [by each_constant| |cbn; lia|cbn; lia|by apply small_felt_nonzero|].
  { apply NoDup_cons. split; [|apply NoDup_singleton]. intros Hin%list_elem_of_singleton. by apply Hne. }
  set (d := mkAccountDelta _ _ _) in *. pose proof Hb as (Hwf & Hid & Hco & Hnon & Hview & Hst).
  pose proof (account_apply_delta_refines a d Hwf Hty Hval) as Href. pose proof (account_apply_delta_safe a d Hwf Hty Hval) as Hsafe.
  exists a, d. destruct (apply_delta d a) as [a' r]. destruct Href as [Hiff Heff]. destruct Hsafe as (_ & Hwf' & Hid' & Hco' & _).
  assert (Hnone : view (acc_vault a) (vault_key (Fungible a1)) = None).
  { eapply built_vault_none; [exact Hb|]. intros Hin%list_elem_of_singleton. by apply Hne. }
  assert (Hafter : vault_after a d = Some (update (update (view (acc_vault a)) (vault_key (Fungible a1)) (Some (Fungible a1)))
    (vault_key (Fungible a0)) None)).
  { unfold vault_after, d. cbn [delta_vault added_assets removed_assets spec_each spec_add]. rewrite Hnone. cbn [mbind option_bind].
    rewrite spec_remove_all; [done|]. unfold update at 1. rewrite decide_False by congruence.
    by eapply built_vault_at; [exact Hb|left]. }
  assert (r = Ok tt) as ->.
  { apply Hiff. rewrite Hafter. split; [done|]. split; [eapply built_writable; exact Hb|].
    cbn. rewrite Hnon, !small_felt by lia. lia. }
  destruct (Heff eq_refl) as (Hvk & Hlay & Hslots & Hn'). rewrite Hafter in Hvk.
  exists a'. split; [exact Ha|]. split; [exact Hd|]. split; [done|]. split; [done|]. split; [congruence|]. split; [congruence|].
  split; [exact Hn'|]. split.
  - intros k h. specialize (Hvk k). injection Hvk as ->. rewrite list_elem_of_singleton. unfold update.
    case_decide as Hk0; [split; [done|]|case_decide as Hk1].
    + intros [-> ->]. by destruct Hne.
    + split; [by intros [= <-]|by intros [-> _]].
    + rewrite Hview, list_elem_of_singleton. split; intros [-> ->]; [by destruct Hk0|by destruct Hk1].
  - intros i Hi. rewrite Hlay, Hslots. destruct (Hst i Hi) as [-> Hg]. split; [done|]. unfold slot_after. rewrite Hg.
    unfold d, slot_at. cbn -[EMPTY_WORD test_word]. repeat case_decide; subst; try done; set_solver.
Qed.

(** The tests of applying deltas: a valid delta gives the account that is made with the
    resulting assets, words and nonce; deltas with an unchanged or a smaller nonce are refused by
    [apply_delta], as their tests want, while the empty delta with a nonce is refused already
    when it is made. *)
Theorem delta_application_tests_pass {E} :
  valid_account_delta_is_correctly_applied (E := E) = Ok tt /\
  (valid_account_delta_with_unchanged_nonce (E := E) = Panic /\ exists x a d,
     build_account (E := E) [x] (Felt_new 1) [EMPTY_WORD] = Ok a /\ build_account_delta (E := E) [] [x] (Felt_new 1) = Ok d /\
     (apply_delta d a).2 = Err (NonceNotMonotonicallyIncreasing 1 1)) /\
  (valid_account_delta_with_decremented_nonce (E := E) = Panic /\ exists x a d,
     build_account (E := E) [x] (Felt_new 2) [EMPTY_WORD] = Ok a /\ build_account_delta (E := E) [] [x] (Felt_new 1) = Ok d /\
     (apply_delta d a).2 = Err (NonceNotMonotonicallyIncreasing 2 1)) /\
  empty_account_delta_with_incremented_nonce (E := E) = Panic /\
  is_err (account_delta_new (mkAccountStorageDelta [] []) (mkAccountVaultDelta [] []) (Some (Felt_new 2))) = true.
Proof.
  destruct (test_assets_ok (E := E)) as (a0 & a1 & Hassets & Hv0 & Hv1 & Hne). split; [|split; [|split; [|split]]].
  - destruct (valid_delta_applied (E := E) a0 a1 Hv0 Hv1 Hne) as (a & d & a' & Ha & Hd & Hap & Hb).
    destruct (build_account_ok (E := E) m c Hm Hc [Fungible a1] (Felt_new 2) [EMPTY_WORD; test_word]) as (f & Hf & Hbf);
      [by each_constant|apply NoDup_singleton|items_are_ok|].
    unfold valid_account_delta_is_correctly_applied. rewrite Hassets. cbn [mbind res_bind]. rewrite Ha. cbn [mbind res_bind].
    rewrite Hd. cbn [mbind res_bind]. unfold apply_unwrap. rewrite Hap. cbn [expect_ok mbind res_bind]. rewrite Hf.
    cbn [mbind res_bind]. by rewrite account_eqb_ok by (eapply built_unique; [exact Hb|exact Hbf]).
  - destruct (nonce_refused (E := E) 1 1 a0) as (a & d & Ha & Hd & Hap); [lia|lia|lia|done|]. split; [|by exists (Fungible a0), a, d].
    unfold valid_account_delta_with_unchanged_nonce. rewrite Hassets. cbn [mbind res_bind]. rewrite Ha. cbn [mbind res_bind].
    rewrite Hd. cbn [mbind res_bind]. unfold apply_unwrap. destruct (apply_delta d a) as [a' r]. cbn in Hap. by rewrite Hap.
  - destruct (nonce_refused (E := E) 2 1 a0) as (a & d & Ha & Hd & Hap); [lia|lia|lia|done|]. split; [|by exists (Fungible a0), a, d].
    unfold valid_account_delta_with_decremented_nonce. rewrite Hassets. cbn [mbind res_bind]. rewrite Ha. cbn [mbind res_bind].
    rewrite Hd. cbn [mbind res_bind]. unfold apply_unwrap. destruct (apply_delta d a) as [a' r]. cbn in Hap. by rewrite Hap.
  - destruct (build_account_ok (E := E) m c Hm Hc [] (Felt_new 1) [test_word]) as (a & Ha & _);
      [apply Forall_nil; exact I|apply NoDup_nil_2|items_are_ok|].
    unfold empty_account_delta_with_incremented_nonce. by rewrite Ha.
  - reflexivity.
Qed.
End delta_properties.

Section data_properties.
Context `{F : Field} {FL : FieldLaws F} {C : Crypto} {SML : SmtLaws C} {SSL : SimpleSmtLaws C} {AS : Assembly} {ASL : AssemblyLaws AS}
  {FE : Features} {D : Display} {B : Build} {IO : ByteIO} {IOL : ByteIOLaws IO} {TE : TreeEq} {TEL : TreeEqLaws TE}
  {P : Programs} {L : Linker} {ML : MidenLib} {MT : ModuleTools} {MTL : ModuleToolsLaws MT} {OS : Os}.
Context (m : ModuleAst) (c : AccountCode) (Hm : ModuleAst_parse code_test_source = Ok m)
  (Hc : code_new (clear_imports (clear_locations m)) Assembler_default = Ok c).

Lemma account_data_eqb_ok (x x' : AccountData) : ad_account x ≡ ad_account x' -> ad_account_seed x = ad_account_seed x' ->
  ad_auth x = ad_auth x' -> account_data_eqb x x' = true.
Proof.
  intros Ha Hs Hu. unfold account_data_eqb. rewrite (account_eqb_ok _ _ Ha), Hs, Hu, same_refl. cbn.
  destruct (ad_auth x'). apply same_refl.
Qed.

Lemma no_entries v : vault_wf v -> (forall k, view v k = None) -> Smt_entries (asset_tree v) = [].
Proof.
  intros Hwf Hv. destruct (Smt_entries (asset_tree v)) as [|[k w] es] eqn:He; [done|]. exfalso.
  assert (Hin : (k, w) ∈ Smt_entries (asset_tree v)) by (rewrite He; left).
  apply Smt_entries_spec in Hin as [Hg Hne]. specialize (Hv k). apply view_None in Hv; [|done]. congruence.
Qed.

Lemma build_account_data_ok {E} : exists x, build_account_data (E := E) = Ok x /\
  account_encodable (ad_account x) /\ auth_data_ok (ad_auth x).
Proof.
  destruct (vault_new_spec [] (Forall_nil_2 _)) as [Hv _]. destruct (Hv (NoDup_nil_2)) as (v & Hnew & Hvwf & Hview).
  destruct (storage_new_ok []) as (s & Hs & Hswf & Hslots); [split; constructor|].
  destruct (test_id_ok ACCOUNT_ID_REGULAR_ACCOUNT_IMMUTABLE_CODE_ON_CHAIN eq_refl) as (Hid & Hval & _).
  pose proof Hc as (_ & Hmod & Hcwf)%code_new_ok. unfold build_account_data. rewrite Hid. cbn [expect_ok mbind res_bind].
  rewrite Hm. cbn [expect_ok mbind res_bind]. rewrite Hc, Hnew, Hs. cbn [expect_ok mbind res_bind].
  eexists. split; [reflexivity|]. cbn [ad_account ad_auth]. split; [|by split; [|apply Forall_replicate; lia]].
  split; [split; [done|]; split; [|split]|]; cbn [ad_account acc_vault acc_storage acc_code].
  - split; [done|]. assert (Hnil : Smt_entries (asset_tree v) = []) by (apply no_entries; [done|]; intros k; apply option_eq; intros h; rewrite Hview; set_solver). rewrite Hnil. cbn. lia.
  - split; [done|]. intros i t Hi Ht. destruct (Hslots i Hi) as [Hl _]. rewrite Hl in Ht. injection Ht as <-. cbn. unfold MAX_VALUE_ARITY. lia.
  - split; [done|]. rewrite Hmod. apply cleared_bare.
  - intros i Hi _. by destruct (Hslots i Hi).
Qed.

(** The tests of the data of accounts pass: of their encoding, and of their file in a
    directory that is there, when the system refuses nothing and no directory has the
    name of the file. *)
Theorem account_data_tests_pass (dir : Path) (fs : Fs) (Hcalm : calm) (Hdir : fs_get fs dir = Some Dir)
    (Hfile : fs_get fs (dir ++ ["account_data.mac"%string]) <> Some Dir) :
  (forall E, account_data_correctly_serialises_and_deserialises (E := E) = Ok tt) /\
  exists fs', account_data_is_correctly_writen_and_read_to_and_from_file dir fs = (fs', Ok tt) /\
    forall q, q <> dir ++ ["account_data.mac"%string] -> fs_get fs' q = fs_get fs q.
Proof.
  split.
  - intros E. destruct (build_account_data_ok (E := E)) as (x & Hx & Henc & Hau).
    unfold account_data_correctly_serialises_and_deserialises. rewrite Hx. cbn [mbind res_bind].
    eapply reads_back_ok; [apply account_data_codec_round_trips|by split|]. intros x' (Ha & Hs & Hu). by apply account_data_eqb_ok.
  - destruct (build_account_data_ok (E := IoError)) as (x & Hx & Henc & Hau).
    destruct (account_data_codec_round_trips x (conj Henc Hau)) as (bs & Hw & Hr).
    destruct (Hr []) as (x' & Hread & Ha & Hs & Hu). rewrite app_nil_r in Hread.
    set (p := dir ++ ["account_data.mac"%string]) in *.
    assert (Hparent : parent p = dir) by (unfold parent, p; apply removelast_last).
    assert (Hwrite : account_data_write x p fs = (<[p := File bs]> fs, Ok tt)).
    { unfold account_data_write. rewrite Hw. cbn [expect_ok]. erewrite mut_bind_ok by reflexivity.
      apply fs_write_calm; [done|done|by rewrite Hparent]. }
    assert (Hne : p <> []) by (unfold p; by destruct dir).
    assert (Hget : forall q, fs_get (<[p := File bs]> fs) q = if decide (q = p) then Some (File bs) else fs_get fs q)
      by (intros q; by rewrite fs_get_insert by done).
    assert (Hrd : account_data_read p (<[p := File bs]> fs) = (<[p := File bs]> fs, Ok x')).
    { unfold account_data_read. erewrite mut_bind_ok by (apply fs_read_file; [by rewrite Hget, decide_True|apply Hcalm]).
      by rewrite Hread. }
    exists (<[p := File bs]> fs). split; [|intros q Hq; by rewrite Hget, decide_False].
    unfold account_data_is_correctly_writen_and_read_to_and_from_file. fold p. run_mut. rewrite Hx, Hwrite. cbn [expect_ok].
    rewrite Hrd. cbn [expect_ok]. by rewrite account_data_eqb_ok.
Qed.
End data_properties.

(** ** Notes and blocks *)

Section block_properties.
Context `{F : Field} {FL : FieldLaws F} {C : Crypto} {SSL : SimpleSmtLaws C} {AS : Assembly} {FE : Features} {D : Display}
  {IO : ByteIO} {IOL : ByteIOLaws IO} {MK : Merkle} {MKL : MerkleLaws MK} {FM : FullMmr} {FML : FullMmrLaws FM}
  {TE : TreeEq} {TEL : TreeEqLaws TE} {PO : PartialOpen} {POL : PartialOpenLaws PO}.

(** The tests of the inputs of notes and of the tree of the notes of a block pass. *)
Theorem note_tests_pass {E} :
  test_input_ordering (E := E) = Ok tt /\ test_input_serialization (E := E) = Ok tt /\ block_note_tree_test (E := E) = Ok tt.
Proof.
  set (values := [Felt_new 1; Felt_new 2; Felt_new 3]).
  assert (Hwf : note_inputs_wf (mkNoteInputs values (hash_elements (pad_inputs values))))
    by (split; [cbn; unfold MAX_INPUTS_PER_NOTE; lia|done]).
  assert (Hnew : note_inputs_new values = Ok (mkNoteInputs values (hash_elements (pad_inputs values)))) by (by apply note_inputs_new_ok).
  split; [|split].
  - unfold test_input_ordering. fold values. rewrite Hnew. apply assert_eq_refl.
  - unfold test_input_serialization. fold values. rewrite Hnew. cbn [expect_ok mbind res_bind].
    eapply reads_back_ok; [apply note_inputs_round_trip|exact Hwf|]. intros a' <-. apply same_refl.
  - unfold block_note_tree_test. set (data := map _ _).
    destruct (SimpleSmt_with_leaves_ok BLOCK_OUTPUT_NOTES_TREE_DEPTH data) as (t & Ht & _).
    { unfold data. rewrite <- list_fmap_compose. apply (NoDup_fmap_2 _), NoDup_seqZ. }
    { unfold data. apply Forall_fmap, Forall_forall. intros i Hi%elem_of_seqZ. cbn -[Z.pow]. change (2 ^ BLOCK_OUTPUT_NOTES_TREE_DEPTH) with 2097152. lia. }
    rewrite Ht. cbn [expect_ok mbind res_bind]. destruct (block_note_tree_round_trip t I) as (bs & Hw & Hr).
    destruct (Hr []) as (t' & Hread & Heq). rewrite app_nil_r in Hread. unfold to_bytes, read_from_bytes. rewrite Hw.
    cbn [expect_ok mbind res_bind]. rewrite Hread. cbn [snd expect_ok mbind res_bind]. by rewrite SimpleSmt_eqb_ok.
Qed.

(** A view of the blocks of a full range. *)
Definition view_of (mmr : Mmr) (chain_mmr : ChainMmr) : Prop :=
  mmr_forest (cm_mmr chain_mmr) = Mmr_forest mmr /\ Mmr_peaks mmr (Mmr_forest mmr) = Ok (mmr_peaks (cm_mmr chain_mmr)).

Lemma add_and_open_ok {E} num mmr chain_mmr : view_of mmr chain_mmr -> num = Mmr_forest mmr -> 0 <= num < 2 ^ 32 ->
  exists mmr' chain_mmr', add_and_open (E := E) num (mmr, chain_mmr) = Ok (mmr', chain_mmr') /\ view_of mmr' chain_mmr' /\
    Mmr_forest mmr' = num + 1.
Proof.
  intros [Hf Hp] -> Hr. set (d := block_hash (int_to_block_header (Mmr_forest mmr))).
  exists (Mmr_add mmr d), (mkChainMmr (mmr_add (cm_mmr chain_mmr) d true) (cm_blocks chain_mmr)).
  assert (Hadd : add_block (E := E) (int_to_block_header (Mmr_forest mmr)) true chain_mmr =
    (mkChainMmr (mmr_add (cm_mmr chain_mmr) d true) (cm_blocks chain_mmr), Ok tt)).
  { unfold add_block. run_mut. rewrite bool_decide_true; [done|]. unfold chain_length. rewrite Hf, Z.mod_small by lia. done. }
  assert (Hv : view_of (Mmr_add mmr d) (mkChainMmr (mmr_add (cm_mmr chain_mmr) d true) (cm_blocks chain_mmr))).
  { split; cbn [cm_mmr]; [rewrite mmr_add_forest, Mmr_forest_add; lia|by apply Mmr_peaks_added]. }
  pose proof Hv as [Hf' Hp']. cbn [cm_mmr] in Hf', Hp'.
  destruct (partial_open_ok (Mmr_add mmr d) (mmr_add (cm_mmr chain_mmr) d true) (Mmr_forest mmr)) as (path & Hop & Hpo);
    [done|done|rewrite Mmr_forest_add; lia|rewrite <- Hf; apply mmr_added_tracked|].
  split; [|split; [done|by rewrite Mmr_forest_add]].
  unfold add_and_open. fold d. rewrite Hadd. cbn [mbind res_bind cm_mmr]. rewrite Hop, Hpo. cbn [expect_ok expect mbind res_bind].
  by rewrite assert_eq_refl.
Qed.

(** The test of the views of a chain passes. *)
Theorem chain_mmr_test_passes {E} : test_chain_mmr_add (E := E) = Ok tt.
Proof.
  unfold test_chain_mmr_add. set (mmr := foldl _ _ _).
  assert (Hlen : Mmr_forest mmr = 3).
  { unfold mmr. cbn [foldl seqZ]. change (seqZ 0 3) with [0; 1; 2]. cbn [foldl]. rewrite !Mmr_forest_add, Mmr_forest_default. lia. }
  destruct (Mmr_peaks_ok mmr) as (p & Hp & Hpm & Hfp). rewrite Hp. cbn [expect_ok mbind res_bind].
  destruct (chain_mmr_new_ok (from_peaks p) []) as (chain & Hc & _ & Hcm & _); [apply Forall_nil; exact I|apply NoDup_nil_2|].
  rewrite Hc. cbn [expect_ok mbind res_bind].
  destruct (add_and_open_ok (E := E) 3 mmr chain) as (m1 & c1 & H1 & Hv1 & Hl1);
    [split; rewrite Hcm; congruence|done|lia|]. rewrite H1. cbn [mbind res_bind].
  destruct (add_and_open_ok (E := E) 4 m1 c1) as (m2 & c2 & H2 & Hv2 & Hl2); [done|done|lia|]. rewrite H2. cbn [mbind res_bind].
  destruct (add_and_open_ok (E := E) 5 m2 c2) as (m3 & c3 & H3 & _); [done|done|lia|]. by rewrite H3.
Qed.
End block_properties.

(** ** The reference instances

    Their trees are equal when their leaves are, modules have nothing to clear, and a
    partial range opens the leaves it tracks. *)

Import RefInstances RefMmrs RefMachine.

#[export] Instance RefTreeEq : TreeEq := {
  Smt_eqb t t' := bool_decide (ref_full t = ref_full t');
  SimpleSmt_eqb d t t' := bool_decide (filter (fun e => 0 <= e.1 < 2 ^ d) (ref_full t) = filter (fun e => 0 <= e.1 < 2 ^ d) (ref_full t'))
}.

#[export] Instance RefTreeEqLaws : TreeEqLaws RefTreeEq.
Proof.
  split.
  - intros t t' Heq. apply bool_decide_eq_true. change (ref_full t = ref_full t').
    rewrite <- (map_filter_id (fun _ => True) (ref_full t)) by done. rewrite <- (map_filter_id (fun _ => True) (ref_full t')) by done.
    apply ref_full_ext. intros k v _. exact (Heq k).
  - intros d t t' Heq. apply bool_decide_eq_true. apply ref_full_ext. intros k v Hk. by apply Heq.
Qed.

#[export] Instance RefModuleTools : ModuleTools := { clear_locations m := m; clear_imports m := take 256 m; Assembler_default := tt }.
#[export] Instance RefModuleToolsLaws : ModuleToolsLaws RefModuleTools.
Proof.
  split. assert (H : forall m : list Word, Z.of_nat (length (take 256 m)) < 2 ^ 32).
  { intros m. rewrite length_take. assert (H32 : 256 < 2 ^ 32) by done. lia. }
  intros m. split; apply H.
Qed.

#[export] Instance RefPartialOpen : PartialOpen := fun pm i => Ok (if mmr_is_tracked pm i then Some [] else None).
#[export] Instance RefPartialOpenLaws : PartialOpenLaws RefPartialOpen.
Proof.
  split.
  - intros m pm d track Hf Hp. cbn in *. rewrite decide_True in Hp by lia. rewrite Nat2Z.id, firstn_all in Hp. injection Hp as ->.
    rewrite decide_True by lia. by rewrite Nat2Z.id, firstn_all.
  - intros pm d. cbn. apply bool_decide_eq_true. by left.
  - intros m pm i _ _ _ Ht. exists []. split; [done|]. unfold partial_open, RefPartialOpen. by rewrite Ht.
Qed.

(** The texts of identifiers with given bytes, and the tests that have a compiled module or
    assets with certain keys, run on them. *)
Lemma identifier_texts_pass :
  note_id_try_from_hex_test (E := Empty_set) = Ok tt /\ test_from_hex_and_back (E := Empty_set) = Ok tt.
Proof. split; vm_compute; reflexivity. Qed.

Definition parsed_module : ModuleAst := [mkWord ONE ONE ONE ONE] : list Word.

Lemma parsed_code : exists c, code_new parsed_module Assembler_default = Ok c.
Proof.
  assert (Hok : is_ok (code_new parsed_module Assembler_default) = true) by (vm_compute; reflexivity).
  destruct (code_new parsed_module Assembler_default) as [c| |]; [by exists c|discriminate Hok..].
Qed.

Lemma code_test_passes_witness : serialize_code (E := Empty_set) = Ok tt.
Proof. destruct parsed_code as (c & Hc). exact (code_test_passes parsed_module c eq_refl Hc). Defined.

Lemma delta_application_tests_pass_witness : valid_account_delta_is_correctly_applied (E := Empty_set) = Ok tt.
Proof. destruct parsed_code as (c & Hc). exact (proj1 (delta_application_tests_pass parsed_module c eq_refl Hc)). Defined.

Lemma vault_delta_test_passes_witness :
  account_vault_delta_assets (E := Empty_set) (test_id ACCOUNT_ID_FUNGIBLE_FAUCET_ON_CHAIN) (test_id ACCOUNT_ID_FUNGIBLE_FAUCET_ON_CHAIN_1)
    (test_id ACCOUNT_ID_NON_FUNGIBLE_FAUCET_ON_CHAIN) (test_id ACCOUNT_ID_NON_FUNGIBLE_FAUCET_ON_CHAIN_1) = Ok tt.
Proof.
  apply (vault_delta_test_passes (E := Empty_set) ACCOUNT_ID_FUNGIBLE_FAUCET_ON_CHAIN ACCOUNT_ID_FUNGIBLE_FAUCET_ON_CHAIN_1
    ACCOUNT_ID_NON_FUNGIBLE_FAUCET_ON_CHAIN ACCOUNT_ID_NON_FUNGIBLE_FAUCET_ON_CHAIN_1); [each_constant; reflexivity|each_constant; reflexivity|each_constant; reflexivity|by vm_compute|].
  apply (bool_decide_unpack _). vm_compute. exact I.
Defined.

Lemma account_data_tests_pass_witness :
  (account_data_is_correctly_writen_and_read_to_and_from_file (OS := CalmOs) ["tmp"%string] {[ ["tmp"%string] := Dir ]}).2 = Ok tt.
Proof.
  destruct parsed_code as (c & Hc).
  destruct (account_data_tests_pass (ML := RefMidenLib) (MT := RefModuleTools) (TE := RefTreeEq) (OS := CalmOs) parsed_module c eq_refl Hc ["tmp"%string] {[ ["tmp"%string] := Dir ]}) as (_ & fs' & Hrun & _);
    [done|reflexivity|by vm_compute|]. by rewrite Hrun.
Defined.
