(* ===== verification/TestRuns.v ===== *)
(** How the crate of the mocks runs tests (mock/src: procedures.rs, lib.rs, main.rs, and the
    files of mock/chain.rs): texts for the assembler, runs of a program against a
    host, and the program that writes a scenario to a file. *)
From Stdlib Require Import Ascii String.
From stdpp Require Import gmap strings pretty list.
From S2P Require Import Prelude Interfaces Types Reference BTree AccountIds Seed Assets NoteMeta NoteContents Notes Outputs Blocks Chain.
From S2P Require Import Vault Storage Delta Code Account Inputs Memory Tracker Host Machine Transactions Kernel StandardAccounts MockBuilders MockInputs MockChain MockHost MockFixtures FileSystem.
Local Open Scope Z_scope.

(** [str::replace] with a pattern that is not empty: from the left, without overlaps;
    [skip] bytes are left of the last occurrence. *)
Fixpoint replace_from (pat new : string) (skip : nat) (s : string) : string :=
  match s with
  | EmptyString => EmptyString
  | String c s' =>
      match skip with
      | S skip' => replace_from pat new skip' s'
      | O => if String.prefix pat s then String.append new (replace_from pat new (String.length pat - 1) s')
             else String c (replace_from pat new 0 s')
      end
  end.
Definition str_replace (pat new s : string) : string := replace_from pat new 0 s.

(** What the runs use of the virtual machine besides: the assembler on a text, inputs
    of advice put together, and the host that keeps an advice provider [A] only. *)
Class TextAssembler `{L : Linker} := compile_text : Assembler -> string -> res AssemblyError Program.
Class AdviceMerge `{A : Advice} := AdviceInputs_extend : AdviceInputs -> AdviceInputs -> AdviceInputs.
Class DefaultHosts `{VA : VmAdvice} (A : Type) := {
  insert_into_map : Word -> list Felt -> mut A ExecutionError unit;
  DefaultHost : Type;
  DefaultHost_new : A -> DefaultHost;
  default_call : ProcessState * HostCall -> mut DefaultHost ExecutionError HostResponse
}.

(** The laws of what is used: extending takes the entries and nodes of both, the
    values of the second first. *)
Class AdviceMergeLaws `{A : Advice} (AM : AdviceMerge) : Prop := {
  merge_stack (a b : AdviceInputs) : advice_stack (AdviceInputs_extend a b) = advice_stack a ++ advice_stack b;
  merge_values (a b : AdviceInputs) (k : Digest) :
    advice_values (AdviceInputs_extend a b) k = match advice_values b k with Some v => Some v | None => advice_values a k end;
  merge_nodes (a b : AdviceInputs) (n : InnerNodeInfo) :
    advice_nodes (AdviceInputs_extend a b) n <-> advice_nodes a n \/ advice_nodes b n
}.

(** ** The text that creates the notes (procedures.rs) *)

Section procedures.
Context `{F : Field} {C : Crypto} {MK : Merkle} {AS : Assembly} {P : Programs} {FE : Features} {D : Display} {B : Build}.

(** The words of one note the text takes: metadata, recipient and assets. *)
Definition public_note_texts {E} (notes : OutputNotes) (idx : nat) : res E (string * string * list string) :=
  note ← get_note notes idx;
  match note with
  | PublicNote note =>
      let metadata := prepare_word (word_of_metadata (note_metadata note)) in
      let recipient := prepare_word (nr_digest (note_recipient note)) in
      assets ← prepare_assets (note_assets note);
      Ok (metadata, recipient, assets)
  | PrivateNote _ => Panic
  end.

Definition NOTE_1_OFFSET : Z := NOTE_MEM_SIZE.
Definition NOTE_2_OFFSET : Z := NOTE_MEM_SIZE * 2.

Definition output_notes_data_procedure {E} (notes : OutputNotes) : res E string :=
  '(note_0_metadata, note_0_recipient, note_0_assets) ← public_note_texts notes 0;
  let note_0_num_assets := 1 in
  '(note_1_metadata, note_1_recipient, note_1_assets) ← public_note_texts notes 1;
  let note_1_num_assets := 1 in
  '(note_2_metadata, note_2_recipient, note_2_assets) ← public_note_texts notes 2;
  let note_2_num_assets := 1 in
  note_0_asset ← expect (note_0_assets !! 0%nat);
  note_1_asset ← expect (note_1_assets !! 0%nat);
  note_2_asset ← expect (note_2_assets !! 0%nat);
  Ok (String.concat "" ["
    proc.create_mock_notes
        # remove padding from prologue
        dropw dropw dropw dropw

        # populate note 0
        push."; note_0_metadata; "
        push."; pretty CREATED_NOTE_SECTION_OFFSET; "."; pretty CREATED_NOTE_METADATA_OFFSET; " add mem_storew dropw

        push."; note_0_recipient; "
        push."; pretty CREATED_NOTE_SECTION_OFFSET; "."; pretty CREATED_NOTE_RECIPIENT_OFFSET; " add mem_storew dropw

        push."; pretty note_0_num_assets; "
        push."; pretty CREATED_NOTE_SECTION_OFFSET; "."; pretty CREATED_NOTE_NUM_ASSETS_OFFSET; " add mem_store

        push."; note_0_asset; "
        push."; pretty CREATED_NOTE_SECTION_OFFSET; "."; pretty CREATED_NOTE_ASSETS_OFFSET; " add mem_storew dropw

        # populate note 1
        push."; note_1_metadata; "
        push."; pretty CREATED_NOTE_SECTION_OFFSET; "."; pretty NOTE_1_OFFSET; "."; pretty CREATED_NOTE_METADATA_OFFSET; " add add mem_storew dropw

        push."; note_1_recipient; "
        push."; pretty CREATED_NOTE_SECTION_OFFSET; "."; pretty NOTE_1_OFFSET; "."; pretty CREATED_NOTE_RECIPIENT_OFFSET; " add add mem_storew dropw

        push."; pretty note_1_num_assets; "
        push."; pretty CREATED_NOTE_SECTION_OFFSET; "."; pretty NOTE_1_OFFSET; "."; pretty CREATED_NOTE_NUM_ASSETS_OFFSET; " add add mem_store

        push."; note_1_asset; "
        push."; pretty CREATED_NOTE_SECTION_OFFSET; "."; pretty NOTE_1_OFFSET; "."; pretty CREATED_NOTE_ASSETS_OFFSET; " add add mem_storew dropw

        # populate note 2
        push."; note_2_metadata; "
        push."; pretty CREATED_NOTE_SECTION_OFFSET; "."; pretty NOTE_2_OFFSET; "."; pretty CREATED_NOTE_METADATA_OFFSET; " add add mem_storew dropw

        push."; note_2_recipient; "
        push."; pretty CREATED_NOTE_SECTION_OFFSET; "."; pretty NOTE_2_OFFSET; "."; pretty CREATED_NOTE_RECIPIENT_OFFSET; " add add mem_storew dropw

        push."; pretty note_2_num_assets; "
        push."; pretty CREATED_NOTE_SECTION_OFFSET; "."; pretty NOTE_2_OFFSET; "."; pretty CREATED_NOTE_NUM_ASSETS_OFFSET; " add add mem_store

        push."; note_2_asset; "
        push."; pretty CREATED_NOTE_SECTION_OFFSET; "."; pretty NOTE_2_OFFSET; "."; pretty CREATED_NOTE_ASSETS_OFFSET; " add add mem_storew dropw

        # set num created notes
        push."; pretty (Z.of_nat (length (on_notes notes))); "."; pretty NUM_CREATED_NOTES_PTR; " mem_store
    end
    "]).
End procedures.

(** ** Runs (lib.rs) *)

Section runs.
Context `{F : Field} {C : Crypto} {MK : Merkle} {AS : Assembly} {P : Programs} {FE : Features} {D : Display} {B : Build}
  {V : Vm} {VA : VmAdvice} {A : Advice} {AM : AdviceMerge} {S : Stacks} {L : Linker} {TA : TextAssembler} {PR : Processor} {OS : Os}.

(** [unwrap] of what a file gives. *)
Definition unwrap_io {E X : Type} (m : mut Fs IoError X) : mut Fs E X := fun fs => let '(fs, r) := m fs in (fs, expect_ok r).

Definition load_file_with_code {E} (imports code : string) (assembly_file : Path) : mut Fs E string :=
  module ← unwrap_io (read_to_string assembly_file);
  let complete_code := imports +:+ module +:+ code in
  mret (str_replace "export" "proc" complete_code).

(** A process that has run: its host, and its stack. *)
Record Process (H : Type) := mkProcessRun { process_host : H; process_stack : StackOutputs }.

Definition run_process {H} (call : ProcessState * HostCall -> mut H ExecutionError HostResponse) (program : Program)
    (stack_inputs : StackInputs) (host : H) : res ExecutionError (Process H) :=
  let '(host, result) := execute call program stack_inputs host in
  stack ← result;
  Ok (mkProcessRun H host stack).

Definition run_tx_with_inputs (tx : PreparedTransaction) (inputs : AdviceInputs) : res ExecutionError (Process MockHost) :=
  let program := pr_program tx in
  '(stack_inputs, advice_inputs) ← get_kernel_inputs _ tx;
  let advice_inputs := AdviceInputs_extend advice_inputs inputs in
  host ← mock_host_new (stub_of_account (ti_account (pr_inputs tx))) advice_inputs;
  run_process mock_call program stack_inputs host.

Definition run_tx (tx : PreparedTransaction) : res ExecutionError (Process MockHost) :=
  run_tx_with_inputs tx AdviceInputs_default.

(** The code of a test, after that of a file if one is given. *)
Definition code_of {E} (imports code : string) (file_path : option Path) : mut Fs E string :=
  match file_path with
  | Some file_path => load_file_with_code imports code file_path
  | None => mret (imports +:+ code)
  end.

Definition run_within_tx_kernel {T} {DH : DefaultHosts T} (imports code : string) (stack_inputs : StackInputs) (adv : T)
    (file_path : option Path) : mut Fs ExecutionError (Process DefaultHost) :=
  let '(adv, inserted) := insert_into_map EMPTY_WORD [Felt_new 255] adv in
  _ ← lift (expect_ok inserted);
  code ← code_of imports code file_path;
  program ← lift (expect_ok (compile_text kernel_assembler code));
  lift (run_process default_call program stack_inputs (DefaultHost_new adv)).

Definition run_within_host {H} (call : ProcessState * HostCall -> mut H ExecutionError HostResponse) (imports code : string)
    (stack_inputs : StackInputs) (host : H) (file_path : option Path) : mut Fs ExecutionError (Process H) :=
  code ← code_of imports code file_path;
  program ← lift (expect_ok (compile_text kernel_assembler code));
  lift (run_process call program stack_inputs host).

Definition consumed_note_data_ptr {E} (note_idx : Z) : res E Z :=
  offset ← mul_w 32 note_idx NOTE_MEM_SIZE;
  add_w 32 CONSUMED_NOTE_DATA_SECTION_OFFSET offset.

Definition prepare_transaction {E} (tx_inputs : TransactionInputs) (tx_args : TransactionArgs) (code : string)
    (file_path : option Path) : mut Fs E PreparedTransaction :=
  code ← code_of "" code file_path;
  program ← lift (expect_ok (compile_text kernel_assembler code));
  mret (mkPrepared program tx_inputs tx_args).
End runs.
Arguments Process {_ _} H.

(** ** The scenario file (main.rs, mock/chain.rs) *)

(** The generators a scenario starts from: of a seed, and one from the entropy of the
    system. *)
Class Seeds (R : Type) := { seed_from_u64 : Z -> R; from_entropy : R }.

(** [postcard] with the derived encodings of the chain. *)
Class Postcard (T : Type) := {
  PostcardError : Type;
  to_allocvec : T -> res PostcardError (list Z);
  from_bytes : list Z -> res PostcardError T
}.

Definition DEFAULT_FAUCET_CODE : string := "use.miden::account

export.incr_nonce
    push.0 swap
    # => [value, 0]

    exec.account::incr_nonce
    # => [0]
end

export.set_item
    exec.account::set_item
    # => [R', V, 0, 0, 0]

    movup.8 drop movup.8 drop movup.8 drop
    # => [R', V]
end

export.set_code
    padw swapw
    # => [CODE_ROOT, 0, 0, 0, 0]

    exec.account::set_code
    # => [0, 0, 0, 0]
end

export.account_procedure_1
    push.1.2
    add
end

export.account_procedure_2
    push.2.1
    sub
end
".

Section scenario.
Context `{F : Field} {C : Crypto} {MK : Merkle} {AS : Assembly} {P : Programs} {FE : Features} {D : Display} {B : Build}
  {L : Linker} {ML : MidenLib} {FM : FullMmr} {R : Type} {RG : Rng R} {SE : Seeds R} {PC : Postcard (MockChain (R := R))} {OS : Os}.
Abbreviation Chain := (MockChain (R := R)).

Inductive MainError := MainIo (e : IoError) | MainPostcard (e : PostcardError).

(** Steps with searches for seeds, which may be out of fuel. *)
Definition search (X : Type) : Type := Chain -> option (Chain * res Empty_set X).
#[local] Instance search_bind : MBind search := fun X Y f m s =>
  match m s with
  | None => None
  | Some (s, Ok x) => f x s
  | Some (s, Err e) => Some (s, Err e)
  | Some (s, Panic) => Some (s, Panic)
  end.
Definition searched {X} (m : Chain -> option (Chain * res Empty_set X)) : search X := m.
Definition sure {X} (m : mut Chain Empty_set X) : search X := fun s => Some (m s).

(** An account of the scenario. *)
Definition scenario_account (fuel : nat) (assets : list Asset) : search AccountId :=
  searched (build_account fuel DEFAULT_ACCOUNT_CODE [] assets No OffChain).

(** What [main] does with the chain: a block with a faucet, and one with accounts. *)
Definition scenario (fuel : nat) : search unit :=
  _ ← searched (build_fungible_faucet fuel OnChain DEFAULT_FAUCET_CODE EMPTY_WORD);
  _ ← sure seal_block;
  let amount := 100 in
  asset ← sure (build_fungible_asset 0 amount);
  _ ← scenario_account fuel [asset];
  _ ← scenario_account fuel [];
  _ ← scenario_account fuel [];
  _ ← sure seal_block;
  sure (mret tt).

Definition run_scenario (fuel : nat) (rng : R) : option (res Empty_set Chain) :=
  match mock_chain_new rng with
  | Ok mock_chain =>
      match scenario fuel mock_chain with
      | None => None
      | Some (mock_chain, r) => Some (res_map (fun _ => mock_chain) r)
      end
  | Err e => Some (Err e)
  | Panic => Some Panic
  end.

(** What is written of the chain. *)
Definition save_chain (output : Path) (made : res Empty_set Chain) : mut Fs MainError unit :=
  mock_chain ← lift (expect_ok made);
  data ← lift (map_err MainPostcard (to_allocvec mock_chain));
  mut_map_err MainIo (write_all output data).

Definition main (fuel : nat) (seed : option Z) (output : Path) (fs : Fs) : option (Fs * res MainError unit) :=
  let small_rng := match seed with Some seed => seed_from_u64 seed | None => from_entropy end in
  match mut_map_err MainIo (fs_create output) fs with
  | (fs, Ok _) =>
      match run_scenario fuel small_rng with
      | None => None
      | Some made => Some (save_chain output made fs)
      end
  | (fs, r) => Some (fs, r)
  end.

(** The file is created after the chain is encoded. *)
Definition to_file (self : Chain) (path : Path) : mut Fs IoError unit :=
  encoded ← lift (expect_ok (to_allocvec self));
  _ ← fs_create path;
  write_all path encoded.

Definition from_file (path : Path) : mut Fs IoError Chain :=
  data ← fs_read path;
  lift (expect_ok (from_bytes data)).
End scenario.

(** ** Lemmas *)

(** *** Texts *)

(** What [replace_from] puts first: the new text, or the next character of the text. *)
Definition replaced (s : string) : string := str_replace "export" "proc" s.
Lemma replaced_cons c s : replaced (String c s) =
  if String.prefix "export" (String c s) then "proc" +:+ replace_from "export" "proc" 5 s else String c (replaced s).
Proof. reflexivity. Qed.

Lemma replaced_skip n s : exists t, replace_from "export" "proc" n s = replaced t /\ (String.length t <= String.length s)%nat.
Proof.
  revert s. induction n as [|n IH]; intros s; [by exists s|]. destruct s as [|c s]; [by exists EmptyString|].
  destruct (IH s) as (t & Ht & Hl). exists t. split; [exact Ht|]. cbn. lia.
Qed.

(** A character that is not the first of the new text comes from the text. *)
Lemma replaced_head s c t : replaced s = String c t -> c <> "p"%char -> exists s', s = String c s' /\ t = replaced s'.
Proof.
  destruct s as [|d s]; [done|]. rewrite replaced_cons. destruct (String.prefix _ _); [by intros [= <- _]|].
  intros [= -> <-] _. by exists s.
Qed.

(** The pattern is not made by what is replaced. *)
Lemma replaced_head_po s t : replaced s = String "p" (String "o" t) -> exists s', s = String "p" (String "o" s') /\ t = replaced s'.
Proof.
  destruct s as [|d s]; [done|]. rewrite replaced_cons. destruct (String.prefix _ _); [done|].
  intros [= -> H]. apply replaced_head in H as (s' & -> & ->); [|done]. by exists s'.
Qed.

Lemma replaced_no_prefix s t : replaced s <> "export" +:+ t.
Proof.
  intros H. cbn in H. pose proof H as H1. apply replaced_head in H1 as (s1 & -> & H1); [|done]. symmetry in H1.
  apply replaced_head in H1 as (s2 & -> & H2); [|done]. symmetry in H2.
  apply replaced_head_po in H2 as (s3 & -> & H3). symmetry in H3. apply replaced_head in H3 as (s4 & -> & H4); [|done].
  symmetry in H4. apply replaced_head in H4 as (s5 & -> & H5); [|done]. rewrite replaced_cons in H. by destruct s5.
Qed.

Lemma app_cons_inv (a : string) c s t : String c s = a +:+ t -> (a = EmptyString /\ t = String c s) \/ exists a', a = String c a' /\ s = a' +:+ t.
Proof. destruct a as [|d a]; [by left|]. intros [= -> ->]. right. by exists a. Qed.

(** The text that is loaded has no [export] left. *)
Lemma replaced_none s : forall a t, replaced s <> a +:+ "export" +:+ t.
Proof.
  remember (String.length s) as n eqn:Hn. revert s Hn. induction n as [n IH] using lt_wf_ind. intros s -> a t.
  destruct s as [|c s]; [by destruct a|]. intros H. pose proof H as Hwhole. rewrite replaced_cons in H.
  destruct (String.prefix _ _).
  - destruct (replaced_skip 5 s) as (u & Hu & Hl). rewrite Hu in H. cbn [String.append] in H.
    assert (Hrest : forall b, replaced u <> b +:+ "export" +:+ t) by (intros b; apply (IH (String.length u)); cbn; [lia|done]).
    do 4 (apply app_cons_inv in H as [(-> & H)|(a' & -> & H)]; [done|rename a' into a]). by apply Hrest in H.
  - apply app_cons_inv in H as [(-> & H)|(a' & -> & H)].
    + cbn [String.append] in Hwhole. by apply (replaced_no_prefix (String c s) t).
    + revert H. apply (IH (String.length s)); [cbn; lia|done].
Qed.

(** *** Texts of notes, and addresses *)

Section procedure_lemmas.
Context `{F : Field} {FL : FieldLaws F} {C : Crypto} {MK : Merkle} {AS : Assembly} {P : Programs} {FE : Features} {D : Display}
  {B : Build}.

Lemma prepare_assets_ok {E} (na : NoteAssets) : Forall asset_valid (na_assets na) ->
  prepare_assets (E := E) na = Ok (map (fun a => prepare_word (asset_word a)) (na_assets na)).
Proof.
  unfold prepare_assets. induction 1 as [|x xs Hx _ IH]; [done|]. cbn [mapM map]. rewrite word_of_asset_valid by done.
  cbn [mbind res_bind]. by rewrite IH.
Qed.

Lemma public_note_texts_ok {E} (notes : OutputNotes) (i : nat) (n : Note) : note_wf n -> on_notes notes !! i = Some (PublicNote n) ->
  exists m r a rest, public_note_texts (E := E) notes i = Ok (m, r, a :: rest).
Proof.
  intros ((Hv & Hlen & _) & _) Hi. unfold public_note_texts, get_note. rewrite Hi. cbn [expect mbind res_bind].
  rewrite prepare_assets_ok by done. cbn [mbind res_bind]. destruct (na_assets (note_assets n)); [cbn in Hlen; lia|].
  by eexists _, _, _, _.
Qed.

Lemma public_note_texts_panics {E} (notes : OutputNotes) (i : nat) : (forall n, on_notes notes !! i <> Some (PublicNote n)) ->
  public_note_texts (E := E) notes i = Panic.
Proof.
  intros Hi. unfold public_note_texts, get_note. destruct (on_notes notes !! i) as [[n|n]|] eqn:Hn; [|done|done].
  by destruct (Hi n).
Qed.

(** The procedure that creates the notes of a test is made when the first three notes are
    public, and panics otherwise. *)
Theorem output_notes_data_procedure_spec {E} (notes : OutputNotes) (Hwf : forall n, PublicNote n ∈ on_notes notes -> note_wf n) :
  (exists text, output_notes_data_procedure (E := E) notes = Ok text) /\
    (forall i, (i < 3)%nat -> exists n, on_notes notes !! i = Some (PublicNote n)) \/
  output_notes_data_procedure (E := E) notes = Panic /\
    (exists i, (i < 3)%nat /\ forall n, on_notes notes !! i <> Some (PublicNote n)).
Proof.
  assert (Hcase : forall i, (exists m r a rest n, public_note_texts (E := E) notes i = Ok (m, r, a :: rest) /\
            on_notes notes !! i = Some (PublicNote n)) \/
          public_note_texts (E := E) notes i = Panic /\ forall n, on_notes notes !! i <> Some (PublicNote n)).
  { intros i. destruct (on_notes notes !! i) as [[n|n]|] eqn:Hi.
    - left. destruct (public_note_texts_ok (E := E) notes i n) as (m & r & a & rest & Hok); [|done|].
      { apply Hwf. by apply list_elem_of_lookup_2 in Hi. }
      by eexists _, _, _, _, _.
    - right. split; [|done]. apply public_note_texts_panics. intros n'. by rewrite Hi.
    - right. split; [|done]. apply public_note_texts_panics. intros n'. by rewrite Hi. }
  unfold output_notes_data_procedure.
  destruct (Hcase 0%nat) as [(m0 & r0 & a0 & l0 & n0 & -> & H0)|[-> H0]]; [|right; split; [done|by exists 0%nat; split; [lia|]]].
  destruct (Hcase 1%nat) as [(m1 & r1 & a1 & l1 & n1 & -> & H1)|[-> H1]]; [|right; split; [done|by exists 1%nat; split; [lia|]]].
  destruct (Hcase 2%nat) as [(m2 & r2 & a2 & l2 & n2 & -> & H2)|[-> H2]]; [|right; split; [done|by exists 2%nat; split; [lia|]]].
  left. split; [by eexists|]. intros [|[|[|i]]] Hi; [by exists n0|by exists n1|by exists n2|lia].
Qed.

(** The address of the data of a consumed note is that of the memory layout, for every
    note a transaction may consume. *)
Theorem consumed_note_data_ptr_spec {E} (i : Z) (Hi : 0 <= i < MAX_INPUT_NOTES_PER_TX) :
  consumed_note_data_ptr (E := E) i = Ok (mem_addr (MemConsumed i 0)).
Proof.
  unfold consumed_note_data_ptr, mul_w, add_w. cbn [mem_addr]. unfold consumed_note_ptr, CONSUMED_NOTE_DATA_SECTION_OFFSET, NOTE_MEM_SIZE.
  unfold MAX_INPUT_NOTES_PER_TX in Hi. rewrite decide_True by lia. cbn [mbind res_bind]. rewrite decide_True by lia. f_equal. lia.
Qed.
End procedure_lemmas.

(** *** Runs *)

Section run_lemmas.
Context `{F : Field} {FL : FieldLaws F} {C : Crypto} {SML : SmtLaws C} {SSL : SimpleSmtLaws C} {MK : Merkle} {MKL : MerkleLaws MK}
  {AS : Assembly} {P : Programs} {FE : Features} {D : Display} {B : Build} {V : Vm} {VL : VmLaws V} {VA : VmAdvice}
  {A : Advice} {AL : AdviceLaws A} {AM : AdviceMerge} {AML : AdviceMergeLaws AM} {S : Stacks} {SL : StacksLaws S} {L : Linker}
  {TA : TextAssembler} {PR : Processor} {PRL : ProcessorLaws PR} {OS : Os}.

(** The map of procedures does not depend on the error type. *)
Lemma index_procedures_err {E E'} store root ids result m :
  index_procedures (E := E) store root ids result = Ok m -> index_procedures (E := E') store root ids result = Ok m.
Proof.
  revert result. induction ids as [|i ids IH]; intros result; cbn [index_procedures]; [by intros [= ->]|].
  destruct (NodeIndex_new PROCEDURE_TREE_DEPTH i) as [index| |]; [|done|done]. cbn [expect_ok mbind res_bind].
  destruct (get_node store root index) as [r| |]; [|apply IH|done]. case_decide; [by intros [= ->]|apply IH].
Qed.
Lemma mock_host_new_err {E E'} stub adv h : mock_host_new (E := E) stub adv = Ok h -> mock_host_new (E := E') stub adv = Ok h.
Proof.
  unfold mock_host_new, procedure_map_new. intros H. apply bind_ok in H as (m & Hm & H).
  apply (index_procedures_err (E' := E')) in Hm. rewrite Hm. cbn [mbind res_bind]. by injection H as <-.
Qed.

Lemma host_new_eq {E} stub adv : host_new (E := E) stub adv =
  (proc_index_map ← procedure_map_new (stub_code_root stub) adv; Ok (mkHost adv (tracker_new stub) proc_index_map [])).
Proof. reflexivity. Qed.
Lemma host_new_provider {E} stub adv h : host_new (E := E) stub adv = Ok h -> adv_provider h = adv.
Proof.
  rewrite host_new_eq. intros (m & _ & H)%bind_ok.
  apply (f_equal (fun r => match r with Ok x => adv_provider x | _ => adv end)) in H. symmetry. exact H.
Qed.

Lemma run_tx_runs tx inputs si adv h : get_kernel_inputs ExecutionError tx = Ok (si, adv) ->
  mock_host_new (E := ExecutionError) (stub_of_account (ti_account (pr_inputs tx))) (AdviceInputs_extend adv inputs) = Ok h ->
  run_tx_with_inputs tx inputs = run_process mock_call (pr_program tx) si h.
Proof. intros Hk Hh. unfold run_tx_with_inputs. rewrite (bind_step _ _ _ Hk). exact (bind_step _ _ _ Hh). Qed.

Lemma read_to_string_state (p : Path) (fs : Fs) : (read_to_string p fs).1 = fs.
Proof.
  unfold read_to_string, fs_read, unless_fault. run_mut. destruct (os_fault fs OpRead p); [done|].
  destruct (fs_get fs p) as [[|d]|]; [done| |done]. by destruct (utf8_valid d).
Qed.

Lemma run_process_ok {H} call program si (host : H) p : run_process call program si host = Ok p ->
  execute call program si host = (process_host H p, Ok (process_stack H p)) /\
  exists calls, drive call calls host = (process_host H p, Ok tt).
Proof.
  unfold run_process. destruct (execute call program si host) as [h [stack| |]] eqn:Hrun; [|done|done].
  intros [= <-]. split; [done|]. destruct (execute_drives call program si host h (Ok stack) Hrun) as (calls & _ & Hd).
  exists calls. by apply Hd.
Qed.

(** A test runs the program of a transaction as the executor does, but against the mock
    host: on the stack and the advice of the kernel, where the entries of the inputs
    given besides take precedence; the host starts as the host of a transaction for
    the account. When the run ends, it has ended as the mock host of a transaction
    host that answers the same calls. *)
Theorem run_tx_spec (tx : PreparedTransaction) (inputs : AdviceInputs)
    (Hready : Forall note_ready (is_notes (ti_input_notes (pr_inputs tx)))) :
  exists si adv h, get_kernel_inputs ExecutionError tx = Ok (si, adv) /\
    host_new (E := Empty_set) (stub_of_account (ti_account (pr_inputs tx))) (provider_of (AdviceInputs_extend adv inputs)) = Ok h /\
    run_tx_with_inputs tx inputs = run_process mock_call (pr_program tx) si (mock_of h) /\
    (forall k, get_mapped_values (adv_provider h) k =
       match advice_values inputs k with Some v => Some v | None => get_mapped_values (provider_of adv) k end) /\
    forall p, run_tx_with_inputs tx inputs = Ok p -> exists calls, drive mock_call calls (mock_of h) = (process_host MockHost p, Ok tt) /\
      forall h', run_calls calls h = (h', Ok tt) -> process_host MockHost p = mock_of h'.
Proof.
  destruct (kernel_inputs_ok (E := ExecutionError) (pr_inputs tx) (pr_args tx) AdviceInputs_default Hready) as (si & adv & Hk & _).
  destruct (mock_host_follows (stub_of_account (ti_account (pr_inputs tx))) (AdviceInputs_extend adv inputs))
    as (h & Hh & Hm & Hf & _).
  assert (Hmock : mock_host_new (E := ExecutionError) (stub_of_account (ti_account (pr_inputs tx))) (AdviceInputs_extend adv inputs)
    = Ok (mock_of h)) by (revert Hm; apply mock_host_new_err).
  pose proof (run_tx_runs tx inputs si adv (mock_of h) Hk Hmock) as Hrun.
  exists si, adv, h. split; [exact Hk|]. split; [exact Hh|]. split; [exact Hrun|]. split.
  - intros k. rewrite (host_new_provider _ _ _ Hh), !provider_values. apply merge_values.
  - intros p Hp. rewrite Hrun in Hp. apply run_process_ok in Hp as (_ & calls & Hd). exists calls. split; [exact Hd|].
    intros h' Hc. apply Hf in Hc. rewrite Hd in Hc. by injection Hc.
Qed.

(** The code a test gives is assembled as it is, or after the file with every [export]
    made a [proc]; a file that cannot be read, and a text that does not assemble, are
    panics, and the files stay as they are. *)
Theorem prepare_transaction_spec {E : Type} (ti : TransactionInputs) (args : TransactionArgs) (code : string) (path : option Path) (fs : Fs) :
  let text := match path with
              | None => Some code
              | Some p => match (read_to_string p fs).2 with Ok m => Some (replaced (m +:+ code)) | _ => None end
              end in
  prepare_transaction (E := E) ti args code path fs =
    (fs, match text with
         | None => Panic
         | Some text => match compile_text kernel_assembler text with Ok pr => Ok (mkPrepared pr ti args) | _ => Panic end
         end).
Proof.
  cbv zeta. unfold prepare_transaction, code_of, load_file_with_code, unwrap_io. destruct path as [p|]; run_mut.
  - pose proof (read_to_string_state p fs) as Hfs. destruct (read_to_string p fs) as [fs' r]. cbn [fst snd] in *. subst fs'.
    destruct r as [m| |]; cbn [expect_ok]; [|done|done]. change ("" +:+ m +:+ code) with (m +:+ code). fold (replaced (m +:+ code)).
    by destruct (compile_text kernel_assembler _).
  - change ("" +:+ code) with code. by destruct (compile_text kernel_assembler code).
Qed.
End run_lemmas.

(** *** The scenario *)

Section scenario_lemmas.
Context `{F : Field} {FL : FieldLaws F} {C : Crypto} {SML : SmtLaws C} {SSL : SimpleSmtLaws C} {MK : Merkle} {MKL : MerkleLaws MK}
  {AS : Assembly} {P : Programs} {FE : Features} {D : Display} {B : Build} {L : Linker} {MLB : MidenLib}
  {FM : FullMmr} {FML : FullMmrLaws FM} {R : Type} {RG : Rng R} {SE : Seeds R} {PC : Postcard (MockChain (R := R))} {OS : Os}.
Abbreviation Chain := (MockChain (R := R)).
Implicit Types (s t : Chain).

(** What a run of the scenario needs to end without a panic. *)
Definition scenario_ready : Prop :=
  (forall r : R, exists g, (from_rng r).2 = Ok g) /\ (exists c, str_to_account_code DEFAULT_ACCOUNT_CODE = Ok c) /\
  (exists c, str_to_account_code DEFAULT_FAUCET_CODE = Ok c).

(** The searches of the scenario end within the fuel, from whatever bytes. *)
Definition searches_end (fuel : nat) : Prop :=
  (forall c bytes, str_to_account_code DEFAULT_FAUCET_CODE = Ok c ->
     get_account_seed_single FungibleFaucet OnChain (code_root c) EMPTY_WORD fuel bytes <> None) /\
  (forall c st bytes, str_to_account_code DEFAULT_ACCOUNT_CODE = Ok c -> storage_new [] = Ok st ->
     get_account_seed_single RegularAccountUpdatableCode OffChain (code_root c) (storage_root st) fuel bytes <> None).

Context (fuel : nat).

(** A triple: a step that succeeds is as in [Q]; it is out of fuel only if a search may
    be, and nothing else happens when the scenario is ready. *)
Definition leads {X} (m : search X) s (Q : Chain -> X -> Prop) : Prop :=
  match m s with None => ~ searches_end fuel | Some (t, Ok x) => Q t x | Some _ => ~ scenario_ready end.

Lemma leads_bind {X Y} (m : search X) (k : X -> search Y) s Q1 Q2 :
  leads m s Q1 -> (forall t x, Q1 t x -> leads (k x) t Q2) -> leads (search_bind X Y k m) s Q2.
Proof. unfold leads, search_bind. intros Hm Hk. destruct (m s) as [[t [x| |]]|]; [by apply Hk|done..]. Qed.

(** What the objects of a chain are, but for their notes. *)
Definition objects_are s (ca : list (Account * Word)) (cf : list (AccountId * FungibleAssetBuilder))
    (pa : list (Account * Word)) (pf : list (AccountId * FungibleAssetBuilder)) : Prop :=
  ob_accounts (mc_objects s) = ca /\ ob_fungible_faucets (mc_objects s) = cf /\ ob_nonfungible_faucets (mc_objects s) = [] /\
  ob_accounts (mc_pending_objects s) = pa /\ ob_fungible_faucets (mc_pending_objects s) = pf /\
  ob_nonfungible_faucets (mc_pending_objects s) = [].

(** A state of the scenario. *)
Definition scenario_at (rng : R) (blocks : nat) s ca cf pa pf : Prop :=
  mock_reachable rng s /\ length (mc_blocks s) = blocks /\ objects_are s ca cf pa pf.

Lemma reachable_step (rng : R) s t : mock_reachable rng s -> mock_step s t -> mock_reachable rng t.
Proof. intros (s0 & H0 & Hr) Hst. exists s0. split; [done|]. by eapply rtc_r. Qed.

Lemma framed_at (rng : R) n s t ca cf pa pf ca' cf' pa' pf' : scenario_at rng n s ca cf pa pf -> frames s t -> mock_step s t ->
  objects_are t ca' cf' pa' pf' -> scenario_at rng n t ca' cf' pa' pf'.
Proof. intros (Hr & Hn & _) (_ & Hb & _) Hst Ho. split; [by eapply reachable_step|]. split; [by rewrite Hb|done]. Qed.

(** A block. *)
Lemma seal_leads (rng : R) n s ca cf pa pf : Z.of_nat n < 2 ^ 32 -> scenario_at rng n s ca cf pa pf ->
  leads (sure seal_block) s (fun t h => scenario_at rng (S n) t (ca ++ pa) (cf ++ pf) [] [] /\ last (mc_blocks t) = Some h /\
    account_root h = SimpleSmt_root (mc_accounts t)).
Proof.
  intros Hn (Hr & Hb & (<- & <- & Hnf & <- & <- & Hnf')). pose proof (chain_inv_reachable _ _ Hr) as Hinv.
  unfold leads, sure. destruct (seal_block_ok s) as (nt & p & h & _ & _ & Hh & Hseal); [apply Hinv|by rewrite Hb|].
  rewrite Hseal. cbn beta iota. split; [split; [|split]|split].
  - eapply reachable_step; [exact Hr|]. eapply step_seal, Hseal.
  - cbn [mc_blocks]. rewrite length_app, Hb. cbn. lia.
  - split_and!; try done. cbn. by rewrite Hnf, Hnf'.
  - cbn [mc_blocks]. apply last_snoc.
  - by rewrite Hh.
Qed.

(** An asset of the first faucet. *)
Lemma asset_leads (rng : R) n s ca id b cf pa pf amount : scenario_at rng n s ca ((id, b) :: cf) pa pf -> fb_faucet_id b = id ->
  account_type (E := Empty_set) id = Ok FungibleFaucet -> 0 <= amount <= MAX_AMOUNT ->
  leads (sure (build_fungible_asset 0 amount)) s (fun t x => x = Fungible (mkFungibleAsset id amount) /\
    scenario_at rng n t ca ((id, mkFungibleBuilder id amount) :: cf) pa pf).
Proof.
  intros Hat Hb Ht Ham. pose proof Hat as (_ & _ & (Hca & Hcf & Hnf & Hpa & Hpf & Hnf')). unfold leads, sure.
  assert (Hrun : exists t, build_fungible_asset (E := Empty_set) 0 amount s = (t, Ok (Fungible (mkFungibleAsset id amount))) /\
    objects_are t ca ((id, mkFungibleBuilder id amount) :: cf) pa pf).
  { unfold build_fungible_asset, fungible_builder_amount. run_mut. rewrite Hcf. cbn [lookup list_lookup expect].
    rewrite decide_False by lia. cbn [expect_ok]. unfold fungible_build. cbn [fb_faucet_id fb_amount]. rewrite Hb.
    rewrite (proj2 (fungible_new_ok id amount (mkFungibleAsset id amount))).
    - eexists. split; [reflexivity|]. split_and!; try done.
    - rewrite account_type_total in Ht. injection Ht as Ht. split_and!; [done|done|lia]. }
  destruct Hrun as (t & Hrun & Ho). rewrite Hrun. split; [done|].
  eapply framed_at; [exact Hat| |by eapply step_fungible_asset|exact Ho].
  pose proof (build_fungible_asset_frames (E := Empty_set) 0 amount s) as Hf. by rewrite Hrun in Hf.
Qed.

(** What a search for a seed gives: an identifier of the requested kind. *)
Lemma found_seed ty st cr sr bytes r : get_account_seed_single ty st cr sr fuel bytes = Some r ->
  exists seed id, r = Ok seed /\ AccountId_new seed cr sr = Ok id /\ account_type (E := Empty_set) id = Ok ty /\
    storage_type (E := Empty_set) id = Ok st /\ AccountId_valid id.
Proof.
  intros (k & _ & -> & (id & Hid & Ht & Hst) & _)%seed_loop_spec. eexists _, id. do 4 (split; [done|]).
  apply bind_ok in Hid as (? & _ & Hid). by apply try_from_felt_ok_iff in Hid as [_ Hid].
Qed.

(** A search among good seeds ends at once. *)
Lemma good_search ty st cr sr bytes : (forall seed, good_seed ty st cr sr seed) ->
  get_account_seed_single ty st cr sr 1 bytes <> None.
Proof. intros Hgood Hnone. unfold get_account_seed_single in Hnone. apply (seed_loop_none _ _ _ _ _ _ Hnone 0%nat); [lia|apply Hgood]. Qed.

(** An identifier that is built; only its code can be at fault. *)
Lemma build_id_outcome s :
  match build_id fuel s with
  | None => exists c bytes, str_to_account_code (ib_code (mc_account_id_builder s)) = Ok c /\
      get_account_seed_single (ib_account_type (mc_account_id_builder s)) (ib_storage_type (mc_account_id_builder s))
        (code_root c) (ib_storage_root (mc_account_id_builder s)) fuel bytes = None
  | Some (t, r) => (exists b', t = put_id_builder b' s) /\
  match r with
  | Ok id => account_type (E := Empty_set) id = Ok (ib_account_type (mc_account_id_builder s)) /\
      storage_type (E := Empty_set) id = Ok (ib_storage_type (mc_account_id_builder s)) /\ AccountId_valid id
  | _ => forall c, str_to_account_code (ib_code (mc_account_id_builder s)) <> Ok c
  end
  end.
Proof.
  unfold build_id, id_build, accountid_build_details. destruct (mc_account_id_builder s) as [ty st code sr g]. cbn.
  destruct (gen_bytes 32 g) as [g' bytes].
  destruct (str_to_account_code code) as [c|e|] eqn:Hc; [|by cbn; (split; [by eexists|])..]. cbn [map_err try_].
  destruct (get_account_seed_single _ _ _ _ _ _) as [found|] eqn:Hfound; [|cbn; by exists c, bytes].
  destruct (found_seed _ _ _ _ _ _ Hfound) as (seed & id & -> & Hid & Ht & Hst & Hval). cbn. rewrite Hid. cbn.
  split; [by eexists|done].
Qed.

Lemma push_fungible_ok id s : account_type (E := Empty_set) id = Ok FungibleFaucet ->
  exists t, push_fungible (E := Empty_set) id s = (t, Ok id) /\ frames s t /\
    forall ca cf pa pf, objects_are s ca cf pa pf -> objects_are t ca cf pa (pf ++ [(id, mkFungibleBuilder id DEFAULT_AMOUNT)]).
Proof.
  intros Ht. assert (Hb : fungible_builder_new id = Ok (mkFungibleBuilder id DEFAULT_AMOUNT)).
  { unfold fungible_builder_new. rewrite (account_type_err (E' := AssetError) _ _ Ht). cbn [mbind res_bind].
    by rewrite decide_False by (by intros []). }
  unfold push_fungible. run_mut. rewrite Hb. cbn [expect_ok]. eexists. split; [reflexivity|]. split; [done|].
  intros ca cf pa pf (? & ? & ? & ? & Hpf & ?). split_and!; try done. cbn. by rewrite Hpf.
Qed.

Lemma faucet_leads (rng : R) n s ca cf pa pf : scenario_at rng n s ca cf pa pf ->
  leads (searched (build_fungible_faucet fuel OnChain DEFAULT_FAUCET_CODE EMPTY_WORD)) s (fun t id =>
    scenario_at rng n t ca cf pa (pf ++ [(id, mkFungibleBuilder id DEFAULT_AMOUNT)]) /\
    account_type (E := Empty_set) id = Ok FungibleFaucet /\ storage_type (E := Empty_set) id = Ok OnChain /\ AccountId_valid id).
Proof.
  intros Hat. unfold leads, searched.
  pose proof (build_id_outcome (configure_faucet FungibleFaucet OnChain DEFAULT_FAUCET_CODE EMPTY_WORD s)) as Hid.
  destruct (build_fungible_faucet fuel OnChain DEFAULT_FAUCET_CODE EMPTY_WORD s) as [[t r]|] eqn:Hrun;
    pose proof Hrun as H; unfold build_fungible_faucet in H; destruct (build_id _ _) as [[u id]|]; [|done|done|].
  2: { destruct Hid as (c & bytes & Hc & Hnone). intros [Hend _]. by apply (Hend c bytes). }
  destruct Hid as [[b' ->] Hid].
  set (u := put_id_builder b' _) in *. assert (Hu : objects_are u ca cf pa pf) by exact (proj2 (proj2 Hat)).
  change (Some ((faucet_id ← lift id; push_fungible faucet_id) u) = Some (t, r)) in H. apply Some_inj in H.
  destruct id as [id| |]; [|injection H as <- <-; intros (_ & _ & c & Hc); by apply (Hid c)..].
  destruct Hid as (Ht & Hst & Hval). destruct (push_fungible_ok id u Ht) as (t' & Hpush & Hf & Ho).
  change (push_fungible id u = (t, r)) in H. rewrite Hpush in H. injection H as <- <-. split; [|done].
  eapply framed_at; [exact Hat| |by eapply step_fungible_faucet|by apply Ho].
  apply (transitivity (y := u)); [done|exact Hf].
Qed.

(** The storage of the accounts, which is empty; copying it onto itself keeps it. *)
Lemma empty_storage : exists st, storage_new [] = Ok st /\ length (layout st) = NUM_STORAGE_SLOTS /\
  forall i, 0 <= i < SLOT_LAYOUT_COMMITMENT_INDEX -> layout st !! Z.to_nat i = Some DEFAULT_SLOT_TYPE.
Proof.
  destruct (storage_new_ok []) as (st & Hst & (Hlen & _) & Hslots); [by split; constructor|].
  exists st. split; [done|]. split; [exact Hlen|]. intros i Hi. by rewrite (proj1 (Hslots i Hi)).
Qed.

Lemma copy_slots_same (leaves : list (Z * Word)) (st0 st : AccountStorage) :
  length (layout st) = NUM_STORAGE_SLOTS ->
  (forall i, 0 <= i < SLOT_LAYOUT_COMMITMENT_INDEX -> layout st !! Z.to_nat i = Some DEFAULT_SLOT_TYPE) ->
  (forall i v, (i, v) ∈ leaves -> 0 <= i < 2 ^ STORAGE_TREE_DEPTH /\ SimpleSmt_get (slots st0) i = v) ->
  (forall i, 0 <= i < 2 ^ STORAGE_TREE_DEPTH -> SimpleSmt_get (slots st) i = SimpleSmt_get (slots st0) i) ->
  exists st', for_each copy_slot leaves st = (st', Ok tt) /\ storage_root st' = storage_root st0.
Proof.
  revert st. induction leaves as [|[i v] leaves IH]; intros st Hlen Hlay Hall Hget.
  { exists st. split; [done|]. by apply SimpleSmt_root_ext. }
  destruct (Hall i v) as [Hi Hv]; [set_solver|].
  assert (Hall' : forall i v, (i, v) ∈ leaves -> 0 <= i < 2 ^ STORAGE_TREE_DEPTH /\ SimpleSmt_get (slots st0) i = v)
    by (intros ???; apply Hall; set_solver).
  rewrite for_each_cons. unfold copy_slot at 1. cbn [fst snd]. case_decide as H255; [|by run_mut; apply (IH st)].
  unfold STORAGE_TREE_DEPTH in Hi. rewrite Z.mod_small by lia. run_mut.
  destruct (set_item_eq st i v) as (t & Ht & ->); [done|unfold SLOT_LAYOUT_COMMITMENT_INDEX; lia|].
  rewrite Hlay in Ht by (unfold SLOT_LAYOUT_COMMITMENT_INDEX; lia). injection Ht as <-. cbn [DEFAULT_SLOT_TYPE].
  rewrite decide_False by lia. cbn [map_err]. apply IH; [done|done|done|].
  intros j Hj. cbn [slots]. rewrite SimpleSmt_get_insert by (unfold STORAGE_TREE_DEPTH; lia).
  case_decide as Hij; [by rewrite <- Hij, Hv|by apply Hget].
Qed.

(** An account built from a seed found for it. *)
Lemma built_with_storage seed st (self : AccountBuilder R) v c id : storage_new [] = Ok st ->
  ab_storage_builder self = storage_builder_new -> vault_new (ab_assets self) = Ok v -> str_to_account_code (ab_code self) = Ok c ->
  AccountId_new seed (code_root c) (storage_root st) = Ok id ->
  account_type (E := Empty_set) id = Ok (ib_account_type (ab_id_builder self)) ->
  storage_type (E := Empty_set) id = Ok (ib_storage_type (ab_id_builder self)) ->
  exists a, account_with_seed_and_storage seed st self = Ok a.
Proof.
  intros Hst Hsb Hv Hc Hid Ht Hs. unfold account_with_seed_and_storage. rewrite Hv, Hsb. cbn [map_err mbind res_bind].
  unfold storage_build. cbn [storage_builder_new sb_items]. rewrite Hst. cbn [expect_ok mbind res_bind].
  destruct empty_storage as (st' & Hst' & Hlen & Hlay). rewrite Hst in Hst'. injection Hst' as <-.
  destruct (copy_slots_same (SimpleSmt_leaves (slots st)) st st Hlen Hlay) as (st' & -> & Hroot); [|done|].
  { intros i x Hi. by apply SimpleSmt_leaves_range. }
  cbn [mbind res_bind]. unfold id_with_seed. cbn [id_builder_for id_storage_root id_code ib_code ib_storage_root ib_account_type
    ib_storage_type]. rewrite Hc. cbn [map_err mbind res_bind]. rewrite Hroot, Hid. cbn [map_err mbind res_bind].
  rewrite (account_type_err (E' := AccountBuilderError) _ _ Ht). cbn [mbind res_bind]. rewrite decide_False by tauto.
  rewrite (storage_type_err (E' := AccountBuilderError) _ _ Hs). cbn [mbind res_bind]. rewrite decide_False by tauto.
  cbn [mbind res_bind]. by eexists.
Qed.

Lemma add_assets_assets assets (self : AccountBuilder R) : ab_assets (add_assets assets self) = ab_assets self ++ assets /\
  ab_storage_builder (add_assets assets self) = ab_storage_builder self.
Proof.
  revert self. induction assets as [|x xs IH]; intros self; [by rewrite app_nil_r|].
  destruct (IH (add_asset_ x self)) as [Ha Hs]. cbn [add_assets foldl]. split; [|exact Hs].
  etrans; [exact Ha|]. cbn. by rewrite <- app_assoc.
Qed.

Lemma with_storage_vault seed st (self : AccountBuilder R) a : account_with_seed_and_storage seed st self = Ok a ->
  vault_new (ab_assets self) = Ok (acc_vault a).
Proof.
  unfold account_with_seed_and_storage. intros H. apply bind_ok in H as (v & Hv%map_err_ok & H).
  apply bind_ok in H as (s & _ & H). destruct (for_each _ _ _) as [s' r]. apply bind_ok in H as (u & _ & H).
  apply bind_ok in H as (id & _ & H). apply bind_ok in H as (c & _ & H). injection H as <-. done.
Qed.

(** The builder of an account of the scenario. *)
Definition scenario_builder (assets : list Asset) (g : R) : AccountBuilder R :=
  builder_code DEFAULT_ACCOUNT_CODE (builder_storage_type OffChain (builder_account_type RegularAccountUpdatableCode
    (add_assets assets (account_builder_new g)))).

Lemma scenario_builder_parts assets g : ab_assets (scenario_builder assets g) = assets /\
  ab_storage_builder (scenario_builder assets g) = storage_builder_new.
Proof. exact (add_assets_assets assets (account_builder_new g)). Qed.

(** The outcome of an account the scenario builds. *)
Definition scenario_built (assets : list Asset) (e : Account * Word) : Prop :=
  seeded_account RegularAccountUpdatableCode OffChain e.1 e.2 /\ vault_new assets = Ok (acc_vault e.1).

Lemma push_built_outcome built seed s t r ca cf pa pf : push_built built seed s = Some (t, r) -> objects_are s ca cf pa pf ->
  match r with
  | Ok id => exists a, built = Some (Ok a) /\ acc_id a = id /\ objects_are t ca cf (pa ++ [(a, seed)]) pf
  | _ => forall a, built <> Some (Ok a)
  end.
Proof.
  unfold push_built. destruct built as [b|]; [|done]. intros H (? & ? & ? & Hpa & ? & ?). apply Some_inj in H. revert H.
  run_mut. destruct b as [a| |]; cbn [expect_ok]; intros [= <- <-]; [|done|done]. exists a. split; [done|]. split; [done|].
  split_and!; try done. cbn. by rewrite Hpa.
Qed.

(** How far the build of an account gets: to the push of what the builder gives for a
    seed found, unless the search is out of fuel or the code does not assemble. *)
Lemma build_account_outcome s assets st : storage_new [] = Ok st ->
  match build_account fuel DEFAULT_ACCOUNT_CODE [] assets No OffChain s with
  | None => exists c bytes, str_to_account_code DEFAULT_ACCOUNT_CODE = Ok c /\
      get_account_seed_single RegularAccountUpdatableCode OffChain (code_root c) (storage_root st) fuel bytes = None
  | Some (t, r) => (forall c, str_to_account_code DEFAULT_ACCOUNT_CODE <> Ok c) /\ r = Panic \/
      exists c g seed id, let '(rng, ag) := from_rng g in
        str_to_account_code DEFAULT_ACCOUNT_CODE = Ok c /\ AccountId_new seed (code_root c) (storage_root st) = Ok id /\
        account_type (E := Empty_set) id = Ok RegularAccountUpdatableCode /\ storage_type (E := Empty_set) id = Ok OffChain /\
        push_built (ag ←? expect_ok ag; Some (account_with_seed_and_storage seed st (scenario_builder assets ag))) seed
          (put_rng rng s) = Some (t, r)
  end.
Proof.
  intros Hst. unfold build_account.
  change (storage_build (storage_add_items [] storage_builder_new)) with
    (expect_ok (E := AccountError) (E' := Empty_set) (storage_new [])).
  rewrite Hst. cbn [expect_ok account_type_of]. unfold accountid_build_details.
  destruct (gen_bytes 32 (mc_rng s)) as [g bytes].
  destruct (str_to_account_code DEFAULT_ACCOUNT_CODE) as [c|e|]; cbn [map_err try_]; [|by left..].
  destruct (get_account_seed_single _ _ _ _ _ _) as [found|] eqn:Hfound; [|by exists c, bytes].
  destruct (found_seed _ _ _ _ _ _ Hfound) as (seed & id & -> & Hid & Ht & Hty & _). cbn [map_err try_ put_rng mc_rng].
  destruct (from_rng g) as [g' ag] eqn:Hg. set (u := put_rng g' (put_rng g s)). change u with (put_rng g' s).
  destruct (push_built _ _ _) as [[t r]|] eqn:Hpush.
  - right. exists c, g, seed, id. by rewrite Hg.
  - by destruct ag.
Qed.

Lemma account_leads (rng : R) n s ca cf pa pf assets v : vault_new assets = Ok v -> scenario_at rng n s ca cf pa pf ->
  leads (scenario_account fuel assets) s (fun t id => exists e, scenario_at rng n t ca cf (pa ++ [e]) pf /\ scenario_built assets e).
Proof.
  intros Hv Hat. destruct empty_storage as (st & Hst & _). pose proof (build_account_outcome s assets st Hst) as Hbuild.
  unfold leads, scenario_account, searched.
  destruct (build_account fuel DEFAULT_ACCOUNT_CODE [] assets No OffChain s) as [[t r]|] eqn:Hrun.
  2: { destruct Hbuild as (c & bytes & Hc & Hnone). intros [_ Hend]. by apply (Hend c st bytes). }
  destruct Hbuild as [[Hc ->]|(c & g & seed & id & Hbuild)]; [intros (_ & (c & Hc') & _); by apply (Hc c)|].
  destruct (from_rng g) as [g' ag] eqn:Hg. destruct Hbuild as (Hc & Hid & Ht & Hty & Hpush).
  pose proof (push_built_outcome _ _ _ _ _ _ _ _ _ Hpush (proj2 (proj2 Hat))) as Hout.
  destruct r as [id'|e|].
  2, 3: intros (Hrng & _); destruct (Hrng g) as (g2 & Hg2); rewrite Hg in Hg2; cbn [snd] in Hg2; subst ag;
    destruct (built_with_storage seed st (scenario_builder assets g2) v c id) as (a & Ha);
      [done|apply scenario_builder_parts|by rewrite (proj1 (scenario_builder_parts assets g2))|done..|];
    destruct (Hout a); cbn [expect_ok try_]; exact (f_equal Some Ha).
  destruct Hout as (a & (g2 & _ & Ha)%from_rng_try & _ & Ho). exists (a, seed). split; [|split].
  - eapply framed_at; [exact Hat|by eapply build_account_frames|by eapply step_build_account|exact Ho].
  - apply account_with_seed_and_storage_ok in Ha; [exact Ha|]. exact (add_assets_nonce _ _).
  - apply with_storage_vault in Ha. etrans; [|exact Ha]. f_equal. symmetry. apply (scenario_builder_parts assets g2).
Qed.

(** ** The scenario and its file *)

(** The chain the scenario makes: two blocks, a fungible faucet that has issued an asset,
    the account of this asset and two empty ones, all of them in the last block. *)
Definition scenario_chain (rng : R) s : Prop :=
  exists faucet e0 e1 e2,
    scenario_at rng 2 s [e0; e1; e2] [(faucet, mkFungibleBuilder faucet 100)] [] [] /\
    account_type (E := Empty_set) faucet = Ok FungibleFaucet /\ storage_type (E := Empty_set) faucet = Ok OnChain /\
    scenario_built [Fungible (mkFungibleAsset faucet 100)] e0 /\ scenario_built [] e1 /\ scenario_built [] e2 /\
    (exists h, last (mc_blocks s) = Some h /\ account_root h = SimpleSmt_root (mc_accounts s)).

Lemma faucet_asset_vault faucet : AccountId_valid faucet -> account_type (E := Empty_set) faucet = Ok FungibleFaucet ->
  exists v, vault_new [Fungible (mkFungibleAsset faucet 100)] = Ok v.
Proof.
  intros Hid Ht. rewrite account_type_total in Ht. injection Ht as Ht.
  destruct (vault_new_ok [Fungible (mkFungibleAsset faucet 100)]) as (v & Hv & _); [|apply NoDup_singleton|by exists v].
  apply Forall_singleton. cbn [asset_valid]. unfold fungible_valid. cbn [fa_faucet_id fa_amount].
  change MAX_AMOUNT with (2 ^ 63 - 1). split_and!; (done || lia).
Qed.

(** The run of the scenario makes the chain above. It is out of fuel only if a search of
    it may be, and it panics only if the generator cannot be seeded from or a text
    does not assemble. *)
Theorem run_scenario_spec (rng : R) :
  match run_scenario fuel rng with
  | None => ~ searches_end fuel
  | Some (Ok s) => scenario_chain rng s
  | Some _ => ~ scenario_ready
  end.
Proof.
  unfold run_scenario. destruct (mock_chain_new rng) as [s0|[]|] eqn:Hnew.
  - assert (Hat : scenario_at rng 0 s0 [] [] [] []).
    { split; [exists s0; by split; [|apply rtc_refl]|]. unfold mock_chain_new in Hnew. destruct (from_rng rng) as [g r].
      inv_res. by split. }
    assert (Hlead : leads (scenario fuel) s0 (fun s _ => scenario_chain rng s)).
    { unfold scenario. eapply leads_bind; [apply (faucet_leads rng 0), Hat|]. intros s1 faucet (H1 & Ht & Hst & Hval).
      eapply leads_bind; [apply (seal_leads rng 0); [done|exact H1]|]. intros s2 h (H2 & _).
      eapply leads_bind; [eapply (asset_leads rng 1 s2 [] faucet); [exact H2|done|done|by vm_compute]|]. intros s3 x [-> H3].
      destruct (faucet_asset_vault faucet Hval Ht) as (v & Hv). destruct vault_new_nil as (v0 & Hv0 & _).
      eapply leads_bind; [by eapply (account_leads rng 1 s3)|]. intros s4 id4 (e0 & H4 & He0).
      eapply leads_bind; [by eapply (account_leads rng 1 s4)|]. intros s5 id5 (e1 & H5 & He1).
      eapply leads_bind; [by eapply (account_leads rng 1 s5)|]. intros s6 id6 (e2 & H6 & He2).
      eapply leads_bind; [apply (seal_leads rng 1); [done|exact H6]|]. intros s7 h7 (H7 & Hlast & Hroot).
      exists faucet, e0, e1, e2. do 6 (split; [done|]). by exists h7. }
    unfold leads in Hlead. by destruct (scenario fuel s0) as [[s [u| |]]|].
  - intros (Hrng & _). unfold mock_chain_new in Hnew. destruct (Hrng rng) as (g & Hg). destruct (from_rng rng) as [g' r].
    cbn [snd] in Hg. subst r. cbn [expect_ok mbind res_bind] in Hnew.
    destruct (SimpleSmt_new_ok ACCOUNT_TREE_DEPTH) as (t & Ht & _); [by unfold ACCOUNT_TREE_DEPTH|]. by rewrite Ht in Hnew.
Qed.

(** What [fs_create] leaves when it succeeds. *)
Lemma fs_create_state (p : Path) (fs fs' : Fs) r : fs_create p fs = (fs', r) ->
  match r with Ok _ => p <> [] /\ fs' = <[p := File []]> fs | Err _ => fs' = fs | Panic => False end.
Proof.
  unfold fs_create, unless_fault. run_mut. destruct (os_fault fs OpCreate p); [by intros [= <- <-]|].
  case_decide as Hd; [by intros [= <- <-]|]. destruct (fs_get fs (parent p)) as [[|d]|]; intros [= <- <-]; [|done|done].
  split; [by apply (not_root fs)|done].
Qed.

(** What [write_all] leaves in a file just made. *)
Lemma write_all_state (p : Path) (data : list Z) (fs fs' : Fs) r : p <> [] -> write_all p data (<[p := File []]> fs) = (fs', r) ->
  match r with
  | Ok _ => fs' = <[p := File data]> fs
  | Err _ => exists n, fs' = <[p := File (take n data)]> fs
  | Panic => False
  end.
Proof.
  intros Hp. unfold write_all. run_mut. rewrite fs_get_insert, decide_True by done.
  destruct (os_fault _ OpWrite p); intros [= <- <-]; cbn [app].
  - eexists. by rewrite insert_insert_eq.
  - by rewrite insert_insert_eq.
Qed.

(** The program: it changes the output file only. When it ends well, the file has the
    chain of the scenario. The file is made before the chain, so a scenario that
    panics, or that is not encoded, leaves an empty file in place of an old one. *)
Theorem main_spec (seed : option Z) (output : Path) (fs fs' : Fs) (r : res MainError unit)
    (Hrun : main fuel seed output fs = Some (fs', r)) :
  let rng := match seed with Some seed => seed_from_u64 seed | None => from_entropy end in
  (forall p, p <> output -> fs_get fs' p = fs_get fs p) /\
  match r with
  | Ok _ => exists s data, run_scenario fuel rng = Some (Ok s) /\ scenario_chain rng s /\ to_allocvec s = Ok data /\
      fs_get fs' output = Some (File data)
  | Err (MainIo _) => fs' = fs \/ exists s data n, run_scenario fuel rng = Some (Ok s) /\ to_allocvec s = Ok data /\
      fs_get fs' output = Some (File (take n data))
  | Err (MainPostcard e) => fs_get fs' output = Some (File [])
  | Panic => fs_get fs' output = Some (File [])
  end.
Proof.
  cbv zeta. unfold main in Hrun. set (rng := match seed with Some s => seed_from_u64 s | None => from_entropy end) in *.
  pose proof (run_scenario_spec rng) as Hspec. unfold mut_map_err in Hrun.
  destruct (fs_create output fs) as [fs1 r1] eqn:Hcreate. apply fs_create_state in Hcreate.
  destruct r1 as [u|e|]; cbn [map_err] in Hrun; [|injection Hrun as <- <-; subst fs1; by split; [|left]|done].
  destruct Hcreate as [Hp ->]. destruct (run_scenario fuel rng) as [made|]; [|done]. injection Hrun as Hrun.
  assert (Hget : forall n, fs_get (<[output := n]> fs) output = Some n) by (intros n; by rewrite fs_get_insert, decide_True).
  assert (Hother : forall n p, p <> output -> fs_get (<[output := n]> fs) p = fs_get fs p)
    by (intros n p Hne; by rewrite fs_get_insert, decide_False).
  unfold save_chain in Hrun. revert Hrun. run_mut.
  destruct made as [s|[]|]; cbn [expect_ok]; [|intros [= <- <-]; by split; [apply Hother|apply Hget]].
  destruct (to_allocvec s) as [data|e|] eqn:Hdata; cbn [map_err];
    [|intros [= <- <-]; by split; [apply Hother|apply Hget]..].
  destruct (write_all output data _) as [fs2 r2] eqn:Hwrite. apply write_all_state in Hwrite; [|done].
  destruct r2 as [u2|e|]; cbn [map_err]; [|destruct Hwrite as (n & ->)|done]; intros [= <- <-].
  - subst fs2. split; [apply Hother|]. exists s, data. by rewrite Hget.
  - split; [apply Hother|]. right. exists s, data, n. by rewrite Hget.
Qed.

(** Whenever the searches end within the fuel, the generator can be seeded from, both texts
    assemble, every chain is encoded and the system refuses nothing, the program ends
    well: the file is there, with the chain of the scenario. *)
Theorem main_completes (seed : option Z) (output : Path) (fs : Fs) (Hends : searches_end fuel) (Hready : scenario_ready)
    (Henc : forall s, exists data, to_allocvec s = Ok data) (Hcalm : calm) (Hout : fs_get fs output <> Some Dir)
    (Hdir : fs_get fs (parent output) = Some Dir) :
  let rng := match seed with Some seed => seed_from_u64 seed | None => from_entropy end in
  exists s data, run_scenario fuel rng = Some (Ok s) /\ scenario_chain rng s /\ to_allocvec s = Ok data /\
    main fuel seed output fs = Some (<[output := File data]> fs, Ok tt).
Proof.
  cbv zeta. unfold main. set (rng := match seed with Some s => seed_from_u64 s | None => from_entropy end).
  pose proof (run_scenario_spec rng) as Hspec. destruct (run_scenario fuel rng) as [[s|[]|]|]; [|done..].
  destruct (Henc s) as (data & Hdata). exists s, data. do 3 (split; [done|]).
  unfold mut_map_err at 1. rewrite (fs_create_calm Hcalm) by done. cbn [map_err]. unfold save_chain. run_mut. cbn [expect_ok].
  rewrite Hdata. cbn [map_err]. pose proof (not_root _ _ Hout) as Hne.
  rewrite (write_all_calm Hcalm _ _ []) by (by rewrite fs_get_insert, decide_True). cbn [app map_err]. by rewrite insert_insert_eq.
Qed.

(** A chain that is written to a file is read back as its encoding is. An encoding that
    fails is a panic before the file is touched. *)
Theorem chain_file_spec (s : Chain) (path : Path) (fs fs' : Fs) (r : res IoError unit) (Hrun : to_file s path fs = (fs', r)) :
  match r with
  | Ok _ => exists data, to_allocvec s = Ok data /\ fs_get fs' path = Some (File data) /\
      (os_fault fs' OpRead path = None -> from_file path fs' = (fs', expect_ok (from_bytes data)))
  | Panic => fs' = fs /\ forall data, to_allocvec s <> Ok data
  | Err _ => exists data, to_allocvec s = Ok data
  end.
Proof.
  unfold to_file in Hrun. revert Hrun. run_mut. destruct (to_allocvec s) as [data|e|] eqn:Hdata; cbn [expect_ok];
    [|by intros [= <- <-]..].
  destruct (fs_create path fs) as [fs1 r1] eqn:Hcreate. apply fs_create_state in Hcreate.
  destruct r1 as [u|e|]; [|by intros [= <- <-]; exists data|done]. destruct Hcreate as [Hp ->]. intros Hwrite.
  apply write_all_state in Hwrite; [|done]. destruct r as [u2|e|]; [|by exists data|done]. subst fs'. exists data. split; [done|].
  assert (Hget : fs_get (<[path := File data]> fs) path = Some (File data)) by (by rewrite fs_get_insert, decide_True).
  split; [done|]. intros Hread. unfold from_file, fs_read, unless_fault. run_mut. by rewrite Hread, Hget.
Qed.
End scenario_lemmas.

(** ** Reference instances and witnesses

    A hash function whose digests are those of identifiers a scenario needs: that of a
    faucet for what ends with zeros, as the storage root it is searched for, and that
    of a regular account otherwise. *)

Import RefInstances RefMachine RefMmrs.
#[local] Existing Instance RefRng.

Definition scenario_digest (xs : list Felt) : Word :=
  let id := if forallb (fun x => bool_decide (x = ZERO)) (drop 8 xs) then ACCOUNT_ID_FUNGIBLE_FAUCET_ON_CHAIN
            else ACCOUNT_ID_REGULAR_ACCOUNT_UPDATABLE_CODE_OFF_CHAIN in
  mkWord (Felt_new id) ZERO ZERO ZERO.

Definition ScenarioCrypto : Crypto := {|
  hash_elements := scenario_digest;
  hash_bytes := hash_bytes (Crypto := RefCrypto);
  digest_bytes := digest_bytes (Crypto := RefCrypto);
  digest_cmp := digest_cmp (Crypto := RefCrypto);
  merge := merge (Crypto := RefCrypto);
  MerkleError := MerkleError (Crypto := RefCrypto);
  Smt := Smt (Crypto := RefCrypto);
  Smt_new := Smt_new (Crypto := RefCrypto);
  Smt_with_entries := Smt_with_entries (Crypto := RefCrypto);
  Smt_get_value := Smt_get_value (Crypto := RefCrypto);
  Smt_insert := Smt_insert (Crypto := RefCrypto);
  Smt_entries := Smt_entries (Crypto := RefCrypto);
  Smt_root := Smt_root (Crypto := RefCrypto);
  SimpleSmt := SimpleSmt (Crypto := RefCrypto);
  SimpleSmt_with_leaves := SimpleSmt_with_leaves (Crypto := RefCrypto);
  SimpleSmt_get := @SimpleSmt_get _ RefCrypto;
  SimpleSmt_insert := @SimpleSmt_insert _ RefCrypto;
  SimpleSmt_leaves := @SimpleSmt_leaves _ RefCrypto;
  SimpleSmt_root := @SimpleSmt_root _ RefCrypto;
  hex_to_bytes := hex_to_bytes (Crypto := RefCrypto)
|}.

Lemma ScenarioSmtLaws : SmtLaws ScenarioCrypto.
Proof. destruct RefSmtLaws. by split. Qed.
Lemma ScenarioSimpleSmtLaws : SimpleSmtLaws ScenarioCrypto.
Proof. destruct RefSimpleSmtLaws. by split. Qed.

Definition ScenarioMerkle : Merkle (C := ScenarioCrypto) := @Build_Merkle _ ScenarioCrypto
  (@NodeIndex _ _ RefMerkle) (@NodeIndex_eq_dec _ _ RefMerkle) (@NodeIndex_new _ _ RefMerkle) (@NodeIndex_value _ _
  RefMerkle) (@NodeIndex_codec _ _ RefMerkle) (@path_verify _ _ RefMerkle) (@path_codec _ _ RefMerkle) (@LeafIndex
  _ _ RefMerkle) (@LeafIndex_new _ _ RefMerkle) (@SimpleSmt_new _ _ RefMerkle) (@SimpleSmt_with_contiguous_leaves _
  _ RefMerkle) (@SimpleSmt_open _ _ RefMerkle) (@SimpleSmt_num_leaves _ _ RefMerkle) (@InnerNodeInfo _ _ RefMerkle)
  (@inner_node _ _ RefMerkle) (@path_inner_nodes _ _ RefMerkle) (@SimpleSmt_inner_nodes _ _ RefMerkle)
  (@Smt_inner_nodes _ _ RefMerkle) (@Smt_leaf_data _ _ RefMerkle) (@PartialMmr _ _ RefMerkle) (@mmr_forest _ _
  RefMerkle) (@mmr_is_tracked _ _ RefMerkle) (@mmr_add _ _ RefMerkle) (@mmr_inner_nodes _ _ RefMerkle) (@MmrPeaks _
  _ RefMerkle) (@mmr_peaks _ _ RefMerkle) (@hash_peaks _ _ RefMerkle) (@peaks_num_leaves _ _ RefMerkle)
  (@flatten_and_pad_peaks _ _ RefMerkle).

Lemma ScenarioMerkleLaws : MerkleLaws ScenarioMerkle.
Proof.
  assert (Hpairs : forall (q : list Word) i n, path_pairs (C := ScenarioCrypto) q i n = path_pairs (C := RefCrypto) q i n).
  { induction q as [|x q IH]; intros i n; [done|]. cbn [path_pairs]. f_equal. apply IH. }
  destruct RefMerkleLaws as [? ? ? ? ? ? Hinner]. split; try done. intros q i n ? ?. rewrite Hpairs. by apply Hinner.
Qed.

Definition ScenarioMmr : FullMmr (MK := ScenarioMerkle) := @Build_FullMmr _ _ ScenarioMerkle
  (@Mmr _ _ _ RefFullMmr) (@MmrError _ _ _ RefFullMmr) (@Mmr_default _ _ _ RefFullMmr) (@Mmr_forest _ _ _ RefFullMmr)
  (@Mmr_add _ _ _ RefFullMmr) (@Mmr_get _ _ _ RefFullMmr) (@Mmr_peaks _ _ _ RefFullMmr) (@Mmr_open _ _ _ RefFullMmr)
  (@from_peaks _ _ _ RefFullMmr) (@mmr_track _ _ _ RefFullMmr).
Lemma ScenarioMmrLaws : FullMmrLaws ScenarioMmr.
Proof. destruct RefFullMmrLaws. by split. Qed.

#[local] Instance RefSeeds : Seeds Z := { seed_from_u64 x := x; from_entropy := 0 }.

Abbreviation ScenarioChain := (MockChain (C := ScenarioCrypto) (MK := ScenarioMerkle) (FM := ScenarioMmr) (R := Z)).

(** The encoding is that of the number of blocks. *)
#[local] Instance RefPostcard : Postcard ScenarioChain := {
  PostcardError := unit;
  to_allocvec s := Ok [Z.of_nat (length (mc_blocks s))];
  from_bytes bs := Err tt
}.

Lemma sample_code source : exists c, str_to_account_code (C := ScenarioCrypto)  source = Ok c.
Proof.
  destruct (build_procedure_tree_ok (C := ScenarioCrypto) (SL := ScenarioSimpleSmtLaws) (E := Empty_set) [mkWord ONE ONE ONE ONE])
    as (tree & Htree & _); [by vm_compute|]. exists (mkAccountCode (C := ScenarioCrypto) lucky_module [mkWord ONE ONE ONE ONE] tree).
  unfold str_to_account_code. cbn [ModuleAst_parse expect_ok mbind res_bind].
  apply (code_new_ok (C := ScenarioCrypto)). split; [reflexivity|]. split; [reflexivity|]. split; [by split|exact Htree].
Qed.

Lemma sample_ready : scenario_ready (C := ScenarioCrypto)  (R := Z).
Proof. split; [intros r; by exists (r + 1000)|]. split; apply sample_code. Qed.

(** Every seed is good when the digest of it is that of an identifier of the requested
    kind. *)
Lemma scenario_seed id t st cr sr bytes :
  (forall seed, compute_digest (C := ScenarioCrypto) seed cr sr = mkWord (Felt_new id) ZERO ZERO ZERO) -> id_accepted id = true ->
  is_ok (validate_seed_digest (C := ScenarioCrypto) (mkWord (Felt_new id) ZERO ZERO ZERO)) = true ->
  account_type (E := Empty_set) (mkAccountId (Felt_new id)) = Ok t ->
  storage_type (E := Empty_set) (mkAccountId (Felt_new id)) = Ok st ->
  get_account_seed_single (C := ScenarioCrypto) t st cr sr 1 bytes <> None.
Proof.
  intros Hhash (_ & Hid & _)%test_id_ok Hv Ht Hst.
  apply (good_search (C := ScenarioCrypto)). intros seed. exists (test_id id).
  split; [|by split]. unfold AccountId_new. rewrite Hhash.
  destruct (validate_seed_digest _) as [x| |]; [|discriminate Hv..]. cbn [mbind res_bind w0].
  exact (try_from_felt_valid (C := ScenarioCrypto) (test_id id) Hid).
Qed.

Lemma empty_root st : storage_new (C := ScenarioCrypto) [] = Ok st -> storage_root (C := ScenarioCrypto) st <> EMPTY_WORD.
Proof.
  assert (Hroot : match storage_new (C := ScenarioCrypto) [] with
    | Ok st => bool_decide (storage_root (C := ScenarioCrypto) st = EMPTY_WORD) | _ => true end = false) by (vm_compute; reflexivity).
  intros Hst. rewrite Hst in Hroot. by apply bool_decide_eq_false in Hroot.
Qed.

Lemma sample_searches : searches_end (C := ScenarioCrypto)  1.
Proof.
  split.
  - intros c bytes _. apply (scenario_seed ACCOUNT_ID_FUNGIBLE_FAUCET_ON_CHAIN); [by intros [? ? ? ?]; destruct (code_root c)|by vm_compute..].
  - intros c st bytes _ Hst%empty_root.
    apply (scenario_seed ACCOUNT_ID_REGULAR_ACCOUNT_UPDATABLE_CODE_OFF_CHAIN); [|by vm_compute..]. intros [s0 s1 s2 s3].
    destruct (code_root c) as [c0 c1 c2 c3], (storage_root st) as [r0 r1 r2 r3]. unfold compute_digest.
    cbn [hash_elements ScenarioCrypto]. unfold scenario_digest. cbn [drop word_elements app].
    destruct (forallb _ _) eqn:Hz; [|done]. exfalso. apply Hst. cbn [forallb] in Hz.
    repeat (apply andb_true_iff in Hz as [?%bool_decide_eq_true Hz]). cbn [w0 w1 w2 w3] in *. by subst.
Qed.

Lemma main_completes_witness : exists fs' s,
  main (C := ScenarioCrypto) (MK := ScenarioMerkle) (FM := ScenarioMmr) (PC := RefPostcard) (OS := CalmOs)
    1 (Some 0) ["scenario.bin"%string] ∅ = Some (fs', Ok tt) /\
  scenario_chain (C := ScenarioCrypto) (MK := ScenarioMerkle) (FM := ScenarioMmr) 0 s.
Proof.
  destruct (main_completes (C := ScenarioCrypto) (SML := ScenarioSmtLaws) (SSL := ScenarioSimpleSmtLaws)
    (MK := ScenarioMerkle) (MKL := ScenarioMerkleLaws) (FM := ScenarioMmr) (FML := ScenarioMmrLaws) (PC := RefPostcard) (OS := CalmOs)
    1 (Some 0) ["scenario.bin"%string] ∅ sample_searches sample_ready) as (s & data & _ & Hchain & _ & Hmain).
  - intros x. by exists [Z.of_nat (length (mc_blocks x))].
  - intros ? ? ?. reflexivity.
  - discriminate.
  - reflexivity.
  - eexists _, s. split; [exact Hmain|exact Hchain].
Defined.

Lemma main_spec_witness : exists fs', main (C := ScenarioCrypto) (MK := ScenarioMerkle) (FM := ScenarioMmr) (PC := RefPostcard) (OS := CalmOs)
    1 (Some 0) ["scenario.bin"%string] ∅ = Some (fs', Ok tt) /\ fs_get fs' ["scenario.bin"%string] = Some (File [2]).
Proof.
  destruct main_completes_witness as (fs' & _ & Hmain & _). exists fs'. split; [exact Hmain|].
  destruct (main_spec (C := ScenarioCrypto) (SML := ScenarioSmtLaws) (SSL := ScenarioSimpleSmtLaws)
    (MK := ScenarioMerkle) (MKL := ScenarioMerkleLaws) (FM := ScenarioMmr) (FML := ScenarioMmrLaws) (PC := RefPostcard) (OS := CalmOs)
    1 (Some 0) ["scenario.bin"%string] ∅ fs' (Ok tt) Hmain) as (_ & s & data & _ & Hchain & Hdata & Hfile).
  destruct Hchain as (_ & _ & _ & _ & (_ & Hlen & _) & _). rewrite Hfile. injection Hdata as <-. by rewrite Hlen.
Defined.

Lemma chain_file_spec_witness : exists s fs', to_file (PC := RefPostcard) (OS := CalmOs) s ["chain"%string] ∅ = (fs', Ok tt) /\
  fs_get fs' ["chain"%string] = Some (File [2]) /\ from_file (PC := RefPostcard) (OS := CalmOs) ["chain"%string] fs' = (fs', Panic).
Proof.
  destruct main_completes_witness as (_ & s & _ & Hs). destruct Hs as (_ & _ & _ & _ & (_ & Hlen & _) & _).
  assert (Hrun : exists fs', to_file (PC := RefPostcard) (OS := CalmOs) s ["chain"%string] ∅ = (fs', Ok tt))
    by (eexists; reflexivity).
  destruct Hrun as (fs' & Hrun). exists s, fs'. split; [exact Hrun|].
  destruct (chain_file_spec (PC := RefPostcard) (OS := CalmOs) s ["chain"%string] ∅ fs' (Ok tt) Hrun)
    as (data & Hdata & Hfile & Hread). injection Hdata as <-. rewrite Hfile, Hlen. split; [done|]. by apply Hread.
Defined.

Lemma output_notes_data_procedure_spec_witness :
  exists text, output_notes_data_procedure (E := Empty_set) (mkOutputNotes (replicate 3 (PublicNote (sample_note []))) EMPTY_WORD) = Ok text.
Proof.
  destruct (output_notes_data_procedure_spec (E := Empty_set) (mkOutputNotes (replicate 3 (PublicNote (sample_note []))) EMPTY_WORD))
    as [[Hok _]|[_ (i & Hi & Hbad)]]; [|exact Hok|].
  - intros n Hn. assert (Heq : n = sample_note []) by (by apply elem_of_replicate in Hn as [[= ->] _]).
    rewrite Heq. apply sample_note_wf. by vm_compute.
  - exfalso. apply (Hbad (sample_note [])). by destruct i as [|[|[|i]]]; [| | |lia].
Defined.

Lemma consumed_note_data_ptr_spec_witness : consumed_note_data_ptr (E := Empty_set) 1 = Ok 1065472.
Proof. apply (consumed_note_data_ptr_spec 1). unfold MAX_INPUT_NOTES_PER_TX. lia. Defined.

#[local] Instance RefAdviceMerge : AdviceMerge := fun a b =>
  mkRefInputs (ri_stack a ++ ri_stack b) (ri_map b ++ ri_map a) (ri_nodes a ++ ri_nodes b).
#[local] Instance RefAdviceMergeLaws : AdviceMergeLaws RefAdviceMerge.
Proof. split; [done|intros a b k; apply ref_lookup_app|intros a b n; cbn; set_solver]. Qed.

(** A run without calls, with one note consumed and an advice entry of the test. *)
Lemma run_tx_spec_witness : exists tx p, run_tx_with_inputs (PR := RefProcessor [] []) tx (mkRefInputs [] [(EMPTY_WORD, [ONE])] []) = Ok p /\
  is_notes (ti_input_notes (pr_inputs tx)) <> [] /\ get_mapped_values (mh_adv_provider (process_host MockHost p)) EMPTY_WORD = Some [ONE].
Proof.
  destruct consumed_inputs as (acc & header & chain & path & ti & Hti & _ & Hshape & _).
  apply transaction_inputs_new_ok in Hti as [-> _].
  set (tx := mkPrepared sample_program (mkTransactionInputs acc None header chain
    (mkInputNotes [input_of path] (build_input_notes_commitment [input_of path]))) tx_args_default).
  destruct (run_tx_spec (PR := RefProcessor [] []) (PRL := RefProcessorLaws [] []) tx (mkRefInputs [] [(EMPTY_WORD, [ONE])] []))
    as (si & adv & h & _ & _ & Hrun & Hget & _); [exact (consumed_ready path Hshape)|].
  exists tx. eexists. split; [rewrite Hrun; reflexivity|]. split; [discriminate|].
  etrans; [exact (Hget EMPTY_WORD)|]. reflexivity.
Defined.
